(* ===== verification/_CoqProject ===== *)
-Q . S2P
Prelude.v
PyStr.v
PyDict.v
PyObject.v
PyCall.v
Estimator.v
Callback.v
Generator.v
Calls.v
Header.v
Nested.v
Releases.v
Invariance.v
Reflect.v
Accessors.v
Footprint.v
Hooks.v
Trainer.v
Restart.v
Session.v
Inherit.v
