(* ===== verification/Prelude.v ===== *)
(** * Verification of skorch's callback base class

    ** The program

    [src/skorch/callbacks/base.py] defines one class, [Callback], the
    extension point of skorch's training loop.  It has three groups of
    methods:

    - [initialize], which (re)sets the callback and returns the instance;
    - seven notification hooks ([on_train_begin], [on_train_end],
      [on_epoch_begin], [on_epoch_end], [on_batch_begin], [on_batch_end],
      [on_grad_computed]) whose default bodies do nothing;
    - parameter reflection: [_get_param_names] enumerates the keys of the
      instance dictionary [self.__dict__] that do not end in an underscore,
      and [get_params] / [set_params] delegate to scikit-learn's
      [BaseEstimator], which calls back [self._get_param_names()] and, for
      nested objects, their own [get_params] / [set_params].

    The class is small, but its behaviour rests on Python's object model
    and calling convention: attribute dictionaries keep insertion order,
    objects are shared by reference, an exception leaves earlier
    assignments in place, method calls on nested objects are dispatched
    dynamically, and the arguments of a call are bound to the parameters of
    the [def] before the body runs.  The development models exactly these
    ingredients and nothing more.

    ** The files, in dependency order

    - [Prelude] (this file): Python exceptions ([exn]), outcomes of a call
      ([outcome]), the state-and-exception monad [M] in which every method is
      written (the state survives an exception, as the heap does in Python),
      pointwise equality of computations with its [Proper] instances, the
      frame predicate [preserves], the predicate [respects] of the
      computations that do not tell related states apart, the relation
      [deeper] between a computation and the same computation with more
      call depth, the tactics ([solve_preserves], [solve_respects],
      [by_compute]), the hint database [py] and the list lemmas the
      components share.
    - [PyStr]: the two [str] methods the program uses, [endswith] (line 63 of
      base.py) and [partition] (used by [BaseEstimator.set_params]).
    - [PyDict]: Python's insertion-ordered [dict] as an association list with
      in-place assignment, its key-uniqueness invariant [dict_wf], its
      abstraction [to_gmap] to a finite map, and dictionary equality ([==],
      which ignores order) as an [Equiv] with [Proper] instances.
    - [PyObject]: values and their truth value, objects (a class descriptor
      and a [__dict__]), the heap of objects addressed by reference,
      [getattr_default], [setattr], [has_callback_method], method lookup
      [resolve], and the relations between heaps: [heap_frame P] (same
      objects, same classes, same attribute names in the same order, same
      values for the names in [P]) and [only_changes l] (every object but
      the one at [l] is as it was).
    - [PyCall]: the calling convention: the parameter list of a [def]
      ([signature]), the binding [bind_args] of positional and keyword
      arguments in the order of the interpreter, with its [TypeError]s, the
      frame the body sees, the reference [accepts] / [frame_of] /
      [bind_error] that says when a call fits, what the body then sees and
      which error is raised otherwise, and the relation [extends] between
      the [def] of an overriding method and the one it overrides.
    - [Estimator]: [BaseEstimator.get_params] and [BaseEstimator.set_params]
      of scikit-learn, modelled from the specification (that code is not part
      of the repository), parameterised by the record [methods] of the
      dynamically dispatched calls they make, with the contract [MethodsOk]
      that such a record must satisfy; the lemmas of the file are proved
      against the contract, and the accessors respect the equivalence of
      tables that make the same calls ([Proper] instances).
    - [Callback]: the class of base.py: the [def] line and the body of each
      method, the method table [callback_methods] that ties the dynamic
      dispatch by call depth and binds the arguments of the dispatched
      calls, the instance [callback_methods_ok] that discharges
      [MethodsOk], the theorems about one callback and the scenario of the
      specification ([scenario], [shared_scenario]) on which they are
      instantiated.
    - [Generator]: line 63 of base.py as Python runs it: the generator that
      [_get_param_names] returns ([param_names_gen], [gen_next]) over the
      iterator of the instance dictionary ([dictiter], [dictiter_next],
      which raises [RuntimeError] when the dictionary changed size), the
      [for] statement over it ([for_in]), [BaseEstimator.get_params] with
      its loop over the generator and the method table [lazy_methods] in
      which it runs.
    - [Calls]: the call of a method of the class with positional and keyword
      arguments ([invoke]), for the eleven methods ([method], [def_of],
      [body_of]), and the way the trainer calls a lifecycle method
      ([method_of], [lifecycle_args], [context_fits]).
    - [Header]: lines 1 to 9 of base.py: the statements of the module as
      bindings of its namespace ([base_py], [module_namespace]), the class
      body as a namespace of [def]s, and [from module import *]
      ([star_import]).
    - [Nested]: parameters of nested callbacks: the reference definition
      [deep_params] of [get_params(deep=True)], the specification
      [param_path] of the reported parameters as paths through the object
      graph, and the theorems that relate the methods to them.
    - [Releases]: line 69 on the later releases of scikit-learn, whose
      [set_params] records each assigned value among the valid parameters
      ([set_params_recording]), and the keyword arguments on which the
      releases cannot differ ([unambiguous]).
    - [Invariance]: [set_params] with the values the parameters have:
      the predicate [current] on the keyword arguments, and the theorems
      that such a call, and so the call with what [get_params] returned,
      changes nothing.
    - [Reflect]: subclasses that override [_get_param_names] (lines 17-18
      and 62-63 of base.py): the [names_table] of the overriding bodies,
      the method table [class_methods] of their instances, the contract
      [NamesOk] (the body only reads the heap, yields public attributes
      of the instance, and depends on the instance alone) under which it
      satisfies [MethodsOk], and the override [without] that excludes
      names.
    - [Accessors]: subclasses that override [get_params] or [set_params]:
      the [accessor_table], the dispatch [accessor_methods] of the three
      reflection methods on the class of the receiver, the contract
      [AccessorsOk], and the overrides [hiding] and [validating].
    - [Footprint]: how far [set_params] reaches: sets of addresses closed
      under public attributes ([closed], [confined]), the addresses
      reachable from a callback and from the references given to it
      ([reach], [footprint]).
    - [Hooks]: subclasses (lines 12-15 of base.py): the [class_table] of the
      lifecycle methods each class overrides, each an [override] with a
      [def] and a body of its own, the lookup [find_method], the call
      [call_method] that binds the arguments to the parameters of the
      method found and runs its body, and the contracts on overriding
      methods: [HooksOk] on what a body may do to the heap, with the
      disciplines [owned] and [runtime_only], [HooksReturn], and
      [HooksExtend] on the [def]s.
    - [Trainer]: the caller of the hooks, modelled from the specification:
      [notify] and [initialize_callbacks] over the ordered sequence of
      callbacks, the actions [fit_actions] of a run and their execution
      [fit], the protocol of a run as the step relation [step] with its
      decision function [follow], and the rest of a run [finish].
    - [Restart]: (re)initialisation (the docstring of [initialize], lines
      22-28 of base.py): the contract [HooksReset] on the subclasses (an
      overriding [initialize] returns the instance and leaves the callback
      as if the other methods had not run), the heaps [touched] that
      method calls on the callbacks lead to, and the heap [reset_heap]
      that the (re)initialisation of the callbacks leaves.
    - [Session]: the two sides composed: a [command] is a call of
      [set_params] or [get_params] on a callback, a (re)initialisation or
      a run; [session] runs commands in program order and gives the
      transcript of their outcomes.
    - [Inherit]: classes between a subclass and [Callback]: [has_method]
      is the lookup along a method resolution order as a relation,
      [find_definition] computes it and [resolve_chain] is the method
      found; a [hierarchy] gives each class its resolution order and the
      lifecycle methods its body defines, each a [method_def] on what
      [super()] calls, and [flatten] is the [class_table] of [Hooks] that
      it amounts to; [cooperative] is the definition that calls
      [super()] with the arguments of its own call and then runs
      statements of its own; a [reflection] gives the reflection methods
      the classes define and [inherit_accessors] the [accessor_table] it
      amounts to.

    ** What is translated from the source, and what is not

    base.py is 69 lines, and most of what it does is done by code it
    calls.  Translated from the source are the class statement, the
    [def] line and the body of each of the eleven methods ([Callback],
    [Calls]), the generator of line 63 ([Generator]) and the statements
    of the module ([Header]).  Everything else is a model of code that is
    not in the repository's sources, and is marked so in the manifest:
    - the language: dictionaries, objects, the heap and the calling
      convention ([PyStr], [PyDict], [PyObject], [PyCall]), from the
      language definition;
    - [BaseEstimator.get_params] and [BaseEstimator.set_params]
      ([Estimator], [Releases]), from the specification's description of
      scikit-learn's convention: every theorem on [get_params] and
      [set_params] rests on this model, since lines 66 and 69 only
      delegate to it;
    - subclasses ([Hooks], [Reflect], [Accessors], [Inherit], [Restart]):
      base.py defines none; these files are contracts on the overriding
      methods that the docstrings of the class allow, and theorems that
      hold of every subclass that keeps them;
    - the trainer and the framework around it ([Trainer], [Session]),
      from the specification and the docstrings of the hooks.

    ** Correspondence with the code

    Every method [m(self, ...)] has two definitions in [Callback]: its
    [def] line [def_m : signature] and its body [m self ... : M heap
    value], which takes the reference of the instance and the arguments
    once they are bound, may read and update the heap, and either returns a
    value ([Ret]) or raises ([Raise]).  A method that returns nothing
    returns [VNone].  The call [obj.m(args, keywords)] is [Calls.invoke]:
    it looks up the object, checks that its class derives from [Callback]
    ([resolve]), binds the receiver and the arguments to the parameters of
    [def_m] ([PyCall.call]) and runs the body on the frame.  Keyword
    arguments are a [dict value] in keyword order.  [self.__dict__] is the
    field [obj_dict] of the object at [self].  [_get_param_names] returns
    a generator; [Generator] models it step by step and proves that the
    accessors, which consume it at once without assigning to the instance,
    behave as on the list of what it yields
    ([generator_consumed_at_once]), so the other files read
    [Callback._get_param_names] as that list.  The calls that
    [BaseEstimator] makes on an
    object whose class it does not know are the fields of
    [callback_methods n].

    ** Call depth

    [get_params(deep=True)] and [set_params] with nested keys call the same
    methods on nested objects, so they recurse along the object graph; on a
    cyclic graph CPython raises [RecursionError] when the interpreter's
    recursion limit is reached.  [callback_methods n] is the method table that
    allows [n] further nested method calls and raises [RecursionError] beyond;
    [n] plays the role of the recursion limit (1000 by default in CPython).
    No theorem assumes a particular limit: frame and invariant properties
    hold at every depth, results are stated for every depth above the one
    that suffices (two calls for a shallow [get_params], the nesting depth
    [nested_within] of the object graph plus one for a deep one), and
    [callback_methods_deeper] shows that more depth never changes an
    outcome other than [RecursionError].

    ** What the theorems show

    - the hooks are no-ops and [initialize] is the identity on the instance
      ([lifecycle_methods_do_nothing]); called as the trainer calls them,
      with the trainer by position and a context by keyword, they do
      nothing exactly when the context names no parameter of the hook, and
      raise [TypeError] otherwise ([lifecycle_call]); called with any
      arguments, they do nothing exactly when each parameter after
      [self] is given once, by position or under its name, and no keyword
      is [self] ([lifecycle_call_arguments] with [arguments_fit]);
    - the binding of the arguments of a call computes the reference
      ([bind_args_spec]); a call
      that does not fit raises [TypeError] and leaves the heap as it is
      ([ill_fitting_call_raises]); an argument may be given by position or
      by keyword ([keyword_or_positional_call]); a function with
      [**kwargs] takes further keywords without any change to its
      parameters ([kwargs_absorb_context]); [get_params] sees [deep] by
      position, by keyword or by default, by its truth value
      ([get_params_call]); [set_params] sees its keywords as the dictionary
      of parameters unless one of them is [self] ([set_params_call]); the
      entries of [callback_methods] are these calls ([dispatch_is_invoke]);
    - [_get_param_names] yields exactly the attribute names without a
      trailing underscore, in insertion order and without repetition
      ([param_names_spec], [reserved_iff]);
    - the generator that [_get_param_names] returns yields, at each [next],
      the first key that its iterator has not passed and that does not end
      with an underscore ([gen_next_enough_fuel]); a loop over it whose
      body keeps the attribute names of the instance is the loop over the
      list of names, and uses the generator up ([loop_over_generator]); a
      body that adds an attribute makes the next step raise
      [RuntimeError] ([grown_dictionary_raises]); the table of the
      accessors over the generator makes the calls of [callback_methods]
      ([lazy_methods_equiv], [generator_consumed_at_once]) and satisfies
      their contract ([lazy_methods_ok]);
    - [get_params] never changes the heap ([get_params_read_only]); without
      [deep], or when no public attribute holds a callback, it returns
      exactly the public attributes with their current values
      ([get_params_public]); with [deep] it returns the reference
      definition ([get_params_deep_refines]), whose entries are exactly the
      paths of public attributes through nested callbacks
      ([get_params_deep_sound], [get_params_deep_complete]), with the value
      at the end of the path when no public name holds the separator
      ([get_params_deep_value]); it returns
      exactly when the nesting is within the call depth
      ([get_params_terminates], [get_params_deep_returns_iff]) and raises
      [RecursionError] on a callback that holds itself
      ([cyclic_callback_overflows]);
    - [set_params] assigns the given public attributes and nothing else and
      returns [None] ([set_params_assigns],
      [set_params_plain_only_changes_self]), is read back by [get_params]
      ([set_params_get_params], and [set_params_nested_get_params] through
      a nested callback), changes nothing when the given values are the
      values the parameters have, nested ones included, and so when it is
      given what [get_params] returned ([set_params_current],
      [get_params_set_params]), rejects an unknown or reserved name with
      [ValueError] and keeps the assignments made before the rejected name
      ([set_params_rejects]), forwards nested names to the nested callback
      ([set_params_forwards]), in general assigns the plain names first and
      forwards the nested ones afterwards ([set_params_two_phases]), and on
      every outcome leaves the set of
      attribute names, every attribute with a trailing underscore and every
      other object's dictionary shape unchanged ([set_params_frame]);
    - [set_params] changes no object that is reachable, through public
      attributes, neither from the callback nor from a reference among
      the values given, for [Callback] and for the subclasses of
      [Reflect] ([set_params_footprint], with [reach] the least
      closed set by [reach_least_closed], which decides the relation
      [reaches] by [reach_spec]); what [get_params] returns depends on
      the classes and the public attributes of the objects it reaches
      only ([class_get_params_similar]), so [set_params] does not change
      what [get_params] returns on a callback that shares no object with
      this footprint, for [Callback] and for the subclasses
      ([independent_callbacks]);
    - behaviours the specification does not describe: an attribute whose
      name holds the separator is reported but cannot be set
      ([set_params_rejects_separator_name]), and neither can an attribute
      named [self] ([set_params_rejects_self]); two callbacks that hold the
      same nested callback share its parameters
      ([shared_nested_callback_is_shared]); a call that replaces a nested
      callback and sets one of its parameters sets it on the replaced one
      ([set_params_nested_uses_snapshot]), or on the new one when the
      installed release of the delegate records assigned values
      ([recording_forwards_to_new]); on every call that does not both
      assign a name and set a nested parameter under it the releases agree
      ([recording_agrees]);
    - what [get_params] returns has no key twice, and [set_params] keeps
      the instance dictionaries so ([BaseEstimator_get_params_wf],
      [heap_frame_wf]);
    - the instance dictionary implements the finite map it denotes and keeps
      insertion order ([dict_refines_gmap], [dict_insert_keeps_order]);
    - the module exports [Callback] and nothing else ([star_import_all],
      [base_py_exports]), and the class body defines each of the eleven
      methods once ([class_defines_methods]);
    - subclasses that override [_get_param_names]: a program without
      such overrides has the table of [Callback]
      ([inherited_names_are_callback_methods]); within the contract
      [NamesOk] the frame of the reflection holds for every subclass
      ([subclass_reflection_frame]); an attribute that a subclass
      excludes is neither reported nor accepted
      ([excluded_not_a_parameter]);
    - a lifecycle method that a subclass does not override is the one of
      [Callback] ([call_method_inherited], [inherited_call_is_invoke]); a
      call that fits a [def] fits every [def] that extends it
      ([extends_accepts]), so an override whose [def] extends the one of
      [Callback] is called wherever the method of [Callback] is, and sees
      the context values it names as parameters, or their defaults
      ([override_sees_context],
      [recorder_records]); overrides that keep to attributes with a
      trailing underscore never change what [get_params] returns
      ([hooks_keep_params], [early_stop_counts]);
    - the trainer notifies the callbacks in sequence order and an exception
      ends the notification ([notify_inherited_does_nothing],
      [notify_stops_at_first_exception]); a whole run changes the trainer's
      callbacks only and none of their parameters
      ([fit_changes_callbacks_only], [fit_keeps_params], [early_stop_fit]);
      (re)initialization returns the instances
      ([initialize_callbacks_returns_instances]); a run returns when the
      overriding methods do, and can be finished from every point it has
      come to ([fit_returns], [run_can_finish]);
    - under the contract [HooksReset], the (re)initialisation after any
      run, complete or ended by an exception, returns the instances and
      leaves the heap it would have left without the run
      ([restart_resets], [early_stop_restart]); a callback that tracks
      state without overriding [initialize] keeps it
      ([recorder_keeps_state]): the method of [Callback] resets nothing;
    - [set_params] and [get_params] do not tell apart heaps whose objects
      have the same classes and public attributes
      ([class_set_params_respects], [class_get_params_respects], stated
      with [respects] of this file), so the configuration side of a
      session cannot observe the training side: its calls return or raise
      what they do when the runs and (re)initialisations are left out
      ([configuration_ignores_training]), and the same from heaps that
      differ in runtime state ([runtime_state_is_hidden]); a hook that
      calls [set_params] on its own callback keeps to that callback but
      shows on the configuration side ([decay_classes_owned],
      [decay_session]);
    - a call on an instance of a class that derives from other custom
      callbacks runs the definition of the first class of its resolution
      order that has one, with [super()] bound to the method found behind
      it ([find_definition_has_method], [has_method_fun],
      [has_method_first], [resolve_chain_found]); when the classes of the
      order define a hook as [super().m(net, **kwargs)] followed by
      statements of their own, the call runs these statements from the
      last class of the order to the first, each once, and returns what
      the method of [Callback] returns, which takes the arguments passed
      on and does nothing ([cooperative_chain]); the contracts on the
      bodies carry over to the flat table, so that the theorems on the
      trainer hold of hierarchies ([resolve_chain_ind], [flatten_ok],
      [flatten_extend], [verbose_calls_super]), and those on the
      reflection of inherited reflection methods
      ([inherit_accessors_ok], [inherited_reflection_frame],
      [quieter_inherits_reflection]);
    - the accessors that a class inherits from [Callback] see the
      accessors it overrides: the dispatch satisfies the contract of the
      accessors ([accessor_methods_ok]), the inherited [set_params]
      rejects a name that an overriding [get_params] hides
      ([hidden_not_settable]), a validating [set_params] raises before
      anything is assigned or is the inherited call
      ([validated_set_params]); a nested name on an attribute that holds
      no callback raises [AttributeError], not the invalid-parameter
      error ([set_params_nested_on_value]);
    - the actions of the epochs of a run keep to the protocol
      ([follow_epochs], [follow_decides_protocol]), in which
      [on_grad_computed] comes between
      the computation of the gradients and the update of the parameters,
      once per batch ([grad_computed_between_gradients_and_update],
      [grad_computed_once_per_batch]).

    The theorems with hypotheses are instantiated on the scenario of the
    specification: the early-stopping callback with [patience = 5] and
    [counter_ = 0] ([scenario]), two checkpoint callbacks that hold it
    ([shared_scenario]), a callback that holds itself ([cyclic]), a
    recorder that names the loss as a parameter of [on_batch_end]
    ([recorded_scenario]), a logging callback that keeps its attribute
    [sink] out of its parameters ([quiet_scenario]), and on a hook with
    named context ([def_example]).

    ** Bounds and fuel

    The call depth of [callback_methods] is discussed above.  The frame
    of the generator takes keys until one is a parameter name: [gen_next]
    gives it one step more than its iterator has entries left
    ([di_left]), and the loop [for_in] one iteration more than the
    generator can yield; both bounds decrease with the position of the
    iterator, which moves at every step while the size check keeps the
    dictionary at the size it had, so the fuel never runs out
    ([gen_resume_run], [for_in_loop_run]).
    [bind_args], the loops of [BaseEstimator], [notify] and [run] recurse on
    the list they traverse; [follow] on the trace.  [reach] iterates one
    step along the public attributes once more than the heap has objects:
    a step that reaches no further object of the heap reaches a closed set
    ([grow_stable]), so that many steps suffice ([iter_grow_closed]).  The
    witnesses run at call depths 0 to 4, and [cyclic_callback_overflows]
    at depth 1000.

    ** Not modelled

    The trainer's own work (gradients, optimizer, data, history): in
    [Trainer] it is two actions that leave the callbacks alone, and one
    context is passed to every hook of a run; the parameter tree of the
    trainer itself: the commands of [Session] address the callbacks
    directly.  The linearisation of multiple base classes: a [hierarchy]
    takes the method resolution order of each class as given, as the
    interpreter stores it in [__mro__].  Overriding accessors whose [def]
    differs from the one of [Callback]; overrides of [_get_param_names]
    that call [get_params].  Estimators other than callbacks as nested
    parameters
    (their [get_params] inspects constructor signatures).  Lists, tuples,
    dictionaries and other objects as values are references to objects of
    classes that do not derive from [Callback]: no method of base.py looks
    into them, so their contents are not modelled, and neither are classes
    that define [__bool__] or [__len__] (only the truth value of [deep]
    would depend on them).  Instance attributes that shadow a method name;
    class attributes other than the methods; deletion of attributes (an
    instance dictionary changes size only by growing, so the iterator's
    second check, for keys that changed at constant size, never fires);
    generators that are closed or resumed after they raised; parameters of
    the kinds base.py does not declare ([*args], keyword-only,
    positional-only); calls through the class ([Callback.get_params(obj)])
    with a receiver that is no instance; loading [sklearn] at the import
    statement; warnings filtering inside [BaseEstimator.get_params].
    Hooks that call [set_params] with nested names during a run change
    objects other than their callback and are outside the contracts of
    [Hooks]; [Footprint] gives the frame of such a call, and a hook that
    sets a plain parameter of its own callback is in [Session]. *)

From stdpp Require Import base tactics option list strings.

(** ** Exceptions and outcomes *)

(** Why a call does not fit the signature of the function, as the message
    of the [TypeError] tells: a parameter given by position and again by
    keyword, a keyword that names no parameter of a function without
    [**kwargs], more positional arguments than parameters, parameters
    without default left unbound; or an object that is iterated and is no
    sequence. *)
Inductive type_error : Type :=
| MultipleValues (func param : string)
| UnexpectedKeyword (func key : string)
| TooManyPositional (func : string) (takes given : nat)
| MissingArguments (func : string) (params : list string)
| NotIterable (what : string).

#[export] Instance type_error_eq_dec : EqDecision type_error.
Proof. solve_decision. Defined.

(** The Python exceptions the modelled code can raise.  [ValueError] carries
    the rejected parameter name, [AttributeError] the missing attribute,
    [TypeError] the reason a call does not fit a signature, [RuntimeError]
    is the one of an iterator whose dictionary changed size.
    [DanglingReference] is not a Python exception: it marks a reference to an
    address the heap does not hold, which a Python program cannot build. *)
Inductive exn : Type :=
| ValueError (param : string)
| AttributeError (attr : string)
| KeyError (key : string)
| TypeError (why : type_error)
| RecursionError
| RuntimeError
| DanglingReference.

#[export] Instance exn_eq_dec : EqDecision exn.
Proof. solve_decision. Defined.

(** The result of a call: a returned value or a raised exception. *)
Inductive outcome (A : Type) : Type :=
| Ret (a : A)
| Raise (e : exn).
Arguments Ret {A} a.
Arguments Raise {A} e.

#[export] Instance outcome_eq_dec `{EqDecision A} : EqDecision (outcome A).
Proof. solve_decision. Defined.

Definition is_ret {A} (o : outcome A) : bool :=
  match o with Ret _ => true | Raise _ => false end.

Definition outcome_map {A B} (f : A -> B) (o : outcome A) : outcome B :=
  match o with Ret a => Ret (f a) | Raise e => Raise e end.

(** ** The monad of method bodies *)

Declare Scope py_scope.
Delimit Scope py_scope with py.

Section Monad.
Context {S : Type}.

(** A computation takes the state and gives an outcome and the state it
    leaves.  The state is kept when an exception is raised: what a method
    assigned before it failed stays assigned. *)
Definition M (A : Type) : Type := S -> outcome A * S.

Definition ret {A} (a : A) : M A := fun s => (Ret a, s).

Definition raise {A} (e : exn) : M A := fun s => (Raise e, s).

Definition bind {A B} (m : M A) (f : A -> M B) : M B :=
  fun s => match m s with
           | (Ret a, s') => f a s'
           | (Raise e, s') => (Raise e, s')
           end.

Definition get_state : M S := fun s => (Ret s, s).

Definition put_state (s : S) : M unit := fun _ => (Ret tt, s).

(** [reads f] returns a function of the state without changing it. *)
Definition reads {A} (f : S -> A) : M A := fun s => (Ret (f s), s).

(** [lift_option o e] returns the content of [o] or raises [e]. *)
Definition lift_option {A} (o : option A) (e : exn) : M A :=
  match o with Some a => ret a | None => raise e end.

(** [lift_outcome o] ends as [o] without looking at the state. *)
Definition lift_outcome {A} (o : outcome A) : M A := fun s => (o, s).

(** Pointwise equality of computations. *)
Definition meq {A} (m1 m2 : M A) : Prop := forall s, m1 s = m2 s.

(** [preserves R m]: whatever its outcome, [m] leaves a state related by [R]
    to the one it started in. *)
Definition preserves {A} (R : relation S) (m : M A) : Prop :=
  forall s, R s (m s).2.

(** [read_only m]: [m] never changes the state. *)
Definition read_only {A} (m : M A) : Prop := preserves eq m.

(** [respects R m]: run from two states related by [R], [m] has the same
    outcome and leaves states related by [R].  What [m] does depends on the
    state only up to [R]. *)
Definition respects {A} (R : relation S) (m : M A) : Prop :=
  Proper (R ==> prod_relation (=) R) m.

(** [deeper m m']: wherever [m] does not raise [RecursionError], [m'] does
    what [m] does.  It relates a computation to the same computation run
    with more call depth. *)
Definition deeper {A} (m m' : M A) : Prop :=
  forall s, (m s).1 <> Raise RecursionError -> m' s = m s.

End Monad.

Arguments M S A : clear implicits.

Notation "'let!' x ':=' c1 'in' c2" := (bind c1 (fun x => c2))
  (at level 10, x name, c1 at level 100, c2 at level 200) : py_scope.
Notation "'let!' ' p ':=' c1 'in' c2" := (bind c1 (fun p => c2))
  (at level 10, p pattern, c1 at level 100, c2 at level 200, only parsing)
  : py_scope.
Infix "=m=" := meq (at level 70, no associativity) : py_scope.
#[global] Open Scope py_scope.

(** ** Tactics *)

(** [unfold_m] exposes the monad operations as functions on the state. *)
Ltac unfold_m :=
  unfold bind, ret, raise, reads, lift_option, lift_outcome, get_state,
    put_state in *.

(** [case_run m s] names the outcome and the final state of running [m]. *)
Ltac case_run m s :=
  let o := fresh "o" in
  let s' := fresh "s" in
  let E := fresh "E" in
  destruct (m s) as [o s'] eqn:E; try destruct o.

(** [by_compute] proves a decidable proposition by evaluating its decision
    procedure. *)
Ltac by_compute := apply (bool_decide_unpack _); vm_compute; exact I.

Create HintDb py discriminated.
Create Rewrite HintDb pyrw.

(** ** Laws of the monad *)

Section MonadLemmas.
Context {S : Type}.
Implicit Types s : S.

#[export] Instance meq_equivalence {A} : Equivalence (@meq S A).
Proof.
  split.
  - intros m s. reflexivity.
  - intros m1 m2 H s. symmetry. apply H.
  - intros m1 m2 m3 H12 H23 s. rewrite H12. apply H23.
Qed.

#[export] Instance bind_proper {A B} :
  Proper (meq ==> pointwise_relation A meq ==> meq) (@bind S A B).
Proof.
  intros m1 m2 Hm f1 f2 Hf s. unfold bind. rewrite Hm.
  destruct (m2 s) as [[a|e] s']; [apply Hf | reflexivity].
Qed.

Lemma bind_ret_l {A B} (a : A) (f : A -> M S B) : bind (ret a) f =m= f a.
Proof. intros s. reflexivity. Qed.

Lemma bind_ret_r {A} (m : M S A) : bind m ret =m= m.
Proof. intros s. unfold bind. destruct (m s) as [[a|e] s']; reflexivity. Qed.

Lemma bind_assoc {A B C} (m : M S A) (f : A -> M S B) (g : B -> M S C) :
  bind (bind m f) g =m= bind m (fun a => bind (f a) g).
Proof. intros s. unfold bind. destruct (m s) as [[a|e] s']; reflexivity. Qed.

Lemma bind_raise_l {A B} (e : exn) (f : A -> M S B) :
  bind (raise e) f =m= raise e.
Proof. intros s. reflexivity. Qed.

(** Running a bind whose first computation returns. *)
Lemma bind_run_ret {A B} (m : M S A) (f : A -> M S B) s a s' :
  m s = (Ret a, s') -> bind m f s = f a s'.
Proof. intros H. unfold bind. rewrite H. reflexivity. Qed.

(** Running a bind whose first computation raises. *)
Lemma bind_run_raise {A B} (m : M S A) (f : A -> M S B) s e s' :
  m s = (Raise e, s') -> bind m f s = (Raise e, s').
Proof. intros H. unfold bind. rewrite H. reflexivity. Qed.

(** A bind returns exactly when both of its parts do. *)
(** Two binds of one computation run alike when their continuations do
    on what it returns. *)
Lemma bind_run_ext {A B} (m : M S A) (f g : A -> M S B) s :
  (forall a s', m s = (Ret a, s') -> f a s' = g a s') ->
  bind m f s = bind m g s.
Proof. intros H. unfold bind. destruct (m s) as [[a|e] s']; auto. Qed.

Lemma bind_run_eq {A B} (m m' : M S A) (f : A -> M S B) s :
  m s = m' s -> bind m f s = bind m' f s.
Proof. intros H. unfold bind. by rewrite H. Qed.

Lemma bind_ret_inv {A B} (m : M S A) (f : A -> M S B) s b s2 :
  bind m f s = (Ret b, s2) ->
  exists a s1, m s = (Ret a, s1) /\ f a s1 = (Ret b, s2).
Proof.
  unfold bind. destruct (m s) as [[a|e] s1]; [eauto | discriminate].
Qed.

(** ** Frame rules *)

Section Preserves.
Context (R : relation S) `{!PreOrder R}.

Lemma preserves_ret {A} (a : A) : preserves R (ret a).
Proof. intros s. reflexivity. Qed.

Lemma preserves_raise {A} (e : exn) : preserves R (@raise S A e).
Proof. intros s. reflexivity. Qed.

Lemma preserves_reads {A} (f : S -> A) : preserves R (reads f).
Proof. intros s. reflexivity. Qed.

Lemma preserves_lift_option {A} (o : option A) e :
  preserves R (@lift_option S A o e).
Proof. destruct o; [apply preserves_ret | apply preserves_raise]. Qed.

Lemma preserves_lift_outcome {A} (o : outcome A) :
  preserves R (@lift_outcome S A o).
Proof. intros s. reflexivity. Qed.

Lemma preserves_bind {A B} (m : M S A) (f : A -> M S B) :
  preserves R m -> (forall a, preserves R (f a)) -> preserves R (bind m f).
Proof.
  intros Hm Hf s. unfold bind. specialize (Hm s).
  destruct (m s) as [[a|e] s']; simpl in *; [| done].
  etrans; [exact Hm | apply Hf].
Qed.

Lemma preserves_meq {A} (m1 m2 : M S A) :
  m1 =m= m2 -> preserves R m1 -> preserves R m2.
Proof. intros Heq H s. rewrite <- Heq. apply H. Qed.

End Preserves.

Lemma preserves_weaken {A} (R1 R2 : relation S) (m : M S A) :
  (forall s s', R1 s s' -> R2 s s') -> preserves R1 m -> preserves R2 m.
Proof. intros Hsub H s. apply Hsub, H. Qed.

Lemma read_only_run {A} (m : M S A) s :
  read_only m -> m s = ((m s).1, s).
Proof. intros H. specialize (H s). destruct (m s); simpl in *; congruence. Qed.

(** A read-only computation in front of a bind leaves the state to the
    continuation as it found it. *)
Lemma bind_read_only_run {A B} (m : M S A) (f : A -> M S B) s :
  read_only m ->
  bind m f s = match (m s).1 with
               | Ret a => f a s
               | Raise e => (Raise e, s)
               end.
Proof.
  intros H. unfold bind. rewrite (read_only_run m s H). simpl.
  destruct (m s).1; reflexivity.
Qed.

(** Two runs of a bind whose first computation only reads have the same
    outcome when the first computation has, and the continuation has for
    what it returned. *)
Lemma bind_fst_eq {A B} (m : M S A) (f : A -> M S B) s s' :
  read_only m -> (m s).1 = (m s').1 ->
  (forall a, (m s').1 = Ret a -> (f a s).1 = (f a s').1) ->
  (bind m f s).1 = (bind m f s').1.
Proof.
  intros Hro Hm Hf. rewrite !bind_read_only_run by done. rewrite Hm.
  destruct (m s').1 as [a|e] eqn:Ha; [by apply Hf | done].
Qed.

(** ** Computations that respect a relation *)

Section Respects.
Context (R : relation S).

Lemma respects_ret {A} (a : A) : respects R (ret a).
Proof. by intros s s' Hs. Qed.

Lemma respects_raise {A} (e : exn) : respects R (@raise S A e).
Proof. by intros s s' Hs. Qed.

Lemma respects_lift_option {A} (o : option A) e :
  respects R (@lift_option S A o e).
Proof. destruct o; [apply respects_ret | apply respects_raise]. Qed.

Lemma respects_lift_outcome {A} (o : outcome A) :
  respects R (@lift_outcome S A o).
Proof. by intros s s' Hs. Qed.

Lemma respects_bind {A B} (m : M S A) (f : A -> M S B) :
  respects R m -> (forall a, respects R (f a)) -> respects R (bind m f).
Proof.
  intros Hm Hf s s' Hs. unfold bind. destruct (Hm s s' Hs) as [Ho Hr].
  destruct (m s) as [[a|e] s1], (m s') as [[a'|e'] s1'];
    simplify_eq/=; [by apply Hf | done].
Qed.

(** A computation that only reads respects [R] when its outcome does. *)
Lemma respects_read_only {A} (m : M S A) :
  read_only m -> (forall s s', R s s' -> (m s).1 = (m s').1) ->
  respects R m.
Proof.
  intros Hro Hm s s' Hs. split; [by apply Hm |].
  by rewrite <- (Hro s), <- (Hro s').
Qed.

(** The outcome and the state of two runs from related states. *)
Lemma respects_run {A} (m : M S A) s s' :
  respects R m -> R s s' -> (m s).1 = (m s').1 /\ R (m s).2 (m s').2.
Proof. intros Hm Hs. apply (Hm s s' Hs). Qed.

End Respects.

(** ** More call depth *)

#[export] Instance deeper_preorder {A} : PreOrder (@deeper S A).
Proof.
  split.
  - by intros m s _.
  - intros m1 m2 m3 H12 H23 s Hs. rewrite <- (H12 s Hs) in Hs |- *.
    by apply H23.
Qed.

Lemma deeper_overflow {A} (m' : M S A) : deeper (raise RecursionError) m'.
Proof. by intros s []. Qed.

Lemma deeper_bind {A B} (m m' : M S A) (f f' : A -> M S B) :
  deeper m m' -> (forall a, deeper (f a) (f' a)) ->
  deeper (bind m f) (bind m' f').
Proof.
  intros Hm Hf s. unfold bind. specialize (Hm s).
  destruct (m s) as [[a|e] s1]; simpl in *.
  - intros Hs. rewrite Hm by done. by apply Hf.
  - intros He. rewrite Hm; [done | congruence].
Qed.

End MonadLemmas.

#[export] Hint Resolve preserves_ret preserves_raise preserves_reads
  preserves_lift_option preserves_lift_outcome preserves_bind
  deeper_overflow deeper_bind : py.

#[export] Hint Resolve respects_ret respects_raise respects_lift_option
  respects_lift_outcome : py.

(** [solve_preserves] proves [preserves R m] for a computation [m] built
    with [bind] from computations that the hint database [py] knows to
    preserve [R]; the preorder on [R] is found among the instances. *)
Ltac solve_preserves :=
  repeat (intros;
          first [ assumption
                | solve [apply _]
                | solve [eauto 3 with py typeclass_instances]
                | apply preserves_bind ]).

(** [solve_respects] proves [respects R m] for a computation [m] built
    with [bind] from computations that the hint database [py] knows to
    respect [R]. *)
Ltac solve_respects :=
  repeat (intros;
          first [ assumption
                | solve [eauto 3 with py]
                | apply respects_bind ]).

(** ** Shared list lemmas *)

Section ListLemmas.
Context {A B : Type}.

(** Filtering commutes with projecting when the test looks at the
    projection only. *)
Lemma filter_fmap_fst (P : A -> Prop) `{!forall a, Decision (P a)}
    (l : list (A * B)) :
  (filter (fun kv => P kv.1) l).*1 = filter P (l.*1).
Proof.
  induction l as [|[a b] l IH]; [done |].
  rewrite fmap_cons, !filter_cons. cbn [fst].
  destruct (decide (P a)); rewrite ?fmap_cons, IH; done.
Qed.

Lemma NoDup_fst_filter (P : A * B -> Prop) `{!forall x, Decision (P x)}
    (l : list (A * B)) :
  NoDup (l.*1) -> NoDup ((filter P l).*1).
Proof.
  induction l as [|[a b] l IH]; [done |].
  rewrite fmap_cons, filter_cons. simpl. intros [Hni Hnd]%NoDup_cons.
  destruct (decide (P (a, b))); [| by apply IH].
  rewrite fmap_cons. apply NoDup_cons. split; [| by apply IH].
  intros [[a' b'] [Ha [_ Hin]%list_elem_of_filter]]%list_elem_of_fmap.
  simpl in Ha. subst a'. apply Hni, list_elem_of_fmap.
  exists (a, b'). split; [reflexivity | exact Hin].
Qed.

(** A list satisfies a decidable predicate throughout, or has a first
    element that does not. *)
Lemma Forall_or_first (P : A -> Prop) `{!forall a, Decision (P a)}
    (l : list A) :
  Forall P l \/
  exists pre a post, l = pre ++ a :: post /\ Forall P pre /\ ~ P a.
Proof.
  induction l as [|a l [IH | (pre & b & post & -> & Hpre & Hb)]].
  - by left.
  - destruct (decide (P a)); [left; by constructor |].
    right. by exists [], a, l.
  - destruct (decide (P a)); right.
    + exists (a :: pre), b, post. split_and!; [done | by constructor | done].
    + by exists [], a, (pre ++ b :: post).
Qed.

(** Two decidable predicates that agree on the elements of a list select
    the same elements. *)
Lemma filter_ext_elem (P Q : A -> Prop) `{!forall a, Decision (P a)}
    `{!forall a, Decision (Q a)} (l : list A) :
  (forall a, a ∈ l -> P a <-> Q a) -> filter P l = filter Q l.
Proof.
  induction l as [|a l IH]; intros Hext; [done |].
  rewrite !filter_cons, IH by (intros; apply Hext; by right).
  destruct (decide (P a)) as [Hp | Hp], (decide (Q a)) as [Hq | Hq];
    try done; exfalso; apply (Hext a) in Hp || apply (Hext a) in Hq;
    by (done || left).
Qed.

(** A filter keeps a list all of whose elements satisfy the predicate. *)
Lemma filter_Forall_id (P : A -> Prop) `{!forall a, Decision (P a)}
    (l : list A) :
  Forall P l -> filter P l = l.
Proof.
  induction 1 as [|a l Ha _ IH]; [done |].
  by rewrite filter_cons, decide_True, IH.
Qed.

(** A filter keeps nothing exactly when no element satisfies the
    predicate. *)
Lemma filter_nil_Forall (P : A -> Prop) `{!forall a, Decision (P a)}
    (l : list A) :
  filter P l = [] <-> Forall (fun a => ~ P a) l.
Proof.
  induction l as [|a l IH]; [by split |].
  rewrite filter_cons, Forall_cons, <- IH.
  destruct (decide (P a)); [| tauto]. split; [done | tauto].
Qed.

(** What [list_find] finds splits the list at the first element that
    satisfies the predicate. *)
Lemma list_find_split (P : A -> Prop) `{!forall a, Decision (P a)}
    (l : list A) i a :
  list_find P l = Some (i, a) ->
  exists pre post, l = pre ++ a :: post /\ Forall (fun b => ~ P b) pre /\ P a.
Proof.
  intros (Hi & Ha & Hbefore)%list_find_Some.
  exists (take i l), (drop (S i) l). split_and!; [| | done].
  - by rewrite take_drop_middle.
  - apply Forall_lookup. intros j b [Hb Hj]%lookup_take_Some. eauto.
Qed.

(** The first components of a zip are the first elements of the first
    list, as many as the second has. *)
Lemma fst_zip_take (l : list A) (k : list B) :
  (zip l k).*1 = take (length k) l.
Proof.
  revert k. induction l as [|a l IH]; intros [|b k]; simpl;
    [done.. | by rewrite IH].
Qed.

End ListLemmas.
