(* ===== verification/PyStr.v ===== *)
(** * PyStr: the methods of Python's [str] that the program calls

    [Callback._get_param_names] tests every attribute name with
    [key.endswith('_')]; [BaseEstimator.set_params] splits a parameter name
    at the first occurrence of the separator of nested names with
    [key.partition('__')].  Both are modelled on Rocq strings, by recursion on
    the string, and characterised by concatenation. *)

From Stdlib Require Import Ascii.
From stdpp Require Import base tactics strings list.
From S2P Require Import Prelude.

(** ** Definitions *)

(** [s.endswith(suffix)]: [s] is [suffix] itself, or what follows its first
    character ends with [suffix]. *)
Fixpoint endswith (s suffix : string) : bool :=
  if decide (s = suffix) then true
  else match s with
       | EmptyString => false
       | String _ s' => endswith s' suffix
       end.

(** [strip_prefix p s] is what follows [p] in [s] when [s] starts with [p]. *)
Fixpoint strip_prefix (p s : string) : option string :=
  match p, s with
  | EmptyString, _ => Some s
  | String a p', String b s' =>
      if decide (a = b) then strip_prefix p' s' else None
  | String _ _, EmptyString => None
  end.

(** [s.partition(sep)]: the part before the first occurrence of [sep], the
    separator, and the part after it; [(s, '', '')] when [sep] does not occur.
    Python raises [ValueError] for an empty separator; the program only
    passes a constant, non-empty one, and the lemmas below assume it. *)
Fixpoint partition (s sep : string) : string * string * string :=
  match strip_prefix sep s with
  | Some rest => (EmptyString, sep, rest)
  | None =>
      match s with
      | EmptyString => (EmptyString, EmptyString, EmptyString)
      | String c s' =>
          let '(h, d, t) := partition s' sep in
          if decide (d = EmptyString) then (s, EmptyString, EmptyString)
          else (String c h, d, t)
      end
  end.

(** [occurs sep s]: [sep] is a substring of [s]. *)
Definition occurs (sep s : string) : Prop :=
  exists h t, s = h +:+ sep +:+ t.

(** ** Concatenation *)

Lemma str_app_cons (c : ascii) (s t : string) :
  String c s +:+ t = String c (s +:+ t).
Proof. reflexivity. Qed.

Lemma str_app_nil_l (s : string) : "" +:+ s = s.
Proof. reflexivity. Qed.

Lemma str_app_nil_r (s : string) : s +:+ "" = s.
Proof.
  induction s as [|c s IH]; [done | by rewrite str_app_cons, IH].
Qed.

Lemma str_app_assoc (s1 s2 s3 : string) :
  (s1 +:+ s2) +:+ s3 = s1 +:+ (s2 +:+ s3).
Proof.
  induction s1 as [|c s1 IH]; [done | by rewrite !str_app_cons, IH].
Qed.

Lemma str_app_length (s1 s2 : string) :
  String.length (s1 +:+ s2) = String.length s1 + String.length s2.
Proof.
  induction s1 as [|c s1 IH]; [done |].
  rewrite str_app_cons. simpl. by rewrite IH.
Qed.

Lemma str_app_eq_nil (s1 s2 : string) : s1 +:+ s2 = "" -> s1 = "" /\ s2 = "".
Proof. destruct s1; [done | rewrite str_app_cons; discriminate]. Qed.

(** Concatenation on the left is injective. *)
Lemma str_app_inv_l (p s1 s2 : string) : p +:+ s1 = p +:+ s2 -> s1 = s2.
Proof.
  induction p as [|c p IH]; [done |]. rewrite !str_app_cons.
  intros [= H]. by apply IH.
Qed.

(** A string is not a proper extension of itself on the left. *)
Lemma str_app_self_inv (p s : string) : s = p +:+ s -> p = "".
Proof.
  intros H. apply (f_equal String.length) in H.
  rewrite str_app_length in H. destruct p; [done | simpl in H; lia].
Qed.

#[export] Hint Rewrite str_app_cons str_app_nil_l str_app_nil_r str_app_assoc
  str_app_length : pyrw.

(** ** [endswith] *)

(** The defining equation of [endswith]. *)
Lemma endswith_unfold (s suffix : string) :
  endswith s suffix =
    if decide (s = suffix) then true
    else match s with
         | EmptyString => false
         | String _ s' => endswith s' suffix
         end.
Proof. destruct s; reflexivity. Qed.

Lemma endswith_refl (s : string) : endswith s s = true.
Proof. rewrite endswith_unfold. by rewrite decide_True. Qed.

Lemma endswith_app (p suffix : string) : endswith (p +:+ suffix) suffix = true.
Proof.
  induction p as [|c p IH]; [apply endswith_refl |].
  rewrite str_app_cons, endswith_unfold. case_decide; [done | exact IH].
Qed.

Lemma endswith_inv (s suffix : string) :
  endswith s suffix = true -> exists p, s = p +:+ suffix.
Proof.
  induction s as [|c s IH]; rewrite endswith_unfold; case_decide as Heq;
    subst; intros Hend.
  - by exists "".
  - discriminate.
  - by exists "".
  - destruct (IH Hend) as [p ->]. by exists (String c p).
Qed.

Lemma endswith_iff (s suffix : string) :
  endswith s suffix = true <-> exists p, s = p +:+ suffix.
Proof.
  split; [apply endswith_inv | intros [p ->]; apply endswith_app].
Qed.

Lemma endswith_nil (s : string) : endswith s "" = true.
Proof. apply endswith_iff. exists s. by autorewrite with pyrw. Qed.

(** Appending to a string that ends with a non-empty suffix a string that
    does so gives a string that does so. *)
Lemma endswith_app_r (s1 s2 suffix : string) :
  endswith s2 suffix = true -> endswith (s1 +:+ s2) suffix = true.
Proof.
  intros [p ->]%endswith_iff. apply endswith_iff. exists (s1 +:+ p).
  by rewrite str_app_assoc.
Qed.

(** With a suffix of one character, only the last character matters. *)
Lemma endswith_app_char (s1 s2 : string) (c : ascii) :
  s2 <> "" ->
  endswith (s1 +:+ s2) (String c "") = endswith s2 (String c "").
Proof.
  intros Hne. induction s1 as [|a s1 IH]; [done |].
  rewrite str_app_cons, endswith_unfold.
  case_decide as Heq; [| exact IH].
  injection Heq as _ Heq. by apply str_app_eq_nil in Heq as [_ ?].
Qed.

(** ** [strip_prefix] *)

Lemma strip_prefix_iff (p s rest : string) :
  strip_prefix p s = Some rest <-> s = p +:+ rest.
Proof.
  revert s. induction p as [|a p IH]; intros s.
  - rewrite str_app_nil_l. simpl. split; congruence.
  - rewrite str_app_cons. destruct s as [|b s]; simpl; [split; discriminate |].
    case_decide; subst.
    + rewrite IH. split; congruence.
    + split; [discriminate | congruence].
Qed.

Lemma strip_prefix_app (p rest : string) :
  strip_prefix p (p +:+ rest) = Some rest.
Proof. by apply strip_prefix_iff. Qed.

Lemma strip_prefix_None (p s : string) :
  strip_prefix p s = None <-> forall rest, s <> p +:+ rest.
Proof.
  split.
  - intros H rest Heq%strip_prefix_iff. congruence.
  - intros H. destruct (strip_prefix p s) as [rest|] eqn:E; [| done].
    apply strip_prefix_iff in E. by destruct (H rest).
Qed.

(** ** [partition] *)

(** The defining equation of [partition]. *)
Lemma partition_unfold (s sep : string) :
  partition s sep =
    match strip_prefix sep s with
    | Some rest => ("", sep, rest)
    | None =>
        match s with
        | EmptyString => ("", "", "")
        | String c s' =>
            if decide ((partition s' sep).1.2 = "") then (s, "", "")
            else (String c (partition s' sep).1.1, (partition s' sep).1.2,
                  (partition s' sep).2)
        end
    end.
Proof.
  destruct s as [|c s]; [reflexivity |]. cbn [partition].
  destruct (strip_prefix sep (String c s)); [reflexivity |].
  destruct (partition s sep) as [[h d] t]. simpl. by case_decide.
Qed.

(** The three parts put together give the string back. *)
Lemma partition_join (s sep : string) :
  (partition s sep).1.1 +:+ (partition s sep).1.2 +:+ (partition s sep).2 = s.
Proof.
  induction s as [|c s IH]; rewrite partition_unfold;
    destruct (strip_prefix sep _) as [rest|] eqn:E; simpl;
    try (by apply strip_prefix_iff in E); [done |].
  case_decide; simpl; [by rewrite str_app_nil_r |].
  by rewrite str_app_cons, IH.
Qed.

(** The middle part is the separator or empty. *)
Lemma partition_delim (s sep : string) :
  (partition s sep).1.2 = sep \/ (partition s sep).1.2 = "".
Proof.
  induction s as [|c s IH]; rewrite partition_unfold;
    destruct (strip_prefix sep _); simpl; auto.
  case_decide; simpl; auto.
Qed.

(** When the separator does not occur, the string comes back whole. *)
Lemma partition_not_found (s sep : string) :
  (partition s sep).1.2 = "" -> sep <> "" -> partition s sep = (s, "", "").
Proof.
  intros Hd Hsep. rewrite partition_unfold in Hd |- *.
  destruct (strip_prefix sep s); simpl in *; [done |].
  destruct s; [done |]. case_decide; simpl in *; done.
Qed.

(** The middle part is empty exactly when the separator does not occur. *)
Lemma partition_delim_nil_iff (s sep : string) :
  sep <> "" -> (partition s sep).1.2 = "" <-> ~ occurs sep s.
Proof.
  intros Hsep. induction s as [|c s IH]; rewrite partition_unfold;
    destruct (strip_prefix sep _) as [rest|] eqn:E; simpl.
  - apply strip_prefix_iff in E. symmetry in E.
    by apply str_app_eq_nil in E as [? _].
  - split; [| done]. intros _ (h & t & Heq). symmetry in Heq.
    apply str_app_eq_nil in Heq as [_ Heq].
    by apply str_app_eq_nil in Heq as [? _].
  - split; [done |]. intros Hno. destruct Hno. apply strip_prefix_iff in E.
    exists "", rest. by rewrite E.
  - case_decide as Hd; simpl.
    + split; [| done]. intros _ (h & t & Heq). destruct h as [|a h].
      { rewrite str_app_nil_l in Heq.
        apply strip_prefix_iff in Heq. congruence. }
      rewrite str_app_cons in Heq. injection Heq as -> ->.
      apply IH in Hd. apply Hd. by exists h, t.
    + split; [done |]. intros Hno. destruct Hd. apply IH.
      intros (h & t & ->). apply Hno. by exists (String c h), t.
Qed.

(** A string whose head holds no start of an occurrence of the separator is
    split right after that head. *)
Lemma partition_app (h t sep : string) :
  sep <> "" ->
  (forall h1 h2, h = h1 +:+ h2 -> h2 <> "" ->
                 strip_prefix sep (h2 +:+ sep +:+ t) = None) ->
  partition (h +:+ sep +:+ t) sep = (h, sep, t).
Proof.
  intros Hsep. induction h as [|c h IH]; intros Hfree.
  - autorewrite with pyrw. rewrite partition_unfold. by rewrite strip_prefix_app.
  - rewrite partition_unfold, (Hfree "" (String c h)) by done.
    rewrite str_app_cons, IH; [simpl; by rewrite decide_False |].
    intros h1 h2 -> Hne. by apply (Hfree (String c h1) h2).
Qed.

(** The part before the separator holds no occurrence of it. *)
Lemma partition_head_free (s sep : string) :
  sep <> "" -> ~ occurs sep (partition s sep).1.1.
Proof.
  intros Hsep. induction s as [|c s IH]; rewrite partition_unfold;
    destruct (strip_prefix sep _) as [rest|] eqn:E; simpl.
  - intros (h & t & Heq). symmetry in Heq.
    apply str_app_eq_nil in Heq as [_ Heq].
    by apply str_app_eq_nil in Heq as [? _].
  - intros (h & t & Heq). symmetry in Heq.
    apply str_app_eq_nil in Heq as [_ Heq].
    by apply str_app_eq_nil in Heq as [? _].
  - intros (h & t & Heq). symmetry in Heq.
    apply str_app_eq_nil in Heq as [_ Heq].
    by apply str_app_eq_nil in Heq as [? _].
  - case_decide as Hd; simpl.
    + apply partition_delim_nil_iff; [done |].
      rewrite partition_unfold, E. simpl. by rewrite decide_True.
    + intros (h & t & Heq). destruct h as [|a h].
      * rewrite str_app_nil_l in Heq.
        pose proof (partition_join s sep) as Hjoin.
        assert (String c s = sep +:+ (t +:+ (partition s sep).1.2
                                        +:+ (partition s sep).2)) as Hs.
        { rewrite <- Hjoin at 1. rewrite <- str_app_cons, Heq.
          by rewrite !str_app_assoc. }
        apply strip_prefix_iff in Hs. congruence.
      * rewrite str_app_cons in Heq. injection Heq as -> Heq.
        apply IH. by exists h, t.
Qed.

(** ** Deciding occurrence *)

Lemma occurs_nil (s : string) : occurs "" s.
Proof. by exists "", s. Qed.

Lemma partition_found_occurs (s sep : string) :
  (partition s sep).1.2 <> "" -> occurs sep s.
Proof.
  intros Hd. destruct (partition_delim s sep) as [Heq | ?]; [| done].
  exists (partition s sep).1.1, (partition s sep).2.
  rewrite <- Heq at 2. symmetry. apply partition_join.
Qed.

#[export] Instance occurs_dec (sep s : string) : Decision (occurs sep s).
Proof.
  refine (match decide (sep = "") with
          | left Hs => left _
          | right Hs =>
              match decide ((partition s sep).1.2 = "") with
              | left Hd => right _
              | right Hd => left _
              end
          end).
  - subst sep. apply occurs_nil.
  - by apply partition_delim_nil_iff.
  - by apply partition_found_occurs.
Defined.
