(* ===== verification/PyDict.v ===== *)
(** * PyDict: Python's insertion-ordered dictionary with string keys

    An instance dictionary ([self.__dict__]) and the keyword arguments of a
    call ([**kwargs], [**params]) are Python [dict]s: iteration follows the
    order in which the keys were first inserted, assigning to an existing key
    replaces its value where it stands, and assigning to a new key appends
    it.  The model is an association list with these operations, the
    invariant that keys are unique, the abstraction to a finite map (which
    forgets the order), and Python's dictionary equality, which ignores the
    order, as the setoid equivalence of the type. *)

From stdpp Require Import base tactics option list strings gmap.
From S2P Require Import Prelude.

(** ** Definitions *)

Record dict (V : Type) : Type := Dict { items : list (string * V) }.
Arguments Dict {V} _.
Arguments items {V} _.

#[export] Instance dict_eq_dec `{EqDecision V} : EqDecision (dict V).
Proof. solve_decision. Defined.

Section Definitions.
Context {V : Type}.

(** [d[k]] on the list of items: the first binding of [k]. *)
Fixpoint alist_get (k : string) (l : list (string * V)) : option V :=
  match l with
  | [] => None
  | (k', v) :: l' => if decide (k = k') then Some v else alist_get k l'
  end.

(** [d[k] = v] on the list of items: replace the value where [k] stands, or
    append the binding. *)
Fixpoint alist_set (k : string) (v : V) (l : list (string * V))
    : list (string * V) :=
  match l with
  | [] => [(k, v)]
  | (k', v') :: l' =>
      if decide (k = k') then (k, v) :: l' else (k', v') :: alist_set k v l'
  end.

(** [list(d)], the keys in iteration order. *)
Definition keys (d : dict V) : list string := (items d).*1.

#[export] Instance dict_lookup : Lookup string V (dict V) :=
  fun k d => alist_get k (items d).

#[export] Instance dict_insert : Insert string V (dict V) :=
  fun k v d => Dict (alist_set k v (items d)).

#[export] Instance dict_empty : Empty (dict V) := Dict [].

(** [k in d]. *)
Definition contains (k : string) (d : dict V) : bool :=
  bool_decide (k ∈ keys d).

(** [not d]: a dictionary is false when it has no item. *)
Definition is_empty (d : dict V) : bool :=
  match items d with [] => true | _ :: _ => false end.

(** [d.update(pairs)]: assign the pairs in order. *)
Definition update (d : dict V) (pairs : list (string * V)) : dict V :=
  foldl (fun acc kv => <[kv.1 := kv.2]> acc) d pairs.

(** [{k: v for k, v in d.items() if p(k)}]. *)
Definition filter_keys (p : string -> bool) (d : dict V) : dict V :=
  Dict (filter (fun kv => p kv.1 = true) (items d)).

(** The invariant of a dictionary: no key occurs twice. *)
Definition dict_wf (d : dict V) : Prop := NoDup (keys d).

(** The finite map a dictionary denotes. *)
Definition to_gmap (d : dict V) : gmap string V := list_to_map (items d).

(** [d1 == d2]: the same keys with the same values, in any order. *)
#[export] Instance dict_equiv : Equiv (dict V) :=
  fun d1 d2 => forall k, d1 !! k = d2 !! k.

End Definitions.

(** ** Lookup and assignment *)

Section Lemmas.
Context {V : Type}.
Implicit Types (d : dict V) (l : list (string * V)) (k : string) (v : V).

Lemma dict_eq d1 d2 : items d1 = items d2 -> d1 = d2.
Proof. destruct d1, d2; simpl; congruence. Qed.

Lemma alist_get_set_eq k v l : alist_get k (alist_set k v l) = Some v.
Proof.
  induction l as [|[k' v'] l IH]; simpl; repeat case_decide; simpl;
    rewrite ?decide_True by done; try done.
  by rewrite decide_False.
Qed.

Lemma alist_get_set_ne k k' v l :
  k <> k' -> alist_get k' (alist_set k v l) = alist_get k' l.
Proof.
  intros Hne. induction l as [|[k1 v1] l IH]; simpl.
  - by rewrite decide_False.
  - repeat (case_decide; simpl; subst); congruence.
Qed.

Lemma alist_get_None k l : alist_get k l = None <-> k ∉ l.*1.
Proof.
  induction l as [|[k' v'] l IH]; simpl.
  - split; [intros _; apply not_elem_of_nil | done].
  - rewrite not_elem_of_cons. case_decide; subst; [| tauto].
    split; [done | tauto].
Qed.

Lemma alist_get_Some_elem k v l : alist_get k l = Some v -> (k, v) ∈ l.
Proof.
  induction l as [|[k' v'] l IH]; simpl; [done |].
  case_decide; subst.
  - intros [= ->]. apply elem_of_cons. by left.
  - intros H'. apply elem_of_cons. right. by apply IH.
Qed.

Lemma alist_get_elem_NoDup k v l :
  NoDup (l.*1) -> (k, v) ∈ l -> alist_get k l = Some v.
Proof.
  induction l as [|[k' v'] l IH]; simpl.
  - by intros _ ?%elem_of_nil.
  - intros [Hni Hnd]%NoDup_cons [[= -> ->] | Hin]%elem_of_cons.
    + by rewrite decide_True.
    + rewrite decide_False; [by apply IH |].
      intros ->. apply Hni, list_elem_of_fmap. by exists (k', v).
Qed.

(** Assigning to a key that is present keeps the keys as they are. *)
Lemma alist_set_keys_elem k v l : k ∈ l.*1 -> (alist_set k v l).*1 = l.*1.
Proof.
  induction l as [|[k' v'] l IH]; simpl.
  - by intros ?%elem_of_nil.
  - intros Hin. case_decide; subst; [done |].
    apply elem_of_cons in Hin as [? | Hin]; [done |].
    rewrite !fmap_cons. f_equal. by apply IH.
Qed.

(** Assigning to a key that is absent appends the binding. *)
Lemma alist_set_not_elem k v l : k ∉ l.*1 -> alist_set k v l = l ++ [(k, v)].
Proof.
  induction l as [|[k' v'] l IH]; simpl; [done |].
  intros [Hne Hni]%not_elem_of_cons. rewrite decide_False by done.
  f_equal. by apply IH.
Qed.

(** In both cases the keys before the assignment stay, in their order. *)
Lemma alist_set_keys k v l :
  (alist_set k v l).*1 = if decide (k ∈ l.*1) then l.*1 else l.*1 ++ [k].
Proof.
  case_decide.
  - by apply alist_set_keys_elem.
  - rewrite alist_set_not_elem by done. by rewrite fmap_app.
Qed.

Lemma lookup_insert_dict_eq d k v : <[k := v]> d !! k = Some v.
Proof. apply alist_get_set_eq. Qed.

Lemma lookup_insert_dict_ne d k k' v : k <> k' -> <[k := v]> d !! k' = d !! k'.
Proof. apply alist_get_set_ne. Qed.

Lemma lookup_insert_dict d k k' v :
  <[k := v]> d !! k' = if decide (k = k') then Some v else d !! k'.
Proof.
  case_decide; subst;
    [apply lookup_insert_dict_eq | by apply lookup_insert_dict_ne].
Qed.

Lemma items_empty : items (∅ : dict V) = [].
Proof. reflexivity. Qed.

Lemma lookup_empty_dict k : (∅ : dict V) !! k = None.
Proof. reflexivity. Qed.

Lemma lookup_dict_None d k : d !! k = None <-> k ∉ keys d.
Proof. apply alist_get_None. Qed.

Lemma lookup_dict_is_Some d k : is_Some (d !! k) <-> k ∈ keys d.
Proof.
  rewrite <- not_eq_None_Some, lookup_dict_None.
  split; [apply dec_stable | tauto].
Qed.

Lemma contains_true d k : contains k d = true <-> is_Some (d !! k).
Proof.
  unfold contains. rewrite bool_decide_eq_true. symmetry.
  apply lookup_dict_is_Some.
Qed.

Lemma contains_false d k : contains k d = false <-> d !! k = None.
Proof.
  unfold contains. rewrite bool_decide_eq_false. symmetry.
  apply lookup_dict_None.
Qed.

Lemma keys_insert d k v :
  keys (<[k := v]> d) = if decide (k ∈ keys d) then keys d else keys d ++ [k].
Proof. apply alist_set_keys. Qed.

Lemma keys_insert_elem d k v : k ∈ keys d -> keys (<[k := v]> d) = keys d.
Proof. intros H. by rewrite keys_insert, decide_True. Qed.

Lemma elem_of_keys_insert d k k' v :
  k' ∈ keys (<[k := v]> d) <-> k' = k \/ k' ∈ keys d.
Proof.
  rewrite keys_insert. case_decide.
  - split; [tauto | by intros [-> | ?]].
  - rewrite elem_of_app, list_elem_of_singleton. tauto.
Qed.

(** An item of a dictionary after an assignment is the item assigned or
    an item it had. *)
Lemma elem_of_alist_set k v l kv :
  kv ∈ alist_set k v l -> kv = (k, v) \/ kv ∈ l.
Proof.
  induction l as [|[k' v'] l IH]; cbn [alist_set].
  - intros ->%list_elem_of_singleton. by left.
  - case_decide; rewrite !elem_of_cons; [tauto |].
    intros [-> | [-> | ?]%IH]; auto.
Qed.

Lemma elem_of_items_insert d k v kv :
  kv ∈ items (<[k := v]> d) -> kv = (k, v) \/ kv ∈ items d.
Proof. apply elem_of_alist_set. Qed.

Lemma insert_dict_not_elem d k v :
  k ∉ keys d -> <[k := v]> d = Dict (items d ++ [(k, v)]).
Proof. intros H. apply dict_eq. simpl. by apply alist_set_not_elem. Qed.

(** Assigning the value a key already has changes nothing. *)
Lemma insert_dict_id d k v : d !! k = Some v -> <[k := v]> d = d.
Proof.
  intros H. apply dict_eq. simpl. unfold lookup, dict_lookup in H.
  induction (items d) as [|[k' v'] l IH]; simpl in *; [done |].
  case_decide; subst; [congruence | by rewrite IH].
Qed.

Lemma is_empty_true d : is_empty d = true <-> d = ∅.
Proof.
  destruct d as [[|kv l]]; simpl; unfold is_empty; simpl; split; try done.
Qed.

(** ** The invariant *)

Lemma dict_wf_empty : dict_wf (∅ : dict V).
Proof. apply NoDup_nil_2. Qed.

Lemma dict_wf_insert d k v : dict_wf d -> dict_wf (<[k := v]> d).
Proof.
  unfold dict_wf. rewrite keys_insert. case_decide; [done |].
  intros Hnd. apply NoDup_app. split_and!; [done | | apply NoDup_singleton].
  intros k' Hin ->%list_elem_of_singleton. done.
Qed.

Lemma dict_wf_update d pairs : dict_wf d -> dict_wf (update d pairs).
Proof.
  unfold update. revert d.
  induction pairs as [|[k v] pairs IH]; intros d Hwf; simpl; [done |].
  by apply IH, dict_wf_insert.
Qed.

Lemma dict_wf_filter_keys p d : dict_wf d -> dict_wf (filter_keys p d).
Proof. apply NoDup_fst_filter. Qed.

(** In a well-formed dictionary the items are exactly the lookups. *)
Lemma elem_of_items d k v : dict_wf d -> (k, v) ∈ items d <-> d !! k = Some v.
Proof.
  intros Hwf. split; [by apply alist_get_elem_NoDup | apply alist_get_Some_elem].
Qed.

(** A second assignment to a key replaces the first. *)
Lemma insert_insert_dict_eq d k v1 v2 :
  <[k := v2]> (<[k := v1]> d) = <[k := v2]> d.
Proof.
  apply dict_eq. simpl.
  induction (items d) as [|[k' v'] l IH]; simpl.
  - by rewrite decide_True.
  - case_decide; subst; simpl; [by rewrite decide_True |].
    by rewrite decide_False, IH.
Qed.

Lemma items_insert_empty k v : items (<[k := v]> (∅ : dict V)) = [(k, v)].
Proof. reflexivity. Qed.

Lemma dict_items_eta d : Dict (items d) = d.
Proof. by destruct d. Qed.

(** ** [update] *)

Lemma update_nil d : update d [] = d.
Proof. reflexivity. Qed.

Lemma update_cons d k v pairs :
  update d ((k, v) :: pairs) = update (<[k := v]> d) pairs.
Proof. reflexivity. Qed.

(** Assigning the values the keys already have changes nothing. *)
Lemma update_id d pairs :
  Forall (fun kv => d !! kv.1 = Some kv.2) pairs -> update d pairs = d.
Proof.
  induction 1 as [|[k v] pairs Hkv _ IH]; [done |].
  rewrite update_cons. cbn [fst snd] in Hkv. by rewrite insert_dict_id.
Qed.

Lemma lookup_dict_Some_elem d k v : d !! k = Some v -> (k, v) ∈ items d.
Proof. apply alist_get_Some_elem. Qed.

Lemma update_app d pairs1 pairs2 :
  update d (pairs1 ++ pairs2) = update (update d pairs1) pairs2.
Proof. apply foldl_app. Qed.

Lemma update_snoc d k v pairs :
  update d (pairs ++ [(k, v)]) = <[k := v]> (update d pairs).
Proof. by rewrite update_app. Qed.

(** A key the pairs do not mention keeps its value. *)
Lemma lookup_update_not_elem d pairs k :
  k ∉ pairs.*1 -> update d pairs !! k = d !! k.
Proof.
  revert d. induction pairs as [|[k' v'] pairs IH]; intros d; [done |].
  rewrite fmap_cons. intros [Hne Hni]%not_elem_of_cons.
  rewrite update_cons, IH by done. by apply lookup_insert_dict_ne.
Qed.

(** A key of the result was a key before or is a key of the pairs. *)
(** A value found after [update] was there before or is one of the pairs. *)
(** A pair whose key occurs once among the pairs is found after
    [update]. *)
Lemma lookup_update_elem d pairs k v :
  NoDup pairs.*1 -> (k, v) ∈ pairs -> update d pairs !! k = Some v.
Proof.
  revert d. induction pairs as [|[k' v'] pairs IH]; intros d;
    [by intros _ ?%elem_of_nil |].
  rewrite fmap_cons. intros [Hni Hnd]%NoDup_cons [[= -> ->] | Hin]%elem_of_cons;
    rewrite update_cons; [| by apply IH].
  rewrite lookup_update_not_elem by done. apply lookup_insert_dict_eq.
Qed.

Lemma lookup_update_Some d pairs k v :
  update d pairs !! k = Some v -> d !! k = Some v \/ (k, v) ∈ pairs.
Proof.
  revert d. induction pairs as [|[k' v'] pairs IH]; intros d; [by left |].
  rewrite update_cons. intros [Hd | Hin]%IH.
  - rewrite lookup_insert_dict in Hd. case_decide; simplify_eq.
    + right. apply elem_of_cons. by left.
    + by left.
  - right. apply elem_of_cons. by right.
Qed.

Lemma elem_of_keys_update d pairs k :
  k ∈ keys (update d pairs) <-> k ∈ keys d \/ k ∈ pairs.*1.
Proof.
  revert d. induction pairs as [|[k' v'] pairs IH]; intros d.
  - rewrite update_nil, fmap_nil, elem_of_nil. tauto.
  - rewrite update_cons, IH, elem_of_keys_insert, fmap_cons, elem_of_cons.
    simpl. tauto.
Qed.

(** The keys of the dictionary stay, in their order, in front. *)
Lemma keys_update_prefix d pairs : keys d `prefix_of` keys (update d pairs).
Proof.
  revert d. induction pairs as [|[k v] pairs IH]; intros d; [done |].
  rewrite update_cons. etrans; [| apply IH].
  rewrite keys_insert. case_decide; [done | by apply prefix_app_r].
Qed.

(** Updating with pairs whose keys are all present keeps the keys. *)
Lemma keys_update_subseteq d pairs :
  pairs.*1 ⊆ keys d -> keys (update d pairs) = keys d.
Proof.
  revert d. induction pairs as [|[k v] pairs IH]; intros d Hsub; [done |].
  rewrite fmap_cons in Hsub. rewrite update_cons.
  assert (k ∈ keys d) as Hk by (apply Hsub, elem_of_cons; by left).
  rewrite IH; rewrite keys_insert_elem by done; [done |].
  intros k' Hk'. apply Hsub, elem_of_cons. by right.
Qed.

(** Pairs with fresh, distinct keys are appended as they come. *)
Lemma update_fresh d pairs :
  NoDup (pairs.*1) -> (forall k, k ∈ pairs.*1 -> k ∉ keys d) ->
  update d pairs = Dict (items d ++ pairs).
Proof.
  revert d. induction pairs as [|[k v] pairs IH]; intros d Hnd Hfresh.
  - apply dict_eq. simpl. by rewrite app_nil_r.
  - rewrite fmap_cons in Hnd, Hfresh. apply NoDup_cons in Hnd as [Hk Hnd].
    rewrite update_cons, insert_dict_not_elem
      by (apply Hfresh, elem_of_cons; by left).
    rewrite IH; [apply dict_eq; simpl; by rewrite <- app_assoc | done |].
    simpl.
    intros k' Hk'. unfold keys. simpl.
    rewrite fmap_app, not_elem_of_app. split.
    + apply Hfresh, elem_of_cons. by right.
    + intros ->%list_elem_of_singleton. done.
Qed.

Lemma update_empty_NoDup pairs :
  NoDup (pairs.*1) -> update (∅ : dict V) pairs = Dict pairs.
Proof.
  intros Hnd. rewrite update_fresh; [done | done |].
  intros k _. apply not_elem_of_nil.
Qed.

(** Reading the values of some keys of a well-formed dictionary gives the
    items with these keys. *)
Lemma fmap_lookup_filter (P : string -> Prop) `{!forall k, Decision (P k)}
    (dflt : V) d :
  dict_wf d ->
  (fun k => (k, default dflt (d !! k))) <$> filter P (keys d) =
    filter (fun kv => P kv.1) (items d).
Proof.
  unfold dict_wf, keys, lookup, dict_lookup.
  induction (items d) as [|[k v] l IH]; [done |].
  rewrite fmap_cons. intros [Hk Hnd]%NoDup_cons. rewrite !filter_cons.
  assert ((fun k' => (k', default dflt (alist_get k' ((k, v) :: l))))
            <$> filter P l.*1 =
          (fun k' => (k', default dflt (alist_get k' l))) <$> filter P l.*1)
    as Htail.
  { apply Forall_fmap_ext_1, Forall_forall.
    intros k' [_ Hk']%list_elem_of_filter. simpl.
    rewrite decide_False; [done | by intros ->]. }
  cbn [fst]. destruct (decide (P k)).
  - rewrite fmap_cons, Htail, IH by done. simpl. by rewrite decide_True.
  - rewrite Htail. by apply IH.
Qed.

(** ** [filter_keys] *)

Lemma keys_filter_keys p d :
  keys (filter_keys p d) = filter (fun k => p k = true) (keys d).
Proof. exact (filter_fmap_fst (fun k => p k = true) (items d)). Qed.

Lemma lookup_filter_keys p d k :
  filter_keys p d !! k = if p k then d !! k else None.
Proof.
  unfold lookup, dict_lookup, filter_keys. simpl.
  induction (items d) as [|[k' v'] l IH]; simpl; [by destruct (p k) |].
  rewrite filter_cons. simpl. destruct (decide (p k' = true)) as [Hp | Hp];
    simpl; case_decide; subst; rewrite ?IH; try done.
  - by rewrite Hp.
  - by destruct (p k').
Qed.

(** A filter that every key passes keeps the dictionary. *)
Lemma filter_keys_all p d :
  Forall (fun k => p k = true) (keys d) -> filter_keys p d = d.
Proof.
  intros Hall. apply dict_eq. unfold filter_keys. cbn [items].
  apply filter_Forall_id. by apply Forall_fmap in Hall.
Qed.

(** Assigning a key that passes the filter and is present commutes with
    filtering. *)
Lemma filter_keys_insert p d k v :
  p k = true -> k ∈ keys d ->
  filter_keys p (<[k := v]> d) = <[k := v]> (filter_keys p d).
Proof.
  intros Hp Hk. apply dict_eq. unfold filter_keys, keys in *. simpl.
  induction (items d) as [|[k' v'] l IH]; [by apply elem_of_nil in Hk |].
  simpl. case_decide; subst.
  - rewrite !filter_cons. simpl. rewrite !decide_True by done. simpl.
    by rewrite decide_True.
  - rewrite fmap_cons in Hk. apply elem_of_cons in Hk as [? | Hk]; [done |].
    rewrite !filter_cons. simpl. case_decide; simpl.
    + rewrite decide_False by done. by rewrite IH.
    + by apply IH.
Qed.

(** Assigning a key that passes the filter, present or new, commutes with
    filtering. *)
Lemma filter_keys_insert_true p d k v :
  p k = true -> filter_keys p (<[k := v]> d) = <[k := v]> (filter_keys p d).
Proof.
  intros Hp. apply dict_eq. unfold filter_keys. simpl.
  induction (items d) as [|[k' v'] l IH]; simpl.
  - rewrite filter_cons. simpl. by rewrite decide_True.
  - case_decide; subst; rewrite !filter_cons; simpl.
    + rewrite !decide_True by done. simpl. by rewrite decide_True.
    + case_decide; simpl; [rewrite decide_False by done |]; by rewrite IH.
Qed.

(** Assigning to a key that the filter drops changes nothing of what it
    keeps. *)
Lemma filter_keys_insert_false p d k v :
  p k = false -> filter_keys p (<[k := v]> d) = filter_keys p d.
Proof.
  intros Hp. apply dict_eq. unfold filter_keys. simpl.
  induction (items d) as [|[k' v'] l IH]; simpl.
  - rewrite filter_cons. simpl. by rewrite decide_False by congruence.
  - case_decide; subst; rewrite !filter_cons; simpl.
    + by rewrite !decide_False by congruence.
    + by rewrite IH.
Qed.

Lemma filter_keys_update p d pairs :
  Forall (fun k => p k = true /\ k ∈ keys d) pairs.*1 ->
  filter_keys p (update d pairs) = update (filter_keys p d) pairs.
Proof.
  revert d. induction pairs as [|[k v] pairs IH]; intros d; [done |].
  rewrite fmap_cons. intros [[Hp Hk] Hall]%Forall_cons.
  rewrite !update_cons, IH; [by rewrite filter_keys_insert |].
  eapply Forall_impl; [exact Hall |]. intros k' [? ?]. split; [done |].
  apply elem_of_keys_insert. by right.
Qed.

(** ** Abstraction to a finite map *)

Lemma to_gmap_lookup d k : to_gmap d !! k = d !! k.
Proof.
  unfold to_gmap, lookup at 2, dict_lookup.
  induction (items d) as [|[k' v'] l IH]; simpl; [apply lookup_empty |].
  rewrite lookup_insert. repeat case_decide; subst; done.
Qed.

Lemma to_gmap_empty : to_gmap (∅ : dict V) = ∅.
Proof. reflexivity. Qed.

Lemma to_gmap_insert d k v : to_gmap (<[k := v]> d) = <[k := v]> (to_gmap d).
Proof.
  apply map_eq. intros k'. rewrite to_gmap_lookup, lookup_insert_dict.
  rewrite lookup_insert, to_gmap_lookup. done.
Qed.

Lemma to_gmap_dom d : dom (to_gmap d) = list_to_set (keys d).
Proof.
  apply set_eq. intros k. rewrite elem_of_dom, to_gmap_lookup.
  rewrite lookup_dict_is_Some. by rewrite elem_of_list_to_set.
Qed.

(** ** Dictionary equality *)

#[export] Instance dict_equiv_equivalence : Equivalence (≡@{dict V}).
Proof.
  split.
  - by intros d k.
  - intros d1 d2 H k. by rewrite H.
  - intros d1 d2 d3 H12 H23 k. by rewrite H12.
Qed.

#[export] Instance dict_lookup_proper k :
  Proper ((≡) ==> (=)) (lookup k : dict V -> option V).
Proof. intros d1 d2 H. apply H. Qed.

#[export] Instance dict_insert_proper k v :
  Proper ((≡) ==> (≡)) (insert k v : dict V -> dict V).
Proof.
  intros d1 d2 H k'. rewrite !lookup_insert_dict. case_decide; [done | apply H].
Qed.

#[export] Instance dict_update_proper :
  Proper ((≡) ==> (=) ==> (≡)) (@update V).
Proof.
  intros d1 d2 H pairs ? <-. revert d1 d2 H.
  induction pairs as [|[k v] pairs IH]; intros d1 d2 H; [done |].
  rewrite !update_cons. apply IH. by rewrite H.
Qed.

#[export] Instance to_gmap_proper : Proper ((≡) ==> (=)) (@to_gmap V).
Proof.
  intros d1 d2 H. apply map_eq. intros k. rewrite !to_gmap_lookup. apply H.
Qed.

Lemma dict_equiv_to_gmap d1 d2 : d1 ≡ d2 <-> to_gmap d1 = to_gmap d2.
Proof.
  split; [apply to_gmap_proper |].
  intros H k. by rewrite <- !to_gmap_lookup, H.
Qed.

(** ** Theorems *)

(** The dictionary operations implement the finite map they denote:
    the empty dictionary denotes the empty map, lookup is lookup in the
    map, item assignment is insertion, and [update] is insertion of the
    pairs in order. *)
Theorem dict_refines_gmap d k v pairs :
  to_gmap (∅ : dict V) = ∅ /\
  to_gmap d !! k = d !! k /\
  to_gmap (<[k := v]> d) = <[k := v]> (to_gmap d) /\
  to_gmap (update d pairs) =
    foldl (fun m kv => <[kv.1 := kv.2]> m) (to_gmap d) pairs.
Proof.
  split_and!; [done | apply to_gmap_lookup | apply to_gmap_insert |].
  revert d. induction pairs as [|[k' v'] pairs IH]; intros d; [done |].
  rewrite update_cons, IH, to_gmap_insert. done.
Qed.

(** Item assignment keeps a dictionary well formed and keeps the
    insertion order: the keys stay in place when the key is present, and
    the key is appended when it is new. *)
Theorem dict_insert_keeps_order d k v :
  dict_wf d ->
  dict_wf (<[k := v]> d) /\
  <[k := v]> d !! k = Some v /\
  (k ∈ keys d -> keys (<[k := v]> d) = keys d) /\
  (k ∉ keys d -> items (<[k := v]> d) = items d ++ [(k, v)]).
Proof.
  intros Hwf. split_and!.
  - by apply dict_wf_insert.
  - apply lookup_insert_dict_eq.
  - apply keys_insert_elem.
  - intros Hk. by rewrite insert_dict_not_elem.
Qed.

End Lemmas.

(** A dictionary with two items: assigning the first keeps the order. *)
Lemma dict_insert_keeps_order_witness :
  dict_wf (<["a" := 5]> (Dict [("a", 1); ("b", 2)])) /\
  <["a" := 5]> (Dict [("a", 1); ("b", 2)]) !! "a" = Some 5 /\
  ("a" ∈ keys (Dict [("a", 1); ("b", 2)]) ->
   keys (<["a" := 5]> (Dict [("a", 1); ("b", 2)])) =
   keys (Dict [("a", 1); ("b", 2)])) /\
  ("a" ∉ keys (Dict [("a", 1); ("b", 2)]) ->
   items (<["a" := 5]> (Dict [("a", 1); ("b", 2)])) =
   items (Dict [("a", 1); ("b", 2)]) ++ [("a", 5)]).
Proof.
  apply (dict_insert_keeps_order (Dict [("a", 1); ("b", 2)]) "a" 5).
  by_compute.
Defined.

#[export] Hint Resolve dict_wf_empty dict_wf_insert dict_wf_update
  dict_wf_filter_keys : py.
#[export] Hint Rewrite @lookup_insert_dict_eq @lookup_empty_dict
  @update_nil @update_cons @to_gmap_insert @to_gmap_lookup : pyrw.
