(* ===== verification/PyObject.v ===== *)
(** * PyObject: values, objects and the heap

    The part of Python's object model that the callback class relies on.  An
    object has a class and an instance dictionary; objects live on a heap and
    values refer to them by address, so that two attributes may hold the same
    object.  [getattr_default] and [setattr] read and write the instance
    dictionary of the object at an address.

    The file also defines the two relations between heaps in which the frame
    properties of the methods are stated: [heap_frame P], which allows only
    the values of attributes outside [P] to change, and [only_changes l],
    which allows only the object at [l] to change. *)

From stdpp Require Import base tactics option list strings gmap.
From S2P Require Import Prelude PyStr PyDict.

(** ** Definitions *)

(** The address of an object (what [id(obj)] identifies). *)
Abbreviation loc := positive.

(** The values an attribute or an argument may hold: [None], booleans,
    integers, strings and references to objects. *)
Inductive value : Type :=
| VNone
| VBool (b : bool)
| VInt (n : Z)
| VStr (s : string)
| VRef (l : loc).

#[export] Instance value_eq_dec : EqDecision value.
Proof. solve_decision. Defined.

#[export] Instance value_inhabited : Inhabited value := populate VNone.

(** The truth value of a value, as [if v] tests it: [None], [False], zero
    and the empty string are false; an object is true (no class of the
    model defines [__bool__] or [__len__]). *)
Definition truthy (v : value) : bool :=
  match v with
  | VNone => false
  | VBool b => b
  | VInt n => negb (n =? 0)%Z
  | VStr s => negb (String.eqb s "")
  | VRef _ => true
  end.

(** A class, as far as the program can tell classes apart: its name and
    whether it derives from [Callback] (and so has [get_params],
    [set_params], [_get_param_names] and the hooks). *)
Record class_desc : Type := Class {
  cls_name : string;
  cls_is_callback : bool;
}.

#[export] Instance class_desc_eq_dec : EqDecision class_desc.
Proof. solve_decision. Defined.

(** An object: its class and its [__dict__]. *)
Record obj : Type := Obj {
  obj_class : class_desc;
  obj_dict : dict value;
}.

Abbreviation heap := (gmap loc obj).

(** The object at an address. *)
Definition load (l : loc) : M heap obj :=
  fun h => lift_option (h !! l) DanglingReference h.

(** [self.__dict__]. *)
Definition get_dict (self : loc) : M heap (dict value) :=
  let! o := load self in ret (obj_dict o).

(** [getattr(self, name, default)]. *)
Definition getattr_default (self : loc) (name : string) (default : value)
    : M heap value :=
  let! o := load self in
  ret (match obj_dict o !! name with Some v => v | None => default end).

(** [setattr(self, name, v)]: assign in the instance dictionary. *)
Definition setattr (self : loc) (name : string) (v : value) : M heap unit :=
  let! o := load self in
  fun h =>
    (Ret tt, <[self := Obj (obj_class o) (<[name := v]> (obj_dict o))]> h).

(** [hasattr(v, m)] for a method [m] of [Callback]: [v] refers to an object
    whose class derives from [Callback]. *)
Definition has_callback_method (v : value) : M heap bool :=
  match v with
  | VRef l => let! o := load l in ret (cls_is_callback (obj_class o))
  | _ => ret false
  end.

(** A value on which [hasattr(v, m)] finds no method of [Callback]: no
    reference, or a reference to an object of another class. *)
Definition no_callback (h : heap) (v : value) : bool :=
  match v with
  | VRef l =>
      match h !! l with
      | Some o => negb (cls_is_callback (obj_class o))
      | None => false
      end
  | _ => true
  end.

(** The receiver of a method call [v.m(...)]: a value that is no reference
    has no such method. *)
Definition receiver (v : value) (method : string) : M heap loc :=
  match v with
  | VRef l => ret l
  | _ => raise (AttributeError method)
  end.

(** [resolve l m body]: the call [l.m(...)] runs [body] when the class of the
    object at [l] derives from [Callback], and raises [AttributeError]
    otherwise. *)
Definition resolve {A} (l : loc) (method : string) (body : M heap A)
    : M heap A :=
  let! o := load l in
  if cls_is_callback (obj_class o) then body
  else raise (AttributeError method).

(** ** Relations between heaps *)

Section Frames.
Context (P : string -> bool).

(** Two states of an object that have the same class, the same attribute
    names in the same order, and the same value for every name in [P]. *)
Definition obj_frame (o o' : obj) : Prop :=
  obj_class o = obj_class o' /\
  keys (obj_dict o) = keys (obj_dict o') /\
  forall k, P k = true -> obj_dict o !! k = obj_dict o' !! k.

(** Two heaps with the same addresses, related object by object. *)
Definition heap_frame (h h' : heap) : Prop :=
  forall l, option_Forall2 obj_frame (h !! l) (h' !! l).

(** [settable h l k]: the object at [l] has the attribute [k], and [k] is
    not in [P]. *)
Definition settable (h : heap) (l : loc) (k : string) : Prop :=
  exists o, h !! l = Some o /\ k ∈ keys (obj_dict o) /\ P k = false.

End Frames.

(** Two heaps that agree everywhere but at [l]. *)
Definition only_changes (l : loc) (h h' : heap) : Prop :=
  forall l', l' <> l -> h !! l' = h' !! l'.

(** The heap invariant: every instance dictionary has unique keys. *)
Definition heap_wf (h : heap) : Prop :=
  forall l o, h !! l = Some o -> dict_wf (obj_dict o).

(** ** Running the primitives *)

Section Lemmas.
Implicit Types (h : heap) (l self : loc) (o : obj) (k name : string)
  (v : value).

Lemma load_run h l o : h !! l = Some o -> load l h = (Ret o, h).
Proof. intros H. unfold load. by rewrite H. Qed.

Lemma load_run_None h l :
  h !! l = None -> load l h = (Raise DanglingReference, h).
Proof. intros H. unfold load. by rewrite H. Qed.

Lemma load_inv h l o h' : load l h = (Ret o, h') -> h !! l = Some o /\ h' = h.
Proof. unfold load. destruct (h !! l); simpl; intros [=]; by subst. Qed.

Lemma get_dict_run h self o :
  h !! self = Some o -> get_dict self h = (Ret (obj_dict o), h).
Proof.
  intros H. unfold get_dict.
  by rewrite (bind_run_ret _ _ _ _ _ (load_run _ _ _ H)).
Qed.

Lemma get_dict_run_None h self :
  h !! self = None -> get_dict self h = (Raise DanglingReference, h).
Proof.
  intros H. unfold get_dict.
  by rewrite (bind_run_raise _ _ _ _ _ (load_run_None _ _ H)).
Qed.

Lemma getattr_default_run h self o name d :
  h !! self = Some o ->
  getattr_default self name d h = (Ret (default d (obj_dict o !! name)), h).
Proof.
  intros H. unfold getattr_default.
  rewrite (bind_run_ret _ _ _ _ _ (load_run _ _ _ H)).
  by destruct (obj_dict o !! name).
Qed.

Lemma setattr_run h self o name v :
  h !! self = Some o ->
  setattr self name v h =
    (Ret tt, <[self := Obj (obj_class o) (<[name := v]> (obj_dict o))]> h).
Proof.
  intros H. unfold setattr.
  by rewrite (bind_run_ret _ _ _ _ _ (load_run _ _ _ H)).
Qed.

Lemma setattr_run_None h self name v :
  h !! self = None -> setattr self name v h = (Raise DanglingReference, h).
Proof.
  intros H. unfold setattr.
  by rewrite (bind_run_raise _ _ _ _ _ (load_run_None _ _ H)).
Qed.

Lemma resolve_run {A} h l o method (body : M heap A) :
  h !! l = Some o ->
  resolve l method body h =
    if cls_is_callback (obj_class o) then body h
    else (Raise (AttributeError method), h).
Proof.
  intros H. unfold resolve.
  rewrite (bind_run_ret _ _ _ _ _ (load_run _ _ _ H)).
  by destruct (cls_is_callback _).
Qed.

(** A resolved call that returns has found a callback and run the body. *)
Lemma resolve_run_None {A} h l method (body : M heap A) :
  h !! l = None -> resolve l method body h = (Raise DanglingReference, h).
Proof.
  intros H. unfold resolve.
  by rewrite (bind_run_raise _ _ _ _ _ (load_run_None _ _ H)).
Qed.

Lemma resolve_ret_inv {A} h l method (body : M heap A) a h' :
  resolve l method body h = (Ret a, h') ->
  exists o, h !! l = Some o /\ cls_is_callback (obj_class o) = true /\
    body h = (Ret a, h').
Proof.
  unfold resolve.
  intros (o & h1 & [Hl ->]%load_inv & Hrun)%bind_ret_inv. exists o.
  by destruct (cls_is_callback (obj_class o)).
Qed.

Lemma has_callback_method_run h l o :
  h !! l = Some o ->
  has_callback_method (VRef l) h = (Ret (cls_is_callback (obj_class o)), h).
Proof.
  intros H. simpl. by rewrite (bind_run_ret _ _ _ _ _ (load_run _ _ _ H)).
Qed.

Lemma has_callback_method_no_callback h v :
  no_callback h v = true -> has_callback_method v h = (Ret false, h).
Proof.
  destruct v as [| | | |l]; try done. cbn [no_callback].
  destruct (h !! l) as [o|] eqn:Hl; [| done].
  rewrite (has_callback_method_run _ _ _ Hl). by intros ->%negb_true_iff.
Qed.

(** ** The primitives that only read *)

Section ReadOnly.
Context (R : relation heap) `{!PreOrder R}.

Lemma preserves_load l : preserves R (load l).
Proof. intros h. unfold load. destruct (h !! l); simpl; reflexivity. Qed.

Local Hint Resolve preserves_load : py.

Lemma preserves_get_dict self : preserves R (get_dict self).
Proof. unfold get_dict. solve_preserves. Qed.

Lemma preserves_getattr_default self name d :
  preserves R (getattr_default self name d).
Proof. unfold getattr_default. solve_preserves. Qed.

Lemma preserves_has_callback_method v : preserves R (has_callback_method v).
Proof. destruct v; simpl; solve_preserves. Qed.

Lemma preserves_receiver v method : preserves R (receiver v method).
Proof. destruct v; simpl; solve_preserves. Qed.

(** What follows the receiver of a call runs on a reference. *)
Lemma preserves_receiver_bind {A} v method (k : loc -> M heap A) :
  (forall l, v = VRef l -> preserves R (k l)) ->
  preserves R (let! l := receiver v method in k l).
Proof.
  intros Hk. destruct v; try (intros h; reflexivity). by apply (Hk l).
Qed.

Lemma preserves_resolve {A} l method (body : M heap A) :
  preserves R body -> preserves R (resolve l method body).
Proof.
  intros Hb. unfold resolve. apply preserves_bind; [solve_preserves .. |].
  intros o. destruct (cls_is_callback _); solve_preserves.
Qed.

End ReadOnly.

Lemma respects_receiver (R : relation heap) v method :
  respects R (receiver v method).
Proof. destruct v; simpl; solve_respects. Qed.

(** ** The frame relations are preorders *)

Section FrameLemmas.
Context (P : string -> bool).

#[export] Instance obj_frame_preorder : PreOrder (obj_frame P).
Proof.
  split.
  - by intros o.
  - intros o1 o2 o3 (Hc1 & Hk1 & Hv1) (Hc2 & Hk2 & Hv2). split_and!.
    + congruence.
    + congruence.
    + intros k Hk. by rewrite Hv1, Hv2.
Qed.

#[export] Instance heap_frame_preorder : PreOrder (heap_frame P).
Proof.
  split.
  - intros h l. destruct (h !! l); constructor. reflexivity.
  - intros h1 h2 h3 H12 H23 l. specialize (H12 l). specialize (H23 l).
    destruct H12; inversion H23; subst; constructor. by etrans.
Qed.

Lemma heap_frame_lookup h h' l o :
  heap_frame P h h' -> h !! l = Some o ->
  exists o', h' !! l = Some o' /\ obj_frame P o o'.
Proof.
  intros Hf Hl. specialize (Hf l). rewrite Hl in Hf. inversion Hf; subst.
  eauto.
Qed.

Lemma heap_frame_lookup_None h h' l :
  heap_frame P h h' -> h !! l = None -> h' !! l = None.
Proof.
  intros Hf Hl. specialize (Hf l). rewrite Hl in Hf. by inversion Hf.
Qed.

Lemma heap_frame_dom h h' : heap_frame P h h' -> dom h = dom h'.
Proof.
  intros Hf. apply set_eq. intros l. rewrite !elem_of_dom.
  specialize (Hf l). destruct Hf; split; intros [? ?]; by eauto.
Qed.

(** Assigning an attribute that exists and is outside [P] stays within the
    frame. *)
Lemma obj_frame_insert o k v :
  k ∈ keys (obj_dict o) -> P k = false ->
  obj_frame P o (Obj (obj_class o) (<[k := v]> (obj_dict o))).
Proof.
  intros Hk HP. split_and!; simpl.
  - done.
  - by rewrite keys_insert_elem.
  - intros k' Hk'. rewrite lookup_insert_dict_ne; [done | congruence].
Qed.

Lemma heap_frame_insert h l o o' :
  h !! l = Some o -> obj_frame P o o' -> heap_frame P h (<[l := o']> h).
Proof.
  intros Hl Ho l'. destruct (decide (l = l')) as [<- | Hne].
  - rewrite lookup_insert_eq, Hl. by constructor.
  - rewrite lookup_insert_ne by done. destruct (h !! l'); constructor.
    reflexivity.
Qed.

Lemma settable_frame h h' l k :
  heap_frame P h h' -> settable P h l k -> settable P h' l k.
Proof.
  intros Hf (o & Hl & Hk & HP).
  destruct (heap_frame_lookup _ _ _ _ Hf Hl) as (o' & Hl' & _ & Hkeys & _).
  exists o'. split_and!; [done | by rewrite <- Hkeys | done].
Qed.

(** [setattr] on a settable attribute stays within the frame. *)
Lemma setattr_frame h self k v :
  settable P h self k -> heap_frame P h (setattr self k v h).2.
Proof.
  intros (o & Hl & Hk & HP). rewrite (setattr_run _ _ _ _ _ Hl). simpl.
  eapply heap_frame_insert; [done |]. by apply obj_frame_insert.
Qed.

End FrameLemmas.

#[export] Instance only_changes_preorder l : PreOrder (only_changes l).
Proof.
  split.
  - by intros h l'.
  - intros h1 h2 h3 H12 H23 l' Hne. by rewrite H12, H23.
Qed.

Lemma setattr_only_changes h self k v :
  only_changes self h (setattr self k v h).2.
Proof.
  intros l' Hne. unfold setattr, bind, load.
  destruct (h !! self); simpl; [| done]. by rewrite lookup_insert_ne.
Qed.

(** [setattr] keeps dictionaries well formed. *)
Lemma setattr_heap_wf h self k v :
  heap_wf h -> heap_wf (setattr self k v h).2.
Proof.
  intros Hwf l o'. unfold setattr, bind, load.
  destruct (h !! self) as [o|] eqn:Hl; simpl; [| apply Hwf].
  destruct (decide (self = l)) as [<- | Hne].
  - rewrite lookup_insert_eq. intros [= <-]. simpl.
    apply dict_wf_insert. by eapply Hwf.
  - rewrite lookup_insert_ne by done. apply Hwf.
Qed.

(** A frame step keeps dictionaries well formed: the keys are the same. *)
Lemma heap_frame_wf P h h' : heap_frame P h h' -> heap_wf h -> heap_wf h'.
Proof.
  intros Hf Hwf l o' Hl'. specialize (Hf l). rewrite Hl' in Hf.
  inversion Hf as [o ? (_ & Hkeys & _) Ho |]; subst.
  unfold dict_wf. rewrite <- Hkeys. by eapply Hwf.
Qed.

End Lemmas.

#[export] Hint Resolve preserves_load preserves_get_dict
  preserves_getattr_default preserves_has_callback_method preserves_receiver
  preserves_resolve respects_receiver : py.
