(* ===== verification/PyCall.v ===== *)
(** * PyCall: how a call binds its arguments to the parameters of a [def]

    Every method of base.py is defined by a [def] with positional-or-keyword
    parameters, some with a default ([deep=True]), and possibly a [**kwargs]
    parameter that takes the keywords naming no other parameter.  A call
    gives positional arguments and keyword arguments; the interpreter binds
    them before the body runs, and raises [TypeError] when they do not fit.

    - [signature] is the parameter list of a [def]; [frame] what the body
      sees: its local variables and the dictionary of the [**kwargs]
      parameter;
    - [bind_args] is the interpreter's binding, in its order: positional
      arguments, then the keywords in keyword order, then the check of the
      number of positional arguments, then the parameters left unbound
      (missing, or given their default);
    - [accepts] says when a call fits and [frame_of] what the body then
      sees, both without reference to the order of the binding;
    - [call] is a function call: bind, then run the body.

    The theorems relate [bind_args] to [accepts] and [frame_of], name the
    error of the first keyword that does not fit, and show that an argument
    may be given by position or by keyword. *)

From stdpp Require Import base tactics option list strings gmap.
From S2P Require Import Prelude PyStr PyDict PyObject.

#[local] Set Warnings "-clear-no-such-hyp".

(** ** Definitions *)

(** The parameter list of a [def]: the name of the function, its
    positional-or-keyword parameters in order, each with its default when it
    has one, and the name of its [**kwargs] parameter when it has one. *)
Record signature : Type := Signature {
  sig_name : string;
  sig_params : list (string * option value);
  sig_varkw : option string;
}.

#[export] Instance signature_eq_dec : EqDecision signature.
Proof. solve_decision. Defined.

(** What the body of a function sees: the local variables bound to the
    parameters, and the dictionary bound to the [**kwargs] parameter, in
    keyword order. *)
Record frame : Type := Frame {
  frame_locals : gmap string value;
  frame_kwargs : dict value;
}.

Definition param_names (sig : signature) : list string := (sig_params sig).*1.

(** The parameters without default. *)
Definition required (sig : signature) : list string :=
  (filter (fun pd => pd.2 = None) (sig_params sig)).*1.

(** The defaults of the parameters that have one. *)
Definition defaults (sig : signature) : gmap string value :=
  list_to_map (omap (fun pd => pair pd.1 <$> pd.2) (sig_params sig)).

(** A [def] the compiler accepts names no parameter twice. *)
Definition sig_wf (sig : signature) : Prop := NoDup (param_names sig).

(** The parameters bound by position: the first parameters, one for each
    positional argument. *)
Definition positional (sig : signature) (args : list value)
    : gmap string value :=
  list_to_map (zip (param_names sig) args).

(** The keywords, in keyword order: a keyword that names a parameter binds
    it unless it is bound already; another keyword goes to the [**kwargs]
    dictionary when the function has one. *)
Fixpoint bind_keywords (sig : signature) (locals : gmap string value)
    (extra : dict value) (kws : list (string * value))
    : outcome (gmap string value * dict value) :=
  match kws with
  | [] => Ret (locals, extra)
  | (k, v) :: kws' =>
      if decide (k ∈ param_names sig) then
        match locals !! k with
        | Some _ => Raise (TypeError (MultipleValues (sig_name sig) k))
        | None => bind_keywords sig (<[k := v]> locals) extra kws'
        end
      else
        match sig_varkw sig with
        | Some _ => bind_keywords sig locals (<[k := v]> extra) kws'
        | None => Raise (TypeError (UnexpectedKeyword (sig_name sig) k))
        end
  end.

(** The parameters without default that are still unbound. *)
Definition missing (sig : signature) (locals : gmap string value)
    : list string :=
  filter (fun p => locals !! p = None) (required sig).

(** The binding of the arguments of a call. *)
Definition bind_args (sig : signature) (args : list value)
    (kwargs : dict value) : outcome frame :=
  match bind_keywords sig (positional sig args) ∅ (items kwargs) with
  | Raise e => Raise e
  | Ret (locals, extra) =>
      if decide (length (sig_params sig) < length args) then
        Raise (TypeError (TooManyPositional (sig_name sig)
                            (length (sig_params sig)) (length args)))
      else
        match missing sig locals with
        | [] => Ret (Frame (locals ∪ defaults sig) extra)
        | names => Raise (TypeError (MissingArguments (sig_name sig) names))
        end
  end.

(** A function call: bind the arguments, then run the body. *)
Definition call {S A} (sig : signature) (body : frame -> M S A)
    (args : list value) (kwargs : dict value) : M S A :=
  let! fr := lift_outcome (bind_args sig args kwargs) in
  body fr.

(** The local variable [x] of a frame. *)
Definition local (fr : frame) (x : string) : value :=
  default VNone (frame_locals fr !! x).

(** Whether a keyword names a parameter. *)
Definition named (sig : signature) (k : string) : bool :=
  bool_decide (k ∈ param_names sig).

(** A keyword fits when it names a parameter that is not bound, or names no
    parameter of a function with [**kwargs]. *)
Definition fits (sig : signature) (locals : gmap string value)
    (k : string) : Prop :=
  if named sig k then locals !! k = None else is_Some (sig_varkw sig).

#[export] Instance fits_dec sig locals k : Decision (fits sig locals k).
Proof. unfold fits. destruct (named sig k); apply _. Defined.

(** The error of a keyword that does not fit. *)
Definition keyword_error (sig : signature) (k : string) : type_error :=
  if named sig k then MultipleValues (sig_name sig) k
  else UnexpectedKeyword (sig_name sig) k.

(** When a call fits a signature: no more positional arguments than
    parameters, every keyword fits, every parameter without default is
    given by position or by keyword. *)
Definition accepts (sig : signature) (args : list value)
    (kwargs : dict value) : Prop :=
  length args <= length (sig_params sig) /\
  Forall (fits sig (positional sig args)) (keys kwargs) /\
  Forall (fun p => p ∈ take (length args) (param_names sig) \/
                   p ∈ keys kwargs) (required sig).

#[export] Instance accepts_dec sig args kwargs :
  Decision (accepts sig args kwargs).
Proof. unfold accepts. apply _. Defined.

(** The error of a call that does not fit, in the order of the
    interpreter: the first keyword that does not fit; or else the positional
    arguments in excess; or else the parameters without default that are
    given neither by position nor by keyword. *)
Definition bind_error (sig : signature) (args : list value)
    (kwargs : dict value) : type_error :=
  match list_find (fun k => ~ fits sig (positional sig args) k)
                  (keys kwargs) with
  | Some (_, k) => keyword_error sig k
  | None =>
      if decide (length (sig_params sig) < length args) then
        TooManyPositional (sig_name sig) (length (sig_params sig))
          (length args)
      else
        MissingArguments (sig_name sig)
          (filter (fun p => (p ∉ take (length args) (param_names sig)) /\
                            p ∉ keys kwargs) (required sig))
  end.

(** What the body sees when the call fits: a parameter holds the positional
    argument at its place, or else the keyword of its name, or else its
    default; the [**kwargs] dictionary holds the other keywords. *)
Definition frame_of (sig : signature) (args : list value)
    (kwargs : dict value) : frame :=
  Frame (positional sig args ∪ to_gmap (filter_keys (named sig) kwargs)
           ∪ defaults sig)
        (filter_keys (fun k => negb (named sig k)) kwargs).

(** A hook as subclasses define it, with two values of the context named
    as parameters with a default:
    [def on_epoch_end(self, net, dataset_train=None, dataset_valid=None,
    **kwargs)]. *)
Definition def_example : signature :=
  Signature "on_epoch_end"
    [("self", None); ("net", None); ("dataset_train", Some VNone);
     ("dataset_valid", Some VNone)]
    (Some "kwargs").

(** A [def] that extends another, as the [def] of an overriding method
    does when it is to be called as the overridden one: the same parameters
    first, further parameters with a default only, and a [**kwargs]
    parameter when the other has one. *)
Definition extends (base sig : signature) : Prop :=
  take (length (sig_params base)) (sig_params sig) = sig_params base /\
  Forall (fun pd => is_Some pd.2)
         (drop (length (sig_params base)) (sig_params sig)) /\
  (is_Some (sig_varkw base) -> is_Some (sig_varkw sig)).

#[export] Instance extends_dec base sig : Decision (extends base sig).
Proof. unfold extends. apply _. Defined.

(** ** Binding the keywords *)

(** The cases of one step of [bind_keywords], for the keyword [k] and the
    parameters [L] bound so far: [k] names a parameter that is bound or
    unbound, or names none, of a function with or without [**kwargs]. *)
Ltac case_keyword sig L k :=
  destruct (decide (k ∈ param_names sig));
    [destruct (L !! k) | destruct (sig_varkw sig)]; try done.

Section Binding.
Context (sig : signature).
Implicit Types (L : gmap string value) (E : dict value)
  (kws : list (string * value)) (k p : string) (v : value)
  (args : list value) (kwargs : dict value) (fr : frame).

Lemma named_true k : named sig k = true <-> k ∈ param_names sig.
Proof. apply bool_decide_eq_true. Qed.

Lemma named_false k : named sig k = false <-> k ∉ param_names sig.
Proof. apply bool_decide_eq_false. Qed.

Lemma fits_named L k : k ∈ param_names sig -> fits sig L k <-> L !! k = None.
Proof. intros Hk%named_true. unfold fits. by rewrite Hk. Qed.

Lemma fits_other L k :
  k ∉ param_names sig -> fits sig L k <-> is_Some (sig_varkw sig).
Proof. intros Hk%named_false. unfold fits. by rewrite Hk. Qed.

(** A keyword that fits still fits after another name is bound. *)
Lemma fits_insert L k k' v : k <> k' -> fits sig L k' -> fits sig (<[k := v]> L) k'.
Proof.
  intros Hne. unfold fits. destruct (named sig k'); [| done].
  by rewrite lookup_insert_ne.
Qed.

(** The keywords of a call that fit are bound: those that name a parameter
    to the parameter, the others in the [**kwargs] dictionary, in keyword
    order. *)
(** Binding a name makes no keyword fit that did not. *)
Lemma fits_insert_inv L k k' v : fits sig (<[k := v]> L) k' -> fits sig L k'.
Proof.
  unfold fits. destruct (named sig k'); [| done].
  by intros [? _]%lookup_insert_None.
Qed.

Lemma Forall_fits_insert L k v (ks : list string) :
  k ∉ ks -> Forall (fits sig L) ks -> Forall (fits sig (<[k := v]> L)) ks.
Proof.
  rewrite !Forall_forall. intros Hk Hall k' Hin.
  apply fits_insert; [| by apply Hall]. by intros ->.
Qed.

Lemma bind_keywords_fits L E kws :
  NoDup kws.*1 -> Forall (fits sig L) kws.*1 ->
  bind_keywords sig L E kws =
    Ret (L ∪ to_gmap (filter_keys (named sig) (Dict kws)),
         update E (items (filter_keys (fun k => negb (named sig k))
                            (Dict kws)))).
Proof.
  revert L E. induction kws as [|[k v] kws IH]; intros L E Hnd Hall.
  - simpl. unfold to_gmap. simpl. by rewrite (right_id _ _).
  - rewrite fmap_cons in Hnd, Hall. apply NoDup_cons in Hnd as [Hk Hnd].
    apply Forall_cons in Hall as [Hfit Hall]. cbn [fst] in Hk, Hfit.
    cbn [bind_keywords]. unfold filter_keys, to_gmap. cbn [items].
    rewrite !filter_cons. cbn [fst].
    destruct (decide (k ∈ param_names sig)) as [Hin | Hni].
    + apply fits_named in Hfit; [| done]. rewrite Hfit.
      rewrite IH; [| done | by apply Forall_fits_insert].
      apply named_true in Hin. rewrite Hin. cbn [negb].
      rewrite decide_True, decide_False by done. cbn [list_to_map foldr].
      by rewrite <- insert_union_r, insert_union_l.
    + apply fits_other in Hfit as [kw Hkw]; [| done]. rewrite Hkw.
      rewrite IH by done. apply named_false in Hni. rewrite Hni. cbn [negb].
      by rewrite decide_False, decide_True.
Qed.

(** The first keyword that does not fit ends the binding with its error. *)
Lemma bind_keywords_misfit L E pre k v post :
  NoDup pre.*1 -> Forall (fits sig L) pre.*1 -> ~ fits sig L k ->
  bind_keywords sig L E (pre ++ (k, v) :: post) =
    Raise (TypeError (keyword_error sig k)).
Proof.
  revert L E. induction pre as [|[k' v'] pre IH]; intros L E Hnd Hall Hk.
  - cbn [app bind_keywords]. unfold fits, keyword_error, named in *.
    destruct (decide (k ∈ param_names sig)).
    + rewrite bool_decide_eq_true_2 in * by done.
      by destruct (L !! k).
    + rewrite bool_decide_eq_false_2 in * by done.
      destruct (sig_varkw sig); [by destruct Hk | done].
  - rewrite fmap_cons in Hnd, Hall. apply NoDup_cons in Hnd as [Hk' Hnd].
    apply Forall_cons in Hall as [Hfit Hall]. cbn [fst] in Hk', Hfit.
    cbn [app bind_keywords].
    destruct (decide (k' ∈ param_names sig)) as [Hin | Hni].
    + apply fits_named in Hfit; [| done]. rewrite Hfit.
      apply IH; [done | by apply Forall_fits_insert |].
      by intros ?%fits_insert_inv.
    + apply fits_other in Hfit as [kw Hkw]; [| done]. rewrite Hkw.
      by apply IH.
Qed.

(** Whatever the keywords, the binding ends in a [TypeError] when it does
    not return. *)
Lemma bind_keywords_raise L E kws e :
  bind_keywords sig L E kws = Raise e -> exists why, e = TypeError why.
Proof.
  revert L E. induction kws as [|[k v] kws IH]; intros L E; [done |].
  cbn [bind_keywords]. repeat case_match; eauto; intros [= <-]; eauto.
Qed.

(** The [**kwargs] dictionary holds keywords of the call only. *)
Lemma bind_keywords_extra_items L E kws L' E' kv :
  bind_keywords sig L E kws = Ret (L', E') -> kv ∈ items E' ->
  kv ∈ items E \/ kv ∈ kws.
Proof.
  revert L E. induction kws as [|[k' v] kws IH]; intros L E Hrun Hk;
    [left; by simplify_eq/= |].
  cbn [bind_keywords] in Hrun. rewrite elem_of_cons.
  case_keyword sig L k'; destruct (IH _ _ Hrun Hk) as [Hin | Hin]; try tauto.
  apply elem_of_items_insert in Hin. tauto.
Qed.

(** ** The positional arguments *)

Lemma positional_lookup_None args k :
  positional sig args !! k = None <->
  k ∉ take (length args) (param_names sig).
Proof.
  unfold positional. by rewrite <- not_elem_of_list_to_map, fst_zip_take.
Qed.

(** The keywords fit after the positional arguments when none of them
    names a parameter that is given by position and, on a [def] without
    [**kwargs], each of them names a parameter. *)
Lemma Forall_fits_positional args (ks : list string) :
  Forall (fits sig (positional sig args)) ks <->
  Forall (fun p => p ∉ ks) (take (length args) (param_names sig)) /\
  (sig_varkw sig = None -> Forall (fun k => k ∈ param_names sig) ks).
Proof.
  rewrite !Forall_forall. split.
  - intros Hfit. split.
    + intros p Hp Hin. apply (positional_lookup_None args p); [| done].
      apply fits_named; [| by apply Hfit].
      eapply elem_of_sublist; [exact Hp | apply sublist_take].
    + intros Hkw k Hk%Hfit.
      destruct (decide (k ∈ param_names sig)) as [| Hn]; [done |].
      apply (fits_other _ _ Hn) in Hk. rewrite Hkw in Hk. by destruct Hk.
  - intros [Hpos Hkw] k Hk.
    destruct (decide (k ∈ param_names sig)) as [Hn | Hn].
    + apply fits_named, positional_lookup_None; [done |]. intros Hin.
      by apply (Hpos k).
    + apply fits_other; [done |]. destruct (sig_varkw sig); [by eexists |].
      destruct Hn. by apply (Hkw eq_refl k).
Qed.

(** With distinct parameter names, the parameter at a place holds the
    positional argument at that place. *)
Lemma positional_lookup args i p :
  sig_wf sig -> param_names sig !! i = Some p ->
  positional sig args !! p = args !! i.
Proof.
  intros Hwf Hp. destruct (args !! i) as [v|] eqn:Hv.
  - apply elem_of_list_to_map_1.
    + rewrite fst_zip_take. eapply sublist_NoDup; [exact Hwf |].
      apply sublist_take.
    + apply list_elem_of_lookup. exists i. by apply lookup_zip_Some.
  - apply positional_lookup_None. intros (j & Hj & Hlt)%elem_of_take.
    apply lookup_ge_None in Hv.
    pose proof (NoDup_lookup _ _ _ _ Hwf Hp Hj). lia.
Qed.

(** ** The binding of a call *)

Lemma required_named p : p ∈ required sig -> p ∈ param_names sig.
Proof.
  unfold required, param_names. rewrite !list_elem_of_fmap.
  intros (pd & -> & [_ Hin]%list_elem_of_filter). eauto.
Qed.

(** The parameters missing after the positional arguments and the keywords
    are bound. *)
Lemma missing_bound args kwargs :
  missing sig (positional sig args ∪ to_gmap (filter_keys (named sig) kwargs)) =
  filter (fun p => (p ∉ take (length args) (param_names sig)) /\ p ∉ keys kwargs)
         (required sig).
Proof.
  apply filter_ext_elem. intros p Hp%required_named%named_true.
  rewrite lookup_union_None, positional_lookup_None, to_gmap_lookup.
  by rewrite lookup_filter_keys, Hp, lookup_dict_None.
Qed.

(** The binding of a call whose keywords fit. *)
Lemma bind_args_fits args kwargs :
  dict_wf kwargs -> Forall (fits sig (positional sig args)) (keys kwargs) ->
  bind_args sig args kwargs =
    if decide (length (sig_params sig) < length args) then
      Raise (TypeError (TooManyPositional (sig_name sig)
                          (length (sig_params sig)) (length args)))
    else
      match filter (fun p => (p ∉ take (length args) (param_names sig)) /\
                             p ∉ keys kwargs) (required sig) with
      | [] => Ret (frame_of sig args kwargs)
      | names => Raise (TypeError (MissingArguments (sig_name sig) names))
      end.
Proof.
  intros Hwf Hall. unfold bind_args.
  rewrite bind_keywords_fits, dict_items_eta by done.
  case_decide; [done |]. rewrite missing_bound.
  destruct (filter _ (required sig)); [| done].
  unfold frame_of. do 2 f_equal.
  rewrite update_empty_NoDup; [apply dict_items_eta |].
  by apply dict_wf_filter_keys.
Qed.

Lemma bind_args_kwargs_items args kwargs fr kv :
  bind_args sig args kwargs = Ret fr -> kv ∈ items (frame_kwargs fr) ->
  kv ∈ items kwargs.
Proof.
  unfold bind_args.
  destruct (bind_keywords sig _ ∅ (items kwargs)) as [[L' E']|e] eqn:Hrun;
    [| done].
  case_decide; [done |]. destruct (missing sig L'); [| done].
  intros [= <-] Hk. cbn [frame_kwargs] in Hk.
  by destruct (bind_keywords_extra_items _ _ _ _ _ _ Hrun Hk)
    as [?%elem_of_nil | ?].
Qed.

Lemma bind_args_kwargs_keys args kwargs fr k :
  bind_args sig args kwargs = Ret fr -> k ∈ keys (frame_kwargs fr) ->
  k ∈ keys kwargs.
Proof.
  intros Hrun ([k' v] & -> & Hin)%list_elem_of_fmap.
  apply list_elem_of_fmap. exists (k', v).
  split; [done | by eapply bind_args_kwargs_items].
Qed.

(** The binding of a call with a keyword that does not fit. *)
Lemma bind_args_misfit args kwargs pre k post :
  dict_wf kwargs -> keys kwargs = pre ++ k :: post ->
  Forall (fits sig (positional sig args)) pre ->
  ~ fits sig (positional sig args) k ->
  bind_args sig args kwargs = Raise (TypeError (keyword_error sig k)).
Proof.
  unfold dict_wf, keys, bind_args.
  intros Hwf (pre' & rest & -> & Hrest & Hitems)%fmap_app_inv Hpre Hk.
  symmetry in Hrest.
  apply fmap_cons_inv in Hrest as ([k' v] & post' & -> & -> & ->).
  rewrite Hitems in Hwf |- *. rewrite fmap_app in Hwf.
  apply NoDup_app in Hwf as (Hnd & _ & _).
  by rewrite bind_keywords_misfit.
Qed.

(** Every parameter without default is given exactly when none is
    missing. *)
Lemma required_given args kwargs :
  filter (fun p => (p ∉ take (length args) (param_names sig)) /\ p ∉ keys kwargs)
         (required sig) = [] <->
  Forall (fun p => p ∈ take (length args) (param_names sig) \/ p ∈ keys kwargs)
         (required sig).
Proof.
  rewrite filter_nil_Forall. apply Forall_iff. intros p.
  destruct (decide (p ∈ take (length args) (param_names sig)));
    destruct (decide (p ∈ keys kwargs)); tauto.
Qed.

(** A parameter holds its default in [defaults] when it has one. *)
Lemma defaults_lookup i p d :
  sig_wf sig -> sig_params sig !! i = Some (p, d) -> defaults sig !! p = d.
Proof.
  unfold sig_wf, param_names, defaults. revert i.
  induction (sig_params sig) as [|[q [w|]] l IH]; intros [|i] Hnd Hi;
    simplify_eq/=; apply NoDup_cons in Hnd as [Hq Hnd].
  - apply lookup_insert_eq.
  - rewrite lookup_insert_ne; [by eapply IH |]. intros ->. apply Hq.
    apply list_elem_of_fmap. exists (p, d). split; [done |].
    by eapply list_elem_of_lookup_2.
  - apply not_elem_of_list_to_map. intros Hin. apply Hq.
    apply list_elem_of_fmap in Hin as ([q v] & -> & Hin). simpl.
    apply list_elem_of_omap in Hin as ([q' d'] & Hin & Heq).
    destruct d'; simplify_eq/=. apply list_elem_of_fmap. by eexists (_, _).
  - by eapply IH.
Qed.

(** What a parameter holds when the call fits: the positional argument at
    its place, or else the keyword of its name, or else its default. *)
Lemma frame_of_lookup args kwargs i p d :
  sig_wf sig -> sig_params sig !! i = Some (p, d) ->
  frame_locals (frame_of sig args kwargs) !! p =
    match args !! i with
    | Some v => Some v
    | None => match kwargs !! p with Some v => Some v | None => d end
    end.
Proof.
  intros Hwf Hi. assert (param_names sig !! i = Some p) as Hp.
  { unfold param_names. by rewrite list_lookup_fmap, Hi. }
  unfold frame_of. cbn [frame_locals]. rewrite !lookup_union.
  rewrite (positional_lookup _ _ _ Hwf Hp), to_gmap_lookup.
  rewrite lookup_filter_keys, (defaults_lookup _ _ _ Hwf Hi).
  rewrite (proj2 (named_true p)) by by eapply list_elem_of_lookup_2.
  by destruct (args !! i), (kwargs !! p), d.
Qed.

(** ** By position or by keyword *)

(** The keywords are bound one after the other. *)
Lemma bind_keywords_app L E kws1 kws2 :
  bind_keywords sig L E (kws1 ++ kws2) =
    match bind_keywords sig L E kws1 with
    | Ret (L', E') => bind_keywords sig L' E' kws2
    | Raise e => Raise e
    end.
Proof.
  revert L E. induction kws1 as [|[k v] kws1 IH]; intros L E; [done |].
  cbn [app bind_keywords].
  case_keyword sig L k; apply IH.
Qed.

(** A parameter that no keyword names may be bound before the keywords or
    after them. *)
Lemma bind_keywords_insert L E kws p v :
  p ∉ kws.*1 ->
  bind_keywords sig (<[p := v]> L) E kws =
    match bind_keywords sig L E kws with
    | Ret (L', E') => Ret (<[p := v]> L', E')
    | Raise e => Raise e
    end.
Proof.
  revert L E. induction kws as [|[k w] kws IH]; intros L E Hp; [done |].
  rewrite fmap_cons in Hp. apply not_elem_of_cons in Hp as [Hne Hp].
  cbn [fst] in Hne. cbn [bind_keywords].
  rewrite lookup_insert_ne by done.
  case_keyword sig L k; [| by apply IH].
  rewrite insert_insert_ne by done. by apply IH.
Qed.

(** The keywords leave a parameter they do not name as it was. *)
Lemma bind_keywords_lookup L E kws L' E' p :
  bind_keywords sig L E kws = Ret (L', E') -> p ∉ kws.*1 ->
  L' !! p = L !! p.
Proof.
  revert L E. induction kws as [|[k w] kws IH]; intros L E Hrun Hp;
    [by simplify_eq/= |].
  rewrite fmap_cons in Hp. apply not_elem_of_cons in Hp as [Hne Hp].
  cbn [fst] in Hne. cbn [bind_keywords] in Hrun.
  case_keyword sig L k; erewrite IH by done; [| done].
  by apply lookup_insert_ne.
Qed.

(** A name that is no parameter is not bound by position. *)
Lemma positional_lookup_other args q :
  q ∉ param_names sig -> positional sig args !! q = None.
Proof.
  intros Hq. apply positional_lookup_None.
  intros (j & Hj & _)%elem_of_take. by eapply Hq, list_elem_of_lookup_2.
Qed.

(** One more positional argument binds the next parameter. *)
Lemma positional_snoc args v p :
  sig_wf sig -> param_names sig !! length args = Some p ->
  positional sig (args ++ [v]) = <[p := v]> (positional sig args).
Proof.
  intros Hwf Hp. apply map_eq. intros q.
  destruct (decide (q = p)) as [-> | Hne].
  - rewrite lookup_insert_eq, (positional_lookup _ _ _ Hwf Hp).
    by rewrite lookup_app_r, Nat.sub_diag.
  - rewrite lookup_insert_ne by done.
    destruct (decide (q ∈ param_names sig))
      as [[j Hj]%list_elem_of_lookup | Hq];
      [| by rewrite !positional_lookup_other].
    rewrite !(positional_lookup _ _ _ Hwf Hj).
    assert (j <> length args) by (intros ->; congruence).
    destruct (decide (j < length args)); [by rewrite lookup_app_l |].
    rewrite !lookup_ge_None_2; [done | lia | rewrite length_app; simpl; lia].
Qed.

Lemma required_NoDup : sig_wf sig -> NoDup (required sig).
Proof. apply NoDup_fst_filter. Qed.

(** The parameters given by position and the keywords of a call that fits
    are distinct names. *)
Lemma bound_keywords_NoDup args kwargs :
  sig_wf sig -> dict_wf kwargs ->
  Forall (fits sig (positional sig args)) (keys kwargs) ->
  NoDup (take (length args) (param_names sig) ++ keys kwargs).
Proof.
  intros Hwf Hkw Hfits. apply NoDup_app. split_and!; [| | done].
  - eapply sublist_NoDup; [exact Hwf | apply sublist_take].
  - intros p Hp Hin. rewrite Forall_forall in Hfits.
    apply (Hfits p), fits_named, positional_lookup_None in Hin;
      [done | by eapply subseteq_take].
Qed.

(** The binding of a call, decided: the frame when the call fits, the
    error when it does not. *)
Lemma bind_args_decide args kwargs :
  dict_wf kwargs ->
  bind_args sig args kwargs =
    if decide (accepts sig args kwargs) then Ret (frame_of sig args kwargs)
    else Raise (TypeError (bind_error sig args kwargs)).
Proof.
  intros Hwf. unfold bind_error, accepts.
  destruct (list_find _ (keys kwargs)) as [[i k]|] eqn:Hfind.
  - apply list_find_split in Hfind as (pre & post & Hkeys & Hpre & Hk).
    rewrite decide_False.
    + eapply bind_args_misfit; [done.. | | done].
      eapply Forall_impl; [exact Hpre |]. intros k'. apply dec_stable.
    + rewrite Hkeys, Forall_app, Forall_cons. tauto.
  - apply list_find_None in Hfind.
    assert (Forall (fits sig (positional sig args)) (keys kwargs)) as Hall.
    { eapply Forall_impl; [exact Hfind |]. intros k'. apply dec_stable. }
    rewrite bind_args_fits by done.
    pose proof (required_given args kwargs) as Hreq.
    destruct (filter _ (required sig)) as [|p names];
      repeat case_decide; try done; naive_solver lia.
Qed.

(** A call with one more positional argument binds as the call that gives
    this argument by the name of the parameter at its place. *)
Lemma bind_args_positional_keyword args v p kwargs :
  sig_wf sig -> dict_wf kwargs ->
  param_names sig !! length args = Some p -> p ∉ keys kwargs ->
  bind_args sig (args ++ [v]) kwargs = bind_args sig args (<[p := v]> kwargs).
Proof.
  intros Hwf Hkw Hp Hfresh. unfold bind_args.
  assert (p ∈ param_names sig) as Hin by by eapply list_elem_of_lookup_2.
  pose proof (lookup_lt_Some _ _ _ Hp) as Hlt.
  unfold param_names in Hlt. rewrite length_fmap in Hlt.
  rewrite (positional_snoc _ _ _ Hwf Hp), bind_keywords_insert by done.
  rewrite (insert_dict_not_elem _ _ _ Hfresh). cbn [items].
  rewrite bind_keywords_app.
  destruct (bind_keywords sig _ ∅ (items kwargs)) as [[L' E']|e] eqn:Hrun;
    [| done].
  cbn [bind_keywords]. destruct (decide (p ∈ param_names sig)); [| done].
  rewrite (bind_keywords_lookup _ _ _ _ _ _ Hrun) by done.
  rewrite (proj2 (positional_lookup_None _ _)).
  - rewrite length_app. simpl. by repeat case_decide; try lia.
  - intros (j & Hj & ?)%elem_of_take.
    pose proof (NoDup_lookup _ _ _ _ Hwf Hp Hj). lia.
Qed.

(** A keyword that names no parameter of a function with [**kwargs] is
    added to the dictionary and changes nothing else of the binding. *)
Lemma bind_args_extra_keyword args kwargs k v :
  is_Some (sig_varkw sig) -> k ∉ param_names sig -> k ∉ keys kwargs ->
  bind_args sig args (<[k := v]> kwargs) =
    outcome_map (fun fr => Frame (frame_locals fr) (<[k := v]> (frame_kwargs fr)))
                (bind_args sig args kwargs).
Proof.
  intros [kw Hkw] Hk Hfresh. unfold bind_args.
  rewrite (insert_dict_not_elem _ _ _ Hfresh). cbn [items].
  rewrite bind_keywords_app.
  destruct (bind_keywords sig _ ∅ (items kwargs)) as [[L' E']|e]; [| done].
  cbn [bind_keywords]. rewrite decide_False, Hkw by done.
  case_decide; [done |]. by destruct (missing sig L').
Qed.

(** When the call fits, exactly the parameters are bound in the frame. *)
Lemma frame_of_bound args kwargs p :
  sig_wf sig -> accepts sig args kwargs ->
  p ∈ param_names sig <-> is_Some (frame_locals (frame_of sig args kwargs) !! p).
Proof.
  intros Hwf (Hlen & Hfits & Hreq). split.
  - intros [i Hi]%list_elem_of_lookup. unfold param_names in Hi.
    rewrite list_lookup_fmap in Hi.
    destruct (sig_params sig !! i) as [[q d]|] eqn:Hq; [| done].
    simpl in Hi. injection Hi as ->.
    rewrite (frame_of_lookup _ _ _ _ _ Hwf Hq).
    destruct (args !! i) as [v|] eqn:Hv; [by eexists |].
    destruct (kwargs !! p) as [v|] eqn:Hkw; [by eexists |].
    destruct d as [v|]; [by eexists |]. exfalso.
    rewrite Forall_forall in Hreq. destruct (Hreq p) as [Hin | Hin].
    + apply list_elem_of_fmap. exists (p, None). split; [done |].
      apply list_elem_of_filter. split; [done |].
      by eapply list_elem_of_lookup_2.
    + apply (proj1 (positional_lookup_None args p)); [| done].
      rewrite (positional_lookup _ i _ Hwf); [done |].
      unfold param_names. by rewrite list_lookup_fmap, Hq.
    + by apply lookup_dict_None in Hkw.
  - unfold frame_of. cbn [frame_locals].
    intros [v [[Hv | Hv]%lookup_union_Some_raw | [_ Hv]]%lookup_union_Some_raw].
    + destruct (decide (p ∈ param_names sig)) as [? | Hp]; [done |].
      by rewrite positional_lookup_other in Hv.
    + destruct Hv as [_ Hv]. rewrite to_gmap_lookup, lookup_filter_keys in Hv.
      destruct (named sig p) eqn:Hn; [by apply named_true | done].
    + apply elem_of_list_to_map_2, list_elem_of_omap in Hv
        as ([q d] & Hin & Heq).
      destruct d; simplify_eq/=. apply list_elem_of_fmap. by exists (p, Some v).
Qed.

End Binding.

(** ** Calls *)

Section Calls.
Context {S A : Type} (sig : signature).
Implicit Types (body : frame -> M S A) (args : list value)
  (kwargs : dict value) (s : S).

(** A call that fits runs the body on the frame of its arguments. *)
Lemma call_accepts body args kwargs s :
  dict_wf kwargs -> accepts sig args kwargs ->
  call sig body args kwargs s = body (frame_of sig args kwargs) s.
Proof.
  intros Hwf Hacc. unfold call, bind, lift_outcome.
  rewrite bind_args_fits by (done || apply Hacc).
  destruct Hacc as (Hlen & _ & Hreq%required_given).
  rewrite decide_False by lia. by rewrite Hreq.
Qed.

(** A call that does not fit raises the [TypeError] of its arguments and
    does not run the body. *)
Lemma call_rejects body args kwargs s :
  dict_wf kwargs -> ~ accepts sig args kwargs ->
  call sig body args kwargs s =
    (Raise (TypeError (bind_error sig args kwargs)), s).
Proof.
  intros Hwf Hacc. unfold call, bind, lift_outcome.
  by rewrite bind_args_decide, decide_False.
Qed.

(** A call that returns has bound its arguments and run the body. *)
Lemma call_ret_inv body args kwargs s a s' :
  call sig body args kwargs s = (Ret a, s') ->
  exists fr, bind_args sig args kwargs = Ret fr /\ body fr s = (Ret a, s').
Proof.
  unfold call, bind, lift_outcome.
  destruct (bind_args sig args kwargs) as [fr|e]; [eauto | done].
Qed.

(** A call keeps what its body keeps on the frame of the call: binding the
    arguments changes nothing. *)
Lemma preserves_call_bound (R : relation S) `{!PreOrder R} body args kwargs :
  (forall fr, bind_args sig args kwargs = Ret fr -> preserves R (body fr)) ->
  preserves R (call sig body args kwargs).
Proof.
  intros Hbody s. unfold call, bind, lift_outcome.
  destruct (bind_args sig args kwargs) as [fr|e]; [by apply Hbody | done].
Qed.

Lemma preserves_call (R : relation S) `{!PreOrder R} body args kwargs :
  (forall fr, preserves R (body fr)) ->
  preserves R (call sig body args kwargs).
Proof. intros Hbody. apply preserves_call_bound; auto. Qed.

Lemma respects_call (R : relation S) body args kwargs :
  (forall fr, respects R (body fr)) ->
  respects R (call sig body args kwargs).
Proof. intros Hbody. unfold call. solve_respects. Qed.

Lemma deeper_call body body' args kwargs :
  (forall fr, deeper (body fr) (body' fr)) ->
  deeper (call sig body args kwargs) (call sig body' args kwargs).
Proof. intros Hbody. by apply deeper_bind. Qed.

End Calls.

#[export] Hint Resolve preserves_call respects_call : py.

(** ** Calls that give every parameter by position *)

Section Full.
Context (sig : signature).
Implicit Types (args : list value) (kwargs : dict value) (k : string).

(** When every parameter is given by position, a call to a function with
    [**kwargs] fits exactly when no keyword names a parameter, and the
    [**kwargs] dictionary is the dictionary of the keywords. *)
Lemma accepts_full args kwargs :
  length args = length (sig_params sig) -> is_Some (sig_varkw sig) ->
  accepts sig args kwargs <->
  Forall (fun k => k ∉ param_names sig) (keys kwargs).
Proof.
  intros Hlen Hkw. unfold accepts.
  assert (take (length args) (param_names sig) = param_names sig) as Htake.
  { apply take_ge. unfold param_names. rewrite length_fmap. lia. }
  rewrite Htake. split.
  - intros (_ & Hfits & _). eapply Forall_impl; [exact Hfits |].
    intros k Hk Hin. apply (fits_named _ _ _ Hin) in Hk.
    apply positional_lookup_None in Hk. by rewrite Htake in Hk.
  - intros Hall. split_and!; [lia | |].
    + eapply Forall_impl; [exact Hall |]. intros k Hk. by apply fits_other.
    + apply Forall_forall. intros p Hp%required_named. by left.
Qed.

Lemma frame_of_kwargs args kwargs :
  Forall (fun k => k ∉ param_names sig) (keys kwargs) ->
  frame_kwargs (frame_of sig args kwargs) = kwargs.
Proof.
  intros Hall. unfold frame_of. cbn [frame_kwargs]. apply filter_keys_all.
  eapply Forall_impl; [exact Hall |]. by intros k ->%named_false.
Qed.

(** With every parameter given by position, a keyword that names a
    parameter gives it a second value. *)
Lemma bind_args_full_rejects args kwargs :
  length args = length (sig_params sig) -> is_Some (sig_varkw sig) ->
  dict_wf kwargs -> ~ Forall (fun k => k ∉ param_names sig) (keys kwargs) ->
  exists k, k ∈ param_names sig /\ k ∈ keys kwargs /\
    bind_args sig args kwargs =
      Raise (TypeError (MultipleValues (sig_name sig) k)).
Proof.
  intros Hlen Hkw Hwf Hnot.
  destruct (Forall_or_first (fun k => k ∉ param_names sig) (keys kwargs))
    as [? | (pre & k & post & Hkeys & Hpre & Hk%dec_stable)]; [done |].
  exists k. split_and!; [done | rewrite Hkeys; set_solver |].
  erewrite bind_args_misfit; [| done | exact Hkeys | |].
  - unfold keyword_error. by rewrite (proj2 (named_true _ _) Hk).
  - eapply Forall_impl; [exact Hpre |]. intros k' Hk'. by apply fits_other.
  - rewrite (fits_named _ _ _ Hk), positional_lookup_None, take_ge; [tauto |].
    unfold param_names. rewrite length_fmap. lia.
Qed.

End Full.

(** ** Overriding definitions *)

Section Extends.
Context (base sig : signature) (Hwf : sig_wf sig) (Hext : extends base sig).
Implicit Types (args : list value) (kwargs : dict value) (k p : string).

Lemma extends_params :
  sig_params sig =
  sig_params base ++ drop (length (sig_params base)) (sig_params sig).
Proof.
  destruct Hext as (Htake & _). rewrite <- Htake at 1. by rewrite take_drop.
Qed.

Lemma extends_names :
  param_names sig =
  param_names base ++ (drop (length (sig_params base)) (sig_params sig)).*1.
Proof. unfold param_names. by rewrite extends_params at 1; rewrite fmap_app. Qed.

Lemma extends_wf : sig_wf base.
Proof.
  unfold sig_wf in *. rewrite extends_names in Hwf.
  by apply NoDup_app in Hwf as (? & _).
Qed.

Lemma extends_named p : p ∈ param_names base -> p ∈ param_names sig.
Proof. rewrite extends_names. set_solver. Qed.

(** The further parameters have a default. *)
Lemma extends_required : required sig = required base.
Proof.
  unfold required. rewrite extends_params at 1. rewrite filter_app.
  destruct Hext as (_ & Hdef & _).
  rewrite (proj2 (filter_nil_Forall _ (drop _ _))), app_nil_r; [done |].
  eapply Forall_impl; [exact Hdef |]. intros [p [d|]] [? Hd]; by simplify_eq/=.
Qed.

Lemma extends_take args :
  length args <= length (sig_params base) ->
  take (length args) (param_names sig) = take (length args) (param_names base).
Proof.
  intros Hlen. rewrite extends_names, take_app_le; [done |].
  unfold param_names. by rewrite length_fmap.
Qed.

Lemma extends_fits args k :
  length args <= length (sig_params base) ->
  fits base (positional base args) k -> fits sig (positional sig args) k.
Proof.
  intros Hlen Hfit. destruct (decide (k ∈ param_names sig)) as [Hin | Hno].
  - apply fits_named; [done |]. apply positional_lookup_None.
    rewrite extends_take by done. intros Hk.
    assert (k ∈ param_names base) as Hb by by eapply subseteq_take.
    by apply (fits_named _ _ _ Hb), positional_lookup_None in Hfit.
  - apply fits_other; [done |]. destruct Hext as (_ & _ & Hkw). apply Hkw.
    eapply fits_other; [| exact Hfit]. intros ?. by apply Hno, extends_named.
Qed.

(** A call that fits a definition fits every definition that extends
    it. *)
Lemma extends_accepts args kwargs :
  accepts base args kwargs -> accepts sig args kwargs.
Proof.
  intros (Hlen & Hfits & Hreq). split_and!.
  - rewrite extends_params, length_app. lia.
  - eapply Forall_impl; [exact Hfits |]. intros k. by apply extends_fits.
  - by rewrite extends_required, extends_take.
Qed.

(** When every parameter of the extended definition is given by
    position, no other call fits. *)
Lemma extends_accepts_full args kwargs :
  length args = length (sig_params base) -> is_Some (sig_varkw base) ->
  accepts sig args kwargs <-> accepts base args kwargs.
Proof.
  intros Hlen Hkw. split; [| apply extends_accepts].
  intros (_ & Hfits & _). apply accepts_full; [done | done |].
  eapply Forall_impl; [exact Hfits |]. intros k Hfit Hk.
  apply fits_named, positional_lookup_None in Hfit; [| by apply extends_named].
  apply Hfit. rewrite extends_take, take_ge; [done | | lia].
  unfold param_names. rewrite length_fmap. lia.
Qed.

(** The parameters of the extended definition hold what they hold in
    it. *)
Lemma extends_local args kwargs p :
  p ∈ param_names base ->
  frame_locals (frame_of sig args kwargs) !! p =
  frame_locals (frame_of base args kwargs) !! p.
Proof.
  unfold param_names. intros (i & Hi)%list_elem_of_lookup_1.
  rewrite list_lookup_fmap in Hi.
  destruct (sig_params base !! i) as [[q d]|] eqn:Hq; [| done].
  injection Hi as <-.
  rewrite (frame_of_lookup sig _ _ i q d), (frame_of_lookup base _ _ i q d);
    [done | apply extends_wf | done | done |].
  rewrite extends_params. by apply lookup_app_l_Some.
Qed.

(** A further parameter holds the keyword of its name, or else its
    default, when the positional arguments are those of the extended
    definition. *)
Lemma extends_further args kwargs i p d :
  length args <= length (sig_params base) <= i ->
  sig_params sig !! i = Some (p, Some d) ->
  frame_locals (frame_of sig args kwargs) !! p =
    Some (default d (kwargs !! p)).
Proof.
  intros Hlen Hi. rewrite (frame_of_lookup sig _ _ i p (Some d)) by done.
  rewrite (proj2 (lookup_ge_None args i)) by lia. by destruct (kwargs !! p).
Qed.

End Extends.

Lemma extends_refl sig : extends sig sig.
Proof.
  unfold extends. by rewrite take_ge, drop_ge by lia.
Qed.

(** ** Theorems *)

Section Theorems.
Context (sig : signature).
Implicit Types (args : list value) (kwargs : dict value) (k p : string)
  (v : value) (fr : frame).

(** C17.  The binding of the arguments of a call: when the call fits the
    signature, the body sees the frame in which each parameter holds the
    positional argument at its place, or else the keyword of its name, or
    else its default, and the [**kwargs] dictionary holds the other keywords
    in keyword order; when it does not fit, the call raises [TypeError] for
    the first keyword that does not fit, or else for the positional
    arguments in excess, or else for the parameters left without value. *)
Theorem bind_args_spec args kwargs :
  dict_wf kwargs ->
  bind_args sig args kwargs =
    if decide (accepts sig args kwargs) then Ret (frame_of sig args kwargs)
    else Raise (TypeError (bind_error sig args kwargs)).
Proof. apply bind_args_decide. Qed.

(** What the trainer adds to the context reaches the [**kwargs]
    dictionary and nothing else: for a function with [**kwargs], a further
    keyword that names no parameter leaves the outcome of the binding and
    the parameters as they are, and is added at the end of the
    dictionary. *)
Theorem kwargs_absorb_context args kwargs k v :
  is_Some (sig_varkw sig) -> k ∉ param_names sig -> k ∉ keys kwargs ->
  bind_args sig args (<[k := v]> kwargs) =
    outcome_map (fun fr => Frame (frame_locals fr) (<[k := v]> (frame_kwargs fr)))
                (bind_args sig args kwargs).
Proof. apply bind_args_extra_keyword. Qed.

End Theorems.

(** ** The theorems on a hook with named context *)

Section Witnesses.

(** [cb.on_epoch_end(net, dataset_valid=2, epoch=3)]. *)
Lemma bind_args_spec_witness :
  bind_args def_example [VRef 1%positive; VStr "net"]
    (Dict [("dataset_valid", VInt 2); ("epoch", VInt 3)]) =
  Ret (Frame (list_to_map [("self", VRef 1%positive); ("net", VStr "net");
                           ("dataset_train", VNone);
                           ("dataset_valid", VInt 2)])
             (Dict [("epoch", VInt 3)])).
Proof.
  etrans; [apply (bind_args_spec def_example); by_compute |].
  vm_compute. reflexivity.
Defined.

(** The trainer adds [loss=4] to the context. *)
Lemma kwargs_absorb_context_witness :
  bind_args def_example [VRef 1%positive; VStr "net"]
    (<["loss" := VInt 4]> (Dict [("epoch", VInt 3)])) =
  outcome_map
    (fun fr => Frame (frame_locals fr) (<["loss" := VInt 4]> (frame_kwargs fr)))
    (bind_args def_example [VRef 1%positive; VStr "net"]
       (Dict [("epoch", VInt 3)])).
Proof.
  apply (kwargs_absorb_context def_example [VRef 1%positive; VStr "net"]
           (Dict [("epoch", VInt 3)]) "loss" (VInt 4)).
  - by eexists.
  - by_compute.
  - by_compute.
Defined.

End Witnesses.
