(* ===== verification/Estimator.v ===== *)
(** * Estimator: scikit-learn's parameter accessors

    [Callback.get_params] and [Callback.set_params] delegate to
    [BaseEstimator.get_params] and [BaseEstimator.set_params] of
    scikit-learn.  That code is not part of the repository; it is modelled
    here from the specification's description of the standard estimator
    convention:

    - [get_params(deep)] maps each name given by [self._get_param_names()] to
      the current value of the attribute; with [deep], a value that has
      [get_params] is expanded first, its parameters entered under the name
      of the attribute joined to theirs by the separator;
    - [set_params] called with no parameter does nothing; otherwise it takes
      the valid names from [self.get_params(deep=True)], and for each
      parameter in keyword order splits the name at the first separator,
      rejects it with an invalid-parameter error when the part before the
      separator is not valid, assigns it when the name has no separator, and
      otherwise collects it for the nested object, whose [set_params] is
      called with what was collected once all parameters have been seen;
      the nested object is the value that this call of [get_params] gave
      for the name, also when the name itself has been assigned in between
      (the releases of the time of base.py; later ones record the assigned
      value among the valid names, see [Releases]).

    Both call methods of [self] and of nested objects by name.  The record
    [methods] stands for these dynamically dispatched calls; the class
    [MethodsOk] is the contract the accessors need from them, and the lemmas
    of this file are proved against it.  [Callback] provides the record and
    discharges the contract; [Reflect] provides another, for subclasses.
    Two records that make the same calls are equivalent ([≡]), and the
    accessors respect the equivalence. *)

From stdpp Require Import base tactics option list strings gmap.
From S2P Require Import Prelude PyStr PyDict PyObject.

(** ** The dynamically dispatched calls *)

Record methods : Type := Methods {
  (** [list(obj._get_param_names())]: the generator, consumed at once. *)
  call_get_param_names : loc -> M heap (list string);
  (** [obj.get_params(deep=deep)]. *)
  call_get_params : loc -> bool -> M heap (dict value);
  (** [obj.set_params] with keyword arguments [params]. *)
  call_set_params : loc -> dict value -> M heap value;
}.

(** ** The accessors *)

Section BaseEstimator.
Context (sep : string) (vt : methods).

(** The items of a nested object's parameters, renamed
    [key + sep + nested name]. *)
Definition nested_items (key : string) (deep_items : dict value)
    : list (string * value) :=
  (fun kv => (key +:+ sep +:+ kv.1, kv.2)) <$> items deep_items.

(** The body of [if deep and hasattr(value, 'get_params')]: the parameters
    of a nested object are entered in [out]. *)
Definition expand (deep : bool) (key : string) (v : value)
    (out : dict value) : M heap (dict value) :=
  if deep then
    let! has := has_callback_method v in
    if has : bool then
      let! l := receiver v "get_params" in
      let! deep_items := call_get_params vt l true in
      ret (update out (nested_items key deep_items))
    else ret out
  else ret out.

(** The loop of [get_params] over the parameter names. *)
Fixpoint get_params_loop (self : loc) (deep : bool) (names : list string)
    (out : dict value) : M heap (dict value) :=
  match names with
  | [] => ret out
  | key :: names' =>
      let! v := getattr_default self key VNone in
      let! out' := expand deep key v out in
      get_params_loop self deep names' (<[key := v]> out')
  end.

Definition BaseEstimator_get_params (self : loc) (deep : bool)
    : M heap (dict value) :=
  let! names := call_get_param_names vt self in
  get_params_loop self deep names ∅.

(** [nested_params[name][sub_key] = v] on a dictionary of dictionaries that
    starts every entry empty. *)
Definition add_nested (name sub_key : string) (v : value)
    (nested : dict (dict value)) : dict (dict value) :=
  <[name := <[sub_key := v]> (default ∅ (nested !! name))]> nested.

(** The loop of [set_params] over the given parameters: validate, assign the
    plain ones, collect the nested ones. *)
Fixpoint set_params_loop (self : loc) (valid_params : dict value)
    (params : list (string * value)) (nested : dict (dict value))
    : M heap (dict (dict value)) :=
  match params with
  | [] => ret nested
  | (key, v) :: params' =>
      let '(name, delim, sub_key) := partition key sep in
      if contains name valid_params then
        if decide (delim = "") then
          let! _ := setattr self name v in
          set_params_loop self valid_params params' nested
        else
          set_params_loop self valid_params params'
            (add_nested name sub_key v nested)
      else raise (ValueError name)
  end.

(** The loop of [set_params] over the collected nested parameters. *)
Fixpoint set_nested_loop (valid_params : dict value)
    (nested : list (string * dict value)) : M heap unit :=
  match nested with
  | [] => ret tt
  | (key, sub_params) :: nested' =>
      let! target := lift_option (valid_params !! key) (KeyError key) in
      let! l := receiver target "set_params" in
      let! _ := call_set_params vt l sub_params in
      set_nested_loop valid_params nested'
  end.

Definition BaseEstimator_set_params (self : loc) (params : dict value)
    : M heap value :=
  if is_empty params then ret (VRef self)
  else
    let! valid_params := call_get_params vt self true in
    let! nested := set_params_loop self valid_params (items params) ∅ in
    let! _ := set_nested_loop valid_params (items nested) in
    ret (VRef self).

(** The pairs [get_params] enters for the names when nothing is expanded:
    each name with the value read from the object. *)
Definition attr_pairs (o : obj) (names : list string)
    : list (string * value) :=
  (fun k => (k, default VNone (obj_dict o !! k))) <$> names.

(** A parameter that [set_params] assigns at once: its name is valid and
    holds no separator. *)
Definition plain_valid (valid_params : dict value) (kv : string * value)
    : Prop :=
  contains kv.1 valid_params = true /\ ~ occurs sep kv.1.

(** Whether a parameter name holds no separator. *)
Definition is_plain (key : string) : bool :=
  bool_decide ((partition key sep).1.2 = "").

(** The parameters that [set_params] assigns on the instance itself, in
    keyword order. *)
Definition plain_part (params : list (string * value))
    : list (string * value) :=
  filter (fun kv => is_plain kv.1 = true) params.

(** The parameters that [set_params] collects for nested objects, grouped by
    the name before the separator, in the order in which the names first
    occur. *)
Definition nested_part (params : list (string * value))
    (nested : dict (dict value)) : dict (dict value) :=
  foldl (fun acc kv =>
           if is_plain kv.1 then acc
           else add_nested (partition kv.1 sep).1.1 (partition kv.1 sep).2
                  kv.2 acc)
        nested params.

End BaseEstimator.

(** ** The contract of the dispatched calls

    [P] is the set of attribute names the classes keep out of their
    parameters.  The calls that read must not change the heap; the names a
    class reports, and the names without separator that its [get_params]
    returns, must be attributes of the receiver outside [P]; [set_params]
    must stay within the frame of [P]. *)
Class MethodsOk (sep : string) (P : string -> bool) (vt : methods) : Prop := {
  methods_names_read_only l : read_only (call_get_param_names vt l);
  methods_names_settable l h names h' :
    call_get_param_names vt l h = (Ret names, h') ->
    forall k, k ∈ names -> settable P h l k;
  methods_get_read_only l deep : read_only (call_get_params vt l deep);
  methods_get_settable l deep h vp h' :
    call_get_params vt l deep h = (Ret vp, h') ->
    forall k, k ∈ keys vp -> ~ occurs sep k -> settable P h l k;
  methods_set_frame l params :
    preserves (heap_frame P) (call_set_params vt l params);
}.

(** Method tables that make the same calls. *)
#[export] Instance methods_equiv : Equiv methods := fun vt vt' =>
  (forall l, call_get_param_names vt l =m= call_get_param_names vt' l) /\
  (forall l deep, call_get_params vt l deep =m= call_get_params vt' l deep) /\
  (forall l params,
     call_set_params vt l params =m= call_set_params vt' l params).

(** ** [get_params] only reads *)

Section ReadOnly.
Context (sep : string) (vt : methods).
Context (R : relation heap) `{!PreOrder R}.
Context (Hget : forall l deep, preserves R (call_get_params vt l deep)).
Context (Hnames : forall l, preserves R (call_get_param_names vt l)).

Lemma preserves_expand deep key v out :
  preserves R (expand sep vt deep key v out).
Proof.
  unfold expand. destruct deep; [| solve_preserves].
  apply preserves_bind; [solve_preserves .. |].
  intros [|]; solve_preserves.
Qed.

Lemma preserves_get_params_loop self deep names out :
  preserves R (get_params_loop sep vt self deep names out).
Proof.
  pose proof preserves_expand.
  revert out. induction names as [|key names IH]; intros out; simpl;
    solve_preserves.
Qed.

Lemma preserves_BaseEstimator_get_params self deep :
  preserves R (BaseEstimator_get_params sep vt self deep).
Proof.
  pose proof preserves_get_params_loop.
  unfold BaseEstimator_get_params. solve_preserves.
Qed.

End ReadOnly.

(** ** The keys of [get_params] *)

Section Keys.
Context (sep : string) (vt : methods).
Implicit Types (h : heap) (out vp : dict value) (k key : string).

Lemma nested_items_occurs key di k :
  k ∈ (nested_items sep key di).*1 -> occurs sep k.
Proof.
  unfold nested_items. rewrite <- list_fmap_compose.
  intros [[k' v'] [-> _]]%list_elem_of_fmap. simpl. by exists key, k'.
Qed.

Lemma elem_of_nested_items key di k v :
  (k, v) ∈ nested_items sep key di <->
  exists sub, (sub, v) ∈ items di /\ k = key +:+ sep +:+ sub.
Proof.
  unfold nested_items. rewrite list_elem_of_fmap. split.
  - intros ([sub v'] & [= -> ->] & Hin). by exists sub.
  - intros (sub & Hin & ->). by exists (sub, v).
Qed.

Lemma elem_of_nested_keys key di k :
  k ∈ (nested_items sep key di).*1 <->
  exists sub, sub ∈ keys di /\ k = key +:+ sep +:+ sub.
Proof.
  unfold keys. rewrite !list_elem_of_fmap. split.
  - intros ([k' v] & -> & (sub & Hin & ->)%elem_of_nested_items).
    exists sub. split; [| done]. apply list_elem_of_fmap. by exists (sub, v).
  - intros (sub & ([sub' v] & -> & Hin)%list_elem_of_fmap & ->).
    exists (key +:+ sep +:+ sub', v). split; [done |].
    apply elem_of_nested_items. by exists sub'.
Qed.

Lemma nested_items_NoDup key di :
  dict_wf di -> NoDup (nested_items sep key di).*1.
Proof.
  intros Hwf.
  assert ((nested_items sep key di).*1 =
          (fun k => key +:+ sep +:+ k) <$> keys di) as ->
    by (unfold nested_items, keys; by rewrite <- !list_fmap_compose).
  apply NoDup_fmap_2; [| exact Hwf].
  intros a b Heq. by do 2 apply str_app_inv_l in Heq.
Qed.

(** The parameters of a nested object are found under the joined names. *)
Lemma lookup_update_nested out key di sub v :
  dict_wf di -> di !! sub = Some v ->
  update out (nested_items sep key di) !! (key +:+ sep +:+ sub) = Some v.
Proof.
  intros Hwf Hsub. apply lookup_update_elem; [by apply nested_items_NoDup |].
  apply elem_of_nested_items. exists sub. split; [by apply elem_of_items | done].
Qed.

(** A key that [expand] adds holds the separator. *)
Lemma expand_keys deep key v out h out' h' k :
  expand sep vt deep key v out h = (Ret out', h') ->
  k ∈ keys out' -> k ∈ keys out \/ occurs sep k.
Proof.
  unfold expand. destruct deep; [| unfold ret; intros [= <- <-]; tauto].
  intros (has & h1 & _ & Hrun)%bind_ret_inv.
  destruct has; [| revert Hrun; unfold ret; intros [= <- <-]; tauto].
  apply bind_ret_inv in Hrun as (l & h2 & _ & Hrun).
  apply bind_ret_inv in Hrun as (di & h3 & _ & Hrun).
  revert Hrun. unfold ret. intros [= <- <-].
  rewrite elem_of_keys_update. intros [? | ?%nested_items_occurs]; tauto.
Qed.

(** A key of the result is a key of [out], one of the names, or holds the
    separator. *)
Lemma get_params_loop_keys self deep names out h vp h' k :
  get_params_loop sep vt self deep names out h = (Ret vp, h') ->
  k ∈ keys vp -> k ∈ keys out \/ k ∈ names \/ occurs sep k.
Proof.
  revert out h. induction names as [|key names IH]; intros out h; simpl.
  - unfold ret. intros [= <- <-]. tauto.
  - intros (v & h1 & _ & Hrun)%bind_ret_inv.
    apply bind_ret_inv in Hrun as (out' & h2 & Hexp & Hrun). intros Hk.
    destruct (IH _ _ Hrun Hk) as [Hin | [Hin | Hin]].
    + apply elem_of_keys_insert in Hin as [-> | Hin].
      * right. left. apply elem_of_cons. by left.
      * destruct (expand_keys _ _ _ _ _ _ _ _ Hexp Hin); tauto.
    + right. left. apply elem_of_cons. by right.
    + tauto.
Qed.

(** Every name is a key of the result. *)
Lemma get_params_loop_names self deep names out h vp h' k :
  get_params_loop sep vt self deep names out h = (Ret vp, h') ->
  k ∈ names -> k ∈ keys vp.
Proof.
  assert (forall names out h, k ∈ keys out ->
    get_params_loop sep vt self deep names out h = (Ret vp, h') ->
    k ∈ keys vp) as Hout.
  { clear. intros names. induction names as [|key names IH];
      intros out h Hk; simpl.
    - unfold ret. by intros [= <- <-].
    - intros (v & h1 & _ & Hrun)%bind_ret_inv.
      apply bind_ret_inv in Hrun as (out' & h2 & Hexp & Hrun).
      eapply IH; [| exact Hrun]. apply elem_of_keys_insert. right.
      revert Hexp. unfold expand. destruct deep;
        [| unfold ret; by intros [= <- <-]].
      intros (has & h3 & _ & Hexp)%bind_ret_inv.
      destruct has; [| revert Hexp; unfold ret; by intros [= <- <-]].
      apply bind_ret_inv in Hexp as (l & h4 & _ & Hexp).
      apply bind_ret_inv in Hexp as (di & h5 & _ & Hexp).
      revert Hexp. unfold ret. intros [= <- <-].
      apply elem_of_keys_update. by left. }
  revert out h. induction names as [|key names IH]; intros out h; simpl.
  - by intros _ ?%elem_of_nil.
  - intros (v & h1 & _ & Hrun)%bind_ret_inv.
    apply bind_ret_inv in Hrun as (out' & h2 & Hexp & Hrun).
    intros [-> | Hin]%elem_of_cons; [| by eapply IH].
    eapply Hout; [| exact Hrun]. apply elem_of_keys_insert. by left.
Qed.

(** What [get_params] builds has no key twice. *)
Lemma get_params_loop_wf self deep names out h vp h' :
  get_params_loop sep vt self deep names out h = (Ret vp, h') ->
  dict_wf out -> dict_wf vp.
Proof.
  revert out h. induction names as [|key names IH]; intros out h; simpl.
  - unfold ret. by intros [= <- <-].
  - intros (v & h1 & _ & Hrun)%bind_ret_inv Hwf.
    apply bind_ret_inv in Hrun as (out' & h2 & Hexp & Hrun).
    eapply IH; [exact Hrun |]. apply dict_wf_insert.
    revert Hexp. unfold expand. destruct deep;
      [| unfold ret; by intros [= <- <-]].
    intros (has & h3 & _ & Hexp)%bind_ret_inv.
    destruct has; [| revert Hexp; unfold ret; by intros [= <- <-]].
    apply bind_ret_inv in Hexp as (l & h4 & _ & Hexp).
    apply bind_ret_inv in Hexp as (di & h5 & _ & Hexp).
    revert Hexp. unfold ret. intros [= <- <-]. by apply dict_wf_update.
Qed.

Lemma BaseEstimator_get_params_wf self deep h vp h' :
  BaseEstimator_get_params sep vt self deep h = (Ret vp, h') -> dict_wf vp.
Proof.
  intros (names & h1 & _ & Hloop)%bind_ret_inv.
  eapply get_params_loop_wf; [exact Hloop | apply dict_wf_empty].
Qed.

End Keys.

(** ** The accessors against the contract *)

Section Contract.
Context (sep : string) (P : string -> bool) (vt : methods).
Context `{!MethodsOk sep P vt}.
Implicit Types (h : heap) (vp : dict value) (k : string).

Lemma BaseEstimator_get_params_read_only self deep :
  read_only (BaseEstimator_get_params sep vt self deep).
Proof.
  apply preserves_BaseEstimator_get_params; [apply _ | |].
  - apply methods_get_read_only.
  - apply methods_names_read_only.
Qed.

(** The keys without separator that [get_params] returns are settable. *)
Lemma BaseEstimator_get_params_settable self deep h vp h' k :
  BaseEstimator_get_params sep vt self deep h = (Ret vp, h') ->
  k ∈ keys vp -> ~ occurs sep k -> settable P h self k.
Proof.
  intros (names & h1 & Hnames & Hloop)%bind_ret_inv Hk Hno.
  eapply methods_names_settable; [exact Hnames |].
  destruct (get_params_loop_keys _ _ _ _ _ _ _ _ _ _ Hloop Hk)
    as [Hin | [Hin | Hin]]; [by apply elem_of_nil in Hin | done | done].
Qed.

(** [expand] leaves the entries without separator as they are. *)
Lemma expand_lookup deep key v out h out' h' k :
  expand sep vt deep key v out h = (Ret out', h') ->
  ~ occurs sep k -> out' !! k = out !! k.
Proof.
  unfold expand. destruct deep; [| unfold ret; by intros [= <- <-]].
  intros (has & h1 & _ & Hrun)%bind_ret_inv Hno.
  destruct has; [| revert Hrun; unfold ret; by intros [= <- <-]].
  apply bind_ret_inv in Hrun as (l & h2 & _ & Hrun).
  apply bind_ret_inv in Hrun as (di & h3 & _ & Hrun).
  revert Hrun. unfold ret. intros [= <- <-].
  apply lookup_update_not_elem. by intros ?%nested_items_occurs.
Qed.

(** The entry of a name without separator is the value of the attribute,
    whatever is expanded. *)
Lemma get_params_loop_lookup self o deep names out h vp h' k :
  h !! self = Some o ->
  get_params_loop sep vt self deep names out h = (Ret vp, h') ->
  ~ occurs sep k ->
  vp !! k = if decide (k ∈ names)
            then Some (default VNone (obj_dict o !! k)) else out !! k.
Proof.
  intros Hl Hrun Hno. revert out Hrun.
  induction names as [|key names IH]; intros out; cbn [get_params_loop].
  - unfold ret. intros [= <- <-]. by rewrite decide_False by apply not_elem_of_nil.
  - rewrite (bind_run_ret _ _ _ _ _ (getattr_default_run _ _ _ key VNone Hl)).
    intros (out' & h2 & Hexp & Hrun)%bind_ret_inv.
    assert (h2 = h) as ->.
    { pose proof (preserves_expand sep vt eq (fun l d => methods_get_read_only l d)
        deep key (default VNone (obj_dict o !! key)) out h) as Heq.
      by rewrite Hexp in Heq. }
    rewrite (IH _ Hrun). destruct (decide (k ∈ names)) as [Hin | Hni].
    { by rewrite decide_True by (apply elem_of_cons; by right). }
    rewrite lookup_insert_dict, (expand_lookup _ _ _ _ _ _ _ _ Hexp Hno).
    destruct (decide (key = k)) as [-> | Hne].
    + by rewrite decide_True by (apply elem_of_cons; by left).
    + rewrite decide_False; [done |]. by intros [? | ?]%elem_of_cons.
Qed.

Lemma BaseEstimator_get_params_lookup self o deep names h vp h' k :
  h !! self = Some o ->
  call_get_param_names vt self h = (Ret names, h) ->
  BaseEstimator_get_params sep vt self deep h = (Ret vp, h') ->
  k ∈ names -> ~ occurs sep k ->
  vp !! k = Some (default VNone (obj_dict o !! k)).
Proof.
  intros Hl Hnames Hrun Hk Hno. unfold BaseEstimator_get_params in Hrun.
  rewrite (bind_run_ret _ _ _ _ _ Hnames) in Hrun.
  by rewrite (get_params_loop_lookup _ _ _ _ _ _ _ _ _ Hl Hrun Hno),
    decide_True.
Qed.

Lemma set_nested_loop_frame vp nested :
  preserves (heap_frame P) (set_nested_loop vt vp nested).
Proof.
  pose proof (methods_set_frame (vt := vt)).
  induction nested as [|[key sub] nested IH]; simpl; solve_preserves.
Qed.

Section SetParams.
Context (Hsep : sep <> "").

(** From a heap within the frame of [h0], where the valid names without
    separator are settable, the first loop of [set_params] stays within the
    frame of [h0]. *)
Lemma set_params_loop_frame self vp params nested h0 h :
  (forall k, k ∈ keys vp -> ~ occurs sep k -> settable P h0 self k) ->
  heap_frame P h0 h ->
  heap_frame P h0 (set_params_loop sep self vp params nested h).2.
Proof.
  intros Hvalid. revert nested h.
  induction params as [|[key v] params IH]; intros nested h Hf; simpl; [done |].
  destruct (partition key sep) as [[name delim] sub_key] eqn:Epart.
  destruct (contains name vp) eqn:Hc; [| done].
  case_decide as Hd; [| by apply IH].
  assert (settable P h self name) as Hset.
  { eapply settable_frame; [exact Hf |]. apply Hvalid.
    - apply bool_decide_eq_true in Hc. exact Hc.
    - assert ((partition key sep).1.2 = "") as Hd' by (by rewrite Epart).
      rewrite (partition_not_found _ _ Hd' Hsep) in Epart.
      injection Epart as <- _ _. by apply partition_delim_nil_iff. }
  pose proof (setattr_frame P h self name v Hset) as Hstep.
  destruct Hset as (o & Hl & _). unfold bind at 1.
  rewrite (setattr_run _ _ _ _ _ Hl) in Hstep |- *. simpl in *.
  apply IH. by etrans.
Qed.

Lemma BaseEstimator_set_params_frame self params :
  preserves (heap_frame P) (BaseEstimator_set_params sep vt self params).
Proof.
  intros h. unfold BaseEstimator_set_params.
  destruct (is_empty params); [reflexivity |].
  rewrite bind_read_only_run by apply methods_get_read_only.
  destruct (call_get_params vt self true h).1 as [vp | e] eqn:Hget;
    [| reflexivity].
  assert (call_get_params vt self true h = (Ret vp, h)) as Hrun.
  { rewrite (read_only_run _ h (methods_get_read_only self true)).
    by rewrite Hget. }
  pose proof (set_params_loop_frame self vp (items params) ∅ h h
    (methods_get_settable _ _ _ _ _ Hrun) (reflexivity _)) as Hloop.
  unfold bind at 1.
  destruct (set_params_loop sep self vp (items params) ∅ h)
    as [[nested | e] h1]; simpl in *; [| done].
  etrans; [exact Hloop |].
  apply (preserves_bind (heap_frame P) (set_nested_loop vt vp (items nested))
    (fun _ => ret (VRef self))); [apply set_nested_loop_frame |].
  intros _. apply preserves_ret, _.
Qed.

End SetParams.

End Contract.

(** ** What the accessors return *)

Section Results.
Context (sep : string) (vt : methods).
Implicit Types (h : heap) (self : loc) (o : obj) (vp out : dict value)
  (k key : string) (v : value) (pairs pre rest : list (string * value)).

(** A value that is no callback is not expanded. *)
Lemma expand_no_callback deep key v out h :
  (deep = true -> no_callback h v = true) ->
  expand sep vt deep key v out h = (Ret out, h).
Proof.
  intros Hv. unfold expand. destruct deep; [| done].
  by rewrite (bind_run_ret _ _ _ _ _
                (has_callback_method_no_callback _ _ (Hv eq_refl))).
Qed.

(** Without [deep], or when none of the attributes holds a callback, the
    loop enters each name with the value of the attribute. *)
Lemma get_params_loop_flat self o deep names out h :
  h !! self = Some o ->
  (deep = true ->
   Forall (fun k => no_callback h (default VNone (obj_dict o !! k)) = true)
          names) ->
  get_params_loop sep vt self deep names out h =
    (Ret (update out (attr_pairs o names)), h).
Proof.
  intros Hl. revert out. induction names as [|key names IH]; intros out Hflat;
    [done |].
  cbn [get_params_loop].
  rewrite (bind_run_ret _ _ _ _ _ (getattr_default_run _ _ _ key VNone Hl)).
  rewrite (bind_run_ret _ _ _ _ _ (expand_no_callback _ _ _ _ _
             (fun Hd => Forall_inv (Hflat Hd)))).
  apply IH. intros Hd. apply (Forall_inv_tail (Hflat Hd)).
Qed.

Lemma BaseEstimator_get_params_flat self o deep names h :
  h !! self = Some o ->
  call_get_param_names vt self h = (Ret names, h) ->
  (deep = true ->
   Forall (fun k => no_callback h (default VNone (obj_dict o !! k)) = true)
          names) ->
  BaseEstimator_get_params sep vt self deep h =
    (Ret (update ∅ (attr_pairs o names)), h).
Proof.
  intros Hl Hnames Hflat. unfold BaseEstimator_get_params.
  rewrite (bind_run_ret _ _ _ _ _ Hnames). by apply get_params_loop_flat.
Qed.

(** The names the class reports are keys of what [get_params] returns, and
    its keys without separator are among these names. *)
Lemma BaseEstimator_get_params_plain_keys self deep names h vp h' k :
  call_get_param_names vt self h = (Ret names, h) ->
  BaseEstimator_get_params sep vt self deep h = (Ret vp, h') ->
  ~ occurs sep k -> k ∈ keys vp <-> k ∈ names.
Proof.
  intros Hnames Hrun Hno. unfold BaseEstimator_get_params in Hrun.
  rewrite (bind_run_ret _ _ _ _ _ Hnames) in Hrun. split.
  - intros Hk.
    destruct (get_params_loop_keys _ _ _ _ _ _ _ _ _ _ Hrun Hk)
      as [Hin | [Hin | Hin]]; [by apply elem_of_nil in Hin | done | done].
  - by eapply get_params_loop_names.
Qed.

Lemma set_params_loop_invalid self vp key v rest nested h :
  contains (partition key sep).1.1 vp = false ->
  set_params_loop sep self vp ((key, v) :: rest) nested h =
    (Raise (ValueError (partition key sep).1.1), h).
Proof.
  intros Hc. cbn [set_params_loop].
  destruct (partition key sep) as [[name delim] sub_key]. simpl in Hc.
  by rewrite Hc.
Qed.

Section Plain.
Context (Hsep : sep <> "").

(** The loop of [set_params] over plain valid parameters assigns them to
    the instance, in order, and goes on with the rest. *)
Lemma set_params_loop_plain self vp o pre rest nested h :
  h !! self = Some o ->
  Forall (plain_valid sep vp) pre ->
  set_params_loop sep self vp (pre ++ rest) nested h =
    set_params_loop sep self vp rest nested
      (<[self := Obj (obj_class o) (update (obj_dict o) pre)]> h).
Proof.
  intros Hl Hpre. revert o h Hl.
  induction Hpre as [|[key v] pre [Hc Hno] Hpre IH]; intros o h Hl.
  - rewrite app_nil_l. autorewrite with pyrw. destruct o. by rewrite insert_id.
  - rewrite <- app_comm_cons. cbn [set_params_loop]. simpl in Hc, Hno.
    apply (partition_delim_nil_iff _ _ Hsep) in Hno.
    rewrite (partition_not_found _ _ Hno Hsep), Hc, decide_True by done.
    rewrite (bind_run_ret _ _ _ _ _ (setattr_run _ _ _ key v Hl)).
    rewrite (IH _ _ (lookup_insert_eq _ _ _)). simpl.
    by rewrite insert_insert_eq.
Qed.

Lemma BaseEstimator_set_params_plain self o vp params h :
  h !! self = Some o ->
  call_get_params vt self true h = (Ret vp, h) ->
  Forall (plain_valid sep vp) (items params) ->
  BaseEstimator_set_params sep vt self params h =
    (Ret (VRef self),
     <[self := Obj (obj_class o) (update (obj_dict o) (items params))]> h).
Proof.
  intros Hl Hget Hall. unfold BaseEstimator_set_params.
  destruct (is_empty params) eqn:Hemp.
  - apply is_empty_true in Hemp as ->. rewrite items_empty, update_nil.
    destruct o. simpl. by rewrite insert_id.
  - rewrite (bind_run_ret _ _ _ _ _ Hget).
    rewrite <- (app_nil_r (items params)) at 1.
    unfold bind at 1. by rewrite (set_params_loop_plain _ _ _ _ _ _ _ Hl Hall).
Qed.

Lemma BaseEstimator_set_params_invalid self o vp params pre key v post h :
  h !! self = Some o ->
  call_get_params vt self true h = (Ret vp, h) ->
  items params = pre ++ (key, v) :: post ->
  Forall (plain_valid sep vp) pre ->
  contains (partition key sep).1.1 vp = false ->
  BaseEstimator_set_params sep vt self params h =
    (Raise (ValueError (partition key sep).1.1),
     <[self := Obj (obj_class o) (update (obj_dict o) pre)]> h).
Proof.
  intros Hl Hget Hitems Hpre Hc. unfold BaseEstimator_set_params.
  destruct (is_empty params) eqn:Hemp.
  { apply is_empty_true in Hemp as ->. rewrite items_empty in Hitems.
    by destruct pre. }
  rewrite (bind_run_ret _ _ _ _ _ Hget), Hitems. unfold bind at 1.
  rewrite (set_params_loop_plain _ _ _ _ _ _ _ Hl Hpre).
  by rewrite set_params_loop_invalid.
Qed.

(** When no parameter name holds the separator, the first loop collects
    nothing and changes no object but the instance. *)
Lemma set_params_loop_no_sep self vp pairs nested h :
  Forall (fun kv => ~ occurs sep kv.1) pairs ->
  only_changes self h (set_params_loop sep self vp pairs nested h).2 /\
  forall nested' h', set_params_loop sep self vp pairs nested h
                     = (Ret nested', h') -> nested' = nested.
Proof.
  intros Hall. revert h.
  induction Hall as [|[key v] pairs Hno _ IH]; intros h.
  - split; [done | by intros ?? [= <- _]].
  - cbn [set_params_loop]. simpl in Hno.
    apply (partition_delim_nil_iff _ _ Hsep) in Hno.
    rewrite (partition_not_found _ _ Hno Hsep).
    destruct (contains key vp); [| split; done].
    rewrite decide_True by done. unfold bind.
    pose proof (setattr_only_changes h self key v) as Hstep.
    destruct (setattr self key v h) as [[[]|e] h1]; simpl in *;
      [| split; done].
    destruct (IH h1) as [Hoc Hret]. split; [by etrans | exact Hret].
Qed.

Lemma BaseEstimator_set_params_no_sep self params
    (Hget : forall l deep, read_only (call_get_params vt l deep)) :
  Forall (fun k => ~ occurs sep k) (keys params) ->
  preserves (only_changes self) (BaseEstimator_set_params sep vt self params).
Proof.
  intros Hall h. unfold BaseEstimator_set_params.
  destruct (is_empty params); [reflexivity |].
  rewrite bind_read_only_run by apply Hget.
  destruct (call_get_params vt self true h).1 as [vp | e]; [| reflexivity].
  unfold keys in Hall. rewrite Forall_fmap in Hall.
  destruct (set_params_loop_no_sep self vp (items params) ∅ h Hall)
    as [Hoc Hret].
  unfold bind at 1.
  destruct (set_params_loop sep self vp (items params) ∅ h)
    as [[nested | e] h1] eqn:Hloop; simpl in *; [| done].
  by rewrite (Hret _ _ eq_refl).
Qed.

End Plain.

(** *** The two phases of [set_params] *)

Section Phases.
Context (Hsep : sep <> "").

(** When the part before the separator of every name is valid, the first
    loop assigns the plain parameters to the instance, in order, collects
    the others, and touches nothing else. *)
Lemma set_params_loop_phases self vp o params nested h :
  h !! self = Some o ->
  Forall (fun kv => contains (partition kv.1 sep).1.1 vp = true) params ->
  set_params_loop sep self vp params nested h =
    (Ret (nested_part sep params nested),
     <[self := Obj (obj_class o)
                 (update (obj_dict o) (plain_part sep params))]> h).
Proof.
  intros Hl Hall. revert o nested h Hl.
  induction Hall as [|[key v] params Hc _ IH]; intros o nested h Hl.
  - unfold plain_part. rewrite filter_nil. autorewrite with pyrw. destruct o.
    by rewrite insert_id.
  - cbn [set_params_loop nested_part foldl]. unfold plain_part, is_plain.
    rewrite filter_cons. cbn [fst snd] in *.
    destruct (partition key sep) as [[name delim] sub_key] eqn:Epart.
    cbn [fst snd] in *. rewrite Hc.
    destruct (decide (delim = "")) as [-> | Hd].
    + assert (name = key) as ->.
      { pose proof (partition_not_found key sep) as Hnf.
        rewrite Epart in Hnf. by injection (Hnf eq_refl Hsep). }
      rewrite bool_decide_eq_true_2, decide_True by done.
      rewrite (bind_run_ret _ _ _ _ _ (setattr_run _ _ _ key v Hl)).
      rewrite (IH _ _ _ (lookup_insert_eq _ _ _)). cbn [obj_class obj_dict].
      by rewrite insert_insert_eq, update_cons.
    + rewrite bool_decide_eq_false_2, decide_False by done. by apply IH.
Qed.

(** [set_params] in two phases: the plain parameters are assigned, then the
    collected ones are forwarded to the nested objects found before the
    assignments. *)
Lemma BaseEstimator_set_params_phases self vp o params h :
  h !! self = Some o ->
  call_get_params vt self true h = (Ret vp, h) ->
  Forall (fun k => contains (partition k sep).1.1 vp = true) (keys params) ->
  is_empty params = false ->
  BaseEstimator_set_params sep vt self params h =
    (let! _ := set_nested_loop vt vp
                 (items (nested_part sep (items params) ∅)) in
     ret (VRef self))
      (<[self := Obj (obj_class o)
                   (update (obj_dict o) (plain_part sep (items params)))]> h).
Proof.
  intros Hl Hget Hall Hne. unfold BaseEstimator_set_params. rewrite Hne.
  unfold keys in Hall. rewrite Forall_fmap in Hall.
  rewrite (bind_run_ret _ _ _ _ _ Hget).
  by rewrite (bind_run_ret _ _ _ _ _
                (set_params_loop_phases self vp o _ ∅ h Hl Hall)).
Qed.

End Phases.

(** *** Parameters of one nested object

    [name] is a name for which [name + sep + sub] splits at the separator
    that joins them. *)

Section Nested.
Context (name : string) (Hsep : sep <> "").
Context (Hpart : forall sub,
  partition (name +:+ sep +:+ sub) sep = (name, sep, sub)).

(** The first loop of [set_params] collects such parameters and assigns
    nothing. *)
Lemma set_params_loop_nested self vp params nested h :
  contains name vp = true ->
  set_params_loop sep self vp (nested_items sep name params) nested h =
    (Ret (foldl (fun acc kv => add_nested name kv.1 kv.2 acc) nested
            (items params)), h).
Proof.
  intros Hc. unfold nested_items. revert nested.
  induction (items params) as [|[k v] pairs' IH]; intros nested; [done |].
  rewrite fmap_cons. cbn [set_params_loop fst snd].
  rewrite Hpart, Hc, decide_False by done. apply IH.
Qed.

(** What is collected for [name] is the dictionary updated with the
    parameters, in their order. *)
Lemma add_nested_all pairs (nested : dict (dict value)) :
  pairs <> [] ->
  foldl (fun acc kv => add_nested name kv.1 kv.2 acc) nested pairs =
    <[name := update (default ∅ (nested !! name)) pairs]> nested.
Proof.
  revert nested. induction pairs as [|[k v] pairs' IH]; intros nested Hne;
    [done |].
  destruct pairs' as [|kv pairs']; [done |].
  cbn [foldl] in IH |- *. rewrite IH by done.
  unfold add_nested.
  by rewrite lookup_insert_dict_eq, insert_insert_dict_eq.
Qed.

(** [set_params] with parameters of one nested object only is [set_params]
    on the value found under the name, with the names after the
    separator. *)
Lemma BaseEstimator_set_params_nested_value self vp v params h :
  call_get_params vt self true h = (Ret vp, h) ->
  vp !! name = Some v ->
  dict_wf params -> is_empty params = false ->
  BaseEstimator_set_params sep vt self
      (Dict (nested_items sep name params)) h =
    (let! l := receiver v "set_params" in
     let! _ := call_set_params vt l params in
     ret (VRef self)) h.
Proof.
  intros Hget Hvp Hwf Hemp. unfold BaseEstimator_set_params.
  assert (items params <> []) as Hne.
  { intros Hnil. unfold is_empty in Hemp. by rewrite Hnil in Hemp. }
  replace (is_empty (Dict (nested_items sep name params))) with false
    by (unfold is_empty, nested_items; simpl; by destruct (items params)).
  rewrite (bind_run_ret _ _ _ _ _ Hget). cbn [items].
  assert (contains name vp = true) as Hc by (by apply contains_true).
  rewrite (bind_run_ret _ _ _ _ _
             (set_params_loop_nested self vp params ∅ h Hc)).
  rewrite (add_nested_all _ _ Hne). autorewrite with pyrw. cbn [default].
  rewrite (update_empty_NoDup _ Hwf), dict_items_eta, items_insert_empty.
  cbn [set_nested_loop]. rewrite Hvp. unfold_m. simpl.
  destruct (receiver v "set_params" h) as [[l|?] h1]; [| done].
  by destruct (call_set_params vt l params h1) as [[?|?] ?].
Qed.

Lemma BaseEstimator_set_params_nested self vp l params h :
  call_get_params vt self true h = (Ret vp, h) ->
  vp !! name = Some (VRef l) ->
  dict_wf params -> is_empty params = false ->
  BaseEstimator_set_params sep vt self
      (Dict (nested_items sep name params)) h =
    (let! _ := call_set_params vt l params in ret (VRef self)) h.
Proof.
  intros. by rewrite (BaseEstimator_set_params_nested_value _ vp (VRef l)).
Qed.

End Nested.

End Results.

(** ** What [set_params] collects and forwards *)

Section Groups.
Context (sep : string) (G : string -> dict value -> Prop).

(** A property of the dictionaries collected for the nested objects that
    holds of what is collected before, and is kept when a parameter is
    entered in a dictionary, new or not, holds of what the loop collects. *)
Lemma nested_part_groups params nested :
  Forall (fun kv =>
            is_plain sep kv.1 = false ->
            forall sub, sub = ∅ \/ G (partition kv.1 sep).1.1 sub ->
              G (partition kv.1 sep).1.1
                (<[(partition kv.1 sep).2 := kv.2]> sub)) params ->
  Forall (fun ns => G ns.1 ns.2) (items nested) ->
  Forall (fun ns => G ns.1 ns.2) (items (nested_part sep params nested)).
Proof.
  intros Hall. revert nested.
  induction Hall as [|[key v] params Hkv _ IH]; intros nested Hn; [done |].
  unfold nested_part. cbn [foldl fst snd]. apply IH. cbn [fst snd] in Hkv.
  destruct (is_plain sep key); [done |]. unfold add_nested.
  rewrite Forall_forall in Hn. apply Forall_forall.
  intros [name sub] [[= -> ->] | Hin]%elem_of_items_insert;
    [| by apply (Hn _ Hin)].
  apply Hkv; [done |].
  destruct (nested !! _) as [sub0|] eqn:Hs; [right | by left].
  apply lookup_dict_Some_elem in Hs. apply (Hn _ Hs).
Qed.

(** The second loop of [set_params] changes nothing when the forwarded
    calls change nothing. *)
Lemma set_nested_loop_id vt vp nested h :
  Forall (fun ns => exists l r,
            vp !! ns.1 = Some (VRef l) /\
            call_set_params vt l ns.2 h = (Ret r, h)) nested ->
  set_nested_loop vt vp nested h = (Ret tt, h).
Proof.
  induction 1 as [|[name sub] nested (l & r & Hvp & Hcall) _ IH]; [done |].
  cbn [set_nested_loop fst snd] in *. rewrite Hvp. cbn [lift_option].
  rewrite (bind_ret_l _ _ h). cbn [receiver]. rewrite (bind_ret_l _ _ h).
  by rewrite (bind_run_ret _ _ _ _ _ Hcall).
Qed.

End Groups.

(** ** Heaps that [set_params] does not tell apart

    When assignment and the dispatched calls respect a relation between
    heaps, so does [set_params]. *)

Section Respects.
Context (sep : string) (vt : methods) (R : relation heap).
Context (Hsetattr : forall self k v, respects R (setattr self k v)).
Context (Hget : forall l deep, respects R (call_get_params vt l deep)).
Context (Hset : forall l params, respects R (call_set_params vt l params)).

Lemma set_params_loop_respects self vp params nested :
  respects R (set_params_loop sep self vp params nested).
Proof.
  revert nested. induction params as [|[key v] params IH]; intros nested;
    cbn [set_params_loop]; [solve_respects |].
  destruct (partition key sep) as [[name delim] sub_key].
  destruct (contains name vp); [| solve_respects].
  case_decide; solve_respects.
Qed.

Lemma set_nested_loop_respects vp nested :
  respects R (set_nested_loop vt vp nested).
Proof.
  induction nested as [|[key sub_params] nested IH]; cbn [set_nested_loop];
    solve_respects.
Qed.

Lemma BaseEstimator_set_params_respects self params :
  respects R (BaseEstimator_set_params sep vt self params).
Proof.
  unfold BaseEstimator_set_params. destruct (is_empty params);
    [solve_respects |].
  apply respects_bind; [done |]. intros vp.
  apply respects_bind; [apply set_params_loop_respects |]. intros nested.
  apply respects_bind; [apply set_nested_loop_respects | solve_respects].
Qed.

End Respects.

(** ** More call depth

    When the dispatched calls of [vt'] do what those of [vt] do wherever
    these do not raise [RecursionError], so do the accessors. *)

Section Deeper.
Context (sep : string) (vt vt' : methods).
Context (Hnames : forall l,
  deeper (call_get_param_names vt l) (call_get_param_names vt' l)).
Context (Hget : forall l deep,
  deeper (call_get_params vt l deep) (call_get_params vt' l deep)).
Context (Hset : forall l params,
  deeper (call_set_params vt l params) (call_set_params vt' l params)).

Lemma expand_deeper deep key v out :
  deeper (expand sep vt deep key v out) (expand sep vt' deep key v out).
Proof.
  unfold expand. destruct deep; [| reflexivity].
  apply deeper_bind; [reflexivity |]. intros [|]; [| reflexivity].
  apply deeper_bind; [reflexivity |]. intros l.
  apply deeper_bind; [apply Hget | reflexivity].
Qed.

Lemma get_params_loop_deeper self deep names out :
  deeper (get_params_loop sep vt self deep names out)
         (get_params_loop sep vt' self deep names out).
Proof.
  revert out. induction names as [|key names IH]; intros out; [reflexivity |].
  cbn [get_params_loop]. apply deeper_bind; [reflexivity |]. intros v.
  apply deeper_bind; [apply expand_deeper | intros; apply IH].
Qed.

Lemma BaseEstimator_get_params_deeper self deep :
  deeper (BaseEstimator_get_params sep vt self deep)
         (BaseEstimator_get_params sep vt' self deep).
Proof.
  apply deeper_bind; [apply Hnames | intros; apply get_params_loop_deeper].
Qed.

Lemma set_nested_loop_deeper vp nested :
  deeper (set_nested_loop vt vp nested) (set_nested_loop vt' vp nested).
Proof.
  induction nested as [|[key sub] nested IH]; [reflexivity |].
  cbn [set_nested_loop]. apply deeper_bind; [reflexivity |]. intros target.
  apply deeper_bind; [reflexivity |]. intros l.
  apply deeper_bind; [apply Hset | intros; apply IH].
Qed.

Lemma BaseEstimator_set_params_deeper self params :
  deeper (BaseEstimator_set_params sep vt self params)
         (BaseEstimator_set_params sep vt' self params).
Proof.
  unfold BaseEstimator_set_params. destruct (is_empty params); [reflexivity |].
  apply deeper_bind; [apply Hget |]. intros vp.
  apply deeper_bind; [reflexivity |]. intros nested.
  apply deeper_bind; [apply set_nested_loop_deeper | reflexivity].
Qed.

End Deeper.

(** ** Method tables that make the same calls

    The accessors over two tables that make the same calls are the same
    computations. *)

#[export] Instance methods_equivalence : Equivalence (≡@{methods}).
Proof.
  split.
  - intros vt. by repeat split.
  - intros vt vt' (Hn & Hg & Hs). repeat split; intros; symmetry; auto.
  - intros vt1 vt2 vt3 (Hn & Hg & Hs) (Hn' & Hg' & Hs').
    repeat split; intros; etrans; eauto.
Qed.

Section Proper.
Context (sep : string).

#[export] Instance expand_proper :
  Proper ((≡) ==> (=) ==> (=) ==> (=) ==> (=) ==> meq) (expand sep).
Proof.
  intros vt vt' (_ & Hg & _) ? deep -> ? key -> ? v -> ? out ->.
  unfold expand. destruct deep; [| done].
  apply bind_proper; [done |]. intros [|]; [| done].
  apply bind_proper; [done |]. intros l.
  apply bind_proper; [apply Hg | done].
Qed.

#[export] Instance get_params_loop_proper :
  Proper ((≡) ==> (=) ==> (=) ==> (=) ==> (=) ==> meq) (get_params_loop sep).
Proof.
  intros vt vt' Hvt ? self -> ? deep -> ? names -> ? out ->. revert out.
  induction names as [|key names IH]; intros out; [done |].
  cbn [get_params_loop]. apply bind_proper; [done |]. intros v.
  apply bind_proper; [by apply expand_proper | intros out'; apply IH].
Qed.

#[export] Instance BaseEstimator_get_params_proper :
  Proper ((≡) ==> (=) ==> (=) ==> meq) (BaseEstimator_get_params sep).
Proof.
  intros vt vt' Hvt ? self -> ? deep ->. unfold BaseEstimator_get_params.
  apply bind_proper; [apply Hvt |]. intros names.
  by apply get_params_loop_proper.
Qed.

#[export] Instance set_nested_loop_proper :
  Proper ((≡) ==> (=) ==> (=) ==> meq) set_nested_loop.
Proof.
  intros vt vt' (_ & _ & Hs) ? vp -> ? nested ->.
  induction nested as [|[key sub] nested IH]; [done |].
  cbn [set_nested_loop]. apply bind_proper; [done |]. intros target.
  apply bind_proper; [done |]. intros l.
  apply bind_proper; [apply Hs | by intros _].
Qed.

#[export] Instance BaseEstimator_set_params_proper :
  Proper ((≡) ==> (=) ==> (=) ==> meq) (BaseEstimator_set_params sep).
Proof.
  intros vt vt' Hvt ? self -> ? params ->. unfold BaseEstimator_set_params.
  destruct (is_empty params); [done |].
  apply bind_proper; [apply Hvt |]. intros vp.
  apply bind_proper; [done |]. intros nested.
  apply bind_proper; [by apply set_nested_loop_proper | done].
Qed.

End Proper.

(** The contract holds of every table that makes the calls of a table it
    holds of. *)
Lemma MethodsOk_proper sep P vt vt' :
  vt ≡ vt' -> MethodsOk sep P vt -> MethodsOk sep P vt'.
Proof.
  intros (Hn & Hg & Hs) Hok. split; intros.
  - eapply preserves_meq; [apply Hn | apply methods_names_read_only].
  - eapply (methods_names_settable (vt := vt)); [by rewrite Hn | done].
  - eapply preserves_meq; [apply Hg | apply methods_get_read_only].
  - eapply (methods_get_settable (vt := vt)); [by rewrite Hg | done..].
  - eapply preserves_meq; [apply Hs | apply methods_set_frame].
Qed.

