(* ===== verification/Callback.v ===== *)
(** * Callback: the class of [skorch/callbacks/base.py]

    Two definitions per method of [Callback]: the [def] line as a
    [signature] ([def_initialize], ..., [def_set_params]) and the body, with
    the name the method has in the source.  A body takes the reference
    [self] of the instance it is called on and the arguments as the frame
    gives them; the hooks take the trainer [net] and the keyword arguments
    [kwargs] they ignore.  [get_params] and [set_params] take the table [vt]
    of the dynamically dispatched calls that [BaseEstimator] makes on
    [self] and on nested objects; [callback_methods depth] is that table for
    a heap of callbacks: each entry looks the method up on the class of the
    receiver, binds the arguments to the parameters of its [def] and runs
    its body, with [depth] the number of nested method calls that may still
    be made before the interpreter raises [RecursionError].

    The theorems come in four groups: the lifecycle methods do nothing; the
    names [_get_param_names] yields; [get_params] reads only and returns the
    public attributes; [set_params] assigns public attributes only, on every
    outcome, and raises [TypeError] for the keyword [self]. *)

From stdpp Require Import base tactics option list strings gmap.
From S2P Require Import Prelude PyStr PyDict PyObject PyCall Estimator.

(** ** The class *)

(** The descriptor of [Callback] itself; a subclass differs by its name. *)
Definition Callback : class_desc := Class "Callback" true.

(** The separator of nested parameter names in the estimator convention. *)
Definition param_sep : string := "__".

(** [key.endswith('_')]: the name is kept out of the parameters. *)
Definition reserved (key : string) : bool := endswith key "_".

(** [not key.endswith('_')], the filter of [_get_param_names]. *)
Definition is_param_name (key : string) : bool := negb (endswith key "_").

(** The [def] lines of the class: the parameters of each method. *)
Definition def_initialize : signature :=
  Signature "initialize" [("self", None)] None.

Definition def_on_train_begin : signature :=
  Signature "on_train_begin" [("self", None); ("net", None)] (Some "kwargs").

Definition def_on_train_end : signature :=
  Signature "on_train_end" [("self", None); ("net", None)] (Some "kwargs").

Definition def_on_epoch_begin : signature :=
  Signature "on_epoch_begin" [("self", None); ("net", None)] (Some "kwargs").

Definition def_on_epoch_end : signature :=
  Signature "on_epoch_end" [("self", None); ("net", None)] (Some "kwargs").

Definition def_on_batch_begin : signature :=
  Signature "on_batch_begin" [("self", None); ("net", None)] (Some "kwargs").

Definition def_on_batch_end : signature :=
  Signature "on_batch_end" [("self", None); ("net", None)] (Some "kwargs").

Definition def_on_grad_computed : signature :=
  Signature "on_grad_computed"
    [("self", None); ("net", None); ("named_parameters", None)]
    (Some "kwargs").

Definition def__get_param_names : signature :=
  Signature "_get_param_names" [("self", None)] None.

Definition def_get_params : signature :=
  Signature "get_params" [("self", None); ("deep", Some (VBool true))] None.

Definition def_set_params : signature :=
  Signature "set_params" [("self", None)] (Some "params").

(** [initialize(self)]: [return self]. *)
Definition initialize (self : loc) : M heap value := ret (VRef self).

(** The seven hooks: [pass]. *)
Definition on_train_begin (self : loc) (net : value) (kwargs : dict value)
    : M heap value := ret VNone.

Definition on_train_end (self : loc) (net : value) (kwargs : dict value)
    : M heap value := ret VNone.

Definition on_epoch_begin (self : loc) (net : value) (kwargs : dict value)
    : M heap value := ret VNone.

Definition on_epoch_end (self : loc) (net : value) (kwargs : dict value)
    : M heap value := ret VNone.

Definition on_batch_begin (self : loc) (net : value) (kwargs : dict value)
    : M heap value := ret VNone.

Definition on_batch_end (self : loc) (net : value) (kwargs : dict value)
    : M heap value := ret VNone.

Definition on_grad_computed (self : loc) (net : value)
    (named_parameters : value) (kwargs : dict value) : M heap value :=
  ret VNone.

(** [_get_param_names(self)]: the keys of [self.__dict__] that do not end
    with an underscore, in the order of the dictionary.  The source returns a
    generator; the accessors iterate it at once without assigning to
    [self], so this definition is the list it yields.  The file [Generator]
    models the generator itself and proves that reading. *)
Definition _get_param_names (self : loc) : M heap (list string) :=
  let! d := get_dict self in
  ret (filter (fun key => is_param_name key = true) (keys d)).

(** [get_params(self, deep)]: [BaseEstimator.get_params(self, deep=deep)]. *)
Definition get_params (vt : methods) (self : loc) (deep : bool)
    : M heap (dict value) :=
  BaseEstimator_get_params param_sep vt self deep.

(** [set_params(self, params)]: [BaseEstimator.set_params(self, params)],
    whose result is dropped: the method has no [return]. *)
Definition set_params (vt : methods) (self : loc) (params : dict value)
    : M heap value :=
  let! _ := BaseEstimator_set_params param_sep vt self params in
  ret VNone.

(** The calls [obj._get_param_names()], [obj.get_params(deep=deep)] and
    [obj.set_params] with the keywords [params] on a heap of callbacks,
    with [depth] nested calls left: the method is looked up on the class of
    the receiver, the receiver and the arguments are bound to the
    parameters of its [def], and its body runs. *)
Fixpoint callback_methods (depth : nat) : methods :=
  match depth with
  | 0 =>
      Methods (fun _ => raise RecursionError)
              (fun _ _ => raise RecursionError)
              (fun _ _ => raise RecursionError)
  | S n =>
      Methods
        (fun l => resolve l "_get_param_names"
           (call def__get_param_names (fun _ => _get_param_names l)
              [VRef l] ∅))
        (fun l deep => resolve l "get_params"
           (call def_get_params
              (fun fr => get_params (callback_methods n) l
                           (truthy (local fr "deep")))
              [VRef l] (Dict [("deep", VBool deep)])))
        (fun l params => resolve l "set_params"
           (call def_set_params
              (fun fr => set_params (callback_methods n) l (frame_kwargs fr))
              [VRef l] params))
  end.

(** The lifecycle methods of the class, for statements about all of them. *)
Inductive lifecycle : Type :=
| Initialize
| OnTrainBegin
| OnTrainEnd
| OnEpochBegin
| OnEpochEnd
| OnBatchBegin
| OnBatchEnd
| OnGradComputed (named_parameters : value).

(** The call of a lifecycle method on [self] with the trainer and the
    keyword arguments. *)
Definition call_lifecycle (m : lifecycle) (self : loc) (net : value)
    (kwargs : dict value) : M heap value :=
  match m with
  | Initialize => initialize self
  | OnTrainBegin => on_train_begin self net kwargs
  | OnTrainEnd => on_train_end self net kwargs
  | OnEpochBegin => on_epoch_begin self net kwargs
  | OnEpochEnd => on_epoch_end self net kwargs
  | OnBatchBegin => on_batch_begin self net kwargs
  | OnBatchEnd => on_batch_end self net kwargs
  | OnGradComputed np => on_grad_computed self net np kwargs
  end.

(** What a lifecycle method returns: the instance for [initialize], nothing
    for a hook. *)
Definition lifecycle_result (m : lifecycle) (self : loc) : value :=
  match m with Initialize => VRef self | _ => VNone end.

(** The public attributes of an object, which are its parameters. *)
Definition public_params (o : obj) : dict value :=
  filter_keys (fun k => negb (reserved k)) (obj_dict o).

(** Two states of an object with the same class and the same public
    attributes, in the same order, with the same values. *)
Definition same_obj_params (o o' : obj) : Prop :=
  obj_class o = obj_class o' /\ public_params o = public_params o'.

(** An object none of whose public attributes holds a callback. *)
Definition flat (h : heap) (o : obj) : Prop :=
  Forall (fun kv => no_callback h kv.2 = true) (items (public_params o)).

#[export] Instance flat_dec h o : Decision (flat h o).
Proof. unfold flat. apply _. Defined.

(** A name that [set_params] assigns directly on the object: an attribute
    the object has, not reserved, without the separator. *)
Definition plain_param (o : obj) (k : string) : Prop :=
  k ∈ keys (obj_dict o) /\ reserved k = false /\ ~ occurs param_sep k.

(** The objects of the specification's scenario: an early-stopping callback
    with the parameter [patience] and the runtime attribute [counter_], at
    address 1 of a heap that holds nothing else. *)
Definition EarlyStop : class_desc := Class "EarlyStop" true.

Definition early_stop : obj :=
  Obj EarlyStop (Dict [("patience", VInt 5); ("counter_", VInt 0)]).

Definition scenario : heap := {[ 1%positive := early_stop ]}.

(** A second scenario: two checkpoint callbacks, at addresses 2 and 3, whose
    parameter [inner] holds the same early-stopping callback, at address 1. *)
Definition Checkpoint : class_desc := Class "Checkpoint" true.

Definition checkpoint : obj :=
  Obj Checkpoint (Dict [("monitor", VStr "loss"); ("inner", VRef 1%positive)]).

Definition shared_scenario : heap :=
  <[3%positive := checkpoint]> (<[2%positive := checkpoint]> scenario).

(** ** Names *)

Lemma param_sep_nonempty : param_sep <> "".
Proof. done. Qed.

Lemma is_param_name_true k : is_param_name k = true <-> reserved k = false.
Proof. unfold is_param_name, reserved. by destruct (endswith k "_"). Qed.

#[export] Instance same_obj_params_equiv : Equivalence same_obj_params.
Proof.
  split.
  - by intros o.
  - by intros o o' [Hc Hp].
  - intros o1 o2 o3 [Hc Hp] [Hc' Hp']. split; congruence.
Qed.

(** ** [_get_param_names] *)

Section ParamNames.
Implicit Types (h : heap) (self : loc) (o : obj) (k : string).

Lemma _get_param_names_run h self o :
  h !! self = Some o ->
  _get_param_names self h =
    (Ret (filter (fun key => is_param_name key = true) (keys (obj_dict o))), h).
Proof.
  intros H. unfold _get_param_names.
  by rewrite (bind_run_ret _ _ _ _ _ (get_dict_run _ _ _ H)).
Qed.

Lemma _get_param_names_inv h self names h' :
  _get_param_names self h = (Ret names, h') ->
  exists o, h !! self = Some o /\ h' = h /\
    names = filter (fun key => is_param_name key = true) (keys (obj_dict o)).
Proof.
  destruct (h !! self) as [o|] eqn:Hl.
  - rewrite (_get_param_names_run _ _ _ Hl). intros [= <- <-]. by exists o.
  - unfold _get_param_names.
    by rewrite (bind_run_raise _ _ _ _ _ (get_dict_run_None _ _ Hl)).
Qed.

Lemma _get_param_names_preserves (R : relation heap) `{!PreOrder R} self :
  preserves R (_get_param_names self).
Proof.
  apply preserves_bind; [done | by apply preserves_get_dict |].
  intros d. by apply preserves_ret.
Qed.

Lemma _get_param_names_settable h self names h' k :
  _get_param_names self h = (Ret names, h') ->
  k ∈ names -> settable reserved h self k.
Proof.
  intros Hrun Hin.
  apply _get_param_names_inv in Hrun as (o & Hl & -> & ->).
  apply list_elem_of_filter in Hin as [Hp Hk]. exists o.
  split_and!; [done | done | by apply is_param_name_true].
Qed.

End ParamNames.

(** ** The binding of the dispatched calls *)

Section Bound.
Context {A : Type}.
Implicit Types (h : heap) (l : loc) (params : dict value).

(** [obj._get_param_names()]: the receiver is the only argument. *)
Lemma call_def__get_param_names (m : M heap A) l h :
  call def__get_param_names (fun _ => m) [VRef l] ∅ h = m h.
Proof.
  rewrite call_accepts; [done | apply dict_wf_empty |].
  by_compute.
Qed.

(** [obj.get_params(deep=deep)]: the body sees the given [deep]. *)
Lemma call_def_get_params (body : bool -> M heap A) l (deep : bool) h :
  call def_get_params (fun fr => body (truthy (local fr "deep")))
    [VRef l] (Dict [("deep", VBool deep)]) h = body deep h.
Proof.
  rewrite call_accepts.
  - unfold local.
    by rewrite (frame_of_lookup def_get_params _ _ 1 "deep"
                  (Some (VBool true)));
      [| by_compute |].
  - by_compute.
  - by_compute.
Qed.

(** [obj.set_params] with keywords none of which is [self]: the body sees
    the keywords as the dictionary [params]. *)
Lemma call_def_set_params (body : dict value -> M heap A) l params h :
  dict_wf params -> "self" ∉ keys params ->
  call def_set_params (fun fr => body (frame_kwargs fr)) [VRef l] params h =
    body params h.
Proof.
  intros Hwf Hself.
  assert (Forall (fun k => k ∉ param_names def_set_params) (keys params))
    as Hall.
  { apply Forall_forall. by intros k Hk ->%list_elem_of_singleton. }
  rewrite call_accepts, frame_of_kwargs; [done.. |].
  by apply accepts_full; [| eexists |].
Qed.

(** [obj.set_params(self=...)]: the receiver is bound to [self] already. *)
Lemma call_def_set_params_self (body : frame -> M heap A) l params h :
  dict_wf params -> "self" ∈ keys params ->
  call def_set_params body [VRef l] params h =
    (Raise (TypeError (MultipleValues "set_params" "self")), h).
Proof.
  intros Hwf Hself.
  destruct (bind_args_full_rejects def_set_params [VRef l] params)
    as (k & ->%list_elem_of_singleton & _ & Hbind);
    [done | by eexists | done | | ].
  - rewrite Forall_forall. intros Hall. apply (Hall _ Hself). by left.
  - unfold call, bind, lift_outcome. by rewrite Hbind.
Qed.

End Bound.

(** ** The method table satisfies the contract of the accessors *)

(** The dispatched [get_params] and [set_params] over a table that
    satisfies the contract satisfy it. *)
Section Dispatched.
Context (vt : methods) `{!MethodsOk param_sep reserved vt}.
Implicit Types (h : heap) (l : loc) (params vp : dict value).

(** The bodies of the accessors of [Callback], on dispatched calls that
    keep the contract. *)
Lemma get_params_body_read_only l deep : read_only (get_params vt l deep).
Proof. by apply BaseEstimator_get_params_read_only with (P := reserved). Qed.

Lemma get_params_body_settable l deep h vp h' k :
  get_params vt l deep h = (Ret vp, h') ->
  k ∈ keys vp -> ~ occurs param_sep k -> settable reserved h l k.
Proof. by apply BaseEstimator_get_params_settable. Qed.

Lemma set_params_body_frame l params :
  preserves (heap_frame reserved) (set_params vt l params).
Proof.
  apply preserves_bind; [apply _ | | intros; apply preserves_ret, _].
  apply BaseEstimator_set_params_frame; [apply _ | apply param_sep_nonempty].
Qed.

Lemma dispatched_get_params_read_only l deep :
  read_only
    (resolve l "get_params"
       (call def_get_params
          (fun fr => get_params vt l (truthy (local fr "deep")))
          [VRef l] (Dict [("deep", VBool deep)]))).
Proof.
  apply preserves_resolve; [apply _ |].
  apply preserves_call; [apply _ |]. intros fr.
  apply get_params_body_read_only.
Qed.

Lemma dispatched_get_params_settable l deep h vp h' :
  resolve l "get_params"
    (call def_get_params
       (fun fr => get_params vt l (truthy (local fr "deep")))
       [VRef l] (Dict [("deep", VBool deep)])) h = (Ret vp, h') ->
  forall k, k ∈ keys vp -> ~ occurs param_sep k -> settable reserved h l k.
Proof.
  intros (o & Hl & Hcb & Hrun)%resolve_ret_inv.
  rewrite (call_def_get_params (get_params _ l)) in Hrun.
  intros k. by eapply get_params_body_settable.
Qed.

Lemma dispatched_set_params_frame l params :
  preserves (heap_frame reserved)
    (resolve l "set_params"
       (call def_set_params
          (fun fr => set_params vt l (frame_kwargs fr)) [VRef l] params)).
Proof.
  apply preserves_resolve; [apply _ |].
  apply preserves_call; [apply _ |]. intros fr.
  apply set_params_body_frame.
Qed.

End Dispatched.

#[export] Instance callback_methods_ok depth :
  MethodsOk param_sep reserved (callback_methods depth).
Proof.
  induction depth as [|n IH]; split;
    cbn [callback_methods call_get_param_names call_get_params
         call_set_params]; intros; try done; try (apply preserves_raise, _).
  - apply preserves_resolve; [apply _ |].
    apply preserves_call; [apply _ |]. intros _.
    apply _get_param_names_preserves, _.
  - apply resolve_ret_inv in H as (o & Hl & Hcb & Hrun).
    rewrite call_def__get_param_names in Hrun.
    by eapply _get_param_names_settable.
  - by apply dispatched_get_params_read_only.
  - by eapply dispatched_get_params_settable.
  - by apply dispatched_set_params_frame.
Qed.

(** ** Running the dispatched calls on a callback *)

Section Dispatch.
Implicit Types (h : heap) (self : loc) (o : obj) (k : string)
  (vp : dict value).

Lemma call_get_param_names_run depth h self o :
  h !! self = Some o -> cls_is_callback (obj_class o) = true ->
  call_get_param_names (callback_methods (S depth)) self h =
    (Ret (filter (fun key => is_param_name key = true) (keys (obj_dict o))),
     h).
Proof.
  intros Hl Hcb. cbn [callback_methods call_get_param_names].
  rewrite (resolve_run _ _ _ _ _ Hl), Hcb, call_def__get_param_names.
  by apply _get_param_names_run.
Qed.

Lemma call_get_params_run depth h self o deep :
  h !! self = Some o -> cls_is_callback (obj_class o) = true ->
  call_get_params (callback_methods (S depth)) self deep h =
    get_params (callback_methods depth) self deep h.
Proof.
  intros Hl Hcb. cbn [callback_methods call_get_params].
  rewrite (resolve_run _ _ _ _ _ Hl), Hcb.
  apply (call_def_get_params (get_params _ self)).
Qed.

(** A dispatched [set_params] whose keywords do not name the receiver runs
    the method on them. *)
Lemma call_set_params_run depth h self o params :
  h !! self = Some o -> cls_is_callback (obj_class o) = true ->
  dict_wf params -> "self" ∉ keys params ->
  call_set_params (callback_methods (S depth)) self params h =
    set_params (callback_methods depth) self params h.
Proof.
  intros Hl Hcb Hwf Hself. cbn [callback_methods call_set_params].
  rewrite (resolve_run _ _ _ _ _ Hl), Hcb.
  by apply (call_def_set_params (set_params _ self)).
Qed.

(** A dispatched [get_params] that returns has found a callback and run
    the method. *)
Lemma call_get_params_inv depth l deep h vp h' :
  call_get_params (callback_methods (S depth)) l deep h = (Ret vp, h') ->
  exists o, h !! l = Some o /\ cls_is_callback (obj_class o) = true /\
    get_params (callback_methods depth) l deep h = (Ret vp, h').
Proof.
  cbn [callback_methods call_get_params].
  intros (o & Hl & Hcb & Hrun)%resolve_ret_inv. exists o.
  by rewrite (call_def_get_params (get_params _ l)) in Hrun.
Qed.

(** The parameters entered for the names of a well-formed object are its
    public attributes. *)
Lemma update_attr_pairs o :
  dict_wf (obj_dict o) ->
  update ∅ (attr_pairs o
    (filter (fun key => is_param_name key = true) (keys (obj_dict o)))) =
  public_params o.
Proof.
  intros Hwf. unfold attr_pairs, public_params, filter_keys.
  rewrite (fmap_lookup_filter (fun key => is_param_name key = true)) by done.
  apply update_empty_NoDup, NoDup_fst_filter, Hwf.
Qed.

(** The names [_get_param_names] yields are the keys of the public
    attributes. *)
Lemma keys_public_params o :
  keys (public_params o) =
  filter (fun key => is_param_name key = true) (keys (obj_dict o)).
Proof.
  unfold public_params. rewrite keys_filter_keys.
  apply list_filter_iff. intros k. unfold is_param_name, reserved.
  by destruct (endswith k "_").
Qed.

Lemma elem_of_keys_public_params o k :
  k ∈ keys (public_params o) <->
  reserved k = false /\ is_Some (obj_dict o !! k).
Proof.
  rewrite keys_public_params, list_elem_of_filter, is_param_name_true.
  by rewrite lookup_dict_is_Some.
Qed.

(** The names [_get_param_names] yields depend on the public attributes
    of the instance only. *)
Lemma _get_param_names_similar h h' self :
  option_Forall2 same_obj_params (h !! self) (h' !! self) ->
  (_get_param_names self h').1 = (_get_param_names self h).1.
Proof.
  destruct (h !! self) as [o|] eqn:Hl, (h' !! self) as [o'|] eqn:Hl';
    inversion 1 as [? ? [_ Hp]|]; subst.
  - rewrite (_get_param_names_run _ _ _ Hl), (_get_param_names_run _ _ _ Hl').
    cbn [fst]. by rewrite <- !keys_public_params, Hp.
  - unfold _get_param_names.
    by rewrite !(bind_run_raise _ _ _ _ _ (get_dict_run_None _ _ Hl)),
      !(bind_run_raise _ _ _ _ _ (get_dict_run_None _ _ Hl')).
Qed.

(** A public attribute is read from the instance dictionary as from the
    public attributes. *)
Lemma lookup_public_params o k :
  is_param_name k = true -> public_params o !! k = obj_dict o !! k.
Proof.
  intros Hk%is_param_name_true. unfold public_params.
  by rewrite lookup_filter_keys, Hk.
Qed.

(** The values [get_params] reads for the names of a flat object are no
    callbacks. *)
Lemma flat_names h o :
  flat h o ->
  Forall (fun k => no_callback h (default VNone (obj_dict o !! k)) = true)
         (filter (fun key => is_param_name key = true) (keys (obj_dict o))).
Proof.
  unfold flat. rewrite !Forall_forall. intros Hflat k Hk.
  rewrite <- keys_public_params in Hk.
  pose proof Hk as [Hpub _]%elem_of_keys_public_params.
  apply lookup_dict_is_Some in Hk as [v Hv].
  rewrite <- lookup_public_params, Hv by by apply is_param_name_true.
  by apply (Hflat (k, v)), alist_get_Some_elem.
Qed.

(** Without [deep], or on a flat object, [get_params] returns the public
    attributes. *)
Lemma get_params_flat_run depth h self o deep :
  h !! self = Some o -> cls_is_callback (obj_class o) = true ->
  dict_wf (obj_dict o) -> (deep = true -> flat h o) ->
  get_params (callback_methods (S depth)) self deep h =
    (Ret (public_params o), h).
Proof.
  intros Hl Hcb Hwf Hflat. unfold get_params.
  rewrite (BaseEstimator_get_params_flat _ _ _ _ _ _ _ Hl
             (call_get_param_names_run _ _ _ _ Hl Hcb));
    [by rewrite update_attr_pairs |].
  intros Hd. by apply flat_names, Hflat.
Qed.

(** When [get_params(deep=True)] returns, a name without separator is valid
    exactly when it is a public attribute of the instance. *)
Lemma valid_plain_name depth h self o vp h' k :
  h !! self = Some o -> cls_is_callback (obj_class o) = true ->
  get_params (callback_methods (S depth)) self true h = (Ret vp, h') ->
  ~ occurs param_sep k ->
  contains k vp = true <-> k ∈ keys (obj_dict o) /\ reserved k = false.
Proof.
  intros Hl Hcb Hget Hno. unfold contains. rewrite bool_decide_eq_true.
  rewrite (BaseEstimator_get_params_plain_keys _ _ _ _ _ _ _ _ _
             (call_get_param_names_run _ _ _ _ Hl Hcb) Hget Hno).
  rewrite list_elem_of_filter, is_param_name_true. tauto.
Qed.

End Dispatch.

(** ** Helper lemmas of the theorems on [set_params] *)

Section SetParamsLemmas.
Implicit Types (h : heap) (self : loc) (o : obj) (k : string)
  (vp params : dict value).

#[export] Instance plain_param_dec o k : Decision (plain_param o k).
Proof. unfold plain_param. apply _. Defined.

(** What [get_params(deep=True)] returned is what running it gives. *)
Lemma call_get_params_fst_run depth self deep h vp :
  (call_get_params (callback_methods depth) self deep h).1 = Ret vp ->
  call_get_params (callback_methods depth) self deep h = (Ret vp, h).
Proof.
  intros Hfst.
  rewrite (read_only_run _ h (methods_get_read_only (vt := callback_methods depth)
                                (sep := param_sep) (P := reserved) self deep)).
  by rewrite Hfst.
Qed.

Lemma plain_valid_of_plain_param depth h self o vp pairs :
  h !! self = Some o -> cls_is_callback (obj_class o) = true ->
  call_get_params (callback_methods (S (S depth))) self true h = (Ret vp, h) ->
  Forall (plain_param o) pairs.*1 ->
  Forall (plain_valid param_sep vp) pairs.
Proof.
  intros Hl Hcb Hget Hall. rewrite Forall_fmap in Hall.
  rewrite (call_get_params_run _ _ _ _ _ Hl Hcb) in Hget.
  eapply Forall_impl; [exact Hall |]. intros [k v] (Hk & Hr & Hno).
  split; [| done]. by apply (valid_plain_name _ _ _ _ _ _ _ Hl Hcb Hget Hno).
Qed.

(** [set_params] with plain public names assigns them on the instance. *)
Lemma call_set_params_plain depth self o params vp h :
  h !! self = Some o -> cls_is_callback (obj_class o) = true ->
  call_get_params (callback_methods (S (S depth))) self true h = (Ret vp, h) ->
  Forall (plain_param o) (keys params) ->
  dict_wf params -> "self" ∉ keys params ->
  call_set_params (callback_methods (S (S (S depth)))) self params h =
    (Ret VNone,
     <[self := Obj (obj_class o) (update (obj_dict o) (items params))]> h).
Proof.
  intros Hl Hcb Hget Hall Hwf Hself.
  rewrite (call_set_params_run _ _ _ _ _ Hl Hcb Hwf Hself). unfold set_params.
  erewrite bind_run_ret; [reflexivity |].
  apply BaseEstimator_set_params_plain with (vp := vp);
    [apply param_sep_nonempty | done | done |].
  by eapply plain_valid_of_plain_param.
Qed.

Lemma invalid_head_name depth h self o vp key :
  h !! self = Some o -> cls_is_callback (obj_class o) = true ->
  call_get_params (callback_methods (S (S depth))) self true h = (Ret vp, h) ->
  (partition key param_sep).1.1 ∉ keys (obj_dict o) \/
    reserved (partition key param_sep).1.1 = true ->
  contains (partition key param_sep).1.1 vp = false.
Proof.
  intros Hl Hcb Hget Hbad.
  rewrite (call_get_params_run _ _ _ _ _ Hl Hcb) in Hget.
  apply not_true_is_false. intros Hc.
  apply (valid_plain_name _ _ _ _ _ _ _ Hl Hcb Hget) in Hc as [Hk Hr];
    [| apply partition_head_free, param_sep_nonempty].
  destruct Hbad as [? | Hres]; [done | congruence].
Qed.

End SetParamsLemmas.

(** ** Call depth *)

Section Depth.
Implicit Types (h : heap) (self l : loc) (o : obj) (k key : string).

(** One more level of call depth changes nothing where the calls did not
    overflow. *)
Lemma callback_methods_deeper_S n :
  (forall l, deeper (call_get_param_names (callback_methods n) l)
                    (call_get_param_names (callback_methods (S n)) l)) /\
  (forall l deep, deeper (call_get_params (callback_methods n) l deep)
                         (call_get_params (callback_methods (S n)) l deep)) /\
  (forall l params, deeper (call_set_params (callback_methods n) l params)
                           (call_set_params (callback_methods (S n)) l params)).
Proof.
  induction n as [|n (IHn & IHg & IHs)];
    [split_and!; intros; apply deeper_overflow |].
  split_and!; intros; cbn [callback_methods call_get_param_names
    call_get_params call_set_params]; unfold resolve;
    (apply deeper_bind; [reflexivity |]); intros o;
    destruct (cls_is_callback _); try reflexivity;
    apply deeper_call; intros fr.
  - by apply BaseEstimator_get_params_deeper.
  - apply deeper_bind; [| reflexivity].
    by apply BaseEstimator_set_params_deeper.
Qed.

Lemma callback_methods_deeper n m :
  n <= m ->
  (forall l, deeper (call_get_param_names (callback_methods n) l)
                    (call_get_param_names (callback_methods m) l)) /\
  (forall l deep, deeper (call_get_params (callback_methods n) l deep)
                         (call_get_params (callback_methods m) l deep)) /\
  (forall l params, deeper (call_set_params (callback_methods n) l params)
                           (call_set_params (callback_methods m) l params)).
Proof.
  induction 1 as [|m _ (IHn & IHg & IHs)]; [split_and!; reflexivity |].
  destruct (callback_methods_deeper_S m) as (Hn & Hg & Hs).
  split_and!; intros; etrans; eauto.
Qed.

End Depth.

(** ** Theorems *)

Section Theorems.
Implicit Types (h : heap) (self l : loc) (o : obj) (k key : string)
  (v : value) (vp params : dict value).

(** C1.  Whatever the parameters, the call depth and the outcome,
    [set_params] leaves a heap with the same objects, each with its class
    and its attribute names in their order, and with the value of every
    attribute whose name ends with an underscore unchanged. *)
Theorem set_params_frame depth self params h :
  heap_frame reserved h
    (call_set_params (callback_methods depth) self params h).2.
Proof. apply methods_set_frame. Qed.

(** C2.  On a callback on which [get_params(deep=True)] returns (its
    nested callbacks are not nested beyond the call depth), when every
    given name is a public attribute of the callback and holds no
    separator, and none is [self], [set_params] assigns the given values
    to these attributes in keyword order, leaves every other attribute
    and every other object as it was, and returns [None]. *)
Theorem set_params_assigns depth self o params vp h :
  h !! self = Some o -> cls_is_callback (obj_class o) = true ->
  (call_get_params (callback_methods (S (S depth))) self true h).1 = Ret vp ->
  Forall (plain_param o) (keys params) ->
  dict_wf params -> "self" ∉ keys params ->
  call_set_params (callback_methods (S (S (S depth)))) self params h =
    (Ret VNone,
     <[self := Obj (obj_class o) (update (obj_dict o) (items params))]> h).
Proof.
  intros Hl Hcb Hget%call_get_params_fst_run Hall Hwf Hself.
  by eapply call_set_params_plain.
Qed.

(** C3.  [set_params] raises [ValueError] at the first given name whose part
    before the separator is not a public attribute of the callback (it is
    unknown, or it ends with an underscore); the names given before it,
    when they are plain public attributes, have been assigned and stay
    assigned. *)
Theorem set_params_rejects depth self o params pre key v post vp h :
  h !! self = Some o -> cls_is_callback (obj_class o) = true ->
  (call_get_params (callback_methods (S (S depth))) self true h).1 = Ret vp ->
  items params = pre ++ (key, v) :: post ->
  Forall (plain_param o) pre.*1 ->
  (partition key param_sep).1.1 ∉ keys (obj_dict o) \/
    reserved (partition key param_sep).1.1 = true ->
  dict_wf params -> "self" ∉ keys params ->
  call_set_params (callback_methods (S (S (S depth)))) self params h =
    (Raise (ValueError (partition key param_sep).1.1),
     <[self := Obj (obj_class o) (update (obj_dict o) pre)]> h).
Proof.
  intros Hl Hcb Hget%call_get_params_fst_run Hitems Hpre Hbad Hwf Hself.
  rewrite (call_set_params_run _ _ _ _ _ Hl Hcb Hwf Hself). unfold set_params.
  erewrite bind_run_raise; [reflexivity |].
  apply BaseEstimator_set_params_invalid with (vp := vp) (v := v) (post := post);
    [apply param_sep_nonempty | done | done | done | |].
  - by eapply plain_valid_of_plain_param.
  - by eapply invalid_head_name.
Qed.

(** C4.  [get_params] returns exactly the attributes of the callback whose
    name does not end with an underscore, with their current values, in the
    order of the instance dictionary, and leaves the heap as it is: without
    [deep] always, and with [deep] when none of these attributes holds a
    callback. *)
Theorem get_params_public depth self o deep h :
  h !! self = Some o -> cls_is_callback (obj_class o) = true ->
  dict_wf (obj_dict o) -> (deep = true -> flat h o) ->
  call_get_params (callback_methods (S (S depth))) self deep h =
    (Ret (public_params o), h).
Proof.
  intros Hl Hcb Hwf Hflat. rewrite (call_get_params_run _ _ _ _ _ Hl Hcb).
  by apply get_params_flat_run.
Qed.

(** C5.  [get_params] never changes the heap: with or without [deep], at
    any call depth, whether it returns or raises. *)
Theorem get_params_read_only depth self deep h :
  (call_get_params (callback_methods depth) self deep h).2 = h.
Proof.
  symmetry.
  apply (methods_get_read_only (sep := param_sep) (P := reserved)).
Qed.

(** C6.  [_get_param_names] yields the attribute names of the instance that
    do not end with an underscore, each once, in the order of the instance
    dictionary, and changes nothing. *)
Theorem param_names_spec self o h :
  h !! self = Some o -> dict_wf (obj_dict o) ->
  exists names,
    _get_param_names self h = (Ret names, h) /\
    NoDup names /\
    names `sublist_of` keys (obj_dict o) /\
    forall k, k ∈ names <-> k ∈ keys (obj_dict o) /\ reserved k = false.
Proof.
  intros Hl Hwf. eexists. split; [by apply _get_param_names_run |].
  split_and!.
  - by apply NoDup_filter.
  - apply sublist_filter.
  - intros k. rewrite list_elem_of_filter, is_param_name_true. tauto.
Qed.

(** C8.  After [set_params] has assigned plain public attributes,
    [get_params] returns the public attributes it had, updated with the
    given values: without [deep] always, and with [deep] when none of them
    then holds a callback. *)
Theorem set_params_get_params depth self o params vp deep h :
  let o' := Obj (obj_class o) (update (obj_dict o) (items params)) in
  h !! self = Some o -> cls_is_callback (obj_class o) = true ->
  dict_wf (obj_dict o) ->
  (call_get_params (callback_methods (S (S depth))) self true h).1 = Ret vp ->
  Forall (plain_param o) (keys params) ->
  dict_wf params -> "self" ∉ keys params ->
  (deep = true -> flat (<[self := o']> h) o') ->
  (let! _ := call_set_params (callback_methods (S (S (S depth)))) self params in
   call_get_params (callback_methods (S (S depth))) self deep) h =
    (Ret (update (public_params o) (items params)), <[self := o']> h).
Proof.
  intros o' Hl Hcb Hwf Hget%call_get_params_fst_run Hall Hwfp Hself Hflat.
  erewrite bind_run_ret; [| by eapply call_set_params_plain].
  erewrite call_get_params_run; [| apply lookup_insert_eq | done].
  rewrite get_params_flat_run with (o := o');
    [| apply lookup_insert_eq | done | by apply dict_wf_update | done].
  unfold public_params. simpl. rewrite filter_keys_update; [done |].
  eapply Forall_impl; [exact Hall |]. intros k (Hk & Hr & _).
  split; [by rewrite Hr | done].
Qed.

(** [set_params] with names without separator keeps to the callback. *)
Lemma call_set_params_no_sep depth self params :
  Forall (fun k => ~ occurs param_sep k) (keys params) ->
  preserves (only_changes self)
    (call_set_params (callback_methods depth) self params).
Proof.
  intros Hall. destruct depth as [|depth]; [done |].
  cbn [callback_methods call_set_params].
  apply preserves_resolve; [apply _ |].
  apply preserves_call_bound; [apply _ |]. intros fr Hfr.
  apply preserves_bind; [apply _ | | intros; apply preserves_ret, _].
  apply BaseEstimator_set_params_no_sep; [apply param_sep_nonempty | |].
  - apply (methods_get_read_only (sep := param_sep) (P := reserved)).
  - rewrite Forall_forall in Hall |- *. intros k Hk.
    by eapply Hall, bind_args_kwargs_keys.
Qed.

(** C10.  When no given name holds the separator, [set_params] changes no
    object but the callback it is called on, whatever the outcome. *)
Theorem set_params_plain_only_changes_self depth self params h l :
  Forall (fun k => ~ occurs param_sep k) (keys params) -> l <> self ->
  (call_set_params (callback_methods depth) self params h).2 !! l = h !! l.
Proof.
  intros Hall Hne. symmetry. by apply (call_set_params_no_sep depth).
Qed.

(** [set_params()] without parameters returns [None] and reads nothing:
    the delegated method returns before it asks for the valid parameters,
    so the call needs no further call depth and returns also on a callback
    on which [get_params] raises. *)
Theorem set_params_without_parameters depth self o h :
  h !! self = Some o -> cls_is_callback (obj_class o) = true ->
  call_set_params (callback_methods (S depth)) self ∅ h = (Ret VNone, h).
Proof.
  intros Hl Hcb.
  rewrite (call_set_params_run _ _ _ _ _ Hl Hcb dict_wf_empty); [done |].
  by intros ?%elem_of_nil.
Qed.

(** The lifecycle methods do nothing: a hook returns [None],
    [initialize] returns the instance it was called on, and the heap is left
    as it is, whatever the trainer and the keyword arguments. *)
Theorem lifecycle_methods_do_nothing m self net kwargs h :
  call_lifecycle m self net kwargs h = (Ret (lifecycle_result m self), h).
Proof. by destruct m. Qed.

(** C38.  A public attribute whose name holds the separator is reported by
    [get_params] but cannot be assigned through [set_params]: the name is
    split at the separator, and when the part before it is no public
    attribute the call raises [ValueError] and changes nothing. *)
Theorem set_params_rejects_separator_name depth self o key v vp h :
  h !! self = Some o -> cls_is_callback (obj_class o) = true ->
  (call_get_params (callback_methods (S (S depth))) self true h).1 = Ret vp ->
  key ∈ keys (obj_dict o) -> reserved key = false ->
  (partition key param_sep).1.1 ∉ keys (obj_dict o) ->
  contains key vp = true /\
  call_set_params (callback_methods (S (S (S depth)))) self
    (Dict [(key, v)]) h =
    (Raise (ValueError (partition key param_sep).1.1), h).
Proof.
  intros Hl Hcb Hget%call_get_params_fst_run Hk Hr Hhead.
  assert (key <> "self") as Hself by (by intros ->). split.
  - rewrite (call_get_params_run _ _ _ _ _ Hl Hcb) in Hget.
    apply bool_decide_eq_true.
    unfold get_params, BaseEstimator_get_params in Hget.
    rewrite (bind_run_ret _ _ _ _ _ (call_get_param_names_run _ _ _ _ Hl Hcb))
      in Hget.
    eapply get_params_loop_names; [exact Hget |].
    apply list_elem_of_filter. split; [by apply is_param_name_true | done].
  - rewrite (call_set_params_run _ _ _ _ _ Hl Hcb);
      [| apply NoDup_singleton | by intros ?%list_elem_of_singleton].
    unfold set_params. erewrite bind_run_raise; [reflexivity |].
    pose proof (BaseEstimator_set_params_invalid param_sep
      (callback_methods (S (S depth))) param_sep_nonempty self o vp
      (Dict [(key, v)]) [] key v [] h Hl Hget eq_refl (Forall_nil_2 _)) as Hinv.
    rewrite update_nil in Hinv. destruct o as [c d]. simpl in Hinv.
    rewrite (insert_id h self _ Hl) in Hinv. apply Hinv.
    eapply invalid_head_name; [done | done | done | by left].
Qed.

(** C18.  A public attribute named [self] is reported by [get_params] but
    cannot be assigned through [set_params]: the keyword [self] meets the
    parameter that holds the receiver, and the call raises [TypeError]
    and changes nothing, whatever the other keywords. *)
Theorem set_params_rejects_self depth self o params h :
  h !! self = Some o -> cls_is_callback (obj_class o) = true ->
  dict_wf (obj_dict o) -> "self" ∈ keys (obj_dict o) ->
  dict_wf params -> "self" ∈ keys params ->
  (exists vp,
     call_get_params (callback_methods (S (S depth))) self false h =
       (Ret vp, h) /\ "self" ∈ keys vp) /\
  call_set_params (callback_methods (S depth)) self params h =
    (Raise (TypeError (MultipleValues "set_params" "self")), h).
Proof.
  intros Hl Hcb Hwf Hin Hwfp Hself. split.
  - exists (public_params o). split.
    + rewrite (call_get_params_run _ _ _ _ _ Hl Hcb).
      by apply get_params_flat_run.
    + apply elem_of_keys_public_params. by rewrite lookup_dict_is_Some.
  - cbn [callback_methods call_set_params].
    rewrite (resolve_run _ _ _ _ _ Hl), Hcb.
    by apply call_def_set_params_self.
Qed.

(** Callbacks that hold the same nested callback share its
    parameters: after [set_params(inner__patience=10)] on the checkpoint at
    address 2, [get_params(deep=True)] on the checkpoint at address 3
    reports the new value. *)
Theorem shared_nested_callback_is_shared :
  (call_get_params (callback_methods 3) 3%positive true shared_scenario).1 =
    Ret (Dict [("monitor", VStr "loss"); ("inner__patience", VInt 5);
               ("inner", VRef 1%positive)]) /\
  (call_get_params (callback_methods 3) 3%positive true
     (call_set_params (callback_methods 4) 2%positive
        (Dict [("inner__patience", VInt 10)]) shared_scenario).2).1 =
    Ret (Dict [("monitor", VStr "loss"); ("inner__patience", VInt 10);
               ("inner", VRef 1%positive)]).
Proof. split; vm_compute; reflexivity. Qed.

(** A name is kept out of the parameters exactly when it is some
    string, possibly empty, followed by an underscore: only the last
    character counts. *)
Theorem reserved_iff k : reserved k = true <-> exists p, k = p +:+ "_".
Proof. apply endswith_iff. Qed.

(** C23.  The two phases of [set_params]: when the part before the
    separator of every given name is a parameter of the callback, the call
    first assigns the names without separator to the instance, in keyword
    order, and then forwards the others, grouped by the part before the
    separator, to the values that [get_params(deep=True)] gave for these
    parts before the assignments; it returns [None] unless a forwarded call
    raises. *)
Theorem set_params_two_phases depth self o params vp h :
  h !! self = Some o -> cls_is_callback (obj_class o) = true ->
  (call_get_params (callback_methods (S (S depth))) self true h).1 = Ret vp ->
  Forall (fun k => contains (partition k param_sep).1.1 vp = true)
         (keys params) ->
  is_empty params = false -> dict_wf params -> "self" ∉ keys params ->
  call_set_params (callback_methods (S (S (S depth)))) self params h =
    (let! _ := set_nested_loop (callback_methods (S (S depth))) vp
                 (items (nested_part param_sep (items params) ∅)) in
     ret VNone)
      (<[self := Obj (obj_class o)
                   (update (obj_dict o)
                      (plain_part param_sep (items params)))]> h).
Proof.
  intros Hl Hcb Hget%call_get_params_fst_run Hall Hne Hwf Hself.
  rewrite (call_set_params_run _ _ _ _ _ Hl Hcb Hwf Hself). unfold set_params.
  unfold bind at 1.
  rewrite (BaseEstimator_set_params_phases param_sep _ param_sep_nonempty
             self vp o params h Hl Hget Hall Hne).
  unfold bind, ret. by destruct (set_nested_loop _ _ _ _) as [[[]|e] h'].
Qed.

End Theorems.

(** ** The theorems at the scenario of the specification *)

Section Witnesses.

(** [set_params(patience=10)] on the early-stopping callback. *)
Lemma set_params_assigns_witness :
  call_set_params (callback_methods 3) 1%positive
    (Dict [("patience", VInt 10)]) scenario =
  (Ret VNone,
   <[1%positive := Obj EarlyStop
       (Dict [("patience", VInt 10); ("counter_", VInt 0)])]> scenario).
Proof.
  apply (set_params_assigns 0 1%positive early_stop
           (Dict [("patience", VInt 10)]) (Dict [("patience", VInt 5)])).
  - reflexivity.
  - reflexivity.
  - vm_compute. reflexivity.
  - by_compute.
  - by_compute.
  - by_compute.
Defined.

(** [set_params(patience=10, counter_=3)]: the reserved name is rejected
    after [patience] has been assigned. *)
Lemma set_params_rejects_witness :
  call_set_params (callback_methods 3) 1%positive
    (Dict [("patience", VInt 10); ("counter_", VInt 3)]) scenario =
  (Raise (ValueError "counter_"),
   <[1%positive := Obj EarlyStop
       (Dict [("patience", VInt 10); ("counter_", VInt 0)])]> scenario).
Proof.
  apply (set_params_rejects 0 1%positive early_stop
           (Dict [("patience", VInt 10); ("counter_", VInt 3)])
           [("patience", VInt 10)] "counter_" (VInt 3) []
           (Dict [("patience", VInt 5)])).
  - reflexivity.
  - reflexivity.
  - vm_compute. reflexivity.
  - reflexivity.
  - by_compute.
  - right. vm_compute. reflexivity.
  - by_compute.
  - by_compute.
Defined.

(** [get_params(deep=False)] on the early-stopping callback. *)
Lemma get_params_public_witness :
  call_get_params (callback_methods 2) 1%positive true scenario =
  (Ret (Dict [("patience", VInt 5)]), scenario).
Proof.
  apply (get_params_public 0 1%positive early_stop true scenario).
  - reflexivity.
  - reflexivity.
  - by_compute.
  - intros _. by_compute.
Defined.

Lemma param_names_spec_witness :
  exists names,
    _get_param_names 1%positive scenario = (Ret names, scenario) /\
    NoDup names /\
    names `sublist_of` keys (obj_dict early_stop) /\
    forall k, k ∈ names <->
              k ∈ keys (obj_dict early_stop) /\ reserved k = false.
Proof.
  apply (param_names_spec 1%positive early_stop scenario).
  - reflexivity.
  - by_compute.
Defined.

(** [set_params(patience=10)] followed by [get_params(deep=False)]. *)
Lemma set_params_get_params_witness :
  (let! _ := call_set_params (callback_methods 3) 1%positive
               (Dict [("patience", VInt 10)]) in
   call_get_params (callback_methods 2) 1%positive true) scenario =
  (Ret (Dict [("patience", VInt 10)]),
   <[1%positive := Obj EarlyStop
       (Dict [("patience", VInt 10); ("counter_", VInt 0)])]> scenario).
Proof.
  apply (set_params_get_params 0 1%positive early_stop
           (Dict [("patience", VInt 10)]) (Dict [("patience", VInt 5)]) true).
  - reflexivity.
  - reflexivity.
  - by_compute.
  - vm_compute. reflexivity.
  - by_compute.
  - by_compute.
  - by_compute.
  - intros _. by_compute.
Defined.

(** Two callbacks: assigning a parameter of the first leaves the second. *)
Lemma set_params_plain_only_changes_self_witness :
  (call_set_params (callback_methods 3) 1%positive
     (Dict [("patience", VInt 10)])
     (<[2%positive := early_stop]> scenario)).2 !! 2%positive =
  (<[2%positive := early_stop]> scenario) !! 2%positive.
Proof.
  apply (set_params_plain_only_changes_self 3 1%positive
           (Dict [("patience", VInt 10)])).
  - by_compute.
  - discriminate.
Defined.

(** An attribute named [learning__rate] is reported and cannot be set. *)
Lemma set_params_rejects_separator_name_witness :
  contains "learning__rate" (Dict [("learning__rate", VInt 1)]) = true /\
  call_set_params (callback_methods 3) 1%positive
    (Dict [("learning__rate", VInt 2)])
    {[ 1%positive := Obj Callback (Dict [("learning__rate", VInt 1)]) ]} =
    (Raise (ValueError "learning"),
     {[ 1%positive := Obj Callback (Dict [("learning__rate", VInt 1)]) ]}).
Proof.
  apply (set_params_rejects_separator_name 0 1%positive
           (Obj Callback (Dict [("learning__rate", VInt 1)]))
           "learning__rate" (VInt 2) (Dict [("learning__rate", VInt 1)])).
  - reflexivity.
  - reflexivity.
  - vm_compute. reflexivity.
  - by_compute.
  - vm_compute. reflexivity.
  - by_compute.
Defined.

(** A callback with an attribute named [self]. *)
Lemma set_params_rejects_self_witness :
  (exists vp,
     call_get_params (callback_methods 2) 1%positive false
       {[ 1%positive := Obj Callback (Dict [("self", VInt 1)]) ]} =
       (Ret vp, {[ 1%positive := Obj Callback (Dict [("self", VInt 1)]) ]}) /\
     "self" ∈ keys vp) /\
  call_set_params (callback_methods 1) 1%positive (Dict [("self", VInt 2)])
    {[ 1%positive := Obj Callback (Dict [("self", VInt 1)]) ]} =
    (Raise (TypeError (MultipleValues "set_params" "self")),
     {[ 1%positive := Obj Callback (Dict [("self", VInt 1)]) ]}).
Proof.
  apply (set_params_rejects_self 0 1%positive
           (Obj Callback (Dict [("self", VInt 1)]))
           (Dict [("self", VInt 2)])).
  - reflexivity.
  - reflexivity.
  - by_compute.
  - by_compute.
  - by_compute.
  - by_compute.
Defined.

(** [set_params(monitor="acc", inner__patience=10)] on a checkpoint
    callback. *)
Lemma set_params_two_phases_witness :
  call_set_params (callback_methods 4) 2%positive
    (Dict [("monitor", VStr "acc"); ("inner__patience", VInt 10)])
    shared_scenario =
  (let! _ := set_nested_loop (callback_methods 3)
               (Dict [("monitor", VStr "loss"); ("inner__patience", VInt 5);
                      ("inner", VRef 1%positive)])
               (items (nested_part param_sep
                  [("monitor", VStr "acc"); ("inner__patience", VInt 10)] ∅)) in
   ret VNone)
    (<[2%positive := Obj Checkpoint
         (update (obj_dict checkpoint)
            (plain_part param_sep
               [("monitor", VStr "acc"); ("inner__patience", VInt 10)]))]>
       shared_scenario).
Proof.
  apply (set_params_two_phases 1 2%positive checkpoint
           (Dict [("monitor", VStr "acc"); ("inner__patience", VInt 10)])
           (Dict [("monitor", VStr "loss"); ("inner__patience", VInt 5);
                  ("inner", VRef 1%positive)]) shared_scenario).
  - reflexivity.
  - reflexivity.
  - vm_compute. reflexivity.
  - by_compute.
  - reflexivity.
  - by_compute.
  - by_compute.
Defined.

End Witnesses.
