(* ===== verification/Generator.v ===== *)
(** * Generator: the generator that [_get_param_names] returns

    [_get_param_names] (base.py, lines 62-63) returns a generator
    expression over [self.__dict__]: no name is computed when the method
    returns.  The iterator of the dictionary is taken at once and
    remembers the size of the dictionary; each [next] of the generator
    resumes its frame, which takes keys from that iterator until one does
    not end with an underscore, and the iterator raises [RuntimeError] when
    the dictionary has changed size since it was taken.

    - [dictiter] is the iterator of an instance dictionary, [dict_iter] its
      creation and [dictiter_next] one step of it;
    - [generator] is the state of the generator object, [param_names_gen]
      the generator expression, [gen_next] the call [next(g)];
    - [for_in] is the statement [for key in g: body] and [list_of] the call
      [list(g)]; [for_list] is the same loop over a list;
    - [BaseEstimator_get_params_lazy] is [BaseEstimator.get_params] with its
      loop over the generator, and [lazy_methods] the table of the
      dispatched calls in which [get_params] runs this loop.

    The theorems show what [next] returns and that the fuel of its loop is
    enough, that a loop over the generator whose body keeps the attribute
    names of the instance is the loop over the list of names, that a body
    that adds an attribute makes the next step raise [RuntimeError], that
    a generator is used up by one loop, and that [lazy_methods] makes the
    calls of [callback_methods]: the accessors consume the generator at
    once without assigning to the instance, so the other files read
    [_get_param_names] as the list it yields. *)

From stdpp Require Import base tactics option list strings gmap.
From S2P Require Import Prelude PyStr PyDict PyObject PyCall Estimator Callback.

(** ** Definitions *)

(** The iterator of the dictionary of an instance: the instance, the number
    of entries the dictionary had when the iterator was taken, and the
    index of the next entry. *)
Record dictiter : Type := DictIter {
  di_dict : loc;
  di_used : nat;
  di_pos : nat;
}.

(** The state of a generator object: suspended with the iterator its frame
    holds (before the first [next] or at the [yield]), or finished. *)
Variant generator : Type :=
| Suspended (di : dictiter)
| Finished.

#[export] Instance dictiter_eq_dec : EqDecision dictiter.
Proof. solve_decision. Defined.

#[export] Instance generator_eq_dec : EqDecision generator.
Proof. solve_decision. Defined.

(** The iterator moved by one entry. *)
Definition di_step (di : dictiter) : dictiter :=
  DictIter (di_dict di) (di_used di) (S (di_pos di)).

(** [iter(self.__dict__)]. *)
Definition dict_iter (self : loc) : M heap dictiter :=
  let! d := get_dict self in
  ret (DictIter self (length (items d)) 0).

(** [next] on the iterator of a dictionary: [RuntimeError] when the
    dictionary has changed size, the key at the position and the iterator
    moved by one, or nothing when the position is past the entries. *)
Definition dictiter_next (di : dictiter)
    : M heap (option (string * dictiter)) :=
  let! d := get_dict (di_dict di) in
  if decide (di_used di = length (items d)) then
    ret ((fun key => (key, di_step di)) <$> keys d !! di_pos di)
  else raise RuntimeError.

(** [(key for key in self.__dict__ if not key.endswith('_'))]: the iterator
    of the dictionary is taken when the expression is evaluated. *)
Definition param_names_gen (self : loc) : M heap generator :=
  let! di := dict_iter self in
  ret (Suspended di).

(** The frame of the generator, resumed: keys are taken from the iterator
    until one passes the condition, which is yielded; when the iterator is
    exhausted the generator returns. *)
Fixpoint gen_resume (fuel : nat) (di : dictiter)
    : M heap (option string * generator) :=
  match fuel with
  | 0 => ret (None, Finished)
  | S fuel' =>
      let! r := dictiter_next di in
      match r with
      | None => ret (None, Finished)
      | Some (key, di') =>
          if is_param_name key then ret (Some key, Suspended di')
          else gen_resume fuel' di'
      end
  end.

(** The entries an iterator has not passed. *)
Definition di_left (di : dictiter) : nat := di_used di - di_pos di.

(** The number of values a generator may still yield, at most. *)
Definition gen_left (g : generator) : nat :=
  match g with Suspended di => di_left di | Finished => 0 end.

(** [next(g)]: the yielded name and the generator as the call leaves it, or
    nothing when the generator has finished. *)
Definition gen_next (g : generator) : M heap (option string * generator) :=
  match g with
  | Suspended di => gen_resume (S (di_left di)) di
  | Finished => ret (None, Finished)
  end.

Section Loops.
Context {A : Type}.

(** [for key in g: acc = body(key, acc)], with the generator as the loop
    leaves it. *)
Fixpoint for_in_loop (fuel : nat) (g : generator)
    (body : string -> A -> M heap A) (acc : A) : M heap (A * generator) :=
  match fuel with
  | 0 => ret (acc, g)
  | S fuel' =>
      let! r := gen_next g in
      match r.1 with
      | None => ret (acc, r.2)
      | Some key =>
          let! acc' := body key acc in
          for_in_loop fuel' r.2 body acc'
      end
  end.

Definition for_in (g : generator) (body : string -> A -> M heap A) (acc : A)
    : M heap (A * generator) :=
  for_in_loop (S (gen_left g)) g body acc.

(** [for key in names: acc = body(key, acc)] over a list. *)
Fixpoint for_list (names : list string) (body : string -> A -> M heap A)
    (acc : A) : M heap A :=
  match names with
  | [] => ret acc
  | key :: names' =>
      let! acc' := body key acc in
      for_list names' body acc'
  end.

End Loops.

(** [list(g)]. *)
Definition list_of (g : generator) : M heap (list string * generator) :=
  for_in g (fun key acc => ret (acc ++ [key])) [].

(** What the generator yields next, and how it is left, when [ks] are the
    keys its iterator has not passed. *)
Fixpoint next_of (di : dictiter) (ks : list string)
    : option string * generator :=
  match ks with
  | [] => (None, Finished)
  | key :: ks' =>
      if is_param_name key then (Some key, Suspended (di_step di))
      else next_of (di_step di) ks'
  end.

(** The dictionary has the size it had when the iterator was taken, and
    [ks] are the keys the iterator has not passed. *)
Definition fresh_at (h : heap) (di : dictiter) (ks : list string) : Prop :=
  exists o, h !! di_dict di = Some o /\
            di_used di = length (items (obj_dict o)) /\
            drop (di_pos di) (keys (obj_dict o)) = ks.

(** The attribute names of the instance are what they were, in their
    order. *)
Definition keeps_names (self : loc) : relation heap := fun h h' =>
  keys ∘ obj_dict <$> h !! self = keys ∘ obj_dict <$> h' !! self.

(** The body of a loop over the parameter names of [self] keeps the
    attribute names of the instance when it runs on one of them. *)
Definition keeps_names_at {A} (self : loc) (body : string -> A -> M heap A)
    : Prop :=
  forall key acc h o,
    h !! self = Some o -> key ∈ keys (obj_dict o) ->
    is_param_name key = true ->
    keeps_names self h (body key acc h).2.

(** ** [BaseEstimator.get_params] over the generator *)

Section Lazy.
Context (sep : string) (names : loc -> M heap generator) (vt : methods).

(** The body of the loop of [get_params]. *)
Definition get_params_body (self : loc) (deep : bool) (key : string)
    (out : dict value) : M heap (dict value) :=
  let! v := getattr_default self key VNone in
  let! out' := expand sep vt deep key v out in
  ret (<[key := v]> out').

Definition BaseEstimator_get_params_lazy (self : loc) (deep : bool)
    : M heap (dict value) :=
  let! g := names self in
  let! r := for_in g (get_params_body self deep) ∅ in
  ret r.1.

End Lazy.

(** The call [obj._get_param_names()] with [depth] nested calls left: it
    returns the generator. *)
Definition call_param_names_gen (depth : nat) (l : loc) : M heap generator :=
  match depth with
  | 0 => raise RecursionError
  | S _ =>
      resolve l "_get_param_names"
        (call def__get_param_names (fun _ => param_names_gen l) [VRef l] ∅)
  end.

(** The dispatched calls of [callback_methods] with [get_params] looping
    over the generator; the call of [_get_param_names] by a consumer that
    needs a list is [list(obj._get_param_names())]. *)
Fixpoint lazy_methods (depth : nat) : methods :=
  match depth with
  | 0 =>
      Methods (fun _ => raise RecursionError)
              (fun _ _ => raise RecursionError)
              (fun _ _ => raise RecursionError)
  | S n =>
      Methods
        (fun l => let! g := call_param_names_gen (S n) l in
                  let! r := list_of g in
                  ret r.1)
        (fun l deep => resolve l "get_params"
           (call def_get_params
              (fun fr => BaseEstimator_get_params_lazy param_sep
                           (call_param_names_gen n) (lazy_methods n) l
                           (truthy (local fr "deep")))
              [VRef l] (Dict [("deep", VBool deep)])))
        (fun l params => resolve l "set_params"
           (call def_set_params
              (fun fr => set_params (lazy_methods n) l (frame_kwargs fr))
              [VRef l] params))
  end.

(** ** The iterator and the generator *)

#[export] Instance keeps_names_preorder self : PreOrder (keeps_names self).
Proof.
  split; [done |]. unfold keeps_names. intros h1 h2 h3 H12 H23. congruence.
Qed.

Lemma read_only_keeps_names {A} self (m : M heap A) :
  read_only m -> preserves (keeps_names self) m.
Proof. apply preserves_weaken. by intros h h' <-. Qed.

Lemma heap_frame_keeps_names P self h h' :
  heap_frame P h h' -> keeps_names self h h'.
Proof.
  intros Hf. specialize (Hf self). unfold keeps_names.
  destruct Hf as [o o' (_ & Hk & _)|]; [| done]. cbn. by rewrite Hk.
Qed.

Lemma preserves_keeps_names_at {A} self (body : string -> A -> M heap A) :
  (forall key acc, preserves (keeps_names self) (body key acc)) ->
  keeps_names_at self body.
Proof. intros Hbody key acc h o _ _ _. apply Hbody. Qed.

Lemma read_only_keeps_names_at {A} self (body : string -> A -> M heap A) :
  (forall key acc, read_only (body key acc)) -> keeps_names_at self body.
Proof.
  intros Hbody. apply preserves_keeps_names_at. intros key acc.
  apply read_only_keeps_names, Hbody.
Qed.

Section Iterator.
Implicit Types (di : dictiter) (ks : list string) (h : heap).

Lemma fresh_at_elem h di ks key :
  fresh_at h di ks -> key ∈ ks ->
  exists o, h !! di_dict di = Some o /\ key ∈ keys (obj_dict o).
Proof.
  intros (o & Hl & _ & <-) Hkey. exists o. split; [done |].
  by eapply subseteq_drop.
Qed.

Lemma fresh_at_length h di ks : fresh_at h di ks -> length ks = di_left di.
Proof.
  intros (o & _ & Hused & <-). unfold di_left, keys.
  by rewrite length_drop, length_fmap, Hused.
Qed.

Lemma fresh_at_keeps h h' di ks :
  keeps_names (di_dict di) h h' -> fresh_at h di ks -> fresh_at h' di ks.
Proof.
  unfold keeps_names. intros Hk (o & Hl & Hused & Hks). rewrite Hl in Hk.
  destruct (h' !! di_dict di) as [o'|] eqn:Hl'; [| done].
  injection Hk as Hk. exists o'. split_and!; [done | | by rewrite <- Hk].
  unfold keys in Hk. by rewrite Hused, <- !(length_fmap fst), Hk.
Qed.

Lemma dictiter_next_nil h di :
  fresh_at h di [] -> dictiter_next di h = (Ret None, h).
Proof.
  intros (o & Hl & Hused & Hks). unfold dictiter_next.
  rewrite (bind_run_ret _ _ _ _ _ (get_dict_run _ _ _ Hl)).
  rewrite decide_True by done.
  apply drop_nil_inv in Hks. by rewrite (lookup_ge_None_2 _ _ Hks).
Qed.

Lemma dictiter_next_cons h di key ks :
  fresh_at h di (key :: ks) ->
  dictiter_next di h = (Ret (Some (key, di_step di)), h) /\
  fresh_at h (di_step di) ks.
Proof.
  intros (o & Hl & Hused & Hks). unfold dictiter_next.
  rewrite (bind_run_ret _ _ _ _ _ (get_dict_run _ _ _ Hl)).
  rewrite decide_True by done.
  assert (keys (obj_dict o) !! di_pos di = Some key) as ->.
  { by rewrite <- (Nat.add_0_r (di_pos di)), <- lookup_drop, Hks. }
  split; [done |]. exists o. split_and!; [done.. |]. cbn.
  by rewrite <- Nat.add_1_r, <- drop_drop, Hks.
Qed.

(** What a dictionary that changed size makes of the next step. *)
Lemma dictiter_next_grown h di o :
  h !! di_dict di = Some o -> length (items (obj_dict o)) <> di_used di ->
  dictiter_next di h = (Raise RuntimeError, h).
Proof.
  intros Hl Hused. unfold dictiter_next.
  rewrite (bind_run_ret _ _ _ _ _ (get_dict_run _ _ _ Hl)).
  by rewrite decide_False by done.
Qed.

(** The frame of the generator, resumed with fuel for the entries that are
    left, yields the first name among them that is a parameter name. *)
Lemma gen_resume_run h di ks fuel :
  fresh_at h di ks -> length ks < fuel ->
  gen_resume fuel di h = (Ret (next_of di ks), h).
Proof.
  revert di fuel. induction ks as [|key ks IH]; intros di [|fuel] Hat Hfuel;
    try (cbn in Hfuel; lia); cbn [gen_resume next_of].
  - by rewrite (bind_run_ret _ _ _ _ _ (dictiter_next_nil _ _ Hat)).
  - destruct (dictiter_next_cons _ _ _ _ Hat) as [Hnext Hat'].
    rewrite (bind_run_ret _ _ _ _ _ Hnext).
    destruct (is_param_name key); [done |].
    apply IH; [done | cbn in Hfuel; lia].
Qed.

Lemma gen_next_run h di ks :
  fresh_at h di ks -> gen_next (Suspended di) h = (Ret (next_of di ks), h).
Proof.
  intros Hat. apply gen_resume_run; [done |].
  rewrite (fresh_at_length _ _ _ Hat). lia.
Qed.

Lemma gen_next_grown h di o :
  h !! di_dict di = Some o -> length (items (obj_dict o)) <> di_used di ->
  gen_next (Suspended di) h = (Raise RuntimeError, h).
Proof.
  intros Hl Hused. cbn [gen_next gen_resume].
  by rewrite (bind_run_raise _ _ _ _ _ (dictiter_next_grown _ _ _ Hl Hused)).
Qed.

(** The cases of [next_of]: nothing is left to yield, or a name is yielded
    and the iterator stands behind it, on the same dictionary. *)
Lemma next_of_cases h di ks :
  fresh_at h di ks ->
  (filter (fun key => is_param_name key = true) ks = [] /\
   next_of di ks = (None, Finished)) \/
  (exists key di' ks',
     filter (fun key => is_param_name key = true) ks =
       key :: filter (fun key => is_param_name key = true) ks' /\
     next_of di ks = (Some key, Suspended di') /\
     di_dict di' = di_dict di /\ di_used di' = di_used di /\
     fresh_at h di' ks' /\ length ks' < length ks).
Proof.
  revert di. induction ks as [|key ks IH]; intros di Hat; [by left |].
  destruct (dictiter_next_cons _ _ _ _ Hat) as [_ Hat'].
  cbn [next_of]. destruct (is_param_name key) eqn:Hkey.
  - right. exists key, (di_step di), ks.
    rewrite filter_cons_True by done. split_and!; auto; cbn; lia.
  - rewrite filter_cons_False by (by rewrite Hkey).
    destruct (IH _ Hat') as [? | (k & di' & ks' & ? & ? & ? & ? & ? & ?)];
      [by left | right].
    exists k, di', ks'. split_and!; auto; cbn; lia.
Qed.

Lemma next_of_head di ks :
  (next_of di ks).1 = head (filter (fun key => is_param_name key = true) ks).
Proof.
  revert di. induction ks as [|key ks IH]; intros di; [done |].
  cbn [next_of]. destruct (is_param_name key) eqn:Hkey.
  - by rewrite filter_cons_True.
  - rewrite filter_cons_False by (by rewrite Hkey). apply IH.
Qed.

End Iterator.

(** ** Loops over the generator *)

Section ForIn.
Context {A : Type} (self : loc) (body : string -> A -> M heap A).
Context (Hbody : keeps_names_at self body).
Implicit Types (di : dictiter) (ks : list string) (h : heap) (acc : A).

(** The loop over the generator, with fuel for the keys that are left, is
    the loop over the parameter names among them, and finishes the
    generator. *)
Lemma for_in_loop_run fuel ks di acc h :
  di_dict di = self -> fresh_at h di ks -> length ks < fuel ->
  for_in_loop fuel (Suspended di) body acc h =
  (let! a := for_list (filter (fun key => is_param_name key = true) ks)
               body acc in
   ret (a, Finished)) h.
Proof.
  revert ks di acc h.
  induction fuel as [|fuel IH]; intros ks di acc h Hself Hat Hfuel; [lia |].
  cbn [for_in_loop]. rewrite (bind_run_ret _ _ _ _ _ (gen_next_run _ _ _ Hat)).
  destruct (next_of_cases _ _ _ Hat)
    as [[-> ->] | (key & di' & ks' & Hf & -> & Hd & _ & Hat' & Hlen)];
    [done |].
  assert (is_param_name key = true /\ key ∈ ks) as [Hkey Hin].
  { apply (list_elem_of_filter (fun key => is_param_name key = true)).
    rewrite Hf. left. }
  destruct (fresh_at_elem _ _ _ _ Hat Hin) as (o & Hl & Ho).
  rewrite Hf. cbn [fst snd for_list]. rewrite (bind_assoc _ _ _ h).
  apply bind_run_ext. intros acc' h' Hrun. apply IH; [congruence | | lia].
  apply (fresh_at_keeps h); [| done]. rewrite Hd, Hself.
  rewrite Hself in Hl. pose proof (Hbody key acc h o Hl Ho Hkey) as Hk.
  by rewrite Hrun in Hk.
Qed.

Lemma for_in_run ks di acc h :
  di_dict di = self -> fresh_at h di ks ->
  for_in (Suspended di) body acc h =
  (let! a := for_list (filter (fun key => is_param_name key = true) ks)
               body acc in
   ret (a, Finished)) h.
Proof.
  intros Hself Hat. apply for_in_loop_run; [done.. |].
  cbn [gen_left]. rewrite (fresh_at_length _ _ _ Hat). lia.
Qed.

End ForIn.

Lemma param_names_gen_run h self o :
  h !! self = Some o ->
  param_names_gen self h =
    (Ret (Suspended (DictIter self (length (items (obj_dict o))) 0)), h) /\
  fresh_at h (DictIter self (length (items (obj_dict o))) 0)
    (keys (obj_dict o)).
Proof.
  intros Hl. split; [| by exists o].
  unfold param_names_gen, dict_iter. rewrite (bind_assoc _ _ _ h).
  by rewrite (bind_run_ret _ _ _ _ _ (get_dict_run _ _ _ Hl)).
Qed.

Lemma param_names_gen_run_None h self :
  h !! self = None -> param_names_gen self h = (Raise DanglingReference, h).
Proof.
  intros Hl. unfold param_names_gen, dict_iter. rewrite (bind_assoc _ _ _ h).
  by rewrite (bind_run_raise _ _ _ _ _ (get_dict_run_None _ _ Hl)).
Qed.

(** The loop over the generator of an instance is the loop over the list
    of its parameter names, when the body keeps the attribute names. *)
Lemma param_names_for_in {A} self (body : string -> A -> M heap A) acc :
  keeps_names_at self body ->
  (let! g := param_names_gen self in for_in g body acc) =m=
  (let! names := _get_param_names self in
   let! a := for_list names body acc in
   ret (a, Finished)).
Proof.
  intros Hbody h. destruct (h !! self) as [o|] eqn:Hl.
  - destruct (param_names_gen_run _ _ _ Hl) as [Hgen Hat].
    rewrite (bind_run_ret _ _ _ _ _ Hgen),
      (bind_run_ret _ _ _ _ _ (_get_param_names_run _ _ _ Hl)).
    by apply (for_in_run self).
  - unfold _get_param_names. rewrite (bind_assoc _ _ _ h).
    by rewrite (bind_run_raise _ _ _ _ _ (param_names_gen_run_None _ _ Hl)),
      (bind_run_raise _ _ _ _ _ (get_dict_run_None _ _ Hl)).
Qed.

(** When the dictionary has changed size after the first name was
    yielded, the next step of the loop raises [RuntimeError]. *)
Lemma for_in_grown {A} self (body : string -> A -> M heap A) acc h o key rest
    acc' h' o' :
  h !! self = Some o ->
  filter (fun key => is_param_name key = true) (keys (obj_dict o)) =
    key :: rest ->
  body key acc h = (Ret acc', h') -> h' !! self = Some o' ->
  length (items (obj_dict o')) <> length (items (obj_dict o)) ->
  (let! g := param_names_gen self in for_in g body acc) h =
    (Raise RuntimeError, h').
Proof.
  intros Hl Hf Hbody Hl' Hlen.
  destruct (param_names_gen_run _ _ _ Hl) as [Hgen Hat].
  rewrite (bind_run_ret _ _ _ _ _ Hgen). unfold for_in.
  destruct (next_of_cases _ _ _ Hat)
    as [[Hnil _] | (key' & di' & ks' & Hf' & Hnext & Hd & Hu & _ & Hks)];
    [congruence |].
  rewrite Hf in Hf'. injection Hf' as <- _.
  cbn [gen_left]. rewrite <- (fresh_at_length _ _ _ Hat).
  destruct (keys (obj_dict o)) as [|k ks] eqn:Hkeys; [cbn in Hks; lia |].
  cbn [length for_in_loop].
  rewrite (bind_run_ret _ _ _ _ _ (gen_next_run _ _ _ Hat)), Hnext.
  cbn [fst snd]. rewrite (bind_run_ret _ _ _ _ _ Hbody).
  rewrite (bind_run_raise _ _ _ RuntimeError h'); [done |].
  apply (gen_next_grown _ _ o'); by rewrite ?Hd, ?Hu.
Qed.

(** Assigning an attribute the instance has keeps its attribute names. *)
Lemma setattr_keeps_names_at self v :
  keeps_names_at self (fun key (_ : unit) => setattr self key v).
Proof.
  intros key [] h o Hl Hin _. rewrite (setattr_run _ _ _ _ _ Hl).
  unfold keeps_names. cbn [snd]. rewrite Hl, lookup_insert_eq. cbn.
  by rewrite keys_insert_elem.
Qed.

Section ForList.
Context {A : Type}.
Implicit Types (body : string -> A -> M heap A) (names : list string).

Lemma for_list_ext body body' names acc :
  (forall key acc, body key acc =m= body' key acc) ->
  for_list names body acc =m= for_list names body' acc.
Proof.
  intros Hext. revert acc. induction names as [|key names IH]; intros acc;
    [done |]. cbn [for_list]. rewrite Hext. by setoid_rewrite IH.
Qed.

Lemma preserves_for_list (R : relation heap) `{!PreOrder R} body names acc :
  (forall key acc, preserves R (body key acc)) ->
  preserves R (for_list names body acc).
Proof.
  intros Hbody. revert acc.
  induction names as [|key names IH]; intros acc; cbn [for_list];
    solve_preserves.
Qed.

End ForList.

(** [list(g)] appends what the generator yields. *)
Lemma for_list_append names (acc : list string) :
  for_list names (fun key acc => ret (acc ++ [key])) acc =m=
  ret (acc ++ names).
Proof.
  revert acc. induction names as [|key names IH]; intros acc; cbn [for_list].
  - by rewrite app_nil_r.
  - rewrite bind_ret_l, IH. by rewrite <- app_assoc.
Qed.

Lemma list_of_run h di ks :
  fresh_at h di ks ->
  list_of (Suspended di) h =
    (Ret (filter (fun key => is_param_name key = true) ks, Finished), h).
Proof.
  intros Hat. unfold list_of.
  rewrite (for_in_run (di_dict di)) with (ks := ks); [| | done..].
  - by rewrite (bind_run_ret _ _ _ _ _ (for_list_append _ _ h)).
  - by apply read_only_keeps_names_at.
Qed.

(** The loop of [get_params] is the loop of its body over the list. *)
Lemma get_params_loop_for_list sep vt self deep names out :
  get_params_loop sep vt self deep names out =m=
  for_list names (get_params_body sep vt self deep) out.
Proof.
  revert out. induction names as [|key names IH]; intros out; [done |].
  cbn [get_params_loop for_list]. unfold get_params_body at 1.
  rewrite bind_assoc. apply bind_proper; [done |]. intros v.
  rewrite bind_assoc. apply bind_proper; [done |]. intros out'.
  by rewrite bind_ret_l.
Qed.

(** ** The accessors over the generator *)

Section Dispatch.
Implicit Types (h : heap) (l : loc) (o : obj).

Lemma call_param_names_gen_run depth h l o :
  h !! l = Some o -> cls_is_callback (obj_class o) = true ->
  call_param_names_gen (S depth) l h =
    (Ret (Suspended (DictIter l (length (items (obj_dict o))) 0)), h).
Proof.
  intros Hl Hcb. cbn [call_param_names_gen].
  rewrite (resolve_run _ _ _ _ _ Hl), Hcb, call_def__get_param_names.
  by apply param_names_gen_run.
Qed.

(** A loop over the generator that a call of [_get_param_names] returns,
    with a body that keeps the attribute names of the instance, is the
    loop over the list of names. *)
Lemma call_for_in {A} depth l (body : string -> A -> M heap A) acc :
  keeps_names_at l body ->
  (let! g := call_param_names_gen depth l in
   let! r := for_in g body acc in
   ret r.1) =m=
  (let! names := call_get_param_names (callback_methods depth) l in
   for_list names body acc).
Proof.
  intros Hbody h. destruct depth as [|depth]; [done |].
  destruct (h !! l) as [o|] eqn:Hl.
  2: { cbn [call_param_names_gen callback_methods call_get_param_names].
       by rewrite !(bind_run_raise _ _ _ _ _ (resolve_run_None _ _ _ _ Hl)). }
  destruct (cls_is_callback (obj_class o)) eqn:Hcb.
  2: { cbn [call_param_names_gen callback_methods call_get_param_names].
       unfold bind. by rewrite !(resolve_run _ _ _ _ _ Hl), Hcb. }
  rewrite (bind_run_ret _ _ _ _ _ (call_param_names_gen_run _ _ _ _ Hl Hcb)),
    (bind_run_ret _ _ _ _ _ (call_get_param_names_run _ _ _ _ Hl Hcb)).
  destruct (param_names_gen_run _ _ _ Hl) as [_ Hat].
  rewrite (bind_run_eq _ _ _ _
             (for_in_run l body Hbody _ (DictIter l _ 0) acc h eq_refl Hat)).
  rewrite (bind_assoc _ _ _ h). etrans; [| apply (bind_ret_r _ h)].
  by apply bind_run_ext.
Qed.

(** [list(obj._get_param_names())] is the list of names. *)
Lemma lazy_names_list depth l :
  call_get_param_names (lazy_methods depth) l =m=
  call_get_param_names (callback_methods depth) l.
Proof.
  destruct depth as [|depth]; [done |].
  cbn [lazy_methods call_get_param_names]. unfold list_of.
  etrans; [by apply call_for_in, read_only_keeps_names_at |].
  etrans; [| apply bind_ret_r]. apply bind_proper; [done |].
  intros names. by rewrite for_list_append.
Qed.

Lemma lazy_get_params_read_only n :
  lazy_methods n ≡ callback_methods n ->
  forall l deep, read_only (call_get_params (lazy_methods n) l deep).
Proof.
  intros (_ & Hg & _) l deep.
  eapply preserves_meq; [symmetry; apply Hg |].
  apply (methods_get_read_only (sep := param_sep) (P := reserved)).
Qed.

(** [get_params] over the generator is [get_params] over the list, when
    the nested calls are. *)
Lemma get_params_lazy_eager n l deep :
  lazy_methods n ≡ callback_methods n ->
  BaseEstimator_get_params_lazy param_sep (call_param_names_gen n)
    (lazy_methods n) l deep =m=
  BaseEstimator_get_params param_sep (callback_methods n) l deep.
Proof.
  intros Hn. unfold BaseEstimator_get_params_lazy, BaseEstimator_get_params.
  etrans; [apply call_for_in |].
  - apply read_only_keeps_names_at. intros key out. unfold get_params_body.
    pose proof (lazy_get_params_read_only n Hn).
    pose proof (preserves_expand param_sep (lazy_methods n) eq).
    solve_preserves.
  - apply bind_proper; [done |]. intros names.
    rewrite get_params_loop_for_list. apply for_list_ext. intros key out.
    unfold get_params_body. apply bind_proper; [done |]. intros v.
    apply bind_proper; [by apply expand_proper | done].
Qed.

End Dispatch.

(** ** Theorems *)

(** The table with [get_params] over the generator makes the calls of
    [callback_methods]. *)
Lemma lazy_methods_equiv depth : lazy_methods depth ≡ callback_methods depth.
Proof.
  induction depth as [|depth IH]; [by repeat split |].
  split_and!; intros; [apply lazy_names_list | |];
    cbn [lazy_methods callback_methods call_get_params call_set_params];
    (apply bind_proper; [done |]); intros o;
    (destruct (cls_is_callback _); [| done]);
    (apply bind_proper; [done |]); intros fr.
  - by apply get_params_lazy_eager.
  - apply bind_proper; [| done]. by apply BaseEstimator_set_params_proper.
Qed.

(** The table over the generator satisfies the contract of the accessors. *)
#[export] Instance lazy_methods_ok depth :
  MethodsOk param_sep reserved (lazy_methods depth).
Proof.
  eapply MethodsOk_proper; [symmetry; apply lazy_methods_equiv | apply _].
Qed.

Section Theorems.
Implicit Types (h : heap) (self l : loc) (di : dictiter).

(** C7.  The accessors consume the generator at once: with
    [BaseEstimator.get_params] looping over the generator that
    [_get_param_names] returns, the dispatched calls [_get_param_names]
    (consumed by [list]), [get_params] and [set_params] have the outcome and
    leave the heap they have when [_get_param_names] is read as the list of
    names, on every heap, at every call depth. *)
Theorem generator_consumed_at_once depth l deep params h :
  call_get_param_names (lazy_methods depth) l h =
    call_get_param_names (callback_methods depth) l h /\
  call_get_params (lazy_methods depth) l deep h =
    call_get_params (callback_methods depth) l deep h /\
  call_set_params (lazy_methods depth) l params h =
    call_set_params (callback_methods depth) l params h.
Proof.
  destruct (lazy_methods_equiv depth) as (Hn & Hg & Hs).
  by rewrite (Hn l h), (Hg l deep h), (Hs l params h).
Qed.

(** C28.  A loop over the generator of an instance whose body keeps the
    attribute names of the instance (it may assign the attributes it is
    given) runs the body on the parameter names in the order of the
    dictionary, as the loop over the list does; it leaves the generator
    finished, so a second loop over the same generator runs no body. *)
Theorem loop_over_generator {A B} self (body : string -> A -> M heap A)
    (body' : string -> B -> M heap B) acc acc' :
  keeps_names_at self body ->
  (let! g := param_names_gen self in
   let! r := for_in g body acc in
   let! r' := for_in r.2 body' acc' in
   ret (r.1, r'.1)) =m=
  (let! names := _get_param_names self in
   let! a := for_list names body acc in
   ret (a, acc')).
Proof.
  intros Hbody. rewrite <- bind_assoc, (param_names_for_in _ _ _ Hbody).
  rewrite !bind_assoc. apply bind_proper; [done |]. intros names.
  rewrite !bind_assoc. apply bind_proper; [done |]. intros a.
  by rewrite bind_ret_l.
Qed.

(** C19.  A body that adds an attribute to the instance ends the iteration:
    when the first parameter name has been yielded and the body leaves the
    dictionary of the instance with another size, the next step of the
    loop raises [RuntimeError], with the heap as the body left it. *)
Theorem grown_dictionary_raises {A} self (body : string -> A -> M heap A) acc
    h o key rest acc' h' o' :
  h !! self = Some o ->
  filter (fun key => is_param_name key = true) (keys (obj_dict o)) =
    key :: rest ->
  body key acc h = (Ret acc', h') -> h' !! self = Some o' ->
  length (items (obj_dict o')) <> length (items (obj_dict o)) ->
  (let! g := param_names_gen self in for_in g body acc) h =
    (Raise RuntimeError, h').
Proof. apply for_in_grown. Qed.

(** C27.  [next] on the generator returns: with fuel for the entries its
    iterator has not passed, the frame yields the first key among them
    that does not end with an underscore, or finishes when there is none,
    and leaves the heap as it is; more fuel changes nothing. *)
Theorem gen_next_enough_fuel h di ks fuel :
  fresh_at h di ks -> di_left di < fuel ->
  gen_resume fuel di h = gen_next (Suspended di) h /\
  (gen_next (Suspended di) h).2 = h /\
  (gen_next (Suspended di) h).1 =
    Ret (next_of di ks) /\
  (next_of di ks).1 = head (filter (fun key => is_param_name key = true) ks).
Proof.
  intros Hat Hfuel. rewrite (gen_next_run _ _ _ Hat).
  split_and!; [| done.. | apply next_of_head].
  apply gen_resume_run; [done |]. by rewrite (fresh_at_length _ _ _ Hat).
Qed.

End Theorems.

(** ** The theorems on the scenario *)

Section Witnesses.

(** [for key in cb._get_param_names(): setattr(cb, key, None)] on the
    early-stopping callback clears [patience]. *)
Lemma loop_over_generator_witness :
  (let! g := param_names_gen 1%positive in
   let! r := for_in g (fun key _ => setattr 1%positive key VNone) tt in
   let! r' := for_in r.2 (fun key n => ret (S n)) 0 in
   ret (r.1, r'.1)) =m=
  (let! names := _get_param_names 1%positive in
   let! a := for_list names (fun key _ => setattr 1%positive key VNone) tt in
   ret (a, 0)).
Proof.
  apply (loop_over_generator 1%positive
           (fun key _ => setattr 1%positive key VNone)).
  apply setattr_keeps_names_at.
Defined.

(** [for key in cb._get_param_names(): setattr(cb, key + '_seen', True)]
    on the early-stopping callback raises after [patience_seen] is
    assigned. *)
Lemma grown_dictionary_raises_witness :
  (let! g := param_names_gen 1%positive in
   for_in g (fun key _ => setattr 1%positive (key +:+ "_seen") (VBool true))
     tt) scenario =
  (Raise RuntimeError,
   <[1%positive :=
       Obj EarlyStop (Dict [("patience", VInt 5); ("counter_", VInt 0);
                            ("patience_seen", VBool true)])]> scenario).
Proof.
  by apply (grown_dictionary_raises 1%positive _ tt scenario early_stop
              "patience" [] tt _
              (Obj EarlyStop (Dict [("patience", VInt 5); ("counter_", VInt 0);
                                    ("patience_seen", VBool true)]))).
Defined.

Lemma gen_next_enough_fuel_witness :
  gen_resume 7 (DictIter 1%positive 2 0) scenario =
    gen_next (Suspended (DictIter 1%positive 2 0)) scenario /\
  (gen_next (Suspended (DictIter 1%positive 2 0)) scenario).2 = scenario /\
  (gen_next (Suspended (DictIter 1%positive 2 0)) scenario).1 =
    Ret (next_of (DictIter 1%positive 2 0) ["patience"; "counter_"]) /\
  (next_of (DictIter 1%positive 2 0) ["patience"; "counter_"]).1 =
    head (filter (fun key => is_param_name key = true)
            ["patience"; "counter_"]).
Proof.
  apply (gen_next_enough_fuel scenario (DictIter 1%positive 2 0)
           ["patience"; "counter_"] 7); [by exists early_stop | cbn; lia].
Defined.

End Witnesses.
