(* ===== verification/Calls.v ===== *)
(** * Calls: the methods of [Callback] as they are called

    [Callback.v] gives each method of the class as its body, applied to
    arguments that are bound already.  This file gives the call
    [obj.m(args, keywords)] itself: the method is looked up on the class of
    the receiver, the receiver and the arguments are bound to the
    parameters of the [def] of the method ([PyCall.bind_args]), and the body
    runs on the frame.

    - [method] names the eleven methods of the class, [def_of] gives the
      [def] line of each and [body_of] its body on a frame;
    - [invoke] is the call of a method with positional and keyword
      arguments;
    - [method_of] and [lifecycle_args] say how the trainer calls a
      lifecycle method: the trainer by position, the context by keyword;
    - [context_fits] and [arguments_fit] say, in terms of the keywords and
      the number of positional arguments, which calls of a lifecycle
      method fit its [def].

    The theorems say what a call does when its arguments fit ([initialize]
    and the hooks do nothing, whatever the context; [get_params] sees [deep]
    by position, by keyword or by default; [set_params] sees the keywords),
    which [TypeError] it raises when they do not, and that the entries of
    [callback_methods] are these calls. *)

From stdpp Require Import base tactics option list strings gmap.
From S2P Require Import Prelude PyStr PyDict PyObject PyCall Estimator Callback.

#[local] Set Warnings "-clear-no-such-hyp".

(** ** Definitions *)

(** The methods of the class. *)
Inductive method : Type :=
| m_initialize
| m_on_train_begin
| m_on_train_end
| m_on_epoch_begin
| m_on_epoch_end
| m_on_batch_begin
| m_on_batch_end
| m_on_grad_computed
| m__get_param_names
| m_get_params
| m_set_params.

#[export] Instance method_eq_dec : EqDecision method.
Proof. solve_decision. Defined.

(** The [def] line of a method. *)
Definition def_of (m : method) : signature :=
  match m with
  | m_initialize => def_initialize
  | m_on_train_begin => def_on_train_begin
  | m_on_train_end => def_on_train_end
  | m_on_epoch_begin => def_on_epoch_begin
  | m_on_epoch_end => def_on_epoch_end
  | m_on_batch_begin => def_on_batch_begin
  | m_on_batch_end => def_on_batch_end
  | m_on_grad_computed => def_on_grad_computed
  | m__get_param_names => def__get_param_names
  | m_get_params => def_get_params
  | m_set_params => def_set_params
  end.

(** What a method returns: a value, the names a generator yields, or a
    dictionary of parameters. *)
Inductive result : Type :=
| RValue (v : value)
| RNames (names : list string)
| RParams (params : dict value).

#[export] Instance result_eq_dec : EqDecision result.
Proof. solve_decision. Defined.

(** The body of a method on the frame of a call. *)
Definition body_of (vt : methods) (m : method) (self : loc) (fr : frame)
    : M heap result :=
  match m with
  | m_initialize =>
      let! v := initialize self in ret (RValue v)
  | m_on_train_begin =>
      let! v := on_train_begin self (local fr "net") (frame_kwargs fr) in
      ret (RValue v)
  | m_on_train_end =>
      let! v := on_train_end self (local fr "net") (frame_kwargs fr) in
      ret (RValue v)
  | m_on_epoch_begin =>
      let! v := on_epoch_begin self (local fr "net") (frame_kwargs fr) in
      ret (RValue v)
  | m_on_epoch_end =>
      let! v := on_epoch_end self (local fr "net") (frame_kwargs fr) in
      ret (RValue v)
  | m_on_batch_begin =>
      let! v := on_batch_begin self (local fr "net") (frame_kwargs fr) in
      ret (RValue v)
  | m_on_batch_end =>
      let! v := on_batch_end self (local fr "net") (frame_kwargs fr) in
      ret (RValue v)
  | m_on_grad_computed =>
      let! v := on_grad_computed self (local fr "net")
                  (local fr "named_parameters") (frame_kwargs fr) in
      ret (RValue v)
  | m__get_param_names =>
      let! names := _get_param_names self in ret (RNames names)
  | m_get_params =>
      let! params := get_params vt self (truthy (local fr "deep")) in
      ret (RParams params)
  | m_set_params =>
      let! v := set_params vt self (frame_kwargs fr) in ret (RValue v)
  end.

(** The call [self.m(args, kwargs)] on an instance: the method is found on
    the class, the instance is the first positional argument. *)
Definition invoke (vt : methods) (m : method) (self : loc)
    (args : list value) (kwargs : dict value) : M heap result :=
  resolve self (sig_name (def_of m))
    (call (def_of m) (body_of vt m self) (VRef self :: args) kwargs).

(** The method a lifecycle call names. *)
Definition method_of (m : lifecycle) : method :=
  match m with
  | Initialize => m_initialize
  | OnTrainBegin => m_on_train_begin
  | OnTrainEnd => m_on_train_end
  | OnEpochBegin => m_on_epoch_begin
  | OnEpochEnd => m_on_epoch_end
  | OnBatchBegin => m_on_batch_begin
  | OnBatchEnd => m_on_batch_end
  | OnGradComputed _ => m_on_grad_computed
  end.

(** The positional arguments of a lifecycle call: none for [initialize],
    the trainer for a hook, the trainer and the gradients for
    [on_grad_computed]. *)
Definition lifecycle_args (m : lifecycle) (net : value) : list value :=
  match m with
  | Initialize => []
  | OnGradComputed named_parameters => [net; named_parameters]
  | _ => [net]
  end.

(** The value [get_params] sees for [deep]: the positional argument, or
    else the keyword, or else the default of the [def]. *)
Definition given_deep (args : list value) (kwargs : dict value) : value :=
  match args with
  | v :: _ => v
  | [] => default (VBool true) (kwargs !! "deep")
  end.

(** Whether the context of a lifecycle call fits: [initialize] takes no
    keyword; a hook takes every keyword that does not name one of its
    parameters. *)
Definition context_fits (m : lifecycle) (kwargs : dict value) : Prop :=
  match m with
  | Initialize => kwargs = ∅
  | _ => Forall (fun k => k ∉ param_names (def_of (method_of m))) (keys kwargs)
  end.

#[export] Instance context_fits_dec m kwargs : Decision (context_fits m kwargs).
Proof. destruct m; cbn [context_fits]; apply _. Defined.

(** Whether the arguments of a call fit a lifecycle method, read off
    its [def]: [initialize(self)] takes nothing; a hook
    [(self, net, **kwargs)] takes the trainer once, by position or under
    its name, and [on_grad_computed] the trainer and the gradients; nothing
    else goes by position, and no keyword is [self]. *)
Definition arguments_fit (m : lifecycle) (args : list value)
    (kwargs : dict value) : Prop :=
  match m, args with
  | Initialize, [] => kwargs = ∅
  | Initialize, _ => False
  | OnGradComputed _, [] =>
      ("self" ∉ keys kwargs) /\ ("net" ∈ keys kwargs) /\
      "named_parameters" ∈ keys kwargs
  | OnGradComputed _, [_] =>
      ("self" ∉ keys kwargs) /\ ("net" ∉ keys kwargs) /\
      "named_parameters" ∈ keys kwargs
  | OnGradComputed _, [_; _] =>
      ("self" ∉ keys kwargs) /\ ("net" ∉ keys kwargs) /\
      "named_parameters" ∉ keys kwargs
  | _, [] => ("self" ∉ keys kwargs) /\ "net" ∈ keys kwargs
  | _, [_] => ("self" ∉ keys kwargs) /\ "net" ∉ keys kwargs
  | _, _ => False
  end.

#[export] Instance arguments_fit_dec m args kwargs :
  Decision (arguments_fit m args kwargs).
Proof.
  destruct m, args as [|? [|? [|? ?]]]; cbn [arguments_fit]; apply _.
Defined.

(** ** Calls on a callback *)

Section Invoke.
Context (vt : methods).
Implicit Types (h : heap) (self l : loc) (o : obj) (m : method)
  (args : list value) (kwargs params : dict value) (v net : value).

Lemma def_of_wf m : sig_wf (def_of m).
Proof. destruct m; by_compute. Qed.

(** On a callback, the call binds the arguments and runs the body. *)
Lemma invoke_run m self o args kwargs h :
  h !! self = Some o -> cls_is_callback (obj_class o) = true ->
  invoke vt m self args kwargs h =
    call (def_of m) (body_of vt m self) (VRef self :: args) kwargs h.
Proof.
  intros Hl Hcb. unfold invoke. by rewrite (resolve_run _ _ _ _ _ Hl), Hcb.
Qed.

(** A call keeps what the body of the method keeps. *)
Lemma preserves_invoke (R : relation heap) `{!PreOrder R} m self args kwargs :
  (forall fr, preserves R (body_of vt m self fr)) ->
  preserves R (invoke vt m self args kwargs).
Proof. intros Hbody. unfold invoke. solve_preserves. Qed.

(** The context of a lifecycle call fits exactly when the call fits the
    [def] of the method. *)
Lemma context_fits_accepts (lm : lifecycle) self net kwargs :
  context_fits lm kwargs <->
  accepts (def_of (method_of lm)) (VRef self :: lifecycle_args lm net) kwargs.
Proof.
  destruct lm; try (symmetry; by apply accepts_full; [| eexists]).
  cbn [context_fits]. destruct kwargs as [[|[k v] kws]].
  - split; [intros _ | done].
    change (accepts def_initialize [VRef self] ∅). by_compute.
  - split; [done |]. intros (_ & [Hfit _]%Forall_cons & _). exfalso.
    unfold fits, named in Hfit. cbn [sig_varkw def_of method_of] in Hfit.
    case_bool_decide as Hin; [| by destruct Hfit].
    apply list_elem_of_singleton in Hin. cbn [fst] in Hin, Hfit. subst k.
    by vm_compute in Hfit.
Qed.

(** The arguments of a call fit a lifecycle method exactly when the call
    fits the [def] of the method. *)
Lemma arguments_fit_accepts (lm : lifecycle) self args kwargs :
  arguments_fit lm args kwargs <->
  accepts (def_of (method_of lm)) (VRef self :: args) kwargs.
Proof.
  unfold accepts. rewrite Forall_fits_positional.
  destruct lm, args as [|a [|b [|c args]]];
    cbn -[elem_of keys]; rewrite ?decide_True by done;
    cbn -[elem_of keys]; rewrite ?Forall_cons, ?Forall_nil.
  all: try (set_solver by lia).
  destruct kwargs as [[|[k v] kws]]; [set_solver |].
  split; [done |]. intros (_ & [[Hself _] Hall] & _). exfalso.
  specialize (Hall eq_refl). apply Forall_cons in Hall as [Hk _].
  apply list_elem_of_singleton in Hk. cbn in Hk. subst k.
  apply Hself, list_elem_of_here.
Qed.

End Invoke.

(** ** Theorems *)

Section Theorems.
Context (vt : methods).
Implicit Types (h : heap) (self l : loc) (o : obj) (m : method)
  (lm : lifecycle) (args : list value) (kwargs params : dict value)
  (v net : value) (p : string).

(** C15.  A lifecycle method called as the trainer calls it, with the
    trainer by position and a context by keyword: when the context fits
    (none for [initialize]; for a hook, no keyword that names a parameter
    of the hook) the call does nothing and returns [None], or the instance
    for [initialize]; otherwise it raises the [TypeError] of its arguments;
    the heap is left as it is in both cases. *)
Theorem lifecycle_call lm self o net kwargs h :
  h !! self = Some o -> cls_is_callback (obj_class o) = true ->
  dict_wf kwargs ->
  invoke vt (method_of lm) self (lifecycle_args lm net) kwargs h =
    if decide (context_fits lm kwargs) then
      (Ret (RValue (lifecycle_result lm self)), h)
    else
      (Raise (TypeError (bind_error (def_of (method_of lm))
                           (VRef self :: lifecycle_args lm net) kwargs)), h).
Proof.
  intros Hl Hcb Hwf. rewrite (invoke_run _ _ _ _ _ _ _ Hl Hcb).
  case_decide as Hfit.
  - rewrite call_accepts by (done || by apply context_fits_accepts).
    by destruct lm.
  - apply call_rejects; [done |]. by rewrite <- context_fits_accepts.
Qed.

(** C29.  A lifecycle method called with any arguments: the call does nothing
    and returns [None], or the instance for [initialize], exactly when
    each parameter after [self] is given once, by position or under its
    name ([net], and [named_parameters] for [on_grad_computed]), no keyword
    is [self] and [initialize] gets no keyword; every other call raises
    the [TypeError] of its arguments; the heap is left as it is in both
    cases. *)
Theorem lifecycle_call_arguments lm self o args kwargs h :
  h !! self = Some o -> cls_is_callback (obj_class o) = true ->
  dict_wf kwargs ->
  invoke vt (method_of lm) self args kwargs h =
    if decide (arguments_fit lm args kwargs) then
      (Ret (RValue (lifecycle_result lm self)), h)
    else
      (Raise (TypeError (bind_error (def_of (method_of lm))
                           (VRef self :: args) kwargs)), h).
Proof.
  intros Hl Hcb Hwf. rewrite (invoke_run _ _ _ _ _ _ _ Hl Hcb).
  case_decide as Hfit.
  - rewrite call_accepts by (done || by apply arguments_fit_accepts).
    by destruct lm.
  - apply call_rejects; [done |]. by rewrite <- arguments_fit_accepts.
Qed.

(** A call whose arguments do not fit the [def] of the method raises
    [TypeError] before the body runs: for the first keyword that does not
    fit, or else for the positional arguments in excess, or else for the
    parameters left without value; the heap is left as it is. *)
Theorem ill_fitting_call_raises m self o args kwargs h :
  h !! self = Some o -> cls_is_callback (obj_class o) = true ->
  dict_wf kwargs -> ~ accepts (def_of m) (VRef self :: args) kwargs ->
  invoke vt m self args kwargs h =
    (Raise (TypeError (bind_error (def_of m) (VRef self :: args) kwargs)), h).
Proof.
  intros Hl Hcb Hwf Hacc. rewrite (invoke_run _ _ _ _ _ _ _ Hl Hcb).
  by apply call_rejects.
Qed.

(** An argument may be given by position or by keyword: the call with
    one more positional argument does what the call does that gives this
    argument under the name of the parameter at its place ([net],
    [named_parameters], [deep]), whatever the outcome. *)
Theorem keyword_or_positional_call m self args v p kwargs h :
  dict_wf kwargs ->
  param_names (def_of m) !! S (length args) = Some p -> p ∉ keys kwargs ->
  invoke vt m self (args ++ [v]) kwargs h =
    invoke vt m self args (<[p := v]> kwargs) h.
Proof.
  intros Hwf Hp Hfresh. unfold invoke, call.
  by rewrite app_comm_cons,
    (bind_args_positional_keyword _ (VRef self :: args) _ _ _
       (def_of_wf m) Hwf Hp Hfresh).
Qed.

(** C16.  [get_params] called with arguments that fit sees [deep] as given
    by position, or else by keyword, or else [True], and takes it by its
    truth value: [get_params()] is [get_params(deep=True)], and
    [get_params(0)] is [get_params(deep=False)]. *)
Theorem get_params_call self o args kwargs h :
  h !! self = Some o -> cls_is_callback (obj_class o) = true ->
  dict_wf kwargs -> accepts def_get_params (VRef self :: args) kwargs ->
  invoke vt m_get_params self args kwargs h =
    (let! params := get_params vt self (truthy (given_deep args kwargs)) in
     ret (RParams params)) h.
Proof.
  intros Hl Hcb Hwf Hacc. rewrite (invoke_run _ _ _ _ _ _ _ Hl Hcb).
  rewrite call_accepts by done. cbn [body_of def_of]. unfold local.
  rewrite (frame_of_lookup def_get_params _ _ 1 "deep" (Some (VBool true)));
    [| by_compute | done].
  unfold given_deep.
  by destruct args as [|v args]; [destruct (kwargs !! "deep") |].
Qed.

(** C30.  [set_params] called with keywords sees them as the dictionary
    [params], unless one of them is [self]: the receiver is bound to that
    parameter already, and the call raises [TypeError] and changes
    nothing. *)
Theorem set_params_call self o params h :
  h !! self = Some o -> cls_is_callback (obj_class o) = true ->
  dict_wf params ->
  invoke vt m_set_params self [] params h =
    if decide ("self" ∈ keys params) then
      (Raise (TypeError (MultipleValues "set_params" "self")), h)
    else
      (let! v := set_params vt self params in ret (RValue v)) h.
Proof.
  intros Hl Hcb Hwf. rewrite (invoke_run _ _ _ _ _ _ _ Hl Hcb).
  case_decide as Hself.
  - by apply call_def_set_params_self.
  - by apply (call_def_set_params
                (fun params => let! v := set_params vt self params in
                               ret (RValue v))).
Qed.

(** The calls that [BaseEstimator] makes on an object through the
    method table of the callbacks are calls of the methods of the class:
    [obj._get_param_names()], [obj.get_params(deep=deep)] and
    [obj.set_params] with the keywords [params]. *)
Theorem dispatch_is_invoke depth l deep params :
  (let! names := call_get_param_names (callback_methods (S depth)) l in
   ret (RNames names))
    =m= invoke (callback_methods depth) m__get_param_names l [] ∅ /\
  (let! vp := call_get_params (callback_methods (S depth)) l deep in
   ret (RParams vp))
    =m= invoke (callback_methods depth) m_get_params l []
          (Dict [("deep", VBool deep)]) /\
  (let! v := call_set_params (callback_methods (S depth)) l params in
   ret (RValue v))
    =m= invoke (callback_methods depth) m_set_params l [] params.
Proof.
  split_and!; intros h;
    cbn [callback_methods call_get_param_names call_get_params
         call_set_params];
    unfold invoke, resolve, call, bind, lift_outcome;
    destruct (load l h) as [[o|e] h1]; try done;
    destruct (cls_is_callback (obj_class o)); try done;
    cbn [def_of]; by destruct (bind_args _ _ _).
Qed.

End Theorems.

(** ** The theorems on the scenario *)

Section Witnesses.

(** [cb.on_epoch_end(net, epoch=3)] on the early-stopping callback. *)
Lemma lifecycle_call_witness :
  invoke (callback_methods 0) m_on_epoch_end 1%positive [VStr "net"]
    (Dict [("epoch", VInt 3)]) scenario = (Ret (RValue VNone), scenario).
Proof.
  apply (lifecycle_call (callback_methods 0) OnEpochEnd 1%positive early_stop
           (VStr "net") (Dict [("epoch", VInt 3)]) scenario).
  - reflexivity.
  - reflexivity.
  - by_compute.
Defined.

(** [cb.set_params(1)]: a positional argument. *)
Lemma lifecycle_call_arguments_witness :
  invoke (callback_methods 3) m_on_epoch_end 1%positive []
    (Dict [("net", VRef 3%positive); ("dataset_train", VNone)])
    shared_scenario =
  (Ret (RValue VNone), shared_scenario).
Proof.
  exact (lifecycle_call_arguments (callback_methods 3) OnEpochEnd 1%positive
           (Obj EarlyStop (Dict [("patience", VInt 5); ("counter_", VInt 0)]))
           [] (Dict [("net", VRef 3%positive); ("dataset_train", VNone)])
           shared_scenario eq_refl eq_refl ltac:(by_compute)).
Defined.

Lemma ill_fitting_call_raises_witness :
  invoke (callback_methods 0) m_set_params 1%positive [VInt 1] ∅ scenario =
    (Raise (TypeError (TooManyPositional "set_params" 1 2)), scenario).
Proof.
  change (TooManyPositional "set_params" 1 2)
    with (bind_error (def_of m_set_params) [VRef 1%positive; VInt 1] ∅).
  apply (ill_fitting_call_raises (callback_methods 0) m_set_params 1%positive
           early_stop [VInt 1] ∅ scenario).
  - reflexivity.
  - reflexivity.
  - by_compute.
  - by_compute.
Defined.

(** [cb.on_grad_computed(net, np)] and
    [cb.on_grad_computed(net, named_parameters=np)]. *)
Lemma keyword_or_positional_call_witness :
  invoke (callback_methods 0) m_on_grad_computed 1%positive
    ([VStr "net"] ++ [VStr "np"]) ∅ scenario =
  invoke (callback_methods 0) m_on_grad_computed 1%positive [VStr "net"]
    (<["named_parameters" := VStr "np"]> ∅) scenario.
Proof.
  apply (keyword_or_positional_call (callback_methods 0) m_on_grad_computed
           1%positive [VStr "net"] (VStr "np") "named_parameters" ∅ scenario).
  - by_compute.
  - reflexivity.
  - by_compute.
Defined.

(** [cb.get_params()]. *)
Lemma get_params_call_witness :
  invoke (callback_methods 1) m_get_params 1%positive [] ∅ scenario =
    (let! params := get_params (callback_methods 1) 1%positive true in
     ret (RParams params)) scenario.
Proof.
  refine (get_params_call (callback_methods 1) 1%positive early_stop [] ∅
            scenario _ _ _ _).
  - reflexivity.
  - reflexivity.
  - by_compute.
  - by_compute.
Defined.

(** [cb.set_params(patience=10)]. *)
Lemma set_params_call_witness :
  invoke (callback_methods 2) m_set_params 1%positive []
    (Dict [("patience", VInt 10)]) scenario =
    (let! v := set_params (callback_methods 2) 1%positive
                 (Dict [("patience", VInt 10)]) in
     ret (RValue v)) scenario.
Proof.
  apply (set_params_call (callback_methods 2) 1%positive early_stop
           (Dict [("patience", VInt 10)]) scenario).
  - reflexivity.
  - reflexivity.
  - by_compute.
Defined.

End Witnesses.
