(* ===== verification/Header.v ===== *)
(** * Header: the module [skorch.callbacks.base] and its class statement

    Lines 1 to 9 of base.py are the statements that build the namespace of
    the module: the docstring, the import of [BaseEstimator], the
    assignment of [__all__] and the class statement, whose body binds one
    name for each [def].

    - [stmt] is a statement at the top of a module, [exec] what it binds,
      [base_py] the statements of base.py and [module_namespace] the
      namespace they leave;
    - [class_namespace] is the namespace a class body leaves: a [def] binds
      its name, a later [def] of the same name replaces an earlier one;
    - [star_import] is [from module import *]: the names of [__all__] when
      the module binds it, the names without a leading underscore
      otherwise.

    The theorems say what [import *] gives, for a module in general and for
    base.py, and that the class body defines each of the eleven methods
    once, under the name and with the parameters that [Calls.def_of]
    gives. *)

From stdpp Require Import base tactics option list strings gmap.
From S2P Require Import Prelude PyStr PyDict PyObject PyCall Estimator Callback.
From S2P Require Import Calls.

(** ** Definitions *)

(** What a name of a module is bound to: a string, a list of names, an
    object imported from another module, or a class defined in the module,
    with the namespace of its body. *)
Inductive binding : Type :=
| BStr (s : string)
| BNames (names : list string)
| BImported (module name : string)
| BClass (c : class_desc) (attrs : dict signature).

#[export] Instance binding_eq_dec : EqDecision binding.
Proof. solve_decision. Defined.

(** A statement at the top of a module. *)
Inductive stmt : Type :=
| Docstring (s : string)
| FromImport (module name : string)
| AssignNames (target : string) (names : list string)
| ClassDef (name : string) (c : class_desc) (defs : list signature).

(** The namespace of a class body: each [def] binds its name. *)
Definition class_namespace (defs : list signature) : dict signature :=
  update ∅ ((fun d => (sig_name d, d)) <$> defs).

(** What a statement binds in the namespace of the module. *)
Definition exec (ns : dict binding) (s : stmt) : dict binding :=
  match s with
  | Docstring s => <["__doc__" := BStr s]> ns
  | FromImport module name => <[name := BImported module name]> ns
  | AssignNames target names => <[target := BNames names]> ns
  | ClassDef name c defs => <[name := BClass c (class_namespace defs)]> ns
  end.

(** The [def]s of the body of [Callback], in the order of the source. *)
Definition Callback_defs : list signature :=
  [def_initialize; def_on_train_begin; def_on_train_end; def_on_epoch_begin;
   def_on_epoch_end; def_on_batch_begin; def_on_batch_end;
   def_on_grad_computed; def__get_param_names; def_get_params;
   def_set_params].

(** The statements of base.py. *)
Definition base_py : list stmt :=
  [Docstring " Basic callback definition. ";
   FromImport "sklearn.base" "BaseEstimator";
   AssignNames "__all__" ["Callback"];
   ClassDef "Callback" Callback Callback_defs].

(** The namespace of the module once it is loaded. *)
Definition module_namespace : dict binding := foldl exec ∅ base_py.

(** A name without a leading underscore. *)
Definition is_public (name : string) : bool :=
  match strip_prefix "_" name with Some _ => false | None => true end.

(** The names that [__all__] lists, when the module binds it: the items of
    a list, the characters of a string; another object is not iterable. *)
Definition all_names (ns : dict binding) : option (outcome (list string)) :=
  match ns !! "__all__" with
  | None => None
  | Some (BNames names) => Some (Ret names)
  | Some (BStr s) =>
      Some (Ret ((fun c => String c EmptyString) <$> String.list_ascii_of_string s))
  | Some _ => Some (Raise (TypeError (NotIterable "__all__")))
  end.

(** The bindings of the listed names, in order; the first name that the
    module does not bind raises [AttributeError]. *)
Fixpoint import_names (ns : dict binding) (names : list string)
    : outcome (list (string * binding)) :=
  match names with
  | [] => Ret []
  | name :: names' =>
      match ns !! name with
      | None => Raise (AttributeError name)
      | Some b => outcome_map (cons (name, b)) (import_names ns names')
      end
  end.

(** [from module import *]: what the importing namespace receives. *)
Definition star_import (ns : dict binding) : outcome (dict binding) :=
  match all_names ns with
  | Some (Ret names) => outcome_map (update ∅) (import_names ns names)
  | Some (Raise e) => Raise e
  | None => Ret (filter_keys is_public ns)
  end.

(** The attribute [name] of the class [Callback]. *)
Definition class_attr (name : string) : option signature :=
  match module_namespace !! "Callback" with
  | Some (BClass _ attrs) => attrs !! name
  | _ => None
  end.

(** ** Importing names *)

Section Imports.
Implicit Types (ns : dict binding) (names pre post : list string)
  (name : string).

(** The listed names that the module binds are imported with their
    bindings, in the order of the list. *)
Lemma import_names_defined ns names :
  Forall (fun name => is_Some (ns !! name)) names ->
  exists out, import_names ns names = Ret out /\ out.*1 = names /\
    Forall (fun nb => ns !! nb.1 = Some nb.2) out.
Proof.
  induction 1 as [|name names [b Hb] _ (out & Hrun & Hkeys & Hall)].
  - by exists [].
  - exists ((name, b) :: out). cbn [import_names]. rewrite Hb, Hrun.
    split_and!; [done | by rewrite fmap_cons, Hkeys | by constructor].
Qed.

(** The first listed name that the module does not bind ends the import. *)
Lemma import_names_missing ns pre name post :
  Forall (fun name => is_Some (ns !! name)) pre -> ns !! name = None ->
  import_names ns (pre ++ name :: post) = Raise (AttributeError name).
Proof.
  induction 1 as [|name' pre [b Hb] _ IH]; intros Hname; cbn [app import_names].
  - by rewrite Hname.
  - by rewrite Hb, IH.
Qed.

Lemma all_names_list ns names :
  ns !! "__all__" = Some (BNames names) -> all_names ns = Some (Ret names).
Proof. unfold all_names. by intros ->. Qed.

End Imports.

(** ** The class body *)

(** No [def] of the class replaces another: the namespace of the class
    body holds the [def]s in the order of the source. *)
Lemma class_attr_unfold name :
  class_attr name =
    Dict ((fun d => (sig_name d, d)) <$> Callback_defs) !! name.
Proof.
  unfold class_attr.
  assert (module_namespace !! "Callback" =
          Some (BClass Callback
                  (Dict ((fun d => (sig_name d, d)) <$> Callback_defs)))) as ->
    by (vm_compute; reflexivity).
  done.
Qed.

(** ** Theorems *)

Section Theorems.
Implicit Types (ns : dict binding) (names pre post : list string)
  (name : string) (m : method).

(** [from module import *] on a module that binds [__all__] to a
    list of distinct names: when the module binds every listed name, the
    importer receives exactly the listed names, in the order of the list,
    each with the binding it has in the module; otherwise the import raises
    [AttributeError] for the first listed name the module does not bind. *)
Theorem star_import_all ns names :
  ns !! "__all__" = Some (BNames names) -> NoDup names ->
  (Forall (fun name => is_Some (ns !! name)) names ->
   exists out, star_import ns = Ret out /\ keys out = names /\
     forall name, name ∈ names -> out !! name = ns !! name) /\
  (forall pre name post,
     names = pre ++ name :: post ->
     Forall (fun name => is_Some (ns !! name)) pre -> ns !! name = None ->
     star_import ns = Raise (AttributeError name)).
Proof.
  intros Hall%all_names_list Hnd. unfold star_import. rewrite Hall. split.
  - intros (out & -> & Hkeys & Hout)%import_names_defined.
    exists (Dict out). rewrite <- Hkeys in Hnd |- *. cbn [outcome_map].
    rewrite update_empty_NoDup by done. split_and!; [done.. |].
    intros name ([k b] & -> & Hin)%list_elem_of_fmap.
    rewrite Forall_forall in Hout. rewrite (Hout _ Hin).
    by apply elem_of_items.
  - intros pre name post -> Hpre Hname.
    by rewrite import_names_missing.
Qed.


(** The class statement defines each of the eleven methods once: the
    attribute of the class under the name of a method is the [def] of that
    method, no [def] is replaced by a later one of the same name, and the
    class body binds nothing else. *)
Theorem class_defines_methods :
  (forall m, class_attr (sig_name (def_of m)) = Some (def_of m)) /\
  NoDup (sig_name <$> Callback_defs) /\
  (forall name d, class_attr name = Some d -> exists m, d = def_of m).
Proof.
  split_and!.
  - intros m. by destruct m.
  - by_compute.
  - intros name d Hattr. rewrite class_attr_unfold in Hattr.
    apply alist_get_Some_elem in Hattr. cbn [items fmap list_fmap] in Hattr.
    repeat (apply elem_of_cons in Hattr as [[= -> ->] | Hattr];
            [solve [by exists m_initialize | by exists m_on_train_begin
                   | by exists m_on_train_end | by exists m_on_epoch_begin
                   | by exists m_on_epoch_end | by exists m_on_batch_begin
                   | by exists m_on_batch_end | by exists m_on_grad_computed
                   | by exists m__get_param_names | by exists m_get_params
                   | by exists m_set_params] |]).
    by apply elem_of_nil in Hattr.
Qed.

End Theorems.

(** ** The theorems on base.py *)

Section Witnesses.

Lemma star_import_all_witness :
  (Forall (fun name => is_Some (module_namespace !! name)) ["Callback"] ->
   exists out, star_import module_namespace = Ret out /\
     keys out = ["Callback"] /\
     forall name, name ∈ ["Callback"] ->
                  out !! name = module_namespace !! name) /\
  (forall pre name post,
     ["Callback"] = pre ++ name :: post ->
     Forall (fun name => is_Some (module_namespace !! name)) pre ->
     module_namespace !! name = None ->
     star_import module_namespace = Raise (AttributeError name)).
Proof.
  apply (star_import_all module_namespace ["Callback"]).
  - reflexivity.
  - by_compute.
Defined.

End Witnesses.
