(* ===== verification/Nested.v ===== *)
(** * Nested: parameters of nested callbacks

    A public attribute of a callback may hold another callback.
    [get_params(deep=True)] then reports the parameters of the nested
    callback under the name of the attribute joined to theirs by the
    separator, and [set_params] forwards a parameter with such a name to the
    nested callback.  This file states what both do along the object graph:

    - [prefixed] builds the keyword arguments addressed to one nested object,
      and [set_params_forwards] shows that [set_params] with them is
      [set_params] on the nested object;
    - [deep_params] is a reference definition of [get_params(deep=True)] as a
      function of the heap, without monad, method table or exception, and
      [get_params_deep_refines] shows that the method computes it;
    - [get_params_deep_returns_iff] characterises the heaps on which the
      method returns within a call depth by [nested_within], and
      [cyclic_callback_overflows] shows that on a callback that holds itself
      it raises [RecursionError] at every depth;
    - [param_path] is the specification of the reported parameters as paths
      of attribute names through the object graph, [join_path] the name under
      which a path is reported; [get_params_deep_sound] and
      [get_params_deep_complete] relate what the method returns to it, and
      [get_params_deep_value] gives the exact values on a [clean_heap];
    - [set_params_nested_get_params] is the round trip through a nested
      callback, [set_params_nested_uses_snapshot] the case in which the
      nested callback is replaced by the same call. *)

From stdpp Require Import base tactics option list strings gmap.
From S2P Require Import Prelude PyStr PyDict PyObject PyCall Estimator Callback.

#[local] Set Warnings "-clear-no-such-hyp".

(** ** Definitions *)

(** The keyword arguments [name__k = v] for the items [k = v] of [params]. *)
Definition prefixed (name : string) (params : dict value) : dict value :=
  Dict (nested_items param_sep name params).

(** The name under which the parameter at the end of a path of attribute
    names is reported. *)
Fixpoint join_path (path : list string) : string :=
  match path with
  | [] => ""
  | [k] => k
  | k :: path' => k +:+ param_sep +:+ join_path path'
  end.

(** [param_path h l path v]: following the public attributes [path] from the
    callback at [l], through callbacks, leads to the value [v]. *)
Inductive param_path (h : heap) : loc -> list string -> value -> Prop :=
| param_here l o k v :
    h !! l = Some o -> cls_is_callback (obj_class o) = true ->
    reserved k = false -> obj_dict o !! k = Some v ->
    param_path h l [k] v
| param_nested l o k l' path v :
    h !! l = Some o -> cls_is_callback (obj_class o) = true ->
    reserved k = false -> obj_dict o !! k = Some (VRef l') ->
    param_path h l' path v ->
    param_path h l (k :: path) v.

(** [nested_within h n l]: the object at [l] is a callback whose public
    attributes refer to objects of the heap, and following references to
    callbacks through public attributes leads through at most [n] objects,
    [l] included. *)
Inductive nested_within (h : heap) : nat -> loc -> Prop :=
| nested_within_intro n l o :
    h !! l = Some o ->
    cls_is_callback (obj_class o) = true ->
    (forall k l', reserved k = false -> obj_dict o !! k = Some (VRef l') ->
       is_Some (h !! l')) ->
    (forall k l' o', reserved k = false -> obj_dict o !! k = Some (VRef l') ->
       h !! l' = Some o' -> cls_is_callback (obj_class o') = true ->
       nested_within h n l') ->
    nested_within h (S n) l.

(** What one round of the loop of [get_params(deep=True)] enters for the
    name [key] of the object [o]: the parameters of the value when it is a
    reference, given by [rec], then the value itself. *)
Definition entry (rec : loc -> dict value) (o : obj) (out : dict value)
    (key : string) : dict value :=
  let v := default VNone (obj_dict o !! key) in
  <[key := v]>
    match v with
    | VRef l' => update out (nested_items param_sep key (rec l'))
    | _ => out
    end.

(** The parameters of the object at [l], nested ones included, followed
    through [n] levels of nesting.  An object that is no callback has none. *)
Fixpoint deep_params (n : nat) (h : heap) (l : loc) : dict value :=
  match n with
  | 0 => ∅
  | S n' =>
      match h !! l with
      | Some o =>
          if cls_is_callback (obj_class o)
          then foldl (entry (deep_params n' h) o) ∅ (keys (public_params o))
          else ∅
      | None => ∅
      end
  end.

(** [holds_itself h l]: the first attribute of the callback at [l] is public
    and refers to the callback itself. *)
Definition holds_itself (h : heap) (l : loc) : Prop :=
  exists c k rest,
    h !! l = Some (Obj c (Dict ((k, VRef l) :: rest))) /\
    cls_is_callback c = true /\ reserved k = false.

(** A callback whose parameter [next] holds the callback itself, at
    address 1 of a heap that holds nothing else. *)
Definition cyclic : heap :=
  {[ 1%positive := Obj Callback (Dict [("next", VRef 1%positive)]) ]}.

(** What [get_params(deep=True)] returns on the checkpoint callbacks of
    [shared_scenario]. *)
Definition checkpoint_params : dict value :=
  Dict [("monitor", VStr "loss"); ("inner__patience", VInt 5);
        ("inner", VRef 1%positive)].

(** An object whose attribute names occur once and, when public, hold no
    separator. *)
Definition clean_obj (o : obj) : Prop :=
  dict_wf (obj_dict o) /\
  Forall (fun k => ~ occurs param_sep k) (keys (public_params o)).

(** A heap of such objects. *)
Definition clean_heap (h : heap) : Prop :=
  forall l o, h !! l = Some o -> clean_obj o.

(** A name that [get_params] may join to others: not reserved, without
    separator. *)
Definition joinable (k : string) : Prop :=
  reserved k = false /\ ~ occurs param_sep k.

(** [shared_scenario] with a second early-stopping callback, at address 4,
    that no checkpoint holds. *)
Definition replaced_scenario : heap :=
  <[4%positive := early_stop]> shared_scenario.

(** ** Forwarding of nested parameters *)

Section Forwarding.
Implicit Types (h : heap) (self l : loc) (o : obj) (k name sub : string)
  (vp params : dict value).

(** A name that is not reserved and holds no separator is what stands before
    the first separator of [name__sub]. *)
Lemma partition_param_key name sub :
  reserved name = false -> ~ occurs param_sep name ->
  partition (name +:+ param_sep +:+ sub) param_sep = (name, param_sep, sub).
Proof.
  intros Hres Hno. apply partition_app; [apply param_sep_nonempty |].
  intros h1 h2 -> Hne. apply strip_prefix_None. intros rest Heq.
  unfold param_sep in Heq.
  destruct h2 as [|c [|c' h2]]; [done | |];
    autorewrite with pyrw in Heq; simplify_eq.
  - apply not_true_iff_false in Hres. apply Hres, endswith_app.
  - apply Hno. by exists h1, h2.
Qed.

(** Whatever [set_params] returns, it returns [None]. *)
Lemma call_set_params_None depth l params h v h' :
  call_set_params (callback_methods depth) l params h = (Ret v, h') ->
  v = VNone.
Proof.
  destruct depth as [|depth]; [done |]. cbn [callback_methods call_set_params].
  intros (o & _ & _ & (fr & _ & Hrun)%call_ret_inv)%resolve_ret_inv.
  apply bind_ret_inv in Hrun as (? & ? & _ & Hret). by injection Hret.
Qed.

(** The keyword arguments addressed to a nested object have distinct names,
    none of which is [self]. *)
Lemma prefixed_wf name params : dict_wf params -> dict_wf (prefixed name params).
Proof. apply nested_items_NoDup. Qed.

Lemma prefixed_not_self name params :
  reserved name = false -> ~ occurs param_sep name ->
  "self" ∉ keys (prefixed name params).
Proof.
  intros Hres Hno ([k v] & Heq & Hin)%list_elem_of_fmap.
  apply list_elem_of_fmap in Hin as ([k' v'] & [= -> ->] & _).
  pose proof (partition_param_key name k' Hres Hno) as Hp.
  cbn [fst] in Heq. rewrite <- Heq in Hp. vm_compute in Hp. discriminate.
Qed.

(** The entry of a plain public attribute in what [get_params] returns is
    the value of the attribute. *)
Lemma get_params_plain_lookup depth self o deep vp h name :
  h !! self = Some o -> cls_is_callback (obj_class o) = true ->
  call_get_params (callback_methods (S (S depth))) self deep h = (Ret vp, h) ->
  plain_param o name ->
  vp !! name = Some (default VNone (obj_dict o !! name)).
Proof.
  intros Hl Hcb Hget (Hk & Hres & Hno).
  rewrite (call_get_params_run _ _ _ _ _ Hl Hcb) in Hget.
  apply (BaseEstimator_get_params_lookup param_sep reserved _ self o deep _
           h vp h name Hl (call_get_param_names_run _ _ _ _ Hl Hcb) Hget);
    [| done].
  apply list_elem_of_filter. split; [by apply is_param_name_true | done].
Qed.

(** [set_params] with names joined to one plain public name calls
    [set_params] on the value the attribute holds. *)
Lemma call_set_params_prefixed_value depth self o name v params vp h :
  h !! self = Some o -> cls_is_callback (obj_class o) = true ->
  call_get_params (callback_methods (S (S depth))) self true h = (Ret vp, h) ->
  plain_param o name -> obj_dict o !! name = Some v ->
  dict_wf params -> is_empty params = false ->
  call_set_params (callback_methods (S (S (S depth)))) self
      (prefixed name params) h =
    (let! l := receiver v "set_params" in
     let! _ := call_set_params (callback_methods (S (S depth))) l params in
     ret VNone) h.
Proof.
  intros Hl Hcb Hget Hplain Hname Hwf Hne.
  pose proof (get_params_plain_lookup _ _ _ _ _ _ _ Hl Hcb Hget Hplain)
    as Hvp. rewrite Hname in Hvp. destruct Hplain as (_ & Hres & Hno).
  rewrite (call_set_params_run _ _ _ _ _ Hl Hcb);
    [| by apply prefixed_wf | by apply prefixed_not_self].
  unfold set_params, prefixed. unfold bind at 1.
  rewrite (BaseEstimator_set_params_nested_value param_sep _ name
             param_sep_nonempty (fun sub => partition_param_key _ sub Hres Hno)
             self vp v params h Hget Hvp Hwf Hne).
  unfold bind, ret.
  destruct (receiver v "set_params" h) as [[l | e] h1]; [| done].
  by destruct (call_set_params _ l params h1) as [[? | ?] ?].
Qed.

(** When the attribute holds a reference, that is forwarding to the
    object. *)
Lemma call_set_params_prefixed depth self o name l params vp h :
  h !! self = Some o -> cls_is_callback (obj_class o) = true ->
  call_get_params (callback_methods (S (S depth))) self true h = (Ret vp, h) ->
  plain_param o name -> obj_dict o !! name = Some (VRef l) ->
  dict_wf params -> is_empty params = false ->
  call_set_params (callback_methods (S (S (S depth)))) self
      (prefixed name params) h =
    call_set_params (callback_methods (S (S depth))) l params h.
Proof.
  intros Hl Hcb Hget Hplain Hname Hwf Hne.
  rewrite (call_set_params_prefixed_value _ _ _ _ _ _ _ _
             Hl Hcb Hget Hplain Hname Hwf Hne).
  cbn [receiver]. unfold bind, ret.
  destruct (call_set_params _ l params h) as [[v | e] h'] eqn:Hrun; [| done].
  by rewrite (call_set_params_None _ _ _ _ _ _ Hrun).
Qed.

(** When it holds no callback, the call has no receiver. *)
Lemma call_set_params_no_callback depth v params h :
  no_callback h v = true ->
  (let! l := receiver v "set_params" in
   let! _ := call_set_params (callback_methods (S depth)) l params in
   ret VNone) h = (Raise (AttributeError "set_params"), h).
Proof.
  destruct v as [| | | |l]; try done. cbn [no_callback receiver].
  destruct (h !! l) as [o'|] eqn:Hl'; [| done]. intros Hcb%negb_true_iff.
  unfold bind, ret. cbn [callback_methods call_set_params].
  by rewrite (resolve_run _ _ _ _ _ Hl'), Hcb.
Qed.

End Forwarding.

(** ** The reference definition of [get_params(deep=True)] *)

Section DeepParams.
Implicit Types (h : heap) (self l : loc) (o : obj) (k key : string)
  (v : value) (out : dict value) (rec : loc -> dict value).

(** The loop of [get_params] returns when the values of the names are no
    references, references to objects that are no callbacks, or references
    to callbacks on which [get_params] returns. *)
Lemma get_params_loop_returns vt self o deep names out h :
  h !! self = Some o ->
  (forall k l', k ∈ names -> obj_dict o !! k = Some (VRef l') ->
     exists o', h !! l' = Some o' /\
       (cls_is_callback (obj_class o') = true ->
        exists di, call_get_params vt l' true h = (Ret di, h))) ->
  exists vp, get_params_loop param_sep vt self deep names out h = (Ret vp, h).
Proof.
  intros Hl. revert out. induction names as [|key names IH]; intros out Hrefs.
  - by eexists.
  - cbn [get_params_loop].
    rewrite (bind_run_ret _ _ _ _ _ (getattr_default_run _ _ _ key VNone Hl)).
    assert (exists out', expand param_sep vt deep key
              (default VNone (obj_dict o !! key)) out h = (Ret out', h))
      as [out' Hexp].
    { unfold expand. destruct deep; [| by eexists].
      destruct (obj_dict o !! key) as [[| | | |l']|] eqn:Hk;
        try (by eexists).
      destruct (Hrefs key l') as (o' & Hl' & Hcb); [by left | done |].
      simpl default.
      rewrite (bind_run_ret _ _ _ _ _ (has_callback_method_run _ _ _ Hl')).
      destruct (cls_is_callback (obj_class o')); [| by eexists].
      destruct (Hcb eq_refl) as [di Hdi]. simpl receiver.
      rewrite bind_ret_l, (bind_run_ret _ _ _ _ _ Hdi). by eexists. }
    rewrite (bind_run_ret _ _ _ _ _ Hexp). apply IH.
    intros k l' Hk. apply Hrefs. by right.
Qed.

(** With one level of call depth per level of nesting, and one more for the
    call itself, [get_params] returns. *)
Lemma get_params_returns n h l deep :
  nested_within h n l ->
  exists vp, call_get_params (callback_methods (S n)) l deep h = (Ret vp, h).
Proof.
  revert l deep. induction n as [|n IH]; intros l deep Hn;
    inversion Hn as [? ? o Hl Hcb Hrefs Hnested]; subst.
  rewrite (call_get_params_run _ _ _ _ _ Hl Hcb). unfold get_params.
  unfold BaseEstimator_get_params.
  rewrite (bind_run_ret _ _ _ _ _ (call_get_param_names_run _ _ _ _ Hl Hcb)).
  apply get_params_loop_returns with (o := o); [done |].
  intros k l' [Hp _]%list_elem_of_filter Hk.
  apply is_param_name_true in Hp.
  destruct (Hrefs k l' Hp Hk) as [o' Hl']. exists o'. split; [done |].
  intros Hcb'. by eapply IH, Hnested.
Qed.

Lemma deep_params_not_callback n h l o :
  h !! l = Some o -> cls_is_callback (obj_class o) = false ->
  deep_params n h l = ∅.
Proof. intros Hl Hcb. destruct n; [done |]. simpl. by rewrite Hl, Hcb. Qed.

(** One round of the loop enters [entry] when [get_params] on a nested
    callback returns what [rec] gives, and [rec] gives nothing for an object
    that is no callback. *)
Lemma get_params_loop_entries (vt : methods) rec self o names out h :
  h !! self = Some o ->
  (forall k l', k ∈ names -> obj_dict o !! k = Some (VRef l') ->
     exists o', h !! l' = Some o' /\
       if cls_is_callback (obj_class o')
       then call_get_params vt l' true h = (Ret (rec l'), h)
       else rec l' = ∅) ->
  get_params_loop param_sep vt self true names out h =
    (Ret (foldl (entry rec o) out names), h).
Proof.
  intros Hl. revert out. induction names as [|key names IH]; intros out Hrefs;
    [done |].
  cbn [get_params_loop foldl].
  rewrite (bind_run_ret _ _ _ _ _ (getattr_default_run _ _ _ key VNone Hl)).
  assert (expand param_sep vt true key (default VNone (obj_dict o !! key))
            out h = (Ret match default VNone (obj_dict o !! key) with
                         | VRef l' =>
                             update out (nested_items param_sep key (rec l'))
                         | _ => out
                         end, h)) as Hexp.
  { destruct (obj_dict o !! key) as [[| | | |l']|] eqn:Hk; try done.
    destruct (Hrefs key l') as (o' & Hl' & Hrec); [by left | done |].
    unfold expand. cbn [default id].
    rewrite (bind_run_ret _ _ _ _ _ (has_callback_method_run _ _ _ Hl')).
    destruct (cls_is_callback (obj_class o')).
    - simpl receiver. by rewrite bind_ret_l, (bind_run_ret _ _ _ _ _ Hrec).
    - by rewrite Hrec. }
  rewrite (bind_run_ret _ _ _ _ _ Hexp).
  apply IH. intros k l' Hk. apply Hrefs. by right.
Qed.

(** With one level of call depth per level of nesting, and one more for the
    call itself, [get_params(deep=True)] returns [deep_params]. *)
Lemma get_params_deep_run n h l :
  nested_within h n l ->
  call_get_params (callback_methods (S n)) l true h =
    (Ret (deep_params n h l), h).
Proof.
  revert l. induction n as [|n IH]; intros l Hn;
    inversion Hn as [? ? o Hl Hcb Hrefs Hnested]; subst.
  rewrite (call_get_params_run _ _ _ _ _ Hl Hcb). unfold get_params.
  unfold BaseEstimator_get_params.
  rewrite (bind_run_ret _ _ _ _ _ (call_get_param_names_run _ _ _ _ Hl Hcb)).
  cbn [deep_params]. rewrite Hl, Hcb, keys_public_params.
  apply get_params_loop_entries; [done |].
  intros k l' [Hp _]%list_elem_of_filter Hk.
  apply is_param_name_true in Hp.
  destruct (Hrefs k l' Hp Hk) as [o' Hl']. exists o'. split; [done |].
  destruct (cls_is_callback (obj_class o')) eqn:Hcb'.
  - by eapply IH, Hnested.
  - by eapply deep_params_not_callback.
Qed.

(** When the loop of [get_params(deep=True)] returns, every reference held
    by one of the names leads to an object of the heap, and [get_params] has
    returned on those that are callbacks. *)
Lemma get_params_loop_returned (vt : methods) self o names out h vp h' :
  (forall l deep, read_only (call_get_params vt l deep)) ->
  h !! self = Some o ->
  get_params_loop param_sep vt self true names out h = (Ret vp, h') ->
  forall k l', k ∈ names -> obj_dict o !! k = Some (VRef l') ->
    exists o', h !! l' = Some o' /\
      (cls_is_callback (obj_class o') = true ->
       exists di, call_get_params vt l' true h = (Ret di, h)).
Proof.
  intros Hro Hl. revert out.
  induction names as [|key names IH]; intros out Hrun k l' Hk Hv;
    [by apply elem_of_nil in Hk |].
  cbn [get_params_loop] in Hrun.
  rewrite (bind_run_ret _ _ _ _ _ (getattr_default_run _ _ _ key VNone Hl))
    in Hrun.
  apply bind_ret_inv in Hrun as (out' & h2 & Hexp & Hrun).
  assert (h2 = h) as ->.
  { pose proof (preserves_expand param_sep vt eq Hro true key
      (default VNone (obj_dict o !! key)) out h) as Heq.
    by rewrite Hexp in Heq. }
  apply elem_of_cons in Hk as [-> | Hk]; [| by eapply IH].
  rewrite Hv in Hexp. unfold expand in Hexp. cbn [default id] in Hexp.
  apply bind_ret_inv in Hexp as (has & h3 & Hhas & Hexp).
  cbn [has_callback_method] in Hhas.
  apply bind_ret_inv in Hhas as (o' & h4 & [Hl' ->]%load_inv & Hret).
  injection Hret as <- <-. exists o'. split; [done |]. intros Hcb.
  rewrite Hcb in Hexp. simpl receiver in Hexp. rewrite bind_ret_l in Hexp.
  apply bind_ret_inv in Hexp as (di & h5 & Hget & _). exists di.
  by rewrite (read_only_run _ h (Hro l' true)), Hget.
Qed.

(** [get_params(deep=True)] returns only on a callback whose nesting is
    within the call depth. *)
Lemma get_params_returned_nested n h l vp h' :
  call_get_params (callback_methods (S n)) l true h = (Ret vp, h') ->
  nested_within h n l.
Proof.
  revert l vp h'. induction n as [|n IH]; intros l vp h';
    intros (o & Hl & Hcb & Hrun)%call_get_params_inv;
    apply bind_ret_inv in Hrun as (names & h2 & Hnames & Hloop); [done |].
  rewrite (call_get_param_names_run _ _ _ _ Hl Hcb) in Hnames.
  injection Hnames as <- <-.
  pose proof (get_params_loop_returned _ _ _ _ _ _ _ _
    (fun l d => methods_get_read_only (sep := param_sep) (P := reserved) l d)
    Hl Hloop) as Hrefs.
  assert (forall k l', reserved k = false ->
            obj_dict o !! k = Some (VRef l') ->
            k ∈ filter (fun key => is_param_name key = true)
                  (keys (obj_dict o))) as Hin.
  { intros k l' Hres Hk. apply list_elem_of_filter.
    split; [by apply is_param_name_true |].
    apply lookup_dict_is_Some. by rewrite Hk. }
  apply (nested_within_intro h n l o Hl Hcb).
  - intros k l' Hres Hk.
    destruct (Hrefs k l' (Hin _ _ Hres Hk) Hk) as (o' & -> & _). by eexists.
  - intros k l' o' Hres Hk Hl' Hcb'.
    destruct (Hrefs k l' (Hin _ _ Hres Hk) Hk) as (o'' & Hl'' & Hget).
    simplify_eq. destruct (Hget Hcb') as [di Hdi]. by eapply IH.
Qed.

(** A callback whose first attribute is public and holds the callback
    itself: [get_params(deep=True)] uses up every call depth. *)
Lemma get_params_self_reference m self c k rest h :
  h !! self = Some (Obj c (Dict ((k, VRef self) :: rest))) ->
  cls_is_callback c = true -> reserved k = false ->
  call_get_params (callback_methods m) self true h =
    (Raise RecursionError, h).
Proof.
  intros Hl Hcb Hres. induction m as [|[|m] IH]; [done | |];
    rewrite (call_get_params_run _ _ _ _ _ Hl Hcb); [done |].
  unfold get_params, BaseEstimator_get_params.
  rewrite (bind_run_ret _ _ _ _ _ (call_get_param_names_run _ _ _ _ Hl Hcb)).
  cbn [obj_dict keys items fmap list_fmap fst]. rewrite filter_cons_True
    by (by apply is_param_name_true).
  cbn [get_params_loop].
  rewrite (bind_run_ret _ _ _ _ _ (getattr_default_run _ _ _ k VNone Hl)).
  replace (obj_dict _ !! k) with (Some (VRef self))
    by (unfold lookup, dict_lookup; simpl; by rewrite decide_True).
  cbn [default id]. apply bind_run_raise. unfold expand.
  rewrite (bind_run_ret _ _ _ _ _ (has_callback_method_run _ _ _ Hl)).
  cbn [obj_class]. rewrite Hcb. simpl receiver.
  by rewrite bind_ret_l, (bind_run_raise _ _ _ _ _ IH).
Qed.

End DeepParams.

(** ** Parameters as paths through the object graph *)

Section Paths.
Implicit Types (h : heap) (self l : loc) (o : obj) (k key sub : string)
  (v : value) (out : dict value) (rec : loc -> dict value)
  (path : list string).

Lemma param_path_callback h l path v :
  param_path h l path v ->
  exists o, h !! l = Some o /\ cls_is_callback (obj_class o) = true.
Proof. destruct 1; eauto. Qed.

Lemma param_path_nonempty h l path v : param_path h l path v -> path <> [].
Proof. by destruct 1. Qed.

Lemma join_path_cons k path :
  path <> [] -> join_path (k :: path) = k +:+ param_sep +:+ join_path path.
Proof. by destruct path. Qed.

(** A path is no longer than the nesting is deep. *)
Lemma nested_within_path_length h n l path v :
  nested_within h n l -> param_path h l path v -> length path <= n.
Proof.
  intros Hn Hpath. revert n Hn.
  induction Hpath as [l o k v Hl Hcb Hres Hk
                     |l o k l' path v Hl Hcb Hres Hk Hpath IH]; intros n Hn;
    inversion Hn as [n' ? o1 Hl1 _ _ Hnested]; simplify_eq/=; [lia |].
  destruct (param_path_callback _ _ _ _ Hpath) as (o' & Hl' & Hcb').
  specialize (IH n' (Hnested _ _ _ Hres Hk Hl' Hcb')). lia.
Qed.

(** The keys one round of the loop leaves. *)
Lemma entry_keys rec o out key k :
  k ∈ keys (entry rec o out key) <->
  k = key \/ k ∈ keys out \/
  exists l' sub, obj_dict o !! key = Some (VRef l') /\
    sub ∈ keys (rec l') /\ k = key +:+ param_sep +:+ sub.
Proof.
  unfold entry. rewrite elem_of_keys_insert.
  destruct (obj_dict o !! key) as [[| | | |l']|]; cbn [default id];
    rewrite ?elem_of_keys_update, ?elem_of_nested_keys; naive_solver.
Qed.

Lemma entry_fold_keys rec o names out k :
  k ∈ keys (foldl (entry rec o) out names) <->
  k ∈ keys out \/ k ∈ names \/
  exists key l' sub, key ∈ names /\ obj_dict o !! key = Some (VRef l') /\
    sub ∈ keys (rec l') /\ k = key +:+ param_sep +:+ sub.
Proof.
  revert out. induction names as [|key names IH]; intros out; cbn [foldl].
  - rewrite elem_of_nil. split; [tauto |].
    intros [? | [[] | (? & ? & ? & []%elem_of_nil & _)]]; done.
  - rewrite IH, entry_keys. setoid_rewrite elem_of_cons. naive_solver.
Qed.

(** The value one round of the loop leaves under a key. *)
Lemma entry_lookup rec o out key k v :
  entry rec o out key !! k = Some v ->
  (k = key /\ v = default VNone (obj_dict o !! key)) \/
  out !! k = Some v \/
  exists l' sub, obj_dict o !! key = Some (VRef l') /\
    (sub, v) ∈ items (rec l') /\ k = key +:+ param_sep +:+ sub.
Proof.
  unfold entry. rewrite lookup_insert_dict. case_decide as Hkey.
  { intros [= <-]. by left. }
  destruct (obj_dict o !! key) as [[| | | |l']|]; cbn [default id]; auto.
  intros [Hout | (sub & Hin & ->)%elem_of_nested_items]%lookup_update_Some;
    [by auto |].
  right. right. by exists l', sub.
Qed.

Lemma entry_fold_lookup rec o names out k v :
  foldl (entry rec o) out names !! k = Some v ->
  out !! k = Some v \/
  (k ∈ names /\ v = default VNone (obj_dict o !! k)) \/
  exists key l' sub, key ∈ names /\ obj_dict o !! key = Some (VRef l') /\
    (sub, v) ∈ items (rec l') /\ k = key +:+ param_sep +:+ sub.
Proof.
  revert out. induction names as [|key names IH]; intros out; cbn [foldl];
    [by left |].
  intros [Hout | Hrest]%IH.
  - apply entry_lookup in Hout. setoid_rewrite elem_of_cons. naive_solver.
  - setoid_rewrite elem_of_cons. naive_solver.
Qed.

Lemma entry_fold_wf rec o names out :
  dict_wf out -> (forall l', dict_wf (rec l')) ->
  dict_wf (foldl (entry rec o) out names).
Proof.
  intros Hout Hrec. revert out Hout.
  induction names as [|key names IH]; intros out Hout; [done |].
  apply IH. unfold entry. apply dict_wf_insert.
  destruct (default VNone (obj_dict o !! key)); try done.
  by apply dict_wf_update.
Qed.

(** What [deep_params] computes has no key twice. *)
Lemma deep_params_wf n h l : dict_wf (deep_params n h l).
Proof.
  revert l. induction n as [|n IH]; intros l; [apply dict_wf_empty |].
  cbn [deep_params]. destruct (h !! l) as [o|]; [| apply dict_wf_empty].
  destruct (cls_is_callback _); [| apply dict_wf_empty].
  apply entry_fold_wf; [apply dict_wf_empty | done].
Qed.

(** Every entry of [deep_params] is the value at the end of a path. *)
Lemma deep_params_lookup_path n h l k v :
  deep_params n h l !! k = Some v ->
  exists path, k = join_path path /\ param_path h l path v.
Proof.
  revert l k v. induction n as [|n IH]; intros l k v; [done |].
  cbn [deep_params]. destruct (h !! l) as [o|] eqn:Hl; [| done].
  destruct (cls_is_callback _) eqn:Hcb; [| done].
  intros [Hout | [[Hk ->] | (key & l' & sub & Hkey & Hv & Hsub & ->)]]
    %entry_fold_lookup; [done | |].
  - apply elem_of_keys_public_params in Hk as [Hres [v Hv]].
    exists [k]. rewrite Hv. split; [done |]. by eapply param_here.
  - apply elem_of_keys_public_params in Hkey as [Hres _].
    apply elem_of_items in Hsub; [| apply deep_params_wf].
    destruct (IH _ _ _ Hsub) as (path & -> & Hpath).
    exists (key :: path). split.
    + symmetry. by eapply join_path_cons, param_path_nonempty.
    + by eapply param_nested.
Qed.

(** The name of every path of length at most [n] is a key of
    [deep_params n]. *)
Lemma deep_params_path_key n h l path v :
  param_path h l path v -> length path <= n ->
  join_path path ∈ keys (deep_params n h l).
Proof.
  intros Hpath. revert n.
  induction Hpath as [l o k v Hl Hcb Hres Hk
                     |l o k l' path v Hl Hcb Hres Hk Hpath IH];
    intros [|n] Hlen; simpl in Hlen; try lia;
    cbn [deep_params]; rewrite Hl, Hcb; apply entry_fold_keys; right.
  - left. apply elem_of_keys_public_params. split; [done | by eexists].
  - right. exists k, l', (join_path path). split_and!.
    + apply elem_of_keys_public_params. split; [done | by eexists].
    + done.
    + apply IH. lia.
    + by eapply join_path_cons, param_path_nonempty.
Qed.

(** *** Exact values when the names hold no separator *)

(** Joined names tell their first part. *)
Lemma joined_inj k k' sub sub' :
  joinable k -> joinable k' ->
  k +:+ param_sep +:+ sub = k' +:+ param_sep +:+ sub' -> k = k' /\ sub = sub'.
Proof.
  intros [Hr Hno] [Hr' Hno'] Heq.
  pose proof (partition_param_key k sub Hr Hno) as Hp.
  rewrite Heq, (partition_param_key k' sub' Hr' Hno') in Hp. by simplify_eq.
Qed.

Lemma joined_not_joinable k sub : ~ joinable (k +:+ param_sep +:+ sub).
Proof. intros [_ Hno]. apply Hno. by exists k, sub. Qed.

(** One round of the loop for another name leaves the entry of a joined
    name, and of a name without separator, as it is. *)
Lemma entry_lookup_other_joined rec o out key k sub :
  joinable key -> joinable k -> key <> k ->
  entry rec o out key !! (k +:+ param_sep +:+ sub) =
  out !! (k +:+ param_sep +:+ sub).
Proof.
  intros Hkey Hk Hne. unfold entry. rewrite lookup_insert_dict_ne
    by (intros ->; by apply (joined_not_joinable k sub)).
  destruct (default VNone (obj_dict o !! key)); try done.
  apply lookup_update_not_elem.
  intros (sub' & _ & Heq)%elem_of_nested_keys.
  by destruct (joined_inj _ _ _ _ Hk Hkey Heq).
Qed.

Lemma entry_lookup_other_plain rec o out key k :
  joinable k -> key <> k -> entry rec o out key !! k = out !! k.
Proof.
  intros [_ Hno] Hne. unfold entry. rewrite lookup_insert_dict_ne by done.
  destruct (default VNone (obj_dict o !! key)); try done.
  apply lookup_update_not_elem. by intros ?%nested_items_occurs.
Qed.

(** The rounds for other names leave the entry of a name without
    separator, and of a joined name, as it is. *)
Lemma entry_fold_lookup_absent rec o names out k :
  joinable k -> k ∉ names -> foldl (entry rec o) out names !! k = out !! k.
Proof.
  intros Hk. revert out. induction names as [|key names IH]; intros out;
    [done |].
  intros [Hne Hni]%not_elem_of_cons. cbn [foldl].
  by rewrite IH, entry_lookup_other_plain.
Qed.

Lemma entry_fold_lookup_absent_joined rec o names out k sub :
  joinable k -> Forall joinable names -> k ∉ names ->
  foldl (entry rec o) out names !! (k +:+ param_sep +:+ sub) =
  out !! (k +:+ param_sep +:+ sub).
Proof.
  intros Hk Hall. revert out.
  induction Hall as [|key names Hkey _ IH]; intros out; [done |].
  intros [Hne Hni]%not_elem_of_cons. cbn [foldl].
  by rewrite IH, entry_lookup_other_joined.
Qed.

(** The loop enters each name with the value of the attribute. *)
Lemma entry_fold_lookup_plain rec o names out k :
  joinable k -> k ∈ names ->
  foldl (entry rec o) out names !! k = Some (default VNone (obj_dict o !! k)).
Proof.
  intros Hk. revert out. induction names as [|key names IH]; intros out;
    [by intros ?%elem_of_nil |].
  cbn [foldl]. destruct (decide (k ∈ names)) as [Hin | Hni]; [by auto |].
  intros [-> | ?]%elem_of_cons; [| done].
  rewrite entry_fold_lookup_absent by done. apply lookup_insert_dict_eq.
Qed.

(** The loop enters the parameters of a nested object under the joined
    names. *)
Lemma entry_fold_lookup_joined rec o names out k l sub v :
  NoDup names -> Forall joinable names -> k ∈ names ->
  obj_dict o !! k = Some (VRef l) ->
  dict_wf (rec l) -> rec l !! sub = Some v ->
  foldl (entry rec o) out names !! (k +:+ param_sep +:+ sub) = Some v.
Proof.
  intros Hnd Hall Hin Hk Hwf Hsub. revert out Hnd Hin.
  induction Hall as [|key names Hkey Hall IH]; intros out;
    [by intros _ ?%elem_of_nil |].
  intros [Hni Hnd]%NoDup_cons [-> | Hin]%elem_of_cons; cbn [foldl];
    [| by apply IH].
  rewrite entry_fold_lookup_absent_joined by done. unfold entry.
  rewrite Hk. cbn [default id].
  rewrite lookup_insert_dict_ne
    by (intros Heq; apply (joined_not_joinable key sub); by rewrite <- Heq).
  by apply lookup_update_nested.
Qed.

(** The public attribute names of an object of a clean heap. *)
Lemma clean_obj_names o :
  clean_obj o ->
  NoDup (keys (public_params o)) /\ Forall joinable (keys (public_params o)).
Proof.
  intros [Hwf Hall]. split; [by apply dict_wf_filter_keys |].
  apply Forall_forall. intros k Hk. split.
  - by apply elem_of_keys_public_params in Hk as [? _].
  - by eapply Forall_forall in Hall.
Qed.

(** On a clean heap the entry under the name of a path is the value at the
    end of the path. *)
Lemma deep_params_path_value n h l path v :
  clean_heap h -> param_path h l path v -> length path <= n ->
  deep_params n h l !! join_path path = Some v.
Proof.
  intros Hclean Hpath. revert n.
  induction Hpath as [l o k v Hl Hcb Hres Hk
                     |l o k l' path v Hl Hcb Hres Hk Hpath IH];
    intros [|n] Hlen; simpl in Hlen; try lia;
    cbn [deep_params]; rewrite Hl, Hcb;
    destruct (clean_obj_names o (Hclean _ _ Hl)) as [Hnd Hall];
    assert (k ∈ keys (public_params o)) as Hin
      by (apply elem_of_keys_public_params; split; [done | by eexists]).
  - cbn [join_path]. rewrite entry_fold_lookup_plain, Hk; [done | | done].
    by eapply Forall_forall in Hall.
  - rewrite join_path_cons by (by eapply param_path_nonempty).
    eapply entry_fold_lookup_joined; try done; [apply deep_params_wf |].
    apply IH. lia.
Qed.

(** On a clean heap, what [get_params(deep=True)] returns holds the value
    at the end of every path under the name of the path. *)
Lemma call_get_params_path_value m self h vp h' path v :
  clean_heap h ->
  call_get_params (callback_methods m) self true h = (Ret vp, h') ->
  param_path h self path v -> vp !! join_path path = Some v.
Proof.
  destruct m as [|m]; [done |]. intros Hclean Hrun Hpath.
  pose proof (get_params_returned_nested _ _ _ _ _ Hrun) as Hn.
  pose proof (get_params_deep_run _ _ _ Hn) as Href.
  rewrite Hrun in Href. injection Href as -> _.
  apply deep_params_path_value; [done | done |].
  by eapply nested_within_path_length.
Qed.

(** Assigning an attribute that an object has keeps a heap clean. *)
Lemma clean_heap_insert h l o k v :
  clean_heap h -> h !! l = Some o -> k ∈ keys (obj_dict o) ->
  clean_heap (<[l := Obj (obj_class o) (<[k := v]> (obj_dict o))]> h).
Proof.
  intros Hclean Hl Hk l' o'.
  intros [[<- <-] | [_ Hl']]%lookup_insert_Some; [| by eapply Hclean].
  destruct (Hclean _ _ Hl) as [Hwf Hall]. split; cbn [obj_dict].
  - by apply dict_wf_insert.
  - unfold public_params in *. cbn [obj_dict].
    rewrite keys_filter_keys, keys_insert_elem, <- keys_filter_keys; done.
Qed.

(** When [get_params(deep=True)] has returned on a callback, it returns,
    one call deeper, on the callbacks its public attributes hold. *)
Lemma call_get_params_nested_returns d self o name l o' vp h :
  call_get_params (callback_methods (S (S d))) self true h = (Ret vp, h) ->
  h !! self = Some o -> plain_param o name ->
  obj_dict o !! name = Some (VRef l) ->
  h !! l = Some o' -> cls_is_callback (obj_class o') = true ->
  exists di, call_get_params (callback_methods (S d)) l true h = (Ret di, h).
Proof.
  intros (o1 & Hl1 & Hcb & Hrun)%call_get_params_inv Hl (Hin & Hres & _)
    Hname Hl' Hcb'. rewrite Hl in Hl1. injection Hl1 as <-.
  apply bind_ret_inv in Hrun as (names & h2 & Hnames & Hloop).
  rewrite (call_get_param_names_run _ _ _ _ Hl Hcb) in Hnames.
  injection Hnames as <- <-.
  destruct (get_params_loop_returned _ _ _ _ _ _ _ _
    (fun l d => methods_get_read_only (sep := param_sep) (P := reserved) l d)
    Hl Hloop name l) as (o2 & Hl2 & Hret);
    [| done | rewrite Hl' in Hl2; injection Hl2 as <-; auto].
  apply list_elem_of_filter. split; [by apply is_param_name_true | done].
Qed.

(** [set_params(name__k=v)] assigns [k] on the callback that [name]
    holds. *)
Lemma set_params_nested_run depth self o name l o' k v vp h :
  h !! self = Some o -> cls_is_callback (obj_class o) = true ->
  plain_param o name -> obj_dict o !! name = Some (VRef l) ->
  h !! l = Some o' -> cls_is_callback (obj_class o') = true ->
  plain_param o' k -> k <> "self" ->
  call_get_params (callback_methods (S (S (S depth)))) self true h
    = (Ret vp, h) ->
  call_set_params (callback_methods (S (S (S (S depth))))) self
    (prefixed name (Dict [(k, v)])) h =
  (Ret VNone, <[l := Obj (obj_class o') (<[k := v]> (obj_dict o'))]> h).
Proof.
  intros Hl Hcb Hname Hv Hl' Hcb' Hk Hself Hget.
  destruct (call_get_params_nested_returns _ _ _ _ _ _ _ _
              Hget Hl Hname Hv Hl' Hcb') as [di Hdi].
  rewrite (call_set_params_prefixed _ _ _ _ _ _ _ _ Hl Hcb Hget Hname Hv);
    [| apply NoDup_singleton | done].
  apply (call_set_params_plain depth l o' (Dict [(k, v)]) di h Hl' Hcb' Hdi);
    [by apply Forall_singleton | apply NoDup_singleton |].
  by intros ?%list_elem_of_singleton.
Qed.

End Paths.

(** ** Theorems *)

Section Theorems.
Implicit Types (h : heap) (self l : loc) (o : obj) (k name sub : string)
  (vp params : dict value).

(** On a callback whose nested callbacks are nested at most [n] deep,
    [get_params] returns, with or without [deep], as soon as the call depth
    exceeds [n], and leaves the heap as it is. *)
Theorem get_params_terminates n m self deep h :
  nested_within h n self -> n < m ->
  exists vp,
    call_get_params (callback_methods m) self deep h = (Ret vp, h).
Proof.
  intros [vp Hrun]%(get_params_returns _ _ _ deep) Hlt. exists vp.
  destruct (callback_methods_deeper (S n) m) as (_ & Hg & _); [lia |].
  rewrite Hg; [done |]. by rewrite Hrun.
Qed.

(** C21.  Forwarding: when the public attribute [name] of a callback holds a
    reference, [set_params] with keyword arguments [name__k = v] only, for
    the items [k = v] of a non-empty [params], does exactly what
    [set_params] with [params] does on the referenced object, one call
    deeper: the same outcome and the same final heap. *)
Theorem set_params_forwards depth self o name l params vp h :
  h !! self = Some o -> cls_is_callback (obj_class o) = true ->
  (call_get_params (callback_methods (S (S depth))) self true h).1 = Ret vp ->
  plain_param o name -> obj_dict o !! name = Some (VRef l) ->
  dict_wf params -> is_empty params = false ->
  call_set_params (callback_methods (S (S (S depth)))) self
      (prefixed name params) h =
    call_set_params (callback_methods (S (S depth))) l params h.
Proof.
  intros Hl Hcb Hget%call_get_params_fst_run Hplain Hname Hwf Hne.
  by eapply call_set_params_prefixed.
Qed.

(** C22.  A nested name on an attribute that holds no callback: when the
    public attribute [name] of a callback holds a number, a string, [None]
    or an object of a class that does not derive from [Callback],
    [set_params] with keyword arguments [name__k = v] only raises
    [AttributeError] (the value has no [set_params]) and changes nothing;
    it is not rejected as an invalid parameter. *)
Theorem set_params_nested_on_value depth self o name v params vp h :
  h !! self = Some o -> cls_is_callback (obj_class o) = true ->
  (call_get_params (callback_methods (S (S depth))) self true h).1 = Ret vp ->
  plain_param o name -> obj_dict o !! name = Some v ->
  no_callback h v = true ->
  dict_wf params -> is_empty params = false ->
  call_set_params (callback_methods (S (S (S depth)))) self
      (prefixed name params) h =
    (Raise (AttributeError "set_params"), h).
Proof.
  intros Hl Hcb Hget%call_get_params_fst_run Hplain Hname Hv Hwf Hne.
  rewrite (call_set_params_prefixed_value _ _ _ _ _ _ _ _
             Hl Hcb Hget Hplain Hname Hwf Hne).
  by apply call_set_params_no_callback.
Qed.

(** C20.  Refinement: on a callback whose nested callbacks are nested at most
    [n] deep, [get_params(deep=True)] at any call depth above [n] returns
    the dictionary that the reference definition [deep_params] computes
    from the heap, and leaves the heap as it is. *)
Theorem get_params_deep_refines n m self h :
  nested_within h n self -> n < m ->
  call_get_params (callback_methods m) self true h =
    (Ret (deep_params n h self), h).
Proof.
  intros Hrun%get_params_deep_run Hlt.
  destruct (callback_methods_deeper (S n) m) as (_ & Hg & _); [lia |].
  rewrite Hg; [done |]. by rewrite Hrun.
Qed.

(** C25.  [get_params(deep=True)] returns within call depth [n + 1]
    exactly on a callback whose public attributes refer to objects of the
    heap and whose nested callbacks are nested at most [n] deep. *)
Theorem get_params_deep_returns_iff n self h :
  (exists vp,
     call_get_params (callback_methods (S n)) self true h = (Ret vp, h)) <->
  nested_within h n self.
Proof.
  split.
  - intros [vp Hrun]. by eapply get_params_returned_nested.
  - intros Hn. eexists. by apply get_params_deep_run.
Qed.

(** Every entry of what [get_params(deep=True)] returns is a
    parameter of the callback or of a callback nested in it: its key is the
    name of a path of public attributes from the callback, through callbacks,
    and its value is the value at the end of that path. *)
Theorem get_params_deep_sound m self h vp h' k v :
  call_get_params (callback_methods m) self true h = (Ret vp, h') ->
  vp !! k = Some v ->
  exists path, k = join_path path /\ param_path h self path v.
Proof.
  destruct m as [|m]; [done |]. intros Hrun.
  pose proof (get_params_deep_run _ _ _
    (get_params_returned_nested _ _ _ _ _ Hrun)) as Href.
  rewrite Hrun in Href. injection Href as -> _.
  apply deep_params_lookup_path.
Qed.

(** Every parameter is reported: when [get_params(deep=True)] returns,
    the name of every path of public attributes from the callback, through
    callbacks, is a key of the result. *)
Theorem get_params_deep_complete m self h vp h' path v :
  call_get_params (callback_methods m) self true h = (Ret vp, h') ->
  param_path h self path v -> join_path path ∈ keys vp.
Proof.
  destruct m as [|m]; [done |]. intros Hrun Hpath.
  pose proof (get_params_returned_nested _ _ _ _ _ Hrun) as Hn.
  pose proof (get_params_deep_run _ _ _ Hn) as Href.
  rewrite Hrun in Href. injection Href as -> _.
  eapply deep_params_path_key; [done |]. by eapply nested_within_path_length.
Qed.

(** C39.  On a callback whose first attribute is public and refers to the
    callback itself, [get_params(deep=True)] raises [RecursionError] at
    every call depth, and so does [set_params] with any keywords other than
    [self], which asks [get_params(deep=True)] for the valid names first;
    both leave the heap as it is. *)
Theorem cyclic_callback_overflows m self params h :
  holds_itself h self -> is_empty params = false ->
  dict_wf params -> "self" ∉ keys params ->
  call_get_params (callback_methods m) self true h =
    (Raise RecursionError, h) /\
  call_set_params (callback_methods m) self params h =
    (Raise RecursionError, h).
Proof.
  intros (c & k & rest & Hl & Hcb & Hres) Hne Hwf Hself.
  split; [by eapply get_params_self_reference |].
  destruct m as [|m]; [done |].
  rewrite (call_set_params_run _ _ _ _ _ Hl Hcb Hwf Hself).
  unfold set_params. apply bind_run_raise.
  unfold BaseEstimator_set_params. rewrite Hne.
  apply bind_run_raise. by eapply get_params_self_reference.
Qed.

(** [set_params] reads the valid parameters once, before it assigns
    anything: [set_params(inner=cb4, inner__patience=10)] on a checkpoint
    callback assigns [inner], and then sets [patience] on the callback that
    [inner] held before the call, not on the new one. *)
Theorem set_params_nested_uses_snapshot :
  call_set_params (callback_methods 4) 2%positive
    (Dict [("inner", VRef 4%positive); ("inner__patience", VInt 10)])
    replaced_scenario =
  (Ret VNone,
   <[1%positive := Obj EarlyStop
       (Dict [("patience", VInt 10); ("counter_", VInt 0)])]>
     (<[2%positive := Obj Checkpoint
          (Dict [("monitor", VStr "loss"); ("inner", VRef 4%positive)])]>
        replaced_scenario)).
Proof. vm_compute. reflexivity. Qed.

(** Exact values: on a heap whose objects have each attribute once
    and no separator in a public attribute name, what
    [get_params(deep=True)] returns holds, under the joined names of every
    path of public attributes through nested callbacks, the value at the end
    of the path. *)
Theorem get_params_deep_value m self h vp h' path v :
  clean_heap h ->
  call_get_params (callback_methods m) self true h = (Ret vp, h') ->
  param_path h self path v -> vp !! join_path path = Some v.
Proof. apply call_get_params_path_value. Qed.

(** C26.  Round trip through a nested callback: after
    [set_params(name__k=v)], where the public attribute [name] of the
    callback holds another callback of which [k] is a public attribute
    other than [self], what [get_params(deep=True)] returns holds [v] under
    [name__k]. *)
Theorem set_params_nested_get_params depth m self o name l o' k v vp vp' h :
  clean_heap h ->
  h !! self = Some o -> cls_is_callback (obj_class o) = true ->
  plain_param o name -> obj_dict o !! name = Some (VRef l) -> l <> self ->
  h !! l = Some o' -> cls_is_callback (obj_class o') = true ->
  plain_param o' k -> k <> "self" ->
  (call_get_params (callback_methods (S (S (S depth)))) self true h).1
    = Ret vp ->
  call_get_params (callback_methods m) self true
    (call_set_params (callback_methods (S (S (S (S depth))))) self
       (prefixed name (Dict [(k, v)])) h).2
    = (Ret vp', (call_set_params (callback_methods (S (S (S (S depth))))) self
                   (prefixed name (Dict [(k, v)])) h).2) ->
  vp' !! (name +:+ param_sep +:+ k) = Some v.
Proof.
  intros Hclean Hl Hcb Hname Hv Hne Hl' Hcb' Hk Hself
    Hget%call_get_params_fst_run.
  rewrite (set_params_nested_run _ _ _ _ _ _ _ _ _ _
             Hl Hcb Hname Hv Hl' Hcb' Hk Hself Hget).
  cbn [snd]. intros Hget'.
  apply (call_get_params_path_value _ _ _ _ _ [name; k] v
           (clean_heap_insert _ _ _ _ _ Hclean Hl' (proj1 Hk)) Hget').
  destruct Hname as (_ & Hres & _), Hk as (_ & Hres' & _).
  eapply param_nested;
    [by rewrite lookup_insert_ne | done | done | done |].
  eapply param_here; [apply lookup_insert_eq | done | done |].
  apply lookup_insert_dict_eq.
Qed.

End Theorems.

(** ** The theorems on the scenarios *)

Section Witnesses.

(** The early-stopping callback holds no callback: nesting depth 1. *)
Lemma scenario_nested_within : nested_within scenario 1 1%positive.
Proof.
  apply (nested_within_intro scenario 0 1%positive early_stop);
    [reflexivity | reflexivity | |];
    intros k l'; intros; simpl in *;
    unfold lookup, dict_lookup in *; simpl in *;
    repeat case_decide; simplify_eq.
Defined.

Lemma get_params_terminates_witness :
  exists vp,
    call_get_params (callback_methods 2) 1%positive true scenario =
      (Ret vp, scenario).
Proof.
  apply (get_params_terminates 1 2 1%positive true scenario).
  - exact scenario_nested_within.
  - by_compute.
Defined.

(** [set_params(patience__x=1)] on the early-stopping callback. *)
Lemma set_params_nested_on_value_witness :
  call_set_params (callback_methods 3) 1%positive
    (prefixed "patience" (Dict [("x", VInt 1)])) scenario =
    (Raise (AttributeError "set_params"), scenario).
Proof.
  apply (set_params_nested_on_value 0 1%positive early_stop "patience"
           (VInt 5) (Dict [("x", VInt 1)]) (Dict [("patience", VInt 5)])
           scenario); try reflexivity; by_compute.
Defined.

(** [set_params(inner__patience=10)] on a checkpoint callback is
    [set_params(patience=10)] on its early-stopping callback. *)
Lemma set_params_forwards_witness :
  call_set_params (callback_methods 4) 2%positive
    (prefixed "inner" (Dict [("patience", VInt 10)])) shared_scenario =
  call_set_params (callback_methods 3) 1%positive
    (Dict [("patience", VInt 10)]) shared_scenario.
Proof.
  apply (set_params_forwards 1 2%positive checkpoint "inner" 1%positive
           (Dict [("patience", VInt 10)]) checkpoint_params shared_scenario).
  - reflexivity.
  - reflexivity.
  - vm_compute. reflexivity.
  - by_compute.
  - reflexivity.
  - by_compute.
  - reflexivity.
Defined.

(** The checkpoint callbacks hold a callback that holds none: nesting
    depth 2. *)
Lemma shared_scenario_nested_within :
  nested_within shared_scenario 2 2%positive.
Proof.
  apply (nested_within_intro _ 1 2%positive checkpoint);
    [reflexivity | reflexivity | |];
    intros k l'; intros; simpl in *;
    unfold lookup, dict_lookup in *; simpl in *;
    repeat case_decide; simplify_eq; [by eexists |].
  apply (nested_within_intro _ 0 1%positive early_stop);
    [reflexivity | reflexivity | |];
    intros k l'; intros; simpl in *;
    unfold lookup, dict_lookup in *; simpl in *;
    repeat case_decide; simplify_eq.
Defined.

Lemma get_params_deep_refines_witness :
  call_get_params (callback_methods 3) 2%positive true shared_scenario =
    (Ret (deep_params 2 shared_scenario 2%positive), shared_scenario).
Proof.
  apply (get_params_deep_refines 2 3 2%positive shared_scenario).
  - exact shared_scenario_nested_within.
  - by_compute.
Defined.

(** The entry [inner__patience] is the parameter [patience] of the callback
    in the parameter [inner]. *)
Lemma get_params_deep_sound_witness :
  exists path,
    "inner__patience" = join_path path /\
    param_path shared_scenario 2%positive path (VInt 5).
Proof.
  apply (get_params_deep_sound 3 2%positive shared_scenario
           checkpoint_params shared_scenario "inner__patience" (VInt 5)).
  - vm_compute. reflexivity.
  - reflexivity.
Defined.

Lemma get_params_deep_complete_witness :
  join_path ["inner"; "patience"] ∈ keys checkpoint_params.
Proof.
  apply (get_params_deep_complete 3 2%positive shared_scenario
           checkpoint_params shared_scenario ["inner"; "patience"] (VInt 5)).
  - vm_compute. reflexivity.
  - apply (param_nested _ 2%positive checkpoint "inner" 1%positive);
      [reflexivity | reflexivity | reflexivity | reflexivity |].
    by apply (param_here _ 1%positive early_stop "patience").
Defined.

(** [get_params(deep=True)] on the callback that holds itself, at the call
    depth of CPython's default recursion limit. *)
Lemma cyclic_callback_overflows_witness :
  call_get_params (callback_methods 1000) 1%positive true cyclic =
    (Raise RecursionError, cyclic) /\
  call_set_params (callback_methods 1000) 1%positive
    (Dict [("next", VNone)]) cyclic = (Raise RecursionError, cyclic).
Proof.
  apply (cyclic_callback_overflows 1000 1%positive
           (Dict [("next", VNone)]) cyclic);
    [| reflexivity | by_compute | by_compute].
  by exists Callback, "next", [].
Defined.

Lemma shared_scenario_clean : clean_heap shared_scenario.
Proof.
  intros l o Hl.
  assert (o = checkpoint \/ o = early_stop) as [-> | ->].
  { unfold shared_scenario, scenario in Hl.
    repeat (apply lookup_insert_Some in Hl as [[_ <-] | [_ Hl]]; [by left |]).
    apply lookup_singleton_Some in Hl as [_ <-]. by right. }
  all: split; by_compute.
Defined.

Lemma get_params_deep_value_witness :
  checkpoint_params !! join_path ["inner"; "patience"] = Some (VInt 5).
Proof.
  apply (get_params_deep_value 3 2%positive shared_scenario
           checkpoint_params shared_scenario ["inner"; "patience"] (VInt 5)).
  - exact shared_scenario_clean.
  - vm_compute. reflexivity.
  - apply (param_nested _ 2%positive checkpoint "inner" 1%positive);
      [reflexivity | reflexivity | reflexivity | reflexivity |].
    by apply (param_here _ 1%positive early_stop "patience").
Defined.

(** [set_params(inner__patience=10)] on a checkpoint callback, then
    [get_params(deep=True)]. *)
Lemma set_params_nested_get_params_witness :
  Dict [("monitor", VStr "loss"); ("inner__patience", VInt 10);
        ("inner", VRef 1%positive)]
    !! ("inner" +:+ param_sep +:+ "patience") = Some (VInt 10).
Proof.
  apply (set_params_nested_get_params 0 3 2%positive checkpoint "inner"
           1%positive early_stop "patience" (VInt 10) checkpoint_params
           (Dict [("monitor", VStr "loss"); ("inner__patience", VInt 10);
                  ("inner", VRef 1%positive)]) shared_scenario).
  - exact shared_scenario_clean.
  - reflexivity.
  - reflexivity.
  - by_compute.
  - reflexivity.
  - discriminate.
  - reflexivity.
  - reflexivity.
  - by_compute.
  - discriminate.
  - vm_compute. reflexivity.
  - vm_compute. reflexivity.
Defined.

End Witnesses.
