(* ===== verification/Releases.v ===== *)
(** * Releases: [set_params] under two releases of its delegate

    [Callback.set_params] is one line, [BaseEstimator.set_params(self,
    ...)] (base.py, line 69): what it does is what the installed release of
    scikit-learn does.  [Estimator] models the method as the releases of
    the time of base.py have it: the valid parameters are read once, and
    the nested parameters go to the objects that were read.  Later
    releases add one statement to the loop, [valid_params[key] = value]
    after [setattr(self, key, value)], so that the nested parameters of a
    name that the same call assigns go to the object assigned.

    - [set_params_loop_recording] and [BaseEstimator_set_params_recording]
      are the loop and the method with that statement, and
      [set_params_recording] is line 69 on them;
    - [unambiguous] says of the parameters of a call that no name is both
      assigned and the prefix of a nested name.

    The theorems show that the two releases agree on every call whose
    parameters are unambiguous, in outcome and heap ([recording_agrees]),
    at every receiver and whatever the dispatched calls do, and that they
    differ on the call that replaces a nested callback and sets one of its
    parameters ([recording_forwards_to_new], beside
    [set_params_nested_uses_snapshot] of [Nested]). *)

From stdpp Require Import base tactics option list strings gmap.
From S2P Require Import Prelude PyStr PyDict PyObject PyCall Estimator Callback.
From S2P Require Import Nested.

#[local] Open Scope py_scope.

(** ** Definitions *)

Section Recording.
Context (sep : string) (vt : methods).

(** The loop of [set_params] over the given parameters, with the
    statement that records an assigned value among the valid parameters;
    it returns the valid parameters beside what it collected. *)
Fixpoint set_params_loop_recording (self : loc) (valid_params : dict value)
    (params : list (string * value)) (nested : dict (dict value))
    : M heap (dict value * dict (dict value)) :=
  match params with
  | [] => ret (valid_params, nested)
  | (key, v) :: params' =>
      let '(name, delim, sub_key) := partition key sep in
      if contains name valid_params then
        if decide (delim = "") then
          let! _ := setattr self name v in
          set_params_loop_recording self (<[name := v]> valid_params) params'
            nested
        else
          set_params_loop_recording self valid_params params'
            (add_nested name sub_key v nested)
      else raise (ValueError name)
  end.

Definition BaseEstimator_set_params_recording (self : loc)
    (params : dict value) : M heap value :=
  if is_empty params then ret (VRef self)
  else
    let! valid_params := call_get_params vt self true in
    let! r := set_params_loop_recording self valid_params (items params) ∅ in
    let! _ := set_nested_loop vt r.1 (items r.2) in
    ret (VRef self).

(** No name is both assigned and the prefix of a nested name. *)
Definition unambiguous (params : list (string * value)) : Prop :=
  Forall (fun kv =>
            is_plain sep kv.1 = false ->
            (partition kv.1 sep).1.1 ∉ (plain_part sep params).*1) params.

#[export] Instance unambiguous_dec params : Decision (unambiguous params).
Proof. unfold unambiguous. apply _. Defined.

End Recording.

(** Line 69 on the later release of the delegate. *)
Definition set_params_recording (vt : methods) (self : loc)
    (params : dict value) : M heap value :=
  let! _ := BaseEstimator_set_params_recording param_sep vt self params in
  ret VNone.

(** ** The two loops *)

Section Loops.
Context (sep : string) (vt : methods) (Hsep : sep <> "").
Implicit Types (h : heap) (self : loc) (vp : dict value)
  (params : list (string * value)) (nested : dict (dict value)).

(** The first loop looks at the valid parameters through their names
    only. *)
Lemma set_params_loop_ext self vp vp' params nested h :
  (forall k, contains k vp = contains k vp') ->
  set_params_loop sep self vp params nested h =
  set_params_loop sep self vp' params nested h.
Proof.
  intros Hc. revert nested h.
  induction params as [|[key v] params IH]; intros nested h; [done |].
  cbn [set_params_loop]. destruct (partition key sep) as [[name delim] sub].
  rewrite <- Hc. destruct (contains name vp); [| done].
  case_decide; [| apply IH]. unfold bind.
  destruct (setattr self name v h) as [[[]|e] h1]; [apply IH | done].
Qed.

(** What the first loop returns is the nested part of the parameters. *)
Lemma set_params_loop_nested_part self vp params nested h n h' :
  set_params_loop sep self vp params nested h = (Ret n, h') ->
  n = nested_part sep params nested.
Proof.
  revert nested h.
  induction params as [|[key v] params IH]; intros nested h;
    [by intros [= <- _] |].
  cbn [set_params_loop]. unfold nested_part, is_plain. cbn [foldl fst snd].
  destruct (partition key sep) as [[name delim] sub]. cbn [fst snd].
  destruct (contains name vp); [| done]. unfold bind.
  destruct (decide (delim = "")) as [-> | Hd].
  - rewrite bool_decide_eq_true_2 by done.
    destruct (setattr self name v h) as [[[]|e] h1]; [apply IH | done].
  - rewrite bool_decide_eq_false_2 by done. apply IH.
Qed.

(** Assigning a valid name keeps the names valid. *)
Lemma contains_insert_valid vp name v k :
  contains name vp = true ->
  contains k (<[name := v]> vp) = contains k vp.
Proof.
  intros Hn%contains_true%lookup_dict_is_Some. unfold contains.
  apply bool_decide_ext. by rewrite keys_insert_elem.
Qed.

(** The loop that records does what the loop does, and returns the valid
    parameters updated with the parameters it assigned. *)
Lemma set_params_loop_recording_run self vp params nested h :
  set_params_loop_recording sep self vp params nested h =
    let r := set_params_loop sep self vp params nested h in
    (outcome_map (fun n => (update vp (plain_part sep params), n)) r.1, r.2).
Proof.
  revert vp nested h.
  induction params as [|[key v] params IH]; intros vp nested h; [done |].
  cbn [set_params_loop_recording set_params_loop]. unfold plain_part, is_plain.
  rewrite filter_cons. cbn [fst].
  destruct (partition key sep) as [[name delim] sub] eqn:Hpart. cbn [fst snd].
  destruct (contains name vp) eqn:Hc; [| done].
  destruct (decide (delim = "")) as [-> | Hd].
  - assert (name = key) as ->.
    { pose proof (partition_not_found key sep) as Hnf. rewrite Hpart in Hnf.
      by injection (Hnf eq_refl Hsep). }
    rewrite bool_decide_eq_true_2, decide_True by done. unfold bind.
    destruct (setattr self key v h) as [[[]|e] h1]; [| done].
    rewrite IH, update_cons. cbn zeta.
    by rewrite (set_params_loop_ext self (<[key := v]> vp) vp)
      by (intros k; by apply contains_insert_valid).
  - rewrite bool_decide_eq_false_2, decide_False by done. apply IH.
Qed.

(** The second loop looks at the valid parameters under the names it
    forwards only. *)
Lemma set_nested_loop_ext vp vp' (groups : list (string * dict value)) h :
  Forall (fun ns => vp !! ns.1 = vp' !! ns.1) groups ->
  set_nested_loop vt vp groups h = set_nested_loop vt vp' groups h.
Proof.
  intros Hall. revert h.
  induction Hall as [|[key sub] groups Hk _ IH]; intros h; [done |].
  cbn [set_nested_loop]. cbn [fst] in Hk. rewrite Hk. unfold bind.
  destruct (lift_option (vp' !! key) (KeyError key) h) as [[target|e] h1];
    [| done].
  destruct (receiver target "set_params" h1) as [[l|e] h2]; [| done].
  destruct (call_set_params vt l sub h2) as [[?|e] h3]; [apply IH | done].
Qed.

(** On unambiguous parameters, none of the names collected is assigned. *)
Lemma unambiguous_groups params :
  unambiguous sep params ->
  Forall (fun ns => ns.1 ∉ (plain_part sep params).*1)
    (items (nested_part sep params ∅)).
Proof.
  intros Hun.
  apply (nested_part_groups sep
           (fun name _ => name ∉ (plain_part sep params).*1)); [| done].
  eapply Forall_impl; [exact Hun |]. intros kv Hkv Hplain sub _. auto.
Qed.

(** The two releases of the delegate agree on unambiguous parameters. *)
Lemma BaseEstimator_set_params_recording_agrees self (params : dict value) h :
  unambiguous sep (items params) ->
  BaseEstimator_set_params_recording sep vt self params h =
  BaseEstimator_set_params sep vt self params h.
Proof.
  intros Hun.
  unfold BaseEstimator_set_params_recording, BaseEstimator_set_params.
  destruct (is_empty params); [done |]. unfold bind.
  destruct (call_get_params vt self true h) as [[vp|e] h1]; [| done].
  rewrite set_params_loop_recording_run. cbn zeta.
  pose proof (set_params_loop_nested_part self vp (items params) ∅ h1) as Hn.
  destruct (set_params_loop sep self vp (items params) ∅ h1)
    as [[n|e] h2]; [| done].
  cbn [outcome_map fst snd]. rewrite (Hn n h2 eq_refl).
  rewrite (set_nested_loop_ext _ vp); [done |].
  eapply Forall_impl; [by apply unambiguous_groups |]. intros ns Hns.
  by apply lookup_update_not_elem.
Qed.

End Loops.

(** ** Theorems *)

Section Theorems.

(** C24.  The two releases of the delegate agree: on a call whose
    parameters hold no name that is both assigned and the prefix of a
    nested name, [set_params] has the same outcome and leaves the same
    heap whether or not the delegate records assigned values among the
    valid parameters, at every receiver and whatever the dispatched calls
    do. *)
Theorem recording_agrees vt self params h :
  unambiguous param_sep (items params) ->
  set_params_recording vt self params h = set_params vt self params h.
Proof.
  intros Hun. unfold set_params_recording, set_params, bind.
  by rewrite (BaseEstimator_set_params_recording_agrees _ vt
                param_sep_nonempty self params h Hun).
Qed.

(** They differ when a call replaces a nested callback and sets one of
    its parameters: with the recording delegate the parameter is set on
    the new callback, at address 4, and the callback that was replaced, at
    address 1, keeps its value. *)
Theorem recording_forwards_to_new :
  set_params_recording (callback_methods 3) 2%positive
    (Dict [("inner", VRef 4%positive); ("inner__patience", VInt 10)])
    replaced_scenario =
  (Ret VNone,
   <[4%positive := Obj EarlyStop
       (Dict [("patience", VInt 10); ("counter_", VInt 0)])]>
     (<[2%positive := Obj Checkpoint
          (Dict [("monitor", VStr "loss"); ("inner", VRef 4%positive)])]>
        replaced_scenario)).
Proof. vm_compute. reflexivity. Qed.

End Theorems.

(** ** The theorems on the scenario *)

Section Witnesses.

Lemma recording_agrees_witness :
  set_params_recording (callback_methods 3) 2%positive
    (Dict [("monitor", VStr "acc"); ("inner__patience", VInt 10)])
    shared_scenario =
  set_params (callback_methods 3) 2%positive
    (Dict [("monitor", VStr "acc"); ("inner__patience", VInt 10)])
    shared_scenario.
Proof.
  apply (recording_agrees (callback_methods 3) 2%positive
           (Dict [("monitor", VStr "acc"); ("inner__patience", VInt 10)])
           shared_scenario).
  by_compute.
Defined.

End Witnesses.
