(* ===== verification/Invariance.v ===== *)
(** * Invariance: [set_params] with the current values changes nothing

    [set_params] validates the given names against [get_params(deep=True)],
    assigns the names without separator on the instance and forwards the
    others to the nested callbacks.  When every given value is the value
    the parameter has, each assignment writes what is there and each
    forwarded call does the same one level down, so the call changes
    nothing: giving back to [set_params] what [get_params] returned is
    safe, the invariance that users of the estimator convention rely on.

    - [current h l params] says that each item of [params] names a path of
      public attributes from the callback at [l], through nested
      callbacks, and gives the value at its end;
    - [no_self h] says that no object has an attribute named [self], which
      [set_params(self, **params)] cannot take as a keyword.

    The theorems show, on a heap whose objects have each attribute once
    and no separator in a public name, and for a callback whose nesting is
    within the call depth, that [set_params] with current values returns
    [None] and leaves the heap as it is ([set_params_current]), and that
    this holds of what [get_params] returned, with or without [deep]
    ([get_params_set_params]). *)

From stdpp Require Import base tactics option list strings gmap.
From S2P Require Import Prelude PyStr PyDict PyObject PyCall Estimator Callback.
From S2P Require Import Nested.

#[local] Set Warnings "-clear-no-such-hyp".

(** ** Definitions *)

(** Each item of [params] is a parameter of the callback at [l], under its
    joined name, with the value it has. *)
Definition current (h : heap) (l : loc) (params : dict value) : Prop :=
  Forall (fun kv => exists path,
            kv.1 = join_path path /\ param_path h l path kv.2)
         (items params).

(** No object has an attribute named [self]. *)
Definition no_self (h : heap) : Prop :=
  map_Forall (fun _ o => "self" ∉ keys (obj_dict o)) h.

(** What [set_params] collects under a name when the values are current:
    parameters, with their values, of the callback that the attribute of
    that name holds. *)
Definition group (h : heap) (o : obj) (name : string) (sub : dict value)
    : Prop :=
  dict_wf sub /\ items sub <> [] /\
  exists l', plain_param o name /\ obj_dict o !! name = Some (VRef l') /\
             current h l' sub.

(** ** The parameters that are current *)

Section Current.
Context (h : heap) (Hclean : clean_heap h) (Hno : no_self h).
Implicit Types (l self : loc) (o : obj) (k key name : string) (v : value)
  (path : list string) (params sub : dict value).

Lemma public_plain_param l o k v :
  h !! l = Some o -> reserved k = false -> obj_dict o !! k = Some v ->
  plain_param o k.
Proof.
  intros Hl Hres Hk. assert (k ∈ keys (public_params o)) as Hin.
  { by apply elem_of_keys_public_params. }
  split_and!; [by apply lookup_dict_is_Some | done |].
  destruct (Hclean l o Hl) as [_ Hall]. by eapply Forall_forall in Hall.
Qed.

(** The name of a path names an attribute of the instance, or splits at
    its first separator into an attribute that holds a callback and the
    name of a path from that callback. *)
Lemma param_path_cases l o path v :
  h !! l = Some o -> param_path h l path v ->
  (plain_param o (join_path path) /\
   obj_dict o !! join_path path = Some v /\
   partition (join_path path) param_sep = (join_path path, "", "")) \/
  (exists k l' rest,
     plain_param o k /\ obj_dict o !! k = Some (VRef l') /\
     param_path h l' rest v /\
     partition (join_path path) param_sep = (k, param_sep, join_path rest)).
Proof.
  intros Hl Hpath.
  destruct Hpath
    as [l o' k v Hl' Hcb Hres Hk|l o' k l' rest v Hl' Hcb Hres Hk Hr];
    simplify_eq; pose proof (public_plain_param _ _ _ _ Hl Hres Hk) as Hp.
  - left. cbn [join_path]. split_and!; [done.. |].
    apply partition_not_found; [| apply param_sep_nonempty].
    apply partition_delim_nil_iff; [apply param_sep_nonempty | apply Hp].
  - right. exists k, l', rest.
    rewrite join_path_cons by (by eapply param_path_nonempty).
    split_and!; [done.. |]. apply partition_param_key; [done | apply Hp].
Qed.

Lemma current_not_self l o params :
  h !! l = Some o -> current h l params -> "self" ∉ keys params.
Proof.
  intros Hl Hcur ([k v] & Heq & Hin)%list_elem_of_fmap. cbn [fst] in Heq.
  unfold current in Hcur. rewrite Forall_forall in Hcur.
  destruct (Hcur _ Hin) as (path & Hk & Hpath). cbn [fst snd] in Hk, Hpath.
  destruct (param_path_cases _ _ _ _ Hl Hpath)
    as [([Hself _] & _) | (k' & l' & rest & _ & _ & _ & Hpart)];
    rewrite <- Hk, <- Heq in *.
  - by apply (Hno l o).
  - vm_compute in Hpart. discriminate.
Qed.

Section Instance.
Context (depth : nat) (self : loc) (o : obj) (vp : dict value).
Context (Hl : h !! self = Some o)
  (Hcb : cls_is_callback (obj_class o) = true).
Context (Hget :
  call_get_params (callback_methods (S (S depth))) self true h = (Ret vp, h)).

Lemma plain_param_lookup k :
  plain_param o k -> vp !! k = Some (default VNone (obj_dict o !! k)).
Proof. by apply (get_params_plain_lookup depth self o true vp h). Qed.

(** Every name that is current is valid. *)
Lemma current_valid params :
  current h self params ->
  Forall (fun k => contains (partition k param_sep).1.1 vp = true)
         (keys params).
Proof.
  intros Hcur. unfold keys. rewrite Forall_fmap.
  eapply Forall_impl; [exact Hcur |].
  intros [k v] (path & Hk & Hpath). cbn [fst snd compose] in *. subst k.
  apply contains_true.
  destruct (param_path_cases _ _ _ _ Hl Hpath)
    as [(Hp & _ & ->) | (k' & l' & rest & Hp & _ & _ & ->)];
    cbn [fst]; by rewrite (plain_param_lookup _ Hp).
Qed.

(** The names without separator are assigned the value they have. *)
Lemma current_plain_part params :
  current h self params ->
  update (obj_dict o) (plain_part param_sep (items params)) = obj_dict o.
Proof.
  intros Hcur. apply update_id. apply Forall_forall.
  intros [k v] [Hplain Hin]%list_elem_of_filter. cbn [fst snd] in *.
  unfold current in Hcur. rewrite Forall_forall in Hcur.
  destruct (Hcur _ Hin) as (path & Hk & Hpath). cbn [fst snd] in Hk, Hpath.
  subst k. destruct (param_path_cases _ _ _ _ Hl Hpath)
    as [(_ & Hk & _) | (k' & l' & rest & _ & _ & _ & Hpart)]; [done |].
  unfold is_plain in Hplain. rewrite Hpart in Hplain.
  by apply bool_decide_eq_true in Hplain.
Qed.

Lemma current_groups params :
  current h self params ->
  Forall (fun ns => group h o ns.1 ns.2)
         (items (nested_part param_sep (items params) ∅)).
Proof.
  intros Hcur. apply nested_part_groups; [| done].
  eapply Forall_impl; [exact Hcur |].
  intros [k v] (path & Hk & Hpath) Hplain sub Hsub. cbn [fst snd] in *.
  subst k. destruct (param_path_cases _ _ _ _ Hl Hpath)
    as [(_ & _ & Hpart) | (k' & l' & rest & Hp & Hk & Hrest & Hpart)];
    unfold is_plain in Hplain; rewrite Hpart in Hplain, Hsub |- *;
    [by apply bool_decide_eq_false in Hplain |]. cbn [fst snd] in *.
  split_and!.
  - destruct Hsub as [-> | [? _]]; auto with py.
  - intros Hnil.
    pose proof (lookup_insert_dict_eq sub (join_path rest) v) as He.
    apply lookup_dict_Some_elem in He. rewrite Hnil in He. by inversion He.
  - exists l'. split_and!; [done.. |]. apply Forall_forall.
    intros kv [-> | Hin]%elem_of_items_insert; [by exists rest |].
    destruct Hsub as [-> | (_ & _ & l'' & _ & Hk' & Hcur')];
      [by inversion Hin |].
    unfold current in Hcur'. rewrite Forall_forall in Hcur'.
    replace l' with l'' by congruence. by apply Hcur'.
Qed.

End Instance.

(** One level of nesting: [set_params] with current values changes nothing
    when the forwarded calls change nothing. *)
Lemma set_params_current_step n self params :
  (forall l sub,
     nested_within h n l -> dict_wf sub -> current h l sub ->
     call_set_params (callback_methods (S (S n))) l sub h = (Ret VNone, h)) ->
  nested_within h (S n) self -> dict_wf params -> current h self params ->
  call_set_params (callback_methods (S (S (S n)))) self params h =
    (Ret VNone, h).
Proof.
  intros IH Hn Hwf Hcur. pose proof (get_params_deep_run _ _ _ Hn) as Hget.
  inversion Hn as [? ? o Hl Hcb Hrefs Hnested]; subst.
  rewrite (call_set_params_run _ _ _ _ _ Hl Hcb Hwf
             (current_not_self _ _ _ Hl Hcur)).
  unfold set_params. destruct (is_empty params) eqn:Hemp.
  { unfold BaseEstimator_set_params. by rewrite Hemp. }
  erewrite bind_run_ret; [reflexivity |].
  rewrite (BaseEstimator_set_params_phases param_sep _ param_sep_nonempty
             self _ o params h Hl Hget) by eauto using current_valid.
  rewrite current_plain_part with (self := self) by done.
  destruct o as [c d]. cbn [obj_class obj_dict].
  rewrite insert_id by done. erewrite bind_run_ret; [reflexivity |].
  apply set_nested_loop_id.
  eapply Forall_impl; [by eapply current_groups |].
  intros [name sub] (Hwf' & Hne & l' & Hp & Hk & Hcur'). cbn [fst snd] in *.
  exists l', VNone. split.
  - by rewrite (plain_param_lookup n self _ _ Hl Hcb Hget _ Hp), Hk.
  - apply IH; [| done..]. destruct (items sub) as [|[k v] rest] eqn:Hitems;
      [done |]. unfold current in Hcur'. rewrite Hitems in Hcur'.
    apply Forall_inv in Hcur' as (path & _ & Hpath).
    destruct (param_path_callback _ _ _ _ Hpath) as (o' & Hl' & Hcb').
    apply (Hnested name l' o'); [apply Hp | done..].
Qed.

(** [set_params] with current values returns [None] and changes nothing. *)
Lemma call_set_params_current n self params :
  nested_within h n self -> dict_wf params -> current h self params ->
  call_set_params (callback_methods (S (S n))) self params h = (Ret VNone, h).
Proof.
  revert self params. induction n as [|n IH]; intros self params Hn;
    [inversion Hn | by apply set_params_current_step].
Qed.

(** What [get_params] returns is current. *)
Lemma deep_params_current n l : current h l (deep_params n h l).
Proof.
  apply Forall_forall. intros [k v] Hin. cbn [fst snd].
  apply (deep_params_lookup_path n), elem_of_items;
    [apply deep_params_wf | done].
Qed.

Lemma public_params_current l o :
  h !! l = Some o -> cls_is_callback (obj_class o) = true ->
  current h l (public_params o).
Proof.
  intros Hl Hcb. destruct (Hclean l o Hl) as [Hwf _].
  apply Forall_forall. intros [k v] Hin. cbn [fst snd]. exists [k].
  apply elem_of_items in Hin; [| by apply dict_wf_filter_keys].
  unfold public_params in Hin. rewrite lookup_filter_keys in Hin.
  destruct (reserved k) eqn:Hres; [done |]. split; [done |].
  by eapply param_here.
Qed.

End Current.

(** ** Theorems *)

Section Theorems.
Implicit Types (h : heap) (self : loc) (params vp : dict value).

(** [set_params] with the current values changes nothing: on a heap
    whose objects have each attribute once, no separator in a public name
    and no attribute named [self], when every given name is the joined
    name of a path of public attributes from the callback through nested
    callbacks and every given value the value at the end of that path,
    [set_params] returns [None] and leaves the heap as it is, whatever the
    number and the order of the parameters, at every call depth above the
    depth of the nesting. *)
Theorem set_params_current n m self params h :
  clean_heap h -> no_self h -> nested_within h n self -> S (S n) <= m ->
  dict_wf params -> current h self params ->
  call_set_params (callback_methods m) self params h = (Ret VNone, h).
Proof.
  intros Hclean Hno Hn Hm Hwf Hcur.
  pose proof (call_set_params_current h Hclean Hno n self params Hn Hwf Hcur)
    as Hrun.
  destruct (callback_methods_deeper _ _ Hm) as (_ & _ & Hs).
  rewrite (Hs self params h); [done | by rewrite Hrun].
Qed.

(** C9.  What [get_params] returned can be given back: on such a heap,
    [set_params] with the dictionary that [get_params] returned, with or
    without [deep], returns [None] and leaves the heap as it is. *)
Theorem get_params_set_params n m self deep vp h :
  clean_heap h -> no_self h -> nested_within h n self -> S n <= m ->
  (call_get_params (callback_methods m) self deep h).1 = Ret vp ->
  call_set_params (callback_methods (S m)) self vp h = (Ret VNone, h).
Proof.
  intros Hclean Hno Hn Hm Hget.
  destruct (callback_methods_deeper _ _ (le_n_S _ _ Hm)) as (_ & _ & Hs).
  assert (dict_wf vp /\ current h self vp) as [Hwf Hcur].
  { destruct deep; [| inversion Hn as [n' ? o Hl Hcb _ _]; subst].
    - destruct (callback_methods_deeper _ _ Hm) as (_ & Hg & _).
      rewrite (Hg self true h) in Hget
        by (by rewrite (get_params_deep_run _ _ _ Hn)).
      rewrite (get_params_deep_run _ _ _ Hn) in Hget.
      injection Hget as <-.
      split; [apply deep_params_wf | by apply deep_params_current].
    - destruct m as [|[|m]]; [lia.. |]. destruct (Hclean self o Hl) as [Hwf _].
      rewrite (call_get_params_run _ _ _ _ _ Hl Hcb),
        (get_params_flat_run _ _ _ _ _ Hl Hcb Hwf) in Hget by done.
      injection Hget as <-.
      split; [by apply dict_wf_filter_keys | by apply public_params_current]. }
  rewrite (Hs self vp h);
    by rewrite (call_set_params_current h Hclean Hno _ self vp Hn Hwf Hcur).
Qed.

End Theorems.

(** ** The theorems on the scenario *)

Section Witnesses.

Lemma shared_scenario_no_self : no_self shared_scenario.
Proof. by_compute. Defined.

(** [set_params(inner__patience=5, monitor='loss')] on a checkpoint
    callback of the shared scenario. *)
Lemma set_params_current_witness :
  call_set_params (callback_methods 4) 2%positive
    (Dict [("inner__patience", VInt 5); ("monitor", VStr "loss")])
    shared_scenario = (Ret VNone, shared_scenario).
Proof.
  apply (set_params_current 2 4 2%positive _ shared_scenario
           shared_scenario_clean shared_scenario_no_self
           shared_scenario_nested_within); [lia | by_compute |].
  repeat constructor.
  - exists ["inner"; "patience"]. split; [done |].
    eapply param_nested; [done.. |]. by eapply param_here.
  - exists ["monitor"]. split; [done |]. by eapply param_here.
Defined.

Lemma get_params_set_params_witness :
  call_set_params (callback_methods 4) 2%positive checkpoint_params
    shared_scenario = (Ret VNone, shared_scenario).
Proof.
  apply (get_params_set_params 2 3 2%positive true checkpoint_params
           shared_scenario shared_scenario_clean shared_scenario_no_self
           shared_scenario_nested_within); [lia | by vm_compute].
Defined.

End Witnesses.
