(* ===== verification/Reflect.v ===== *)
(** * Reflect: subclasses that override [_get_param_names]

    "Classes that inherit from this also gain the [get_params] and
    [set_params] method" (base.py, lines 17-18): both reach the parameters
    through [self._get_param_names()], so a subclass that overrides this
    method changes what its instances report and accept as parameters.
    base.py defines no such subclass: this file is a model of the
    overrides the docstring allows, on the model of [BaseEstimator] of
    [Estimator].

    - [names_table] records the classes that override
      [_get_param_names], and with what body; [class_methods] is the table
      of the dispatched calls on instances of these classes;
    - [NamesOk] is the contract on the overriding bodies (they only read,
      they yield public attributes of the instance, and what they yield
      depends on the instance alone) under which [class_methods]
      satisfies the contract [MethodsOk] of the accessors, so that the
      lemmas of [Estimator] apply to subclasses;
    - [without excluded] is the override that yields the inherited names
      but some, and [scenario_names] a class that uses it.

    The theorems show that a program without overrides has the table of
    [Callback], that the frame of the reflection holds for every subclass
    within the contract and may fail outside it, and that an excluded
    attribute is no parameter.
    An overriding body runs in the frame of the call: the call depth does
    not count the calls it makes to the inherited method. *)

From stdpp Require Import base tactics option list strings gmap.
From S2P Require Import Prelude PyStr PyDict PyObject PyCall Estimator Callback.

#[local] Set Warnings "-clear-no-such-hyp".

(** ** Definitions *)

(** The body of a method that overrides [_get_param_names], on the
    instance. *)
Definition names_body : Type := loc -> M heap (list string).

(** For each class name, the body of [_get_param_names] when the class
    overrides it. *)
Definition names_table : Type := string -> option names_body.

(** The table of a program whose classes inherit [_get_param_names]. *)
Definition no_names : names_table := fun _ => None.

(** The method found for [_get_param_names] on an instance of the class
    named [c]. *)
Definition find_names (nt : names_table) (c : string) : names_body :=
  default _get_param_names (nt c).

(** The dispatched calls on a heap of instances of these classes, with
    [depth] nested calls left: [get_params] and [set_params] are the
    methods of [Callback], [_get_param_names] is the method found on the
    class of the receiver. *)
Fixpoint class_methods (nt : names_table) (depth : nat) : methods :=
  match depth with
  | 0 =>
      Methods (fun _ => raise RecursionError)
              (fun _ _ => raise RecursionError)
              (fun _ _ => raise RecursionError)
  | S n =>
      Methods
        (fun l =>
           let! o := load l in
           if cls_is_callback (obj_class o) then
             call def__get_param_names
               (fun _ => find_names nt (cls_name (obj_class o)) l)
               [VRef l] ∅
           else raise (AttributeError "_get_param_names"))
        (fun l deep => resolve l "get_params"
           (call def_get_params
              (fun fr => get_params (class_methods nt n) l
                           (truthy (local fr "deep")))
              [VRef l] (Dict [("deep", VBool deep)])))
        (fun l params => resolve l "set_params"
           (call def_set_params
              (fun fr => set_params (class_methods nt n) l (frame_kwargs fr))
              [VRef l] params))
  end.

(** The contract on the overriding bodies: they only read, the names they
    yield are attributes of the instance without a trailing underscore, and
    depend on the class and the public attributes of the instance only. *)
Class NamesOk (nt : names_table) : Prop := {
  names_read_only c body l : nt c = Some body -> read_only (body l);
  names_settable c body l h names h' :
    nt c = Some body -> body l h = (Ret names, h') ->
    forall k, k ∈ names -> settable reserved h l k;
  names_local c body l h h' :
    nt c = Some body ->
    option_Forall2 same_obj_params (h !! l) (h' !! l) ->
    (body l h').1 = (body l h).1;
}.

(** The inherited names but those of [excluded]:
    [return (k for k in super()._get_param_names() if k not in excluded)]. *)
Definition without (excluded : list string) : names_body :=
  fun self =>
    let! names := _get_param_names self in
    ret (filter (fun k => k ∉ excluded) names).

(** A logging callback that keeps its attribute [sink] out of its
    parameters. *)
Definition Quiet : class_desc := Class "Quiet" true.

Definition quiet : obj :=
  Obj Quiet (Dict [("sink", VStr "log.txt"); ("level", VInt 1);
                   ("lines_", VInt 0)]).

Definition scenario_names : names_table :=
  fun c => if decide (c = "Quiet") then Some (without ["sink"]) else None.

Definition quiet_scenario : heap := <[5%positive := quiet]> scenario.

(** An override outside the contract: it yields a name that is no
    attribute of the instance. *)
Definition ghost_names : names_table :=
  fun c => if decide (c = "EarlyStop") then Some (fun _ => ret ["ghost"])
           else None.

(** ** The contract *)

Section Contract.
Context (nt : names_table) `{!NamesOk nt}.
Implicit Types (h : heap) (l self : loc) (o : obj) (k : string).

Lemma find_names_read_only c l : read_only (find_names nt c l).
Proof.
  unfold find_names. destruct (nt c) as [body|] eqn:Hc;
    [by eapply names_read_only | apply _get_param_names_preserves, _].
Qed.

Lemma find_names_settable c l h names h' :
  find_names nt c l h = (Ret names, h') ->
  forall k, k ∈ names -> settable reserved h l k.
Proof.
  unfold find_names. destruct (nt c) as [body|] eqn:Hc; cbn [default].
  - by eapply names_settable.
  - intros Hrun k. by eapply _get_param_names_settable.
Qed.

Lemma find_names_similar c l h h' :
  option_Forall2 same_obj_params (h !! l) (h' !! l) ->
  (find_names nt c l h').1 = (find_names nt c l h).1.
Proof.
  unfold find_names. destruct (nt c) as [body|] eqn:Hc; cbn [default].
  - by eapply names_local.
  - apply _get_param_names_similar.
Qed.

#[export] Instance class_methods_ok depth :
  MethodsOk param_sep reserved (class_methods nt depth).
Proof.
  induction depth as [|n IH]; split;
    cbn [class_methods call_get_param_names call_get_params
         call_set_params]; intros; try done; try (apply preserves_raise, _).
  - apply preserves_bind; [apply _ | solve_preserves |]. intros o.
    destruct (cls_is_callback _); [| solve_preserves].
    apply preserves_call; [apply _ |]. intros _. apply find_names_read_only.
  - apply bind_ret_inv in H as (o & h1 & [Hl ->]%load_inv & Hrun).
    destruct (cls_is_callback _); [| done].
    rewrite call_def__get_param_names in Hrun.
    by eapply find_names_settable.
  - by apply dispatched_get_params_read_only.
  - by eapply dispatched_get_params_settable.
  - by apply dispatched_set_params_frame.
Qed.

End Contract.

(** ** Running the dispatched calls on an instance *)

Section Dispatch.
Context (nt : names_table).
Implicit Types (h : heap) (l self : loc) (o : obj) (k : string)
  (params vp : dict value).

Lemma class_get_param_names_run depth h self o :
  h !! self = Some o -> cls_is_callback (obj_class o) = true ->
  call_get_param_names (class_methods nt (S depth)) self h =
    find_names nt (cls_name (obj_class o)) self h.
Proof.
  intros Hl Hcb. cbn [class_methods call_get_param_names].
  rewrite (bind_run_ret _ _ _ _ _ (load_run _ _ _ Hl)), Hcb.
  apply call_def__get_param_names.
Qed.

Lemma class_get_params_run depth h self o deep :
  h !! self = Some o -> cls_is_callback (obj_class o) = true ->
  call_get_params (class_methods nt (S depth)) self deep h =
    get_params (class_methods nt depth) self deep h.
Proof.
  intros Hl Hcb. cbn [class_methods call_get_params].
  rewrite (resolve_run _ _ _ _ _ Hl), Hcb.
  apply (call_def_get_params (get_params _ self)).
Qed.

Lemma class_set_params_run depth h self o params :
  h !! self = Some o -> cls_is_callback (obj_class o) = true ->
  dict_wf params -> "self" ∉ keys params ->
  call_set_params (class_methods nt (S depth)) self params h =
    set_params (class_methods nt depth) self params h.
Proof.
  intros Hl Hcb Hwf Hself. cbn [class_methods call_set_params].
  rewrite (resolve_run _ _ _ _ _ Hl), Hcb.
  by apply (call_def_set_params (set_params _ self)).
Qed.

End Dispatch.

(** ** Excluded names *)

Section Without.
Context (excluded : list string).
Implicit Types (h : heap) (l self : loc) (o : obj) (k : string).

Lemma without_run h self o :
  h !! self = Some o ->
  without excluded self h =
    (Ret (filter (fun k => k ∉ excluded) (keys (public_params o))), h).
Proof.
  intros Hl. unfold without.
  rewrite (bind_run_ret _ _ _ _ _ (_get_param_names_run _ _ _ Hl)).
  by rewrite keys_public_params.
Qed.

Lemma without_read_only self : read_only (without excluded self).
Proof.
  unfold without. apply preserves_bind; [apply _ | | solve_preserves].
  apply _get_param_names_preserves, _.
Qed.

Lemma without_settable self h names h' k :
  without excluded self h = (Ret names, h') -> k ∈ names ->
  settable reserved h self k.
Proof.
  intros (all & h1 & Hrun & Hret)%bind_ret_inv Hk.
  revert Hret. unfold ret. intros [= <- <-].
  apply list_elem_of_filter in Hk as [_ Hk].
  by eapply _get_param_names_settable.
Qed.

Lemma without_similar self h h' :
  option_Forall2 same_obj_params (h !! self) (h' !! self) ->
  (without excluded self h').1 = (without excluded self h).1.
Proof.
  intros Hsim. unfold without.
  apply bind_fst_eq; [| by apply _get_param_names_similar | done].
  apply _get_param_names_preserves, _.
Qed.

(** The parameters entered for the names that are not excluded. *)
Lemma update_attr_pairs_without o :
  dict_wf (obj_dict o) ->
  update ∅ (attr_pairs o (filter (fun k => k ∉ excluded)
                            (keys (public_params o)))) =
  filter_keys (fun k => bool_decide (k ∉ excluded)) (public_params o).
Proof.
  intros Hwf. unfold attr_pairs.
  assert (dict_wf (public_params o)) as Hwfp by by apply dict_wf_filter_keys.
  rewrite (Forall_fmap_ext_1 _
             (fun k => (k, default VNone (public_params o !! k)))).
  2: { apply Forall_forall. intros k [_ Hk]%list_elem_of_filter.
       apply elem_of_keys_public_params in Hk as [Hk _].
       by rewrite lookup_public_params by by apply is_param_name_true. }
  rewrite (fmap_lookup_filter (fun k => k ∉ excluded)) by done.
  rewrite update_empty_NoDup by by apply NoDup_fst_filter.
  unfold filter_keys. f_equal. apply list_filter_iff. intros [k v].
  cbn [fst]. by rewrite bool_decide_eq_true.
Qed.

End Without.

(** A table all of whose bodies exclude names satisfies the contract. *)
Lemma without_ok (nt : names_table) :
  (forall c body, nt c = Some body -> exists ex, body = without ex) ->
  NamesOk nt.
Proof.
  intros Hall. split.
  - intros c body l (ex & ->)%Hall. apply without_read_only.
  - intros c body l h names h' (ex & ->)%Hall Hrun k.
    by eapply without_settable.
  - intros c body l h h' (ex & ->)%Hall. apply without_similar.
Qed.

#[export] Instance no_names_ok : NamesOk no_names.
Proof. by apply without_ok. Qed.

#[export] Instance scenario_names_ok : NamesOk scenario_names.
Proof.
  apply without_ok. intros c body. unfold scenario_names.
  case_decide; [| done]. intros [= <-]. by eexists.
Qed.

(** ** Theorems *)

Section Theorems.
Implicit Types (h : heap) (l self : loc) (o : obj) (k : string) (v : value)
  (params vp : dict value) (nt : names_table).

(** A program whose classes inherit [_get_param_names] makes the calls
    of [callback_methods]. *)
Theorem inherited_names_are_callback_methods depth :
  class_methods no_names depth ≡ callback_methods depth.
Proof.
  induction depth as [|depth IH]; [by repeat split |].
  repeat split; intros;
    cbn [class_methods callback_methods call_get_param_names call_get_params
         call_set_params];
    (apply bind_proper; [done |]); intros o;
    (destruct (cls_is_callback _); [| done]);
    (apply bind_proper; [done |]); intros fr.
  - by apply BaseEstimator_get_params_proper.
  - apply bind_proper; [| done]. by apply BaseEstimator_set_params_proper.
Qed.

(** C32.  Subclasses that override [_get_param_names] within the contract
    (the method only reads, yields attributes of the instance without a
    trailing underscore, and depends on the instance alone) keep the
    guarantees of the reflection:
    [get_params] leaves the heap as it is, and [set_params] leaves every
    object with its class, its attribute names in their order and the
    values of its attributes with a trailing underscore, whatever the
    parameters, the call depth and the outcome. *)
Theorem subclass_reflection_frame nt depth self deep params h :
  NamesOk nt ->
  (call_get_params (class_methods nt depth) self deep h).2 = h /\
  heap_frame reserved h
    (call_set_params (class_methods nt depth) self params h).2.
Proof.
  intros Hok. split; [symmetry |].
  - apply (methods_get_read_only (sep := param_sep) (P := reserved)).
  - apply methods_set_frame.
Qed.

(** C33.  An attribute that a subclass excludes from the names it yields
    is no parameter of its instances: [get_params] returns the public
    attributes but the excluded ones, and [set_params] rejects an excluded
    name with [ValueError] and changes nothing. *)
Theorem excluded_not_a_parameter nt depth self o excluded k v vp h :
  NamesOk nt ->
  h !! self = Some o -> cls_is_callback (obj_class o) = true ->
  dict_wf (obj_dict o) ->
  nt (cls_name (obj_class o)) = Some (without excluded) ->
  k ∈ excluded -> ~ occurs param_sep k -> k <> "self" ->
  (call_get_params (class_methods nt (S (S depth))) self true h).1 = Ret vp ->
  call_get_params (class_methods nt (S (S depth))) self false h =
    (Ret (filter_keys (fun k => bool_decide (k ∉ excluded)) (public_params o)),
     h) /\
  call_set_params (class_methods nt (S (S (S depth)))) self (Dict [(k, v)]) h =
    (Raise (ValueError k), h).
Proof.
  intros Hok Hl Hcb Hwf Hnt Hk Hno Hself Hget.
  assert (call_get_param_names (class_methods nt (S depth)) self h =
          (Ret (filter (fun k => k ∉ excluded) (keys (public_params o))), h))
    as Hnames.
  { rewrite (class_get_param_names_run _ _ _ _ _ Hl Hcb). unfold find_names.
    rewrite Hnt. by apply without_run. }
  split.
  - rewrite (class_get_params_run _ _ _ _ _ _ Hl Hcb). unfold get_params.
    rewrite (BaseEstimator_get_params_flat _ _ _ _ _ _ _ Hl Hnames) by done.
    by rewrite update_attr_pairs_without.
  - assert (partition k param_sep = (k, "", "")) as Hpart.
    { apply partition_not_found; [| apply param_sep_nonempty].
      by apply partition_delim_nil_iff. }
    assert (call_get_params (class_methods nt (S (S depth))) self true h =
            (Ret vp, h)) as Hrun.
    { rewrite (read_only_run _ h (methods_get_read_only self true)).
      by rewrite Hget. }
    rewrite (class_set_params_run _ _ _ _ _ _ Hl Hcb);
      [| by_compute | by intros ?%list_elem_of_singleton].
    unfold set_params. erewrite bind_run_raise; [reflexivity |].
    etrans;
      [apply BaseEstimator_set_params_invalid
         with (o := o) (vp := vp) (pre := []) (key := k) (v := v) (post := []);
       [apply param_sep_nonempty | done.. |] |].
    + rewrite Hpart. apply not_true_is_false. intros Hc%bool_decide_eq_true.
      rewrite (class_get_params_run _ _ _ _ _ _ Hl Hcb) in Hrun.
      apply (BaseEstimator_get_params_plain_keys _ _ _ _ _ _ _ _ _
               Hnames Hrun Hno) in Hc.
      by apply list_elem_of_filter in Hc as [? _].
    + rewrite Hpart. destruct o. by rewrite update_nil, insert_id.
Qed.

(** The contract is needed: with an override that yields a name that is
    no attribute of the instance, [get_params] reports the name with
    [None], and [set_params] accepts it and creates the attribute. *)
Theorem names_outside_the_contract :
  call_get_params (class_methods ghost_names 2) 1%positive false scenario =
    (Ret (Dict [("ghost", VNone)]), scenario) /\
  (call_set_params (class_methods ghost_names 3) 1%positive
     (Dict [("ghost", VInt 1)]) scenario).2 !! 1%positive =
    Some (Obj EarlyStop (Dict [("patience", VInt 5); ("counter_", VInt 0);
                               ("ghost", VInt 1)])).
Proof. by vm_compute. Qed.

End Theorems.

(** ** The theorems on the scenario *)

Section Witnesses.

Lemma subclass_reflection_frame_witness :
  (call_get_params (class_methods scenario_names 3) 5%positive true
     quiet_scenario).2 = quiet_scenario /\
  heap_frame reserved quiet_scenario
    (call_set_params (class_methods scenario_names 3) 5%positive
       (Dict [("level", VInt 2)]) quiet_scenario).2.
Proof.
  apply (subclass_reflection_frame scenario_names 3 5%positive true
           (Dict [("level", VInt 2)]) quiet_scenario).
  exact scenario_names_ok.
Defined.

Lemma excluded_not_a_parameter_witness :
  call_get_params (class_methods scenario_names 2) 5%positive false
    quiet_scenario = (Ret (Dict [("level", VInt 1)]), quiet_scenario) /\
  call_set_params (class_methods scenario_names 3) 5%positive
    (Dict [("sink", VStr "out.txt")]) quiet_scenario =
    (Raise (ValueError "sink"), quiet_scenario).
Proof.
  apply (excluded_not_a_parameter scenario_names 0 5%positive quiet ["sink"]
           "sink" (VStr "out.txt") (Dict [("level", VInt 1)]) quiet_scenario).
  - exact scenario_names_ok.
  - reflexivity.
  - reflexivity.
  - by_compute.
  - reflexivity.
  - by_compute.
  - by_compute.
  - done.
  - vm_compute. reflexivity.
Defined.

End Witnesses.
