(* ===== verification/Accessors.v ===== *)
(** * Accessors: subclasses that override [get_params] or [set_params]

    "Classes that inherit from this also gain the [get_params] and
    [set_params] method" (base.py, lines 17-18), and a class that gains a
    method may define its own.  The bodies of base.py delegate to
    [BaseEstimator] (lines 66 and 69), which calls back into the instance:
    [BaseEstimator.set_params] validates the given names against
    [self.get_params(deep=True)], and [BaseEstimator.get_params] expands a
    nested callback with [value.get_params(deep=True)].  Both calls are
    dispatched on the class of their receiver, so the accessors that a
    class inherits from [Callback] see the accessors it overrides.
    base.py defines no such class: this file is a model of the overrides
    the docstring allows, on the model of [BaseEstimator] of [Estimator].

    - an [accessor_table] records, beside the [names_table] of [Reflect],
      the classes that override [get_params] and [set_params]; a body gets
      what [super().get_params] or [super().set_params] does, which is the
      method of [Callback]; the overriding [def]s are those of [Callback];
    - [accessor_methods] is the dispatch of the three reflection methods
      on the class of the receiver, with [depth] nested calls left;
    - [AccessorsOk] is the contract under which the guarantees of the
      reflection hold: an overriding [get_params] only reads and returns
      settable names ([get_ok]) when the inherited one does, an overriding
      [set_params] stays within the frame ([set_ok]) when the inherited
      one does;
    - [hiding] is the [get_params] that drops names from what the
      inherited one returns, [validating] the [set_params] that checks
      the given parameters before it delegates.

    The theorems show that the dispatch satisfies the contract
    [MethodsOk] of the accessors ([accessor_methods_ok]) and is the
    dispatch of [Reflect] when no class overrides an accessor
    ([inherited_accessors_are_class_methods]); that the inherited
    [set_params] rejects a name that the overriding [get_params] hides,
    although [_get_param_names] reports it ([hidden_not_settable]); that
    a validating [set_params] raises before it changes anything or does
    what the inherited one does ([validated_set_params]); and, on an
    override outside the contract, that a name that [get_params] invents
    becomes an attribute ([accessors_outside_the_contract]). *)

From stdpp Require Import base tactics option list strings gmap.
From S2P Require Import Prelude PyStr PyDict PyObject PyCall Estimator Callback.
From S2P Require Import Reflect.

#[local] Open Scope py_scope.

(** ** Definitions *)

(** An overriding [get_params]: its body on what [super().get_params]
    does, the instance and [deep]. *)
Definition get_body : Type :=
  (bool -> M heap (dict value)) -> loc -> bool -> M heap (dict value).

(** An overriding [set_params]: its body on what [super().set_params]
    does, the instance and the keyword arguments. *)
Definition set_body : Type :=
  (dict value -> M heap value) -> loc -> dict value -> M heap value.

(** For each class name, the reflection methods the class overrides. *)
Record accessor_table : Type := AccessorTable {
  acc_names : names_table;
  acc_get : string -> option get_body;
  acc_set : string -> option set_body;
}.

(** The [get_params] found on the class named [c]: the one of the class
    when it overrides the method, the inherited one otherwise. *)
Definition find_get (tb : accessor_table) (c : string)
    (super : bool -> M heap (dict value)) (self : loc) (deep : bool)
    : M heap (dict value) :=
  match acc_get tb c with
  | Some body => body super self deep
  | None => super deep
  end.

Definition find_set (tb : accessor_table) (c : string)
    (super : dict value -> M heap value) (self : loc) (params : dict value)
    : M heap value :=
  match acc_set tb c with
  | Some body => body super self params
  | None => super params
  end.

(** The dispatched calls of a program whose classes override reflection
    methods, with [depth] nested calls left. *)
Fixpoint accessor_methods (tb : accessor_table) (depth : nat) : methods :=
  match depth with
  | 0 =>
      Methods (fun _ => raise RecursionError)
              (fun _ _ => raise RecursionError)
              (fun _ _ => raise RecursionError)
  | S n =>
      let vt := accessor_methods tb n in
      Methods
        (call_get_param_names (class_methods (acc_names tb) (S n)))
        (fun l deep =>
           let! o := load l in
           if cls_is_callback (obj_class o) then
             call def_get_params
               (fun fr => find_get tb (cls_name (obj_class o))
                            (get_params vt l) l (truthy (local fr "deep")))
               [VRef l] (Dict [("deep", VBool deep)])
           else raise (AttributeError "get_params"))
        (fun l params =>
           let! o := load l in
           if cls_is_callback (obj_class o) then
             call def_set_params
               (fun fr => find_set tb (cls_name (obj_class o))
                            (set_params vt l) l (frame_kwargs fr))
               [VRef l] params
           else raise (AttributeError "set_params"))
  end.

(** What the contract of the accessors asks of a [get_params] on the
    instance [l]: it only reads, and the names without separator it
    returns are settable attributes of [l]. *)
Definition get_ok (l : loc) (g : bool -> M heap (dict value)) : Prop :=
  (forall deep, read_only (g deep)) /\
  (forall deep h vp h',
     g deep h = (Ret vp, h') ->
     forall k, k ∈ keys vp -> ~ occurs param_sep k -> settable reserved h l k).

(** And of a [set_params]: it stays within the frame. *)
Definition set_ok (s : dict value -> M heap value) : Prop :=
  forall params, preserves (heap_frame reserved) (s params).

(** The contract on the overriding bodies: they keep what the contract
    asks when the inherited methods do. *)
Class AccessorsOk (tb : accessor_table) : Prop := {
  acc_names_ok :: NamesOk (acc_names tb);
  acc_get_ok c body super l :
    acc_get tb c = Some body -> get_ok l super -> get_ok l (body super l);
  acc_set_ok c body super l :
    acc_set tb c = Some body -> set_ok super -> set_ok (body super l);
}.

(** [params = super().get_params(deep=deep)], then [params.pop(k, None)]
    for the names [k] of [excluded], and [return params]. *)
Definition hiding (excluded : list string) : get_body :=
  fun super self deep =>
    let! vp := super deep in
    ret (filter_keys (fun k => bool_decide (k ∉ excluded)) vp).

(** A check of the given parameters, then the inherited [set_params] on
    the same keywords: [invalid params] is the name the check rejects, if
    any. *)
Definition validating (invalid : dict value -> option string) : set_body :=
  fun super self params =>
    match invalid params with
    | Some name => raise (ValueError name)
    | None => super params
    end.

(** The table of a program that overrides [_get_param_names] only. *)
Definition names_only (nt : names_table) : accessor_table :=
  AccessorTable nt (fun _ => None) (fun _ => None).

(** The classes of the scenario with accessors of their own: the
    [set_params] of the early-stopping callback rejects a negative
    [patience], and the [get_params] of the quiet callback hides
    [level]. *)
Definition negative_patience (params : dict value) : option string :=
  match params !! "patience" with
  | Some (VInt n) => if (n <? 0)%Z then Some "patience" else None
  | _ => None
  end.

Definition scenario_accessors : accessor_table :=
  AccessorTable scenario_names
    (fun c => if decide (c = "Quiet") then Some (hiding ["level"]) else None)
    (fun c => if decide (c = "EarlyStop")
              then Some (validating negative_patience) else None).

(** An override outside the contract: [get_params] adds an entry that is
    no attribute, [params['epochs'] = 10]. *)
Definition inventing : get_body :=
  fun super self deep =>
    let! vp := super deep in
    ret (<["epochs" := VInt 10]> vp).

Definition inventing_accessors : accessor_table :=
  AccessorTable no_names
    (fun c => if decide (c = "EarlyStop") then Some inventing else None)
    (fun _ => None).

(** ** The contract *)

Section Contract.
Context (tb : accessor_table) `{!AccessorsOk tb}.
Implicit Types (h : heap) (l self : loc) (o : obj) (k : string)
  (vp params : dict value).

Section Found.
Context (vt : methods) `{!MethodsOk param_sep reserved vt}.

(** The accessors of [Callback] keep the contract. *)
Lemma get_params_ok l : get_ok l (get_params vt l).
Proof.
  split; [intros deep; by apply get_params_body_read_only |].
  intros deep h vp h' Hrun k. by eapply get_params_body_settable.
Qed.

Lemma set_params_ok l : set_ok (set_params vt l).
Proof. intros params. by apply set_params_body_frame. Qed.

Lemma find_get_ok c l : get_ok l (find_get tb c (get_params vt l) l).
Proof.
  unfold find_get. destruct (acc_get tb c) as [body|] eqn:Hc;
    [eapply acc_get_ok; [done |] |]; apply get_params_ok.
Qed.

Lemma find_set_ok c l : set_ok (find_set tb c (set_params vt l) l).
Proof.
  unfold find_set. destruct (acc_set tb c) as [body|] eqn:Hc;
    [eapply acc_set_ok; [done |] |]; apply set_params_ok.
Qed.

End Found.

#[export] Instance accessor_methods_ok depth :
  MethodsOk param_sep reserved (accessor_methods tb depth).
Proof.
  induction depth as [|n IH]; split;
    cbn [accessor_methods call_get_param_names call_get_params
         call_set_params]; intros; try done; try (apply preserves_raise, _).
  - apply (methods_names_read_only (sep := param_sep) (P := reserved)).
  - by eapply (methods_names_settable (sep := param_sep)
                 (vt := class_methods (acc_names tb) (S n))).
  - apply preserves_bind; [apply _ | solve_preserves |]. intros o.
    destruct (cls_is_callback _); [| solve_preserves].
    apply preserves_call; [apply _ |]. intros fr.
    by apply (find_get_ok (accessor_methods tb n)).
  - apply bind_ret_inv in H as (o & h1 & [Hl ->]%load_inv & Hrun).
    destruct (cls_is_callback _); [| done].
    rewrite (call_def_get_params (find_get tb _ _ l)) in Hrun.
    by eapply (find_get_ok (accessor_methods tb n)).
  - apply preserves_bind; [apply _ | solve_preserves |]. intros o.
    destruct (cls_is_callback _); [| solve_preserves].
    apply preserves_call; [apply _ |]. intros fr.
    by apply (find_set_ok (accessor_methods tb n)).
Qed.

End Contract.

(** ** Running the dispatched calls on an instance *)

Section Dispatch.
Context (tb : accessor_table).
Implicit Types (h : heap) (l self : loc) (o : obj) (k : string)
  (params vp : dict value).

Lemma accessor_get_params_run depth h self o deep :
  h !! self = Some o -> cls_is_callback (obj_class o) = true ->
  call_get_params (accessor_methods tb (S depth)) self deep h =
    find_get tb (cls_name (obj_class o))
      (get_params (accessor_methods tb depth) self) self deep h.
Proof.
  intros Hl Hcb. cbn [accessor_methods call_get_params].
  rewrite (bind_run_ret _ _ _ _ _ (load_run _ _ _ Hl)), Hcb.
  apply (call_def_get_params (find_get tb _ _ self)).
Qed.

Lemma accessor_set_params_run depth h self o params :
  h !! self = Some o -> cls_is_callback (obj_class o) = true ->
  dict_wf params -> "self" ∉ keys params ->
  call_set_params (accessor_methods tb (S depth)) self params h =
    find_set tb (cls_name (obj_class o))
      (set_params (accessor_methods tb depth) self) self params h.
Proof.
  intros Hl Hcb Hwf Hself. cbn [accessor_methods call_set_params].
  rewrite (bind_run_ret _ _ _ _ _ (load_run _ _ _ Hl)), Hcb.
  by apply (call_def_set_params (find_set tb _ _ self)).
Qed.

End Dispatch.

(** ** The overrides of the scenario keep the contract *)

(** What [hiding] returns: the entries of the inherited result but the
    excluded ones. *)
Lemma hiding_inv excluded super self deep h vp h' :
  hiding excluded super self deep h = (Ret vp, h') ->
  exists vp0,
    super deep h = (Ret vp0, h') /\
    vp = filter_keys (fun k => bool_decide (k ∉ excluded)) vp0.
Proof.
  intros (vp0 & h1 & Hrun & [= <- <-])%bind_ret_inv. eauto.
Qed.

Lemma hiding_ok excluded super l :
  get_ok l super -> get_ok l (hiding excluded super l).
Proof.
  intros [Hro Hset]. split.
  - intros deep. apply preserves_bind; [apply _ | apply Hro |].
    intros vp. apply preserves_ret, _.
  - intros deep h vp h' (vp0 & Hrun & ->)%hiding_inv k Hk.
    rewrite keys_filter_keys in Hk. apply list_elem_of_filter in Hk as [_ Hk].
    by eapply Hset.
Qed.

Lemma validating_ok invalid super l :
  set_ok super -> set_ok (validating invalid super l).
Proof.
  intros Hs params. unfold validating.
  destruct (invalid params); [apply preserves_raise, _ | apply Hs].
Qed.

(** A table whose [get_params] hide names and whose [set_params] validate
    keeps the contract. *)
Lemma hiding_validating_ok (tb : accessor_table) :
  NamesOk (acc_names tb) ->
  (forall c body, acc_get tb c = Some body -> exists ex, body = hiding ex) ->
  (forall c body, acc_set tb c = Some body ->
                  exists inv, body = validating inv) ->
  AccessorsOk tb.
Proof.
  intros Hn Hg Hs. split; [done | ..].
  - intros c body super l (ex & ->)%Hg. apply hiding_ok.
  - intros c body super l (inv & ->)%Hs. apply validating_ok.
Qed.

#[export] Instance names_only_ok nt `{!NamesOk nt} :
  AccessorsOk (names_only nt).
Proof. by apply hiding_validating_ok. Qed.

#[export] Instance scenario_accessors_ok : AccessorsOk scenario_accessors.
Proof.
  apply hiding_validating_ok; [apply _ | |]; intros c body;
    cbn [acc_get acc_set scenario_accessors]; case_decide; [| done | | done];
    intros [= <-]; by eexists.
Qed.

(** ** Theorems *)

Section Theorems.
Implicit Types (h : heap) (l self : loc) (o : obj) (k : string) (v : value)
  (params vp : dict value) (tb : accessor_table).

(** A program whose classes inherit the accessors makes the calls of
    [class_methods]. *)
Theorem inherited_accessors_are_class_methods nt depth :
  accessor_methods (names_only nt) depth ≡ class_methods nt depth.
Proof.
  induction depth as [|depth IH]; [by repeat split |].
  repeat split; intros;
    cbn [accessor_methods class_methods call_get_param_names call_get_params
         call_set_params]; unfold resolve;
    (apply bind_proper; [done |]); intros o;
    (destruct (cls_is_callback _); [| done]);
    (apply bind_proper; [done |]); intros fr;
    cbn [find_get find_set names_only acc_get acc_set].
  - by apply BaseEstimator_get_params_proper.
  - apply bind_proper; [| done]. by apply BaseEstimator_set_params_proper.
Qed.

(** C34.  The inherited [set_params] sees the overriding [get_params]: on
    an instance of a class whose [get_params] hides the name [k] from what
    the inherited method returns, and which inherits [set_params],
    [set_params] rejects [k] with [ValueError] and changes nothing,
    whether or not [k] is an attribute that [_get_param_names] reports. *)
Theorem hidden_not_settable tb depth self o excluded k v vp h :
  h !! self = Some o -> cls_is_callback (obj_class o) = true ->
  acc_get tb (cls_name (obj_class o)) = Some (hiding excluded) ->
  acc_set tb (cls_name (obj_class o)) = None ->
  k ∈ excluded -> ~ occurs param_sep k -> k <> "self" ->
  call_get_params (accessor_methods tb (S (S depth))) self true h =
    (Ret vp, h) ->
  (k ∉ keys vp) /\
  call_set_params (accessor_methods tb (S (S (S depth)))) self
    (Dict [(k, v)]) h = (Raise (ValueError k), h).
Proof.
  intros Hl Hcb Hget Hset Hk Hno Hself Hrun.
  assert (k ∉ keys vp) as Hkeys.
  { rewrite (accessor_get_params_run _ _ _ _ _ _ Hl Hcb) in Hrun.
    unfold find_get in Hrun. rewrite Hget in Hrun.
    apply hiding_inv in Hrun as (vp0 & _ & ->). rewrite keys_filter_keys.
    intros [Hex _]%list_elem_of_filter. by apply bool_decide_eq_true in Hex. }
  split; [done |].
  assert (partition k param_sep = (k, "", "")) as Hpart.
  { apply partition_not_found; [| apply param_sep_nonempty].
    by apply partition_delim_nil_iff. }
  rewrite (accessor_set_params_run _ _ _ _ _ _ Hl Hcb);
    [| by_compute | by intros ?%list_elem_of_singleton].
  unfold find_set, set_params. rewrite Hset.
  erewrite bind_run_raise; [reflexivity |].
  etrans;
    [apply BaseEstimator_set_params_invalid
       with (o := o) (vp := vp) (pre := []) (key := k) (v := v) (post := []);
     [apply param_sep_nonempty | done.. |] |].
  - rewrite Hpart. apply contains_false. by apply lookup_dict_None.
  - rewrite Hpart. destruct o. by rewrite update_nil, insert_id.
Qed.

(** A validating [set_params] raises before anything is assigned, or
    does what the method of [Callback] does: when the check rejects the
    parameters the call raises [ValueError] and leaves the heap as it is,
    and otherwise it is the inherited call. *)
Theorem validated_set_params tb depth self o invalid params h :
  h !! self = Some o -> cls_is_callback (obj_class o) = true ->
  acc_set tb (cls_name (obj_class o)) = Some (validating invalid) ->
  dict_wf params -> "self" ∉ keys params ->
  call_set_params (accessor_methods tb (S depth)) self params h =
    match invalid params with
    | Some name => (Raise (ValueError name), h)
    | None => set_params (accessor_methods tb depth) self params h
    end.
Proof.
  intros Hl Hcb Hset Hwf Hself.
  rewrite (accessor_set_params_run _ _ _ _ _ _ Hl Hcb Hwf Hself).
  unfold find_set. rewrite Hset. unfold validating.
  by destruct (invalid params).
Qed.

(** The quiet callback hides [level] beside [sink]; the early-stopping
    callback rejects a negative [patience] and takes another. *)
Theorem scenario_accessors_run :
  call_get_params (accessor_methods scenario_accessors 2) 5%positive true
    quiet_scenario = (Ret (Dict []), quiet_scenario) /\
  call_set_params (accessor_methods scenario_accessors 3) 5%positive
    (Dict [("level", VInt 2)]) quiet_scenario =
    (Raise (ValueError "level"), quiet_scenario) /\
  call_set_params (accessor_methods scenario_accessors 3) 1%positive
    (Dict [("patience", VInt (-1))]) scenario =
    (Raise (ValueError "patience"), scenario) /\
  (call_set_params (accessor_methods scenario_accessors 3) 1%positive
     (Dict [("patience", VInt 7)]) scenario).2 !! 1%positive =
    Some (Obj EarlyStop (Dict [("patience", VInt 7); ("counter_", VInt 0)])).
Proof. by vm_compute. Qed.

(** The contract is needed: a [get_params] that adds an entry makes the
    inherited [set_params] accept the name and create the attribute. *)
Theorem accessors_outside_the_contract :
  call_get_params (accessor_methods inventing_accessors 2) 1%positive false
    scenario =
    (Ret (Dict [("patience", VInt 5); ("epochs", VInt 10)]), scenario) /\
  (call_set_params (accessor_methods inventing_accessors 3) 1%positive
     (Dict [("epochs", VInt 1)]) scenario).2 !! 1%positive =
    Some (Obj EarlyStop (Dict [("patience", VInt 5); ("counter_", VInt 0);
                               ("epochs", VInt 1)])).
Proof. by vm_compute. Qed.

End Theorems.

(** ** The theorems on the scenario *)

Section Witnesses.

Lemma hidden_not_settable_witness :
  ("level" ∉ keys (Dict [] : dict value)) /\
  call_set_params (accessor_methods scenario_accessors 3) 5%positive
    (Dict [("level", VInt 2)]) quiet_scenario =
    (Raise (ValueError "level"), quiet_scenario).
Proof.
  apply (hidden_not_settable scenario_accessors 0 5%positive quiet ["level"]
           "level" (VInt 2) (Dict []) quiet_scenario);
    try reflexivity; try by_compute; try done.
Defined.

Lemma validated_set_params_witness :
  call_set_params (accessor_methods scenario_accessors 3) 1%positive
    (Dict [("patience", VInt (-1))]) scenario =
    (Raise (ValueError "patience"), scenario).
Proof.
  apply (validated_set_params scenario_accessors 2 1%positive early_stop
           negative_patience (Dict [("patience", VInt (-1))]) scenario);
    try reflexivity; by_compute.
Defined.

End Witnesses.
