(* ===== verification/Footprint.v ===== *)
(** * Footprint: the objects [set_params] may change

    [set_params] assigns attributes of the callback it is called on, and
    forwards the parameters with nested names to the callbacks its public
    attributes refer to, which do the same.  The values it assigns may be
    references themselves.  This file states how far a call reaches:

    - [closed R h] says that the set [R] of addresses is closed in the heap
      [h]: the public attributes of the objects at the addresses of [R]
      refer to addresses of [R]; [confined R] is what a computation does
      that stays within a closed set;
    - [reaches h l l'] is reachability along public attributes as a
      relation, [reach h roots] computes the addresses reachable from
      [roots], and [footprint h self params] those reachable from the
      callback and from the references among the values given;
    - the theorems show that [reach] is the least closed set that holds
      the roots and decides [reaches], that [set_params] changes no object
      outside its footprint, at every call depth and whatever the outcome,
      that what [get_params] returns depends on the classes and the public
      attributes of the objects it reaches only, and so that [set_params]
      does not change what [get_params] returns on a callback that shares
      no object with the footprint; all of them for [Callback] and for the
      subclasses of [Reflect] within the contract [NamesOk]. *)

From stdpp Require Import base tactics option list strings gmap fin_sets.
From S2P Require Import Prelude PyStr PyDict PyObject PyCall Estimator Callback.
From S2P Require Import Nested Reflect.

#[local] Set Warnings "-clear-no-such-hyp".

(** ** Definitions *)

(** A value that holds no reference outside [R]. *)
Definition value_within (R : gset loc) (v : value) : Prop :=
  match v with VRef l => l ∈ R | _ => True end.

#[export] Instance value_within_dec R v : Decision (value_within R v).
Proof. destruct v; cbn [value_within]; apply _. Defined.

(** Parameters whose values hold no reference outside [R]. *)
Definition params_within (R : gset loc) (params : dict value) : Prop :=
  Forall (fun kv => value_within R kv.2) (items params).

(** An object whose public attributes hold no reference outside [R]. *)
Definition obj_within (R : gset loc) (o : obj) : Prop :=
  Forall (fun kv => reserved kv.1 = false -> value_within R kv.2)
         (items (obj_dict o)).

(** [R] is closed in [h]: the public attributes of the objects at the
    addresses of [R] lead to addresses of [R]. *)
Definition closed (R : gset loc) (h : heap) : Prop :=
  map_Forall (fun l o => l ∈ R -> obj_within R o) h.

#[export] Instance closed_dec R h : Decision (closed R h).
Proof. unfold closed, obj_within, params_within. apply _. Defined.

(** What a computation confined to a closed set [R] does to the heap: [R]
    stays closed, and the objects outside [R] are as they were. *)
Definition confined (R : gset loc) : relation heap :=
  fun h h' => closed R h -> closed R h' /\ forall l, l ∉ R -> h' !! l = h !! l.

(** The parameters collected for nested objects hold no reference outside
    [R], under names without separator. *)
Definition collected_within (R : gset loc) (nested : dict (dict value))
    : Prop :=
  Forall (fun kd => ~ occurs param_sep kd.1 /\ params_within R kd.2)
         (items nested).

(** The reference a public attribute holds. *)
Definition attr_ref (kv : string * value) : option loc :=
  if reserved kv.1 then None
  else match kv.2 with VRef l => Some l | _ => None end.

(** The objects the public attributes of the object at [l] refer to. *)
Definition heirs (h : heap) (l : loc) : list loc :=
  match h !! l with
  | Some o => omap attr_ref (items (obj_dict o))
  | None => []
  end.

(** The object at the second address is reached from the first along
    public attributes. *)
Inductive reaches (h : heap) : loc -> loc -> Prop :=
| reaches_refl l : reaches h l l
| reaches_step l l' l'' :
    reaches h l l' -> l'' ∈ heirs h l' -> reaches h l l''.

(** One more step along the public attributes. *)
Definition grow (h : heap) (R : gset loc) : gset loc :=
  R ∪ list_to_set (elements R ≫= heirs h).

(** The addresses reachable from [roots] through public attributes. *)
Definition reach (h : heap) (roots : gset loc) : gset loc :=
  Nat.iter (S (size h)) (grow h) roots.

(** The references among the values of the parameters. *)
Definition param_refs (params : dict value) : gset loc :=
  list_to_set (omap (fun kv => match kv.2 with VRef l => Some l | _ => None end)
                    (items params)).

(** The addresses a call of [set_params] on [self] with [params] may reach:
    those reachable from the callback and from the references given. *)
Definition footprint (h : heap) (self : loc) (params : dict value)
    : gset loc :=
  reach h ({[self]} ∪ param_refs params).

(** ** Closed sets *)

Section Confined.
Context (R : gset loc).
Implicit Types (h : heap) (self l : loc) (o : obj) (k key : string)
  (v : value) (vp params : dict value) (nested : dict (dict value)).

#[export] Instance confined_preorder : PreOrder (confined R).
Proof.
  split; [by intros h | intros h1 h2 h3 H12 H23 Hc].
  destruct (H12 Hc) as [Hc2 Ha]. destruct (H23 Hc2) as [Hc3 Hb].
  split; [done |]. intros l Hl. by rewrite Hb, Ha.
Qed.

Lemma params_within_insert params k v :
  value_within R v -> params_within R params ->
  params_within R (<[k := v]> params).
Proof.
  unfold params_within. rewrite !Forall_forall.
  intros Hv Hall kv [-> | Hin]%elem_of_items_insert; [done | by apply Hall].
Qed.

Lemma params_within_lookup params k v :
  params_within R params -> params !! k = Some v -> value_within R v.
Proof.
  unfold params_within. rewrite Forall_forall. intros Hall Hk.
  by apply (Hall (k, v)), alist_get_Some_elem.
Qed.

(** A public attribute of an object of a closed set holds no reference
    outside the set. *)
Lemma closed_attr h self o key :
  closed R h -> self ∈ R -> h !! self = Some o -> reserved key = false ->
  value_within R (default VNone (obj_dict o !! key)).
Proof.
  intros Hc Hself Hl Hpub.
  destruct (obj_dict o !! key) as [v|] eqn:Hv; [| done].
  pose proof (Hc self o Hl Hself) as Ho. unfold obj_within in Ho.
  rewrite Forall_forall in Ho.
  by apply (Ho (key, v)); [apply alist_get_Some_elem |].
Qed.

(** Assigning a value within [R] to an attribute of an object of [R]. *)
Lemma setattr_confined self k v :
  self ∈ R -> value_within R v -> preserves (confined R) (setattr self k v).
Proof.
  intros Hself Hv h Hc. destruct (h !! self) as [o|] eqn:Hl;
    [rewrite (setattr_run _ _ _ _ _ Hl) | by rewrite setattr_run_None].
  cbn [snd]. split.
  - apply map_Forall_insert_2; [| done]. intros _.
    unfold obj_within. cbn [obj_dict]. rewrite Forall_forall.
    intros kv [-> | Hin]%elem_of_items_insert; [done |].
    pose proof (Hc self o Hl Hself) as Ho. unfold obj_within in Ho.
    rewrite Forall_forall in Ho. by apply Ho.
  - intros l Hni. apply lookup_insert_ne. by intros ->.
Qed.

(** *** The accessor of scikit-learn, against the contract *)

Section Accessor.
Context (vt : methods) `{!MethodsOk param_sep reserved vt}.
Context (Hset : forall l sub, l ∈ R -> params_within R sub ->
                  preserves (confined R) (call_set_params vt l sub)).

Lemma set_params_loop_confined self vp pairs nested :
  self ∈ R -> Forall (fun kv => value_within R kv.2) pairs ->
  preserves (confined R) (set_params_loop param_sep self vp pairs nested).
Proof.
  intros Hself Hall. revert nested.
  induction Hall as [|[key v] pairs Hv _ IH]; intros nested;
    cbn [set_params_loop]; [solve_preserves |].
  destruct (partition key param_sep) as [[name delim] sub_key].
  destruct (contains name vp); [| solve_preserves].
  case_decide; [| by apply IH].
  apply preserves_bind; [apply _ | by apply setattr_confined | by intros _].
Qed.

Lemma add_nested_within name sub_key v nested :
  ~ occurs param_sep name -> value_within R v ->
  collected_within R nested ->
  collected_within R (add_nested name sub_key v nested).
Proof.
  unfold collected_within, add_nested. rewrite !Forall_forall.
  intros Hname Hv Hall kd [-> | Hin]%elem_of_items_insert; [| by apply Hall].
  split; [done |]. apply params_within_insert; [done |].
  destruct (nested !! name) as [d|] eqn:Hd; [| by apply Forall_nil].
  by apply (Hall (name, d)), alist_get_Some_elem.
Qed.

Lemma set_params_loop_collected self vp pairs nested h nested' h' :
  Forall (fun kv => value_within R kv.2) pairs ->
  collected_within R nested ->
  set_params_loop param_sep self vp pairs nested h = (Ret nested', h') ->
  collected_within R nested'.
Proof.
  intros Hall. revert nested h.
  induction Hall as [|[key v] pairs Hv _ IH]; intros nested h Hn;
    cbn [set_params_loop]; [unfold ret; by intros [= <- <-] |].
  pose proof (partition_head_free key param_sep param_sep_nonempty) as Hfree.
  destruct (partition key param_sep) as [[name delim] sub_key].
  destruct (contains name vp); [| done].
  case_decide.
  - intros (_ & h1 & _ & Hrun)%bind_ret_inv. by eapply IH.
  - apply IH. by apply add_nested_within.
Qed.

Lemma set_nested_loop_confined vp pairs :
  (forall k v, ~ occurs param_sep k -> vp !! k = Some v -> value_within R v) ->
  Forall (fun kd => ~ occurs param_sep kd.1 /\ params_within R kd.2) pairs ->
  preserves (confined R) (set_nested_loop vt vp pairs).
Proof.
  intros Hvp. induction 1 as [|[key sub] pairs [Hkey Hsub] _ IH];
    cbn [set_nested_loop]; [solve_preserves |].
  destruct (vp !! key) as [target|] eqn:Ht; [| intros h; reflexivity].
  apply (preserves_receiver_bind (confined R)). intros l ->.
  apply preserves_bind; [apply _ | | by intros _].
  apply Hset; [| done]. by apply (Hvp key (VRef l)).
Qed.

Lemma BaseEstimator_set_params_confined self params h :
  self ∈ R -> params_within R params ->
  (closed R h -> forall vp k v,
     (call_get_params vt self true h).1 = Ret vp ->
     ~ occurs param_sep k -> vp !! k = Some v -> value_within R v) ->
  confined R h (BaseEstimator_set_params param_sep vt self params h).2.
Proof.
  intros Hself Hparams Hvalid Hc. specialize (Hvalid Hc). revert Hc.
  change (confined R h (BaseEstimator_set_params param_sep vt self params h).2).
  unfold BaseEstimator_set_params.
  destruct (is_empty params); [reflexivity |].
  rewrite bind_read_only_run by apply methods_get_read_only.
  destruct (call_get_params vt self true h).1 as [vp | e] eqn:Hget;
    [| reflexivity].
  pose proof (set_params_loop_confined self vp (items params) ∅ Hself Hparams h)
    as Hloop.
  unfold bind at 1.
  destruct (set_params_loop param_sep self vp (items params) ∅ h)
    as [[nested | e] h1] eqn:Hrun; cbn [fst snd] in *; [| done].
  etrans; [exact Hloop |].
  apply (preserves_bind (confined R) (set_nested_loop vt vp (items nested))
    (fun _ => ret (VRef self))); [| intros _; apply preserves_ret, _].
  apply set_nested_loop_confined; [intros k v; by apply (Hvalid vp) |].
  eapply set_params_loop_collected; [exact Hparams | | exact Hrun].
  apply Forall_nil_2.
Qed.

End Accessor.

(** *** The methods of the callbacks and of their subclasses *)

Section Classes.
Context (nt : names_table) `{!NamesOk nt}.

(** A reference that [get_params(deep=True)] returns under a name without
    separator is the value of a public attribute of the instance. *)
Lemma valid_plain_within depth self h vp k v :
  closed R h -> self ∈ R ->
  (call_get_params (class_methods nt depth) self true h).1 = Ret vp ->
  ~ occurs param_sep k -> vp !! k = Some v -> value_within R v.
Proof.
  intros Hc Hself Hget Hno Hk. destruct depth as [|depth]; [done |].
  destruct (call_get_params _ self true h) as [r h'] eqn:Hrun.
  cbn [fst] in Hget. subst r. cbn [class_methods call_get_params] in Hrun.
  apply resolve_ret_inv in Hrun as (o & Hl & Hcb & Hrun).
  rewrite (call_def_get_params (get_params _ self)) in Hrun.
  apply bind_ret_inv in Hrun as (names & h1 & Hnames & Hrun).
  assert (h1 = h) as ->.
  { pose proof (methods_names_read_only (vt := class_methods nt depth)
                  self h) as Hro. by rewrite Hnames in Hro. }
  rewrite (get_params_loop_lookup _ reserved _ _ _ _ _ _ _ _ _ _ Hl Hrun Hno)
    in Hk.
  case_decide as Hin; [| done]. injection Hk as <-.
  destruct (methods_names_settable _ _ _ _ Hnames k Hin)
    as (o' & Hl' & _ & Hpub).
  by eapply closed_attr.
Qed.

(** From a set [R] closed in the heap, [set_params] on an instance of [R]
    with parameters within [R] is confined to [R], at every depth and
    whatever the outcome. *)
Lemma class_set_params_confined depth self params :
  self ∈ R -> params_within R params ->
  preserves (confined R) (call_set_params (class_methods nt depth) self params).
Proof.
  revert self params. induction depth as [|depth IH]; intros self params
    Hself Hparams; [intros h; reflexivity |].
  cbn [class_methods call_set_params].
  apply preserves_resolve; [apply _ |].
  apply preserves_call_bound; [apply _ |]. intros fr Hfr.
  apply preserves_bind; [apply _ | | intros; apply preserves_ret, _].
  intros h. apply BaseEstimator_set_params_confined; [apply _ | done .. | |].
  - unfold params_within in *. rewrite Forall_forall in Hparams |- *.
    intros kv Hin. by eapply Hparams, bind_args_kwargs_items.
  - intros Hc vp k v. by apply valid_plain_within.
Qed.

End Classes.

(** The callbacks are the instances of a program without overrides. *)
Lemma call_set_params_confined depth self params :
  self ∈ R -> params_within R params ->
  preserves (confined R) (call_set_params (callback_methods depth) self params).
Proof.
  intros Hself Hparams.
  eapply preserves_meq;
    [apply (inherited_names_are_callback_methods depth) |].
  by apply class_set_params_confined; [apply _ | |].
Qed.

End Confined.

(** ** What [get_params] reads

    Two heaps are similar on a set of addresses when the objects at these
    addresses have the same class and the same public attributes; the set
    is given as a predicate, closed under the public attributes. *)

Section Similar.
Context (P : loc -> Prop) (h h' : heap).
Context (Hc : forall l o k l',
  P l -> h !! l = Some o -> public_params o !! k = Some (VRef l') -> P l').
Context (Hsim : forall l,
  P l -> option_Forall2 same_obj_params (h !! l) (h' !! l)).
Implicit Types (self l : loc) (o : obj) (v : value) (out : dict value).

Lemma similar_cases l :
  P l ->
  (exists o o', h !! l = Some o /\ h' !! l = Some o' /\
                same_obj_params o o') \/
  (h !! l = None /\ h' !! l = None).
Proof.
  intros Hl%Hsim. destruct (h !! l) as [o|], (h' !! l) as [o'|];
    inversion Hl; subst; [left | right]; eauto.
Qed.

Lemma has_callback_method_similar v :
  (forall l, v = VRef l -> P l) ->
  (has_callback_method v h').1 = (has_callback_method v h).1.
Proof.
  destruct v as [| | | |l]; try done. intros Hl. cbn [has_callback_method].
  destruct (similar_cases l (Hl l eq_refl))
    as [(o & o' & Ho & Ho' & Hcls & _) | [Ho Ho']].
  - rewrite !(bind_run_ret _ _ _ _ _ (load_run _ _ _ Ho)),
      !(bind_run_ret _ _ _ _ _ (load_run _ _ _ Ho')). cbn. by rewrite Hcls.
  - by rewrite !(bind_run_raise _ _ _ _ _ (load_run_None _ _ Ho)),
      !(bind_run_raise _ _ _ _ _ (load_run_None _ _ Ho')).
Qed.

Section Loop.
Context (vt : methods).
Context (Hro : forall l deep, read_only (call_get_params vt l deep)).
Context (Hget : forall l, P l ->
  (call_get_params vt l true h').1 = (call_get_params vt l true h).1).

Lemma expand_similar deep key v out :
  (forall l, v = VRef l -> P l) ->
  (expand param_sep vt deep key v out h').1 =
  (expand param_sep vt deep key v out h).1.
Proof.
  intros Hv. unfold expand. destruct deep; [| done].
  apply bind_fst_eq;
    [apply (preserves_has_callback_method eq)
    | by apply has_callback_method_similar |].
  intros [|] _; [| done].
  destruct v as [| | | |l]; try done. cbn [receiver].
  apply bind_fst_eq; [by intros ? | done |]. intros ? [= <-].
  apply bind_fst_eq; [apply Hro | by apply Hget, Hv | done].
Qed.

Lemma get_params_loop_similar self o o' deep names out :
  P self -> h !! self = Some o -> h' !! self = Some o' ->
  public_params o = public_params o' ->
  Forall (fun k => is_param_name k = true) names ->
  (get_params_loop param_sep vt self deep names out h').1 =
  (get_params_loop param_sep vt self deep names out h).1.
Proof.
  intros Hself Hl Hl' Hpub Hnames. revert out.
  induction Hnames as [|key names Hkey _ IH]; intros out; [done |].
  cbn [get_params_loop].
  rewrite (bind_run_ret _ _ _ _ _ (getattr_default_run _ _ _ key VNone Hl)),
    (bind_run_ret _ _ _ _ _ (getattr_default_run _ _ _ key VNone Hl')).
  rewrite <- !(lookup_public_params _ _ Hkey), <- Hpub.
  apply bind_fst_eq; [| | intros; apply IH].
  - by apply (preserves_expand param_sep vt eq Hro).
  - apply expand_similar. intros l' Hv.
    destruct (public_params o !! key) as [v|] eqn:Hk; [| done].
    simpl in Hv. subst v. by eapply Hc.
Qed.

End Loop.

Context (nt : names_table) `{!NamesOk nt}.

Lemma class_get_param_names_similar depth l :
  P l ->
  (call_get_param_names (class_methods nt depth) l h').1 =
  (call_get_param_names (class_methods nt depth) l h).1.
Proof.
  intros Hl. destruct depth as [|depth]; [done |].
  cbn [class_methods call_get_param_names].
  destruct (similar_cases l Hl) as [(o & o' & Ho & Ho' & Hcls & _) | [Ho Ho']].
  - rewrite !(bind_run_ret _ _ _ _ _ (load_run _ _ _ Ho)),
      !(bind_run_ret _ _ _ _ _ (load_run _ _ _ Ho')), <- Hcls.
    destruct (cls_is_callback (obj_class o)); [| done].
    rewrite !call_def__get_param_names. by apply find_names_similar, Hsim.
  - by rewrite !(bind_run_raise _ _ _ _ _ (load_run_None _ _ Ho)),
      !(bind_run_raise _ _ _ _ _ (load_run_None _ _ Ho')).
Qed.

(** What [get_params] returns or raises on an instance depends on the
    classes and the public attributes of the objects it reaches only. *)
Lemma class_get_params_similar depth l deep :
  P l ->
  (call_get_params (class_methods nt depth) l deep h').1 =
  (call_get_params (class_methods nt depth) l deep h).1.
Proof.
  revert l deep. induction depth as [|depth IH]; intros l deep Hin; [done |].
  cbn [class_methods call_get_params].
  destruct (similar_cases l Hin)
    as [(o & o' & Hl & Hl' & Hcls & Hpub) | [Hl Hl']].
  2: { unfold resolve.
       by rewrite !(bind_run_raise _ _ _ _ _ (load_run_None _ _ Hl)),
         !(bind_run_raise _ _ _ _ _ (load_run_None _ _ Hl')). }
  rewrite (resolve_run _ _ _ _ _ Hl), (resolve_run _ _ _ _ _ Hl'), <- Hcls.
  destruct (cls_is_callback (obj_class o)) eqn:Hcb; [| done].
  rewrite !(call_def_get_params (get_params _ l)).
  unfold get_params, BaseEstimator_get_params.
  apply bind_fst_eq;
    [apply methods_names_read_only
    | by apply class_get_param_names_similar |].
  intros names Hnames.
  apply (get_params_loop_similar _ (fun l deep => methods_get_read_only l deep)
           (fun l Hl0 => IH l true Hl0) l o o'); try done.
  apply Forall_forall. intros k Hk. apply is_param_name_true.
  destruct (call_get_param_names (class_methods nt depth) l h)
    as [r h1] eqn:Hrun. cbn [fst] in Hnames. subst r.
  by destruct (methods_names_settable _ _ _ _ Hrun k Hk) as (? & _ & _ & ?).
Qed.

End Similar.

(** On a closed set whose objects are as they were, [get_params] returns
    what it returned. *)
Lemma class_get_params_agree (R : gset loc) nt `{!NamesOk nt} h h' depth l
    deep :
  closed R h -> (forall l, l ∈ R -> h' !! l = h !! l) -> l ∈ R ->
  (call_get_params (class_methods nt depth) l deep h').1 =
  (call_get_params (class_methods nt depth) l deep h).1.
Proof.
  intros Hc Hagree.
  apply (class_get_params_similar (fun l => l ∈ R)); [| | apply _].
  - intros l0 o k l' Hl0 Ho Hk. unfold public_params in Hk.
    rewrite lookup_filter_keys in Hk.
    destruct (reserved k) eqn:Hres; [done |]. cbn [negb] in Hk.
    pose proof (closed_attr R h l0 o k Hc Hl0 Ho Hres) as Hin.
    by rewrite Hk in Hin.
  - intros l0 Hl0. rewrite (Hagree l0 Hl0).
    destruct (h !! l0); constructor. reflexivity.
Qed.

(** ** Reachability *)

Section Reach.
Context (h : heap).
Implicit Types (R : gset loc) (l : loc) (o : obj).

Lemma elem_of_heirs l l' :
  l' ∈ heirs h l <->
  exists o k, h !! l = Some o /\ (k, VRef l') ∈ items (obj_dict o) /\
              reserved k = false.
Proof.
  unfold heirs. split.
  - destruct (h !! l) as [o|]; [| by intros ?%elem_of_nil].
    intros ([k v] & Hin & Hr)%list_elem_of_omap. exists o, k.
    unfold attr_ref in Hr. cbn [fst snd] in Hr.
    destruct (reserved k), v; naive_solver.
  - intros (o & k & -> & Hin & Hk). apply list_elem_of_omap.
    exists (k, VRef l'). split; [done |]. unfold attr_ref. cbn [fst snd].
    by rewrite Hk.
Qed.

Lemma elem_of_grow R l' :
  l' ∈ grow h R <-> l' ∈ R \/ exists l, l ∈ R /\ l' ∈ heirs h l.
Proof.
  unfold grow. rewrite elem_of_union, elem_of_list_to_set, list_elem_of_bind.
  by setoid_rewrite elem_of_elements; setoid_rewrite (and_comm (_ ∈ heirs _ _)).
Qed.

Lemma closed_heirs R :
  closed R h <-> forall l l', l ∈ R -> l' ∈ heirs h l -> l' ∈ R.
Proof.
  unfold closed, obj_within. split.
  - intros Hc l l' Hl (o & k & Ho & Hin & Hk)%elem_of_heirs.
    pose proof (Hc l o Ho Hl) as Hall. rewrite Forall_forall in Hall.
    by apply (Hall (k, VRef l')).
  - intros Hc l o Ho Hl. apply Forall_forall. intros [k v] Hin Hk.
    destruct v as [| | | |l']; try done. apply (Hc l l' Hl).
    apply elem_of_heirs. by exists o, k.
Qed.

Lemma closed_grow R : closed R h <-> grow h R ⊆ R.
Proof.
  rewrite closed_heirs. split.
  - intros Hc l' [? | (l & ? & ?)]%elem_of_grow; eauto.
  - intros Hg l l' Hl Hin. apply Hg, elem_of_grow. eauto.
Qed.

Lemma grow_closed R : closed R h -> grow h R = R.
Proof.
  intros Hc%closed_grow. apply set_eq. intros l. split; [apply Hc |].
  intros ?. apply elem_of_grow. by left.
Qed.

(** A step that reaches no further object of the heap reaches a closed
    set. *)
Lemma grow_stable R :
  dom h ∖ grow h R = dom h ∖ R -> closed (grow h R) h.
Proof.
  intros Hst. apply closed_heirs. intros l l' Hl Hin.
  apply elem_of_grow. right. exists l. split; [| done].
  apply elem_of_grow in Hl as [? | (l0 & Hl0 & Hin0)]; [done |].
  apply elem_of_heirs in Hin as (o & _ & Ho & _).
  destruct (decide (l ∈ R)) as [? | Hni]; [done |].
  assert (l ∈ dom h ∖ R) as Hd
    by (rewrite elem_of_difference, elem_of_dom; eauto).
  rewrite <- Hst in Hd. apply elem_of_difference in Hd as [_ Hd].
  exfalso. apply Hd, elem_of_grow. eauto.
Qed.

Lemma iter_grow_closed n R :
  size (dom h ∖ R) < n -> closed (Nat.iter n (grow h) R) h.
Proof.
  revert R. induction n as [|n IH]; intros R Hn; [lia |].
  rewrite Nat.iter_succ_r.
  destruct (decide (size (dom h ∖ grow h R) < size (dom h ∖ R))) as [Hlt | Hge].
  { apply IH. lia. }
  assert (closed (grow h R) h) as Hc.
  { apply grow_stable. apply set_subseteq_size_eq.
    - intros l. rewrite !elem_of_difference, elem_of_grow. naive_solver.
    - lia. }
  clear IH Hn Hge. induction n as [|n IHn]; [done |].
  by rewrite Nat.iter_succ_r, grow_closed.
Qed.

Lemma iter_grow_least n R R' :
  R ⊆ R' -> closed R' h -> Nat.iter n (grow h) R ⊆ R'.
Proof.
  intros Hsub Hc. induction n as [|n IH]; [done |]. rewrite Nat.iter_succ.
  etrans; [| by apply closed_grow]. intros l. rewrite !elem_of_grow.
  intros [? | (l0 & ? & ?)]; [left | right; exists l0]; auto.
Qed.

Lemma iter_grow_roots n R : R ⊆ Nat.iter n (grow h) R.
Proof.
  induction n as [|n IH]; [done |]. rewrite Nat.iter_succ.
  etrans; [exact IH |].
  intros l ?. apply elem_of_grow. by left.
Qed.

(** What the iteration holds is reached from a root. *)
Lemma iter_grow_reaches n R l :
  l ∈ Nat.iter n (grow h) R -> exists r, r ∈ R /\ reaches h r l.
Proof.
  revert l. induction n as [|n IH]; intros l;
    [intros ?; exists l; split; [done | constructor] |].
  rewrite Nat.iter_succ.
  intros [Hl | (l' & (r & Hr & Hreach)%IH & Hin)]%elem_of_grow; [by apply IH |].
  exists r. split; [done | by econstructor].
Qed.

End Reach.

(** ** Theorems *)

Section Theorems.
Implicit Types (h : heap) (self l a b : loc) (params : dict value)
  (R roots : gset loc).

(** [reach] computes the least closed set that holds the roots: it holds
    them, it is closed, and every closed set that holds them holds it. *)
Theorem reach_least_closed h roots :
  roots ⊆ reach h roots /\ closed (reach h roots) h /\
  forall R, roots ⊆ R -> closed R h -> reach h roots ⊆ R.
Proof.
  split_and!; [apply iter_grow_roots | | intros R; apply iter_grow_least].
  apply iter_grow_closed. rewrite <- size_dom.
  apply Nat.lt_succ_r, subseteq_size. set_solver.
Qed.

(** [reach] decides reachability: it holds exactly the addresses reached
    from a root along public attributes. *)
Theorem reach_spec h roots l :
  l ∈ reach h roots <-> exists r, r ∈ roots /\ reaches h r l.
Proof.
  destruct (reach_least_closed h roots) as (Hroots & Hc & _).
  split; [apply iter_grow_reaches |]. intros (r & Hr & Hreach).
  induction Hreach as [|r l l' _ IH Hin]; [by apply Hroots |].
  by apply (proj1 (closed_heirs h _) Hc l l' (IH Hr)).
Qed.

Lemma params_within_footprint h self params :
  params_within (footprint h self params) params.
Proof.
  apply Forall_forall. intros [k v] Hin. destruct v as [| | | |l]; try done.
  apply (proj1 (reach_least_closed h _)), elem_of_union. right.
  apply elem_of_list_to_set, list_elem_of_omap. by exists (k, VRef l).
Qed.

(** A computation that is confined to every closed set that holds the
    callback and the references given leaves the objects outside the
    footprint as they were. *)
Lemma confined_footprint {A} (m : M heap A) h self params l :
  (forall R, self ∈ R -> params_within R params -> preserves (confined R) m) ->
  l ∉ footprint h self params -> (m h).2 !! l = h !! l.
Proof.
  intros Hm. destruct (reach_least_closed h ({[self]} ∪ param_refs params))
    as (Hroots & Hc & _).
  apply (Hm (footprint h self params));
    [apply Hroots; set_solver | apply params_within_footprint | exact Hc].
Qed.

(** C11.  [set_params] changes no object outside its footprint: an object
    that is reachable, through public attributes, neither from the
    callback nor from a reference among the given values is after the call
    as it was before, whatever the parameters, the call depth and the
    outcome, for [Callback] and for every subclass that overrides
    [_get_param_names] within the contract. *)
Theorem set_params_footprint nt depth self params h l :
  NamesOk nt -> l ∉ footprint h self params ->
  (call_set_params (class_methods nt depth) self params h).2 !! l = h !! l /\
  (call_set_params (callback_methods depth) self params h).2 !! l = h !! l.
Proof.
  intros Hok Hl.
  split; (apply (confined_footprint _ h self params); [| done]); intros R.
  - by apply class_set_params_confined.
  - apply call_set_params_confined.
Qed.

Lemma class_independent nt `{!NamesOk nt} depth depth' a b params deep h :
  footprint h a params ## reach h {[b]} ->
  (call_get_params (class_methods nt depth') b deep
     (call_set_params (class_methods nt depth) a params h).2).1 =
  (call_get_params (class_methods nt depth') b deep h).1.
Proof.
  intros Hdisj.
  destruct (reach_least_closed h {[b]}) as (Hroots & Hc & _).
  apply (class_get_params_agree (reach h {[b]}));
    [apply _ | done | | set_solver].
  intros l Hl. apply (confined_footprint _ h a params); [| set_solver].
  intros R. by apply class_set_params_confined.
Qed.

(** C12.  Independent callbacks do not interfere: when no object is
    reachable both from the footprint of a call of [set_params] and from
    another callback, the call does not change what [get_params] returns
    or raises on the other callback, with or without [deep], at any call
    depth, for [Callback] and for every subclass that overrides
    [_get_param_names] within the contract. *)
Theorem independent_callbacks nt depth depth' a b params deep h :
  NamesOk nt -> footprint h a params ## reach h {[b]} ->
  (call_get_params (class_methods nt depth') b deep
     (call_set_params (class_methods nt depth) a params h).2).1 =
  (call_get_params (class_methods nt depth') b deep h).1 /\
  (call_get_params (callback_methods depth') b deep
     (call_set_params (callback_methods depth) a params h).2).1 =
  (call_get_params (callback_methods depth') b deep h).1.
Proof.
  intros Hok Hdisj. split; [by apply class_independent |].
  destruct (inherited_names_are_callback_methods depth) as (_ & _ & Hs).
  destruct (inherited_names_are_callback_methods depth') as (_ & Hg & _).
  rewrite <- (Hs a params h), <- !Hg. apply class_independent; [apply _ | done].
Qed.

End Theorems.

(** ** The theorems on the scenario *)

Section Witnesses.

(** [set_params(inner__patience=10)] on the checkpoint at address 2 reaches
    the checkpoint and the early-stopping callback it holds; the callback
    at address 4 is out of its reach. *)
Lemma set_params_footprint_witness :
  ((call_set_params (class_methods scenario_names 4) 2%positive
      (Dict [("inner__patience", VInt 10)]) replaced_scenario).2
     !! 4%positive = replaced_scenario !! 4%positive) /\
  ((call_set_params (callback_methods 4) 2%positive
      (Dict [("inner__patience", VInt 10)]) replaced_scenario).2
     !! 4%positive = replaced_scenario !! 4%positive).
Proof.
  apply (set_params_footprint scenario_names 4 2%positive
           (Dict [("inner__patience", VInt 10)]) replaced_scenario 4%positive).
  - exact scenario_names_ok.
  - by_compute.
Defined.

Lemma independent_callbacks_witness :
  (call_get_params (class_methods scenario_names 2) 4%positive true
     (call_set_params (class_methods scenario_names 4) 2%positive
        (Dict [("inner__patience", VInt 10)]) replaced_scenario).2).1 =
  (call_get_params (class_methods scenario_names 2) 4%positive true
     replaced_scenario).1 /\
  (call_get_params (callback_methods 2) 4%positive true
     (call_set_params (callback_methods 4) 2%positive
        (Dict [("inner__patience", VInt 10)]) replaced_scenario).2).1 =
  (call_get_params (callback_methods 2) 4%positive true replaced_scenario).1.
Proof.
  apply (independent_callbacks scenario_names 4 2 2%positive 4%positive
           (Dict [("inner__patience", VInt 10)]) true replaced_scenario).
  - exact scenario_names_ok.
  - by_compute.
Defined.

End Witnesses.
