(* ===== verification/Hooks.v ===== *)
(** * Hooks: subclasses that override the lifecycle methods

    "All custom callbacks should inherit from this class.  The subclass may
    override any of the [on_...] methods" (base.py, lines 12-15).  A call
    [cb.on_epoch_end(net, ...)] runs the method of the class of [cb] when the
    class defines one, and the method of [Callback] otherwise.  base.py
    defines no subclass: this file is a model of what the docstring
    allows, and its theorems hold of every subclass that keeps the
    contracts below.

    - an [override] is a method of a subclass, with its own [def] and its
      body on the frame of the call; [class_table] records which lifecycle
      methods each class overrides; [find_method] is the lookup of a
      method on the class of an instance, and [call_method] the call: the
      arguments are bound to the parameters of the method found, and its
      body runs;
    - [HooksOk] is the contract on the overriding bodies, parameterised by
      what a body may do to the heap; [owned] is the contract of the
      specification (a hook changes attributes of its own callback only),
      [runtime_only] the stronger discipline of a callback that keeps its
      runtime state in attributes with a trailing underscore;
      [HooksReturn] says that the bodies return, and [HooksExtend] that
      the [def] of an override extends the [def] it overrides, so that the
      trainer can call it as it calls the method of [Callback];
    - the subclasses of the scenario are the early-stopping callback, which
      counts the epochs, and a recorder, which names the loss of the
      context as a parameter of [on_batch_end];
    - the theorems show that a method that is not overridden behaves as the
      one of [Callback], what the body of an override sees of the trainer's
      call, that a call stays within the contract, and that hooks under
      [runtime_only] never change what [get_params] returns. *)

From stdpp Require Import base tactics option list strings gmap.
From S2P Require Import Prelude PyStr PyDict PyObject PyCall Estimator Callback.
From S2P Require Import Calls Reflect Footprint.

(** ** Definitions *)

(** The name of a lifecycle method, as [AttributeError] reports it. *)
Definition method_name (m : lifecycle) : string :=
  match m with
  | Initialize => "initialize"
  | OnTrainBegin => "on_train_begin"
  | OnTrainEnd => "on_train_end"
  | OnEpochBegin => "on_epoch_begin"
  | OnEpochEnd => "on_epoch_end"
  | OnBatchBegin => "on_batch_begin"
  | OnBatchEnd => "on_batch_end"
  | OnGradComputed _ => "on_grad_computed"
  end.

(** An overriding method: its [def] line, and its body on the instance and
    the frame of the call.  The trainer is the local variable [net]; a
    value of the context is a local variable when the [def] names it as a
    parameter, and an item of the [**kwargs] dictionary otherwise. *)
Record override : Type := Override {
  ov_def : signature;
  ov_body : loc -> frame -> M heap value;
}.

(** For each class name, the lifecycle methods the class overrides. *)
Definition class_table : Type := string -> lifecycle -> option override.

(** The table of a program that defines no subclass. *)
Definition no_overrides : class_table := fun _ _ => None.

(** The lifecycle method [m] as [Callback] defines it. *)
Definition inherited (m : lifecycle) : override :=
  Override (def_of (method_of m))
    (fun self fr => call_lifecycle m self (local fr "net") (frame_kwargs fr)).

(** The method found for [m] on an instance of the class named [c]: the one
    of the class when it overrides [m], the one of [Callback] otherwise. *)
Definition find_method (ct : class_table) (c : string) (m : lifecycle)
    : override :=
  default (inherited m) (ct c m).

(** The call of the lifecycle method [m] on [self], with the trainer by
    position and the context [kwargs] by keyword: the method is found on the
    class of [self], the arguments are bound to its parameters, and its body
    runs; an object whose class does not derive from [Callback] has no such
    method. *)
Definition call_method (ct : class_table) (m : lifecycle) (self : loc)
    (net : value) (kwargs : dict value) : M heap value :=
  let! o := load self in
  if cls_is_callback (obj_class o) then
    let method := find_method ct (cls_name (obj_class o)) m in
    call (ov_def method) (ov_body method self)
      (VRef self :: lifecycle_args m net) kwargs
  else raise (AttributeError (method_name m)).

(** What an overriding body may do to the heap, given the instance. *)
Definition discipline : Type := loc -> relation heap.

(** A hook changes its own callback only. *)
Definition owned : discipline := only_changes.

(** Two heaps with the same addresses and, at each, the same parameters. *)
Definition same_params (h h' : heap) : Prop :=
  forall l, option_Forall2 same_obj_params (h !! l) (h' !! l).

(** A hook changes its own callback only, and of it only attributes with a
    trailing underscore (which it may create): the parameters stay. *)
Definition runtime_only : discipline :=
  fun self h h' => only_changes self h h' /\ same_params h h'.

(** The contract: every overriding body follows the discipline. *)
Class HooksOk (R : discipline) (ct : class_table) : Prop :=
  hooks_ok c m ov self fr :
    ct c m = Some ov -> preserves (R self) (ov_body ov self fr).

(** The contract of callbacks that let the run go on: every overriding
    body returns when it is called on an instance of its class. *)
Class HooksReturn (ct : class_table) : Prop :=
  hooks_return m ov self fr h o :
    h !! self = Some o -> ct (cls_name (obj_class o)) m = Some ov ->
    exists v h', ov_body ov self fr h = (Ret v, h').

(** The contract of callbacks that can be called as [Callback] is: the
    [def] of every overriding method extends the [def] of the method it
    overrides. *)
Class HooksExtend (ct : class_table) : Prop :=
  hooks_extend c m ov :
    ct c m = Some ov ->
    sig_wf (ov_def ov) /\ extends (def_of (method_of m)) (ov_def ov).

(** The early-stopping callback of the scenario as a subclass:
    [def initialize(self)] resets the counter, and
    [def on_epoch_end(self, net, **kwargs)] increments it. *)
Definition early_stop_initialize : override :=
  Override (Signature "initialize" [("self", None)] None)
    (fun self _ =>
       let! _ := setattr self "counter_" (VInt 0) in
       ret (VRef self)).

Definition early_stop_on_epoch_end : override :=
  Override
    (Signature "on_epoch_end" [("self", None); ("net", None)] (Some "kwargs"))
    (fun self _ =>
       let! c := getattr_default self "counter_" (VInt 0) in
       let! _ := setattr self "counter_"
                   (match c with VInt n => VInt (n + 1) | _ => VInt 1 end) in
       ret VNone).

(** A callback that records the loss of the last batch, which it names as
    a parameter: [def on_batch_end(self, net, loss=None, **kwargs)] with
    the body [self.loss_ = loss]. *)
Definition Recorder : class_desc := Class "Recorder" true.

Definition recorder_on_batch_end : override :=
  Override
    (Signature "on_batch_end"
       [("self", None); ("net", None); ("loss", Some VNone)] (Some "kwargs"))
    (fun self fr =>
       let! _ := setattr self "loss_" (local fr "loss") in
       ret VNone).

Definition scenario_classes : class_table :=
  fun c m =>
    if decide (c = "EarlyStop") then
      match m with
      | Initialize => Some early_stop_initialize
      | OnEpochEnd => Some early_stop_on_epoch_end
      | _ => None
      end
    else if decide (c = "Recorder") then
      match m with
      | OnBatchEnd => Some recorder_on_batch_end
      | _ => None
      end
    else None.

(** The scenario with a recorder beside the early-stopping callback. *)
Definition recorded_scenario : heap :=
  <[2%positive := Obj Recorder (Dict [("loss_", VNone)])]> scenario.

(** ** Calls *)

Section Calls.
Context (ct : class_table).
Implicit Types (h : heap) (self l : loc) (o : obj) (m : lifecycle)
  (net : value) (kwargs : dict value).

Lemma method_name_def m : method_name m = sig_name (def_of (method_of m)).
Proof. by destruct m. Qed.

(** A call binds the arguments to the parameters of the method found on
    the class of the instance, and runs its body when they fit. *)
Lemma call_method_run m self net kwargs h o :
  h !! self = Some o -> cls_is_callback (obj_class o) = true ->
  dict_wf kwargs ->
  let method := find_method ct (cls_name (obj_class o)) m in
  let args := VRef self :: lifecycle_args m net in
  call_method ct m self net kwargs h =
    if decide (accepts (ov_def method) args kwargs) then
      ov_body method self (frame_of (ov_def method) args kwargs) h
    else (Raise (TypeError (bind_error (ov_def method) args kwargs)), h).
Proof.
  intros Hl Hcb Hwf. unfold call_method.
  rewrite (bind_run_ret _ _ _ _ _ (load_run _ _ _ Hl)), Hcb. cbn zeta.
  case_decide; [by apply call_accepts | by apply call_rejects].
Qed.

(** A method that is not overridden does nothing on a context that
    fits. *)
Lemma call_method_inherited m self net kwargs h o :
  h !! self = Some o -> cls_is_callback (obj_class o) = true ->
  ct (cls_name (obj_class o)) m = None ->
  dict_wf kwargs -> context_fits m kwargs ->
  call_method ct m self net kwargs h = (Ret (lifecycle_result m self), h).
Proof.
  intros Hl Hcb Hov Hwf Hfit. rewrite (call_method_run _ _ _ _ _ _ Hl Hcb Hwf).
  unfold find_method. rewrite Hov. cbn [default inherited ov_def ov_body].
  rewrite decide_True by by apply context_fits_accepts. by destruct m.
Qed.

Section Extend.
Context `{!HooksExtend ct}.

Lemma find_method_extends c m :
  sig_wf (ov_def (find_method ct c m)) /\
  extends (def_of (method_of m)) (ov_def (find_method ct c m)).
Proof.
  unfold find_method.
  destruct (ct c m) as [ov|] eqn:Hov; [by eapply hooks_extend |].
  split; [apply def_of_wf | apply extends_refl].
Qed.

(** A context that fits the method of [Callback] fits every method that
    overrides it. *)
Lemma find_method_accepts c m self net kwargs :
  context_fits m kwargs ->
  accepts (ov_def (find_method ct c m)) (VRef self :: lifecycle_args m net)
    kwargs.
Proof.
  intros Hfit. destruct (find_method_extends c m) as [Hwf Hext].
  eapply extends_accepts; [done | done |]. by apply context_fits_accepts.
Qed.

(** On a context that fits, the call runs the body of the method on the
    frame of the call. *)
Lemma call_method_fits m self net kwargs h o :
  h !! self = Some o -> cls_is_callback (obj_class o) = true ->
  dict_wf kwargs -> context_fits m kwargs ->
  let method := find_method ct (cls_name (obj_class o)) m in
  call_method ct m self net kwargs h =
    ov_body method self
      (frame_of (ov_def method) (VRef self :: lifecycle_args m net) kwargs) h.
Proof.
  intros Hl Hcb Hwf Hfit. rewrite (call_method_run _ _ _ _ _ _ Hl Hcb Hwf).
  cbn zeta. by rewrite decide_True by by apply find_method_accepts.
Qed.

(** A context that does not fit a hook fits no method that overrides it:
    the call raises [TypeError]. *)
Lemma call_method_rejects m self net kwargs h o :
  h !! self = Some o -> cls_is_callback (obj_class o) = true ->
  dict_wf kwargs -> m <> Initialize -> ~ context_fits m kwargs ->
  let method := find_method ct (cls_name (obj_class o)) m in
  call_method ct m self net kwargs h =
    (Raise (TypeError (bind_error (ov_def method)
                         (VRef self :: lifecycle_args m net) kwargs)), h).
Proof.
  intros Hl Hcb Hwf Hm Hfit. rewrite (call_method_run _ _ _ _ _ _ Hl Hcb Hwf).
  cbn zeta. rewrite decide_False; [done |].
  destruct (find_method_extends (cls_name (obj_class o)) m) as [Hsw Hext].
  rewrite (extends_accepts_full _ _ Hsw Hext), <- context_fits_accepts;
    [done | by destruct m | destruct m; [done | by eexists ..]].
Qed.

End Extend.

Lemma call_method_not_callback m self net kwargs h o :
  h !! self = Some o -> cls_is_callback (obj_class o) = false ->
  call_method ct m self net kwargs h =
    (Raise (AttributeError (method_name m)), h).
Proof.
  intros Hl Hcb. unfold call_method.
  by rewrite (bind_run_ret _ _ _ _ _ (load_run _ _ _ Hl)), Hcb.
Qed.

Lemma call_method_dangling m self net kwargs h :
  h !! self = None ->
  call_method ct m self net kwargs h = (Raise DanglingReference, h).
Proof.
  intros Hl. unfold call_method.
  by rewrite (bind_run_raise _ _ _ _ _ (load_run_None _ _ Hl)).
Qed.

(** A call follows the discipline of the bodies. *)
Lemma preserves_call_method (R : discipline) `{!forall l, PreOrder (R l)}
    `{!HooksOk R ct} m self net kwargs :
  preserves (R self) (call_method ct m self net kwargs).
Proof.
  unfold call_method. apply preserves_bind; [apply _ | solve_preserves |].
  intros o. destruct (cls_is_callback (obj_class o)); [| solve_preserves].
  apply preserves_call; [apply _ |]. intros fr. unfold find_method.
  destruct (ct _ m) as [ov|] eqn:Hov; [by eapply hooks_ok |].
  cbn [default inherited ov_body]. destruct m; solve_preserves.
Qed.

End Calls.

(** ** Disciplines *)

#[export] Instance owned_preorder l : PreOrder (owned l).
Proof. apply _. Qed.

#[export] Instance same_params_equiv : Equivalence same_params.
Proof.
  split.
  - intros h l. destruct (h !! l); constructor. reflexivity.
  - intros h h' H l. destruct (H l); constructor. by symmetry.
  - intros h1 h2 h3 H12 H23 l. specialize (H12 l). specialize (H23 l).
    destruct H12; inversion H23; constructor. by etrans.
Qed.

#[export] Instance runtime_only_preorder l : PreOrder (runtime_only l).
Proof.
  split.
  - intros h. split; reflexivity.
  - intros h1 h2 h3 [? ?] [? ?]. split; etrans; eauto.
Qed.

Lemma same_params_lookup h h' l o :
  same_params h h' -> h !! l = Some o ->
  exists o', h' !! l = Some o' /\ same_obj_params o o'.
Proof.
  intros H Hl. specialize (H l). rewrite Hl in H. inversion H; eauto.
Qed.

(** Assigning an attribute with a trailing underscore, new or not, follows
    [runtime_only]. *)
Lemma setattr_runtime_only h self k v :
  reserved k = true -> runtime_only self h (setattr self k v h).2.
Proof.
  intros Hk. split; [apply setattr_only_changes |]. intros l.
  destruct (h !! self) as [o|] eqn:Hl;
    [rewrite (setattr_run _ _ _ _ _ Hl) | rewrite setattr_run_None by done];
    [| reflexivity]. cbn [snd].
  destruct (decide (l = self)) as [-> | Hne];
    [| rewrite lookup_insert_ne by done; reflexivity].
  rewrite lookup_insert_eq, Hl. constructor. split; [done |].
  unfold public_params. cbn [obj_dict].
  by rewrite filter_keys_insert_false by (by rewrite Hk).
Qed.

(** A table under [runtime_only] is a table under [owned]. *)
Lemma runtime_only_owned ct : HooksOk runtime_only ct -> HooksOk owned ct.
Proof. intros Hok c m ov self fr Hov h. by eapply Hok. Qed.

#[export] Instance no_overrides_ok R : HooksOk R no_overrides.
Proof. by intros c m ov self fr. Qed.

(** ** The parameters under hooks *)

(** What [get_params] returns or raises depends on the heap only through
    the classes and the public attributes of its objects. *)
Lemma call_get_params_same h h' :
  same_params h h' ->
  forall depth l deep,
    (call_get_params (callback_methods depth) l deep h).1 =
    (call_get_params (callback_methods depth) l deep h').1.
Proof.
  intros Hsame depth l deep.
  destruct (inherited_names_are_callback_methods depth) as (_ & Hg & _).
  rewrite <- !Hg. symmetry.
  by apply (class_get_params_similar (fun _ => True) h h'); [.. | apply _ |].
Qed.

(** A call of a method under [runtime_only] keeps the classes and the
    public attributes of every object. *)
Lemma call_method_same_params ct `{!HooksOk runtime_only ct} m self net
    kwargs :
  preserves same_params (call_method ct m self net kwargs).
Proof.
  eapply preserves_weaken; [| apply (preserves_call_method ct runtime_only)].
  by intros h1 h2 [_ ?].
Qed.

(** ** The subclasses of the scenario *)

Lemma scenario_classes_inv c m ov :
  scenario_classes c m = Some ov ->
  ov = early_stop_initialize \/ ov = early_stop_on_epoch_end \/
  ov = recorder_on_batch_end.
Proof.
  unfold scenario_classes. repeat case_decide; destruct m; naive_solver.
Qed.

#[export] Instance scenario_classes_ok : HooksOk runtime_only scenario_classes.
Proof.
  intros c m ov self fr Hov.
  assert (forall k v, reserved k = true ->
            preserves (runtime_only self) (setattr self k v)) as Hset
    by (intros k v Hk h; by apply setattr_runtime_only).
  destruct (scenario_classes_inv _ _ _ Hov) as [-> | [-> | ->]];
    cbn [ov_body early_stop_initialize early_stop_on_epoch_end
         recorder_on_batch_end];
    solve_preserves; by apply Hset.
Qed.

#[export] Instance no_overrides_return : HooksReturn no_overrides.
Proof. by intros m ov self fr h o. Qed.

#[export] Instance scenario_classes_return : HooksReturn scenario_classes.
Proof.
  intros m ov self fr h o Hl Hov.
  destruct (scenario_classes_inv _ _ _ Hov) as [-> | [-> | ->]];
    cbn [ov_body early_stop_initialize early_stop_on_epoch_end
         recorder_on_batch_end];
    rewrite ?(bind_run_ret _ _ _ _ _ (getattr_default_run _ _ _ _ _ Hl)),
      (bind_run_ret _ _ _ _ _ (setattr_run _ _ _ _ _ Hl));
    by eexists _, _.
Qed.

#[export] Instance no_overrides_extend : HooksExtend no_overrides.
Proof. by intros c m ov. Qed.

#[export] Instance scenario_classes_extend : HooksExtend scenario_classes.
Proof.
  intros c m ov. unfold scenario_classes.
  repeat case_decide; destruct m; intros [= <-]; split; by_compute.
Qed.

(** ** Theorems *)

Section Theorems.
Implicit Types (h : heap) (self l : loc) (o : obj) (m : lifecycle)
  (net : value) (kwargs : dict value) (ct : class_table).

(** C31.  A method that overrides a lifecycle method with a [def] that
    extends the one of [Callback] is called on every context the method of
    [Callback] takes.  Its body runs on a frame in which [self] is the
    instance and [net] the trainer, a further parameter holds the value the
    context gives under its name, or else its default, and the [**kwargs]
    dictionary holds the rest of the context, in its order. *)
Theorem override_sees_context ct m self o ov net kwargs h :
  HooksExtend ct ->
  h !! self = Some o -> cls_is_callback (obj_class o) = true ->
  ct (cls_name (obj_class o)) m = Some ov ->
  dict_wf kwargs -> context_fits m kwargs ->
  exists fr,
    call_method ct m self net kwargs h = ov_body ov self fr h /\
    local fr "self" = VRef self /\
    (m <> Initialize -> local fr "net" = net) /\
    (forall i p d,
       length (sig_params (def_of (method_of m))) <= i ->
       sig_params (ov_def ov) !! i = Some (p, Some d) ->
       local fr p = default d (kwargs !! p)) /\
    frame_kwargs fr = filter_keys (fun k => negb (named (ov_def ov) k)) kwargs.
Proof.
  intros Hct Hl Hcb Hov Hwf Hfit.
  pose proof (call_method_fits ct m self net kwargs h o Hl Hcb Hwf Hfit) as Hrun.
  destruct (find_method_extends ct (cls_name (obj_class o)) m) as [Hsw Hext].
  unfold find_method in Hrun, Hsw, Hext. rewrite Hov in Hrun, Hsw, Hext.
  cbn [default from_option id] in Hrun, Hsw, Hext.
  eexists. split; [exact Hrun |].
  unfold local. split_and!; [| | | done].
  - rewrite (extends_local _ _ Hsw Hext) by (destruct m; by_compute).
    by rewrite (frame_of_lookup _ _ _ 0 "self" None)
      by (apply def_of_wf || by destruct m).
  - intros Hm. destruct m; [done | ..];
      rewrite (extends_local _ _ Hsw Hext) by by_compute;
      by rewrite (frame_of_lookup _ _ _ 1 "net" None)
        by (apply def_of_wf || done).
  - intros i p d Hi Hp.
    rewrite (extends_further (def_of (method_of m)) _ Hsw _ _ i p d);
      [done | | done].
    split; [| done]. by destruct m.
Qed.

(** When the overriding methods change only attributes with a
    trailing underscore of their own callback, no call of a lifecycle method
    changes what [get_params] returns or raises, on any callback, with or
    without [deep], at any call depth. *)
Theorem hooks_keep_params ct m self net kwargs h depth l deep :
  HooksOk runtime_only ct ->
  (call_get_params (callback_methods depth) l deep
     (call_method ct m self net kwargs h).2).1 =
  (call_get_params (callback_methods depth) l deep h).1.
Proof.
  intros Hok. symmetry. apply call_get_params_same.
  apply (preserves_call_method ct runtime_only m self net kwargs h).
Qed.

(** The early-stopping subclass on the scenario: [on_epoch_end]
    increments [counter_], [initialize] resets it and returns the instance,
    [on_batch_end], which the subclass does not override, does nothing, and
    [get_params] reports [patience] alone throughout. *)
Theorem early_stop_counts :
  let h1 := (call_method scenario_classes OnEpochEnd 1%positive VNone ∅
               scenario).2 in
  let h2 := (call_method scenario_classes OnBatchEnd 1%positive VNone ∅
               h1).2 in
  let r3 := call_method scenario_classes Initialize 1%positive VNone ∅ h2 in
  h1 = {[ 1%positive := Obj EarlyStop
            (Dict [("patience", VInt 5); ("counter_", VInt 1)]) ]} /\
  h2 = h1 /\
  r3 = (Ret (VRef 1%positive), scenario) /\
  call_get_params (callback_methods 2) 1%positive true h1 =
    (Ret (Dict [("patience", VInt 5)]), h1).
Proof. vm_compute. done. Qed.

(** The call of a lifecycle method that the class of the instance does not
    override is the call of the method of [Callback] with the trainer by
    position and the context by keyword, whatever the outcome. *)
Theorem inherited_call_is_invoke (vt : methods) ct m self net kwargs h :
  (forall o, h !! self = Some o -> ct (cls_name (obj_class o)) m = None) ->
  (let! v := call_method ct m self net kwargs in ret (RValue v)) h =
  invoke vt (method_of m) self (lifecycle_args m net) kwargs h.
Proof.
  intros Hinh. unfold call_method, invoke, resolve.
  rewrite (bind_assoc _ _ _ h). destruct (h !! self) as [o|] eqn:Hl.
  - specialize (Hinh o eq_refl).
    rewrite !(bind_run_ret _ _ _ _ _ (load_run _ _ _ Hl)).
    destruct (cls_is_callback (obj_class o));
      [| by rewrite method_name_def].
    unfold find_method. rewrite Hinh. cbn [default inherited ov_def ov_body].
    unfold call, bind, lift_outcome.
    destruct (bind_args _ _ _) as [fr|e]; [| done]. by destruct m.
  - by rewrite !(bind_run_raise _ _ _ _ _ (load_run_None _ _ Hl)).
Qed.

(** The recorder on the scenario: called with the loss in the context,
    [on_batch_end] records it; called without, it records the default; the
    trainer's other context values do not matter. *)
Theorem recorder_records :
  (call_method scenario_classes OnBatchEnd 2%positive (VStr "net")
     (Dict [("loss", VInt 3); ("batch", VInt 0)]) recorded_scenario).2
    !! 2%positive = Some (Obj Recorder (Dict [("loss_", VInt 3)])) /\
  (call_method scenario_classes OnBatchEnd 2%positive (VStr "net")
     (Dict [("batch", VInt 0)]) recorded_scenario).2
    !! 2%positive = Some (Obj Recorder (Dict [("loss_", VNone)])).
Proof. by vm_compute. Qed.

End Theorems.

(** ** The theorems on the scenario *)

Section Witnesses.

(** The recorder called with [loss=3] and [batch=0] in the context. *)
Lemma override_sees_context_witness :
  exists fr,
    call_method scenario_classes OnBatchEnd 2%positive (VStr "net")
      (Dict [("loss", VInt 3); ("batch", VInt 0)]) recorded_scenario =
      ov_body recorder_on_batch_end 2%positive fr recorded_scenario /\
    local fr "self" = VRef 2%positive /\
    (OnBatchEnd <> Initialize -> local fr "net" = VStr "net") /\
    (forall i p d,
       length (sig_params (def_of (method_of OnBatchEnd))) <= i ->
       sig_params (ov_def recorder_on_batch_end) !! i = Some (p, Some d) ->
       local fr p =
         default d (Dict [("loss", VInt 3); ("batch", VInt 0)] !! p)) /\
    frame_kwargs fr =
      filter_keys (fun k => negb (named (ov_def recorder_on_batch_end) k))
        (Dict [("loss", VInt 3); ("batch", VInt 0)]).
Proof.
  apply (override_sees_context scenario_classes OnBatchEnd 2%positive
           (Obj Recorder (Dict [("loss_", VNone)])) recorder_on_batch_end
           (VStr "net") (Dict [("loss", VInt 3); ("batch", VInt 0)])
           recorded_scenario).
  - exact scenario_classes_extend.
  - reflexivity.
  - reflexivity.
  - reflexivity.
  - by_compute.
  - by_compute.
Defined.

Lemma hooks_keep_params_witness :
  (call_get_params (callback_methods 2) 1%positive true
     (call_method scenario_classes OnEpochEnd 1%positive VNone ∅
        scenario).2).1 =
  (call_get_params (callback_methods 2) 1%positive true scenario).1.
Proof.
  apply (hooks_keep_params scenario_classes OnEpochEnd 1%positive VNone ∅
           scenario 2 1%positive true).
  exact scenario_classes_ok.
Defined.

End Witnesses.
