(* ===== verification/Trainer.v ===== *)
(** * Trainer: the caller of the hooks

    The training loop is not part of the repository; the specification
    describes it as the consumer of the callbacks: it holds an ordered
    sequence of callback instances, calls [initialize] on each of them when
    it is (re)initialized, and calls their hooks at fixed points of a run,
    in the order of the sequence; an exception raised by a hook propagates
    to the caller.  This file models that much of it, from the
    specification:

    - [notify] calls one lifecycle method on every callback of the sequence;
      [initialize_callbacks] calls [initialize] and collects what it
      returns;
    - [action] is what the trainer does at one point of a run (a
      notification, the computation of the gradients, the update of the
      parameters), [fit_actions] the actions of a whole run over given
      epochs and batches, [run] their execution on the heap of callbacks
      (the trainer's own work leaves the callbacks alone);
    - [phase] and [step] are the protocol of a run as a state machine, and
      [steps] its traces;

    - [alive] and [run_context] say when the trainer's calls reach the
      bodies of the methods (the callbacks are callbacks of the heap, the
      context names no parameter of a hook), and [finish] is the rest of
      a run from a point of the protocol.

    The theorems relate them: what a notification does to the heap under
    the contracts of [Hooks], that [fit_actions] follows the protocol, what
    the protocol guarantees about the place of [on_grad_computed] in a run,
    and that a run returns, and can be finished from every point it has
    come to, when the overriding methods keep their contracts. *)

From stdpp Require Import base tactics option list strings gmap.
From S2P Require Import Prelude PyStr PyDict PyObject PyCall Estimator Callback.
From S2P Require Import Calls Hooks.

#[local] Set Warnings "-clear-no-such-hyp".

(** ** Definitions *)

(** [for cb in callbacks: cb.m(net, kwargs)]. *)
Fixpoint notify (ct : class_table) (m : lifecycle) (callbacks : list loc)
    (net : value) (kwargs : dict value) : M heap unit :=
  match callbacks with
  | [] => ret tt
  | cb :: callbacks' =>
      let! _ := call_method ct m cb net kwargs in
      notify ct m callbacks' net kwargs
  end.

(** [[cb.initialize() for cb in callbacks]]. *)
Fixpoint initialize_callbacks (ct : class_table) (callbacks : list loc)
    : M heap (list value) :=
  match callbacks with
  | [] => ret []
  | cb :: callbacks' =>
      let! v := call_method ct Initialize cb VNone ∅ in
      let! vs := initialize_callbacks ct callbacks' in
      ret (v :: vs)
  end.

(** Two heaps that agree outside the addresses [L]. *)
Definition changes_only (L : list loc) (h h' : heap) : Prop :=
  forall l, l ∉ L -> h !! l = h' !! l.

(** A callback of the heap whose class does not override [m]. *)
Definition inherits (ct : class_table) (m : lifecycle) (h : heap)
    (cb : loc) : Prop :=
  exists o, h !! cb = Some o /\ cls_is_callback (obj_class o) = true /\
    ct (cls_name (obj_class o)) m = None.

(** What the trainer does at one point of a run. *)
Inductive action : Type :=
| Notify (m : lifecycle)
| ComputeGradients
| UpdateParameters.

(** The actions of one batch whose gradients are [named_parameters]. *)
Definition batch_actions (named_parameters : value) : list action :=
  [Notify OnBatchBegin; ComputeGradients;
   Notify (OnGradComputed named_parameters); UpdateParameters;
   Notify OnBatchEnd].

(** The actions of one epoch, given the gradients of its batches. *)
Definition epoch_actions (batches : list value) : list action :=
  Notify OnEpochBegin :: (batches ≫= batch_actions) ++ [Notify OnEpochEnd].

(** The actions of one run, given the batches of its epochs. *)
Definition fit_actions (epochs : list (list value)) : list action :=
  Notify OnTrainBegin :: (epochs ≫= epoch_actions) ++ [Notify OnTrainEnd].

(** One action on the heap of callbacks: a notification reaches the
    callbacks, the trainer's own work does not. *)
Definition perform (ct : class_table) (callbacks : list loc) (net : value)
    (kwargs : dict value) (a : action) : M heap unit :=
  match a with
  | Notify m => notify ct m callbacks net kwargs
  | ComputeGradients | UpdateParameters => ret tt
  end.

(** The actions in order; the first exception ends the run. *)
Fixpoint run (ct : class_table) (callbacks : list loc) (net : value)
    (kwargs : dict value) (actions : list action) : M heap unit :=
  match actions with
  | [] => ret tt
  | a :: actions' =>
      let! _ := perform ct callbacks net kwargs a in
      run ct callbacks net kwargs actions'
  end.

(** [fit]: a whole run. *)
Definition fit (ct : class_table) (callbacks : list loc) (net : value)
    (kwargs : dict value) (epochs : list (list value)) : M heap unit :=
  run ct callbacks net kwargs (fit_actions epochs).

(** The points of a run between two actions. *)
Inductive phase : Type :=
| Idle
| InTraining
| InEpoch
| InBatch
| HasGradients
| Notified
| Updated.

#[export] Instance phase_eq_dec : EqDecision phase.
Proof. solve_decision. Defined.

(** The protocol: which action the trainer may take at which point. *)
Inductive step : phase -> action -> phase -> Prop :=
| step_initialize : step Idle (Notify Initialize) Idle
| step_train_begin : step Idle (Notify OnTrainBegin) InTraining
| step_epoch_begin : step InTraining (Notify OnEpochBegin) InEpoch
| step_batch_begin : step InEpoch (Notify OnBatchBegin) InBatch
| step_gradients : step InBatch ComputeGradients HasGradients
| step_grad_computed np :
    step HasGradients (Notify (OnGradComputed np)) Notified
| step_update : step Notified UpdateParameters Updated
| step_batch_end : step Updated (Notify OnBatchEnd) InEpoch
| step_epoch_end : step InEpoch (Notify OnEpochEnd) InTraining
| step_train_end : step InTraining (Notify OnTrainEnd) Idle.

(** The traces of the protocol. *)
Inductive steps : phase -> list action -> phase -> Prop :=
| steps_nil p : steps p [] p
| steps_cons p a q actions r :
    step p a q -> steps q actions r -> steps p (a :: actions) r.

(** The protocol as a function: the point after an action, when the action
    is allowed. *)
Definition next (p : phase) (a : action) : option phase :=
  match p, a with
  | Idle, Notify Initialize => Some Idle
  | Idle, Notify OnTrainBegin => Some InTraining
  | InTraining, Notify OnEpochBegin => Some InEpoch
  | InEpoch, Notify OnBatchBegin => Some InBatch
  | InBatch, ComputeGradients => Some HasGradients
  | HasGradients, Notify (OnGradComputed _) => Some Notified
  | Notified, UpdateParameters => Some Updated
  | Updated, Notify OnBatchEnd => Some InEpoch
  | InEpoch, Notify OnEpochEnd => Some InTraining
  | InTraining, Notify OnTrainEnd => Some Idle
  | _, _ => None
  end.

(** The point a trace leads to, when every action of it is allowed. *)
Fixpoint follow (p : phase) (actions : list action) : option phase :=
  match actions with
  | [] => Some p
  | a :: actions' =>
      match next p a with
      | Some q => follow q actions'
      | None => None
      end
  end.

(** Whether an action notifies [on_grad_computed]. *)
Definition is_grad_computed (a : action) : bool :=
  match a with Notify (OnGradComputed _) => true | _ => false end.

(** Whether an action notifies [on_batch_begin]. *)
Definition is_batch_begin (a : action) : bool :=
  match a with Notify OnBatchBegin => true | _ => false end.

(** The batches begun whose gradients have not been notified yet: one
    between [on_batch_begin] and [on_grad_computed], none elsewhere. *)
Definition pending (p : phase) : nat :=
  match p with InBatch | HasGradients => 1 | _ => 0 end.

(** The callbacks of the trainer are callbacks of the heap. *)
Definition alive (callbacks : list loc) (h : heap) : Prop :=
  Forall (fun cb => exists o, h !! cb = Some o /\
                      cls_is_callback (obj_class o) = true) callbacks.

(** A context that fits every hook: no keyword names a parameter of a
    hook. *)
Definition run_context (kwargs : dict value) : Prop :=
  dict_wf kwargs /\
  Forall (fun k => k ∉ ["self"; "net"; "named_parameters"]) (keys kwargs).

(** An action whose notification, if it is one, fits the context. *)
Definition action_fits (kwargs : dict value) (a : action) : Prop :=
  match a with Notify m => context_fits m kwargs | _ => True end.

(** What is left of a batch, an epoch and a run at a point of the protocol:
    the actions that lead back to [Idle]. *)
Definition finish (p : phase) (named_parameters : value) : list action :=
  drop (match p with
        | InBatch => 0 | HasGradients => 1 | Notified => 2 | Updated => 3
        | InEpoch => 4 | InTraining => 5 | Idle => 6
        end)
       [ComputeGradients; Notify (OnGradComputed named_parameters);
        UpdateParameters; Notify OnBatchEnd; Notify OnEpochEnd;
        Notify OnTrainEnd].

(** The scenario with, at address 2, an object whose class does not derive
    from [Callback]. *)
Definition mixed_scenario : heap :=
  <[2%positive := Obj (Class "Plain" false) ∅]> scenario.

(** The early-stopping callback of the scenario after [n] epochs. *)
Definition early_stop_after (n : Z) : heap :=
  {[ 1%positive := Obj EarlyStop
       (Dict [("patience", VInt 5); ("counter_", VInt n)]) ]}.

(** ** Notification *)

#[export] Instance changes_only_preorder L : PreOrder (changes_only L).
Proof.
  split.
  - by intros h l.
  - intros h1 h2 h3 H12 H23 l Hl. by rewrite H12, H23.
Qed.

Section Notify.
Context (ct : class_table).
Implicit Types (h : heap) (cb l : loc) (callbacks pre post : list loc)
  (m : lifecycle) (net : value) (kwargs : dict value)
  (actions : list action).

Lemma notify_cons_run m cb callbacks net kwargs h v h1 :
  call_method ct m cb net kwargs h = (Ret v, h1) ->
  notify ct m (cb :: callbacks) net kwargs h =
    notify ct m callbacks net kwargs h1.
Proof. intros Hrun. cbn [notify]. by rewrite (bind_run_ret _ _ _ _ _ Hrun). Qed.

(** Notifying a sequence is notifying its parts in order. *)
Lemma notify_app m pre post net kwargs :
  notify ct m (pre ++ post) net kwargs =m=
  (let! _ := notify ct m pre net kwargs in notify ct m post net kwargs).
Proof.
  induction pre as [|cb pre IH]; intros h; [reflexivity |].
  cbn [app notify]. unfold meq, bind in *.
  destruct (call_method ct m cb net kwargs h) as [[v|e] h1]; [apply IH | done].
Qed.

(** A notification keeps what every call of the method keeps. *)
Lemma preserves_notify (R : relation heap) `{!PreOrder R} m callbacks net
    kwargs :
  (forall cb, cb ∈ callbacks -> preserves R (call_method ct m cb net kwargs)) ->
  preserves R (notify ct m callbacks net kwargs).
Proof.
  induction callbacks as [|cb callbacks IH]; intros Hcalls;
    [solve_preserves |].
  apply preserves_bind; [done | apply Hcalls; by left |].
  intros _. apply IH. intros cb' Hin. apply Hcalls. by right.
Qed.

Lemma preserves_initialize_callbacks (R : relation heap) `{!PreOrder R}
    callbacks :
  (forall cb, cb ∈ callbacks ->
     preserves R (call_method ct Initialize cb VNone ∅)) ->
  preserves R (initialize_callbacks ct callbacks).
Proof.
  induction callbacks as [|cb callbacks IH]; intros Hcalls;
    [solve_preserves |].
  apply preserves_bind; [done | apply Hcalls; by left |].
  intros v. apply preserves_bind; [done | | solve_preserves].
  apply IH. intros cb' Hin. apply Hcalls. by right.
Qed.

Lemma preserves_run (R : relation heap) `{!PreOrder R} callbacks net kwargs
    actions :
  (forall m cb, cb ∈ callbacks ->
     preserves R (call_method ct m cb net kwargs)) ->
  preserves R (run ct callbacks net kwargs actions).
Proof.
  intros Hcalls. induction actions as [|a actions IH]; [solve_preserves |].
  apply preserves_bind; [done | | by intros _].
  destruct a; [by apply preserves_notify; auto | |]; solve_preserves.
Qed.

(** A method that no callback of the sequence overrides: the notification
    does nothing. *)
Lemma notify_inherited m callbacks net kwargs h :
  dict_wf kwargs -> context_fits m kwargs ->
  Forall (inherits ct m h) callbacks ->
  notify ct m callbacks net kwargs h = (Ret tt, h).
Proof.
  intros Hwf Hfit.
  induction 1 as [|cb callbacks (o & Hl & Hcb & Hov) _ IH]; [done |].
  rewrite (notify_cons_run m cb callbacks net kwargs h
             (lifecycle_result m cb) h); [exact IH |].
  by apply (call_method_inherited _ _ _ _ _ _ o).
Qed.

Lemma initialize_callbacks_inherited callbacks h :
  Forall (inherits ct Initialize h) callbacks ->
  initialize_callbacks ct callbacks h = (Ret (VRef <$> callbacks), h).
Proof.
  induction 1 as [|cb callbacks (o & Hl & Hcb & Hov) _ IH]; [done |].
  cbn [initialize_callbacks].
  erewrite bind_run_ret;
    [| by apply (call_method_inherited _ Initialize _ _ _ _ o Hl Hcb Hov
                   dict_wf_empty)].
  by rewrite (bind_run_ret _ _ _ _ _ IH).
Qed.

(** *** Runs that return *)

Lemma alive_same_params callbacks h h' :
  same_params h h' -> alive callbacks h -> alive callbacks h'.
Proof.
  intros Hsame Halive. eapply Forall_impl; [exact Halive |].
  intros cb (o & Hl & Hcb).
  destruct (same_params_lookup _ _ _ _ Hsame Hl) as (o' & Hl' & Hc & _).
  exists o'. by rewrite <- Hc.
Qed.

(** The context of a run fits every hook. *)
Lemma run_context_fits m kwargs :
  run_context kwargs -> m <> Initialize -> context_fits m kwargs.
Proof.
  intros [_ Hall] Hm. destruct m; try done; cbn [context_fits];
    (eapply Forall_impl; [exact Hall |]); intros k Hk Hin; apply Hk;
    set_solver.
Qed.

Section Returns.
Context `{!HooksOk runtime_only ct} `{!HooksReturn ct} `{!HooksExtend ct}.

(** Under the three contracts a call on a callback returns and keeps the
    classes and the parameters of the heap. *)
Lemma call_method_returns m cb net kwargs h o :
  h !! cb = Some o -> cls_is_callback (obj_class o) = true ->
  dict_wf kwargs -> context_fits m kwargs ->
  exists v h', call_method ct m cb net kwargs h = (Ret v, h') /\
    same_params h h'.
Proof.
  intros Hl Hcb Hwf Hfit.
  pose proof (preserves_call_method ct runtime_only m cb net kwargs h)
    as [_ Hsame].
  destruct (ct (cls_name (obj_class o)) m) as [ov|] eqn:Hov;
    [| rewrite (call_method_inherited _ _ _ _ _ _ o) by done; by eexists _, _].
  rewrite (call_method_fits _ _ _ _ _ _ o) in Hsame |- * by done.
  unfold find_method in Hsame |- *. rewrite Hov in Hsame |- *.
  destruct (hooks_return m ov cb
              (frame_of (ov_def ov) (VRef cb :: lifecycle_args m net) kwargs)
              h o Hl Hov) as (v & h' & Hrun).
  cbn [default from_option id] in Hsame |- *.
  rewrite Hrun in Hsame |- *. by exists v, h'.
Qed.

Lemma notify_returns m callbacks net kwargs h :
  dict_wf kwargs -> context_fits m kwargs -> alive callbacks h ->
  exists h', notify ct m callbacks net kwargs h = (Ret tt, h') /\
    same_params h h'.
Proof.
  intros Hwf Hfit. revert h.
  induction callbacks as [|cb callbacks IH]; intros h Halive;
    [by exists h |].
  pose proof (Forall_inv Halive) as (o & Hl & Hcb).
  destruct (call_method_returns m cb net kwargs h o Hl Hcb Hwf Hfit)
    as (v & h1 & Hrun & Hsame).
  destruct (IH h1) as (h' & Hrest & Hsame');
    [eapply alive_same_params, Forall_inv_tail; done |].
  exists h'. rewrite (notify_cons_run _ _ _ _ _ _ _ _ Hrun).
  split; [done | by etrans].
Qed.

Lemma run_returns callbacks net kwargs actions h :
  dict_wf kwargs -> Forall (action_fits kwargs) actions ->
  alive callbacks h ->
  exists h', run ct callbacks net kwargs actions h = (Ret tt, h') /\
    same_params h h'.
Proof.
  intros Hwf Hall. revert h.
  induction Hall as [|a actions Ha _ IH]; intros h Halive; [by exists h |].
  assert (exists h1, perform ct callbacks net kwargs a h = (Ret tt, h1) /\
            same_params h h1) as (h1 & Hrun & Hsame).
  { destruct a; [by apply notify_returns | by exists h..]. }
  destruct (IH h1) as (h' & Hrest & Hsame'); [by eapply alive_same_params |].
  exists h'. cbn [run]. rewrite (bind_run_ret _ _ _ _ _ Hrun).
  split; [done | by etrans].
Qed.

End Returns.

End Notify.

(** ** The protocol *)

Section Protocol.
Implicit Types (p q r : phase) (a : action) (actions pre post : list action).

Lemma next_step p a q : next p a = Some q <-> step p a q.
Proof.
  split.
  - destruct p, a as [[]| |]; intros [= <-]; constructor.
  - by destruct 1.
Qed.

Lemma follow_steps p actions q : follow p actions = Some q <-> steps p actions q.
Proof.
  revert p. induction actions as [|a actions IH]; intros p; cbn [follow].
  - split; [intros [= <-]; constructor | by inversion 1].
  - split.
    + destruct (next p a) as [r|] eqn:Hn; [| done].
      intros Hf. econstructor; [by apply next_step | by apply IH].
    + inversion 1 as [|? ? r ? ? Hs Hss]; subst.
      apply next_step in Hs. rewrite Hs. by apply IH.
Qed.

Lemma follow_app p pre post :
  follow p (pre ++ post) = follow p pre ≫= fun q => follow q post.
Proof.
  revert p. induction pre as [|a pre IH]; intros p; [done |].
  cbn [app follow]. destruct (next p a); [apply IH | done].
Qed.

Lemma steps_app_inv p pre post q :
  steps p (pre ++ post) q -> exists r, steps p pre r /\ steps r post q.
Proof.
  rewrite <- follow_steps, follow_app.
  destruct (follow p pre) as [r|] eqn:Hpre; [| done].
  intros Hpost. exists r. by rewrite <- !follow_steps.
Qed.

Lemma steps_snoc_inv p pre a q :
  steps p (pre ++ [a]) q -> exists r, steps p pre r /\ step r a q.
Proof.
  intros (r & Hpre & Hlast)%steps_app_inv. exists r. split; [done |].
  inversion Hlast as [|? ? ? ? ? Hs Hnil]; subst. by inversion Hnil; subst.
Qed.

(** The batches of an epoch lead from the epoch back into it. *)
Lemma follow_batches batches :
  follow InEpoch (batches ≫= batch_actions) = Some InEpoch.
Proof.
  induction batches as [|np batches IH]; [done |].
  by rewrite bind_cons, follow_app.
Qed.

Lemma follow_epoch batches :
  follow InTraining (epoch_actions batches) = Some InTraining.
Proof.
  unfold epoch_actions. cbn [follow next].
  by rewrite follow_app, follow_batches.
Qed.

Lemma follow_epochs epochs :
  follow InTraining (epochs ≫= epoch_actions) = Some InTraining.
Proof.
  induction epochs as [|batches epochs IH]; [done |].
  by rewrite bind_cons, follow_app, follow_epoch.
Qed.

Lemma steps_count p actions q :
  steps p actions q ->
  length (filter (fun a => is_batch_begin a = true) actions) + pending p =
  length (filter (fun a => is_grad_computed a = true) actions) + pending q.
Proof.
  induction 1 as [p | p a q actions r Hs _ IH]; [done |].
  rewrite !filter_cons. destruct Hs; simpl in *; lia.
Qed.

(** From every point of the protocol the rest of the run leads back to
    [Idle]. *)
Lemma follow_finish p np : follow p (finish p np) = Some Idle.
Proof. by destruct p. Qed.

Lemma steps_app p pre q post r :
  steps p pre q -> steps q post r -> steps p (pre ++ post) r.
Proof.
  rewrite <- !follow_steps, follow_app. by intros ->.
Qed.

End Protocol.

(** The actions of a run and of what is left of a run fit the context of a
    run. *)
Lemma fit_actions_fit kwargs epochs :
  run_context kwargs -> Forall (action_fits kwargs) (fit_actions epochs).
Proof.
  intros Hctx.
  assert (forall m, m <> Initialize -> action_fits kwargs (Notify m)) as Hm
    by (intros m; by apply run_context_fits).
  unfold fit_actions, epoch_actions, batch_actions.
  repeat first [ apply Forall_cons; split; [by auto |]
               | apply Forall_app; split
               | apply Forall_bind, Forall_true; intros ?
               | apply Forall_nil_2 ].
Qed.

Lemma finish_fit kwargs p np :
  run_context kwargs -> Forall (action_fits kwargs) (finish p np).
Proof.
  intros Hctx.
  assert (forall m, m <> Initialize -> action_fits kwargs (Notify m)) as Hm
    by (intros m; by apply run_context_fits).
  destruct p; cbn [finish drop]; repeat constructor; by auto.
Qed.

(** ** Theorems *)

Section Theorems.
Implicit Types (ct : class_table) (h : heap) (cb l : loc)
  (callbacks pre post : list loc) (m : lifecycle) (net : value)
  (kwargs : dict value) (epochs : list (list value)).

(** Notifying callbacks whose classes do not override the method is a
    no-op: the heap is unchanged and nothing is raised, however many
    callbacks the sequence holds, whatever the trainer and a context that
    fits. *)
Theorem notify_inherited_does_nothing ct m callbacks net kwargs h :
  dict_wf kwargs -> context_fits m kwargs ->
  Forall (inherits ct m h) callbacks ->
  notify ct m callbacks net kwargs h = (Ret tt, h).
Proof. apply notify_inherited. Qed.

(** Callbacks are notified in the order of the sequence, and an
    exception raised by one of them ends the notification: the callbacks
    before it have been notified and keep what they did, those after it are
    not called, and the exception reaches the caller. *)
Theorem notify_stops_at_first_exception ct m pre cb post net kwargs h h1 e h2 :
  notify ct m pre net kwargs h = (Ret tt, h1) ->
  call_method ct m cb net kwargs h1 = (Raise e, h2) ->
  notify ct m (pre ++ cb :: post) net kwargs h = (Raise e, h2).
Proof.
  intros Hpre Hcb. rewrite notify_app, (bind_run_ret _ _ _ _ _ Hpre).
  cbn [notify]. by rewrite (bind_run_raise _ _ _ _ _ Hcb).
Qed.

(** When every overriding method changes its own callback only, a
    whole run, whether it ends or raises, leaves every object that is not
    one of the trainer's callbacks as it was. *)
Theorem fit_changes_callbacks_only ct callbacks net kwargs epochs h l :
  HooksOk owned ct -> l ∉ callbacks ->
  (fit ct callbacks net kwargs epochs h).2 !! l = h !! l.
Proof.
  intros Hok Hl. symmetry.
  apply (preserves_run ct (changes_only callbacks)); [| done].
  intros m cb Hcb. eapply preserves_weaken;
    [| apply (preserves_call_method ct owned)].
  intros h1 h2 Hown l' Hl'. apply Hown. by intros ->.
Qed.

(** When every overriding method changes only attributes with a
    trailing underscore of its own callback, a whole run, whether it ends
    or raises, changes no parameter: [get_params] returns or raises after
    the run what it did before, on every callback. *)
Theorem fit_keeps_params ct callbacks net kwargs epochs h depth l deep :
  HooksOk runtime_only ct ->
  (call_get_params (callback_methods depth) l deep
     (fit ct callbacks net kwargs epochs h).2).1 =
  (call_get_params (callback_methods depth) l deep h).1.
Proof.
  intros Hok. symmetry. apply call_get_params_same.
  apply (preserves_run ct same_params).
  intros m cb _. by apply call_method_same_params.
Qed.

(** (Re)initialization: when no class overrides [initialize], the
    trainer gets back its callbacks, the same instances in the same order,
    and the heap is unchanged. *)
Theorem initialize_callbacks_returns_instances ct callbacks h :
  Forall (inherits ct Initialize h) callbacks ->
  initialize_callbacks ct callbacks h = (Ret (VRef <$> callbacks), h).
Proof. apply initialize_callbacks_inherited. Qed.

(** The function [follow] decides the protocol: it returns a phase
    exactly for the traces of the step relation. *)
Theorem follow_decides_protocol p actions q :
  follow p actions = Some q <-> steps p actions q.
Proof. apply follow_steps. Qed.

(** In every trace of the protocol from [Idle], a notification of
    [on_grad_computed] comes directly after the computation of the
    gradients, and what follows it, if anything, is the update of the
    parameters. *)
Theorem grad_computed_between_gradients_and_update (pre post : list action)
    np q :
  steps Idle (pre ++ Notify (OnGradComputed np) :: post) q ->
  last pre = Some ComputeGradients /\
  (post = [] \/ exists rest : list action, post = UpdateParameters :: rest).
Proof.
  intros (r & Hpre & Hpost)%steps_app_inv.
  inversion Hpost as [|? ? r' ? ? Hs Hrest]; subst. inversion Hs; subst.
  split.
  - destruct pre as [|a pre _] using rev_ind; [by inversion Hpre |].
    apply steps_snoc_inv in Hpre as (r & _ & Hlast).
    inversion Hlast; subst. by rewrite last_snoc.
  - inversion Hrest as [|? ? ? ? ? Hs' _]; subst; [by left |].
    inversion Hs'; subst. right. by eexists.
Qed.

(** In every trace of the protocol from [Idle] back to [Idle],
    [on_grad_computed] is notified exactly once per batch. *)
Theorem grad_computed_once_per_batch actions :
  steps Idle actions Idle ->
  length (filter (fun a => is_grad_computed a = true) actions) =
  length (filter (fun a => is_batch_begin a = true) actions).
Proof. intros Hcount%steps_count. simpl in Hcount. lia. Qed.

(** C36.  A run returns: when every overriding method returns, changes
    only attributes with a trailing underscore of its own callback and has
    a [def] that extends the one it overrides, and the context names no
    parameter of a hook of [Callback], [fit] over any epochs and batches
    notifies the callbacks to the end and returns, and the callbacks keep
    their classes and parameters. *)
Theorem fit_returns ct callbacks net kwargs epochs h :
  HooksOk runtime_only ct -> HooksReturn ct -> HooksExtend ct ->
  run_context kwargs -> alive callbacks h ->
  exists h', fit ct callbacks net kwargs epochs h = (Ret tt, h') /\
    same_params h h'.
Proof.
  intros Hok Hret Hext Hctx Halive.
  apply (run_returns ct); [apply Hctx | by apply fit_actions_fit | done].
Qed.

(** A run that has come to any point of the protocol can be finished:
    what is left of the batch, the epoch and the run, at most six actions,
    leads back to [Idle], and under the contracts of [fit_returns] the
    trainer performs it to the end. *)
Theorem run_can_finish ct callbacks net kwargs (past : list action)
    (p : phase) (np : value) h :
  HooksOk runtime_only ct -> HooksReturn ct -> HooksExtend ct ->
  run_context kwargs -> alive callbacks h ->
  steps Idle past p ->
  steps Idle (past ++ finish p np) Idle /\
  length (finish p np) <= 6 /\
  exists h', run ct callbacks net kwargs (finish p np) h = (Ret tt, h').
Proof.
  intros Hok Hret Hext Hctx Halive Hpre. split_and!.
  - eapply steps_app; [done |]. apply follow_steps, follow_finish.
  - destruct p; simpl; lia.
  - destruct (run_returns ct callbacks net kwargs (finish p np) h)
      as (h' & Hrun & _); [apply Hctx | by apply finish_fit | done |].
    by exists h'.
Qed.

(** The early-stopping subclass through a run of two epochs, of two
    batches and of one: [on_epoch_end] has counted the epochs, the
    parameter [patience] is as it was, nothing is raised. *)
Theorem early_stop_fit :
  fit scenario_classes [1%positive] VNone ∅ [[VNone; VNone]; [VNone]]
    scenario = (Ret tt, early_stop_after 2).
Proof. vm_compute. done. Qed.

End Theorems.

(** ** The theorems on the scenario *)

Section Witnesses.

Lemma scenario_inherits m :
  scenario_classes "EarlyStop" m = None ->
  Forall (inherits scenario_classes m scenario) [1%positive; 1%positive].
Proof.
  intros Hov. repeat constructor; by exists early_stop.
Defined.

Lemma notify_inherited_does_nothing_witness :
  notify scenario_classes OnBatchEnd [1%positive; 1%positive] VNone ∅
    scenario = (Ret tt, scenario).
Proof.
  apply (notify_inherited_does_nothing scenario_classes OnBatchEnd
           [1%positive; 1%positive] VNone ∅ scenario);
    [by_compute | by_compute |].
  by apply scenario_inherits.
Defined.

(** The callback at 1 is notified, the object at 2 has no hook, the
    callback at 1 is not notified a second time. *)
Lemma notify_stops_at_first_exception_witness :
  notify scenario_classes OnEpochEnd [1%positive; 2%positive; 1%positive]
    VNone ∅ mixed_scenario =
  (Raise (AttributeError "on_epoch_end"),
   <[2%positive := Obj (Class "Plain" false) ∅]> (early_stop_after 1)).
Proof.
  apply (notify_stops_at_first_exception scenario_classes OnEpochEnd
           [1%positive] 2%positive [1%positive] VNone ∅ mixed_scenario
           (<[2%positive := Obj (Class "Plain" false) ∅]> (early_stop_after 1))).
  - vm_compute. reflexivity.
  - vm_compute. reflexivity.
Defined.

Lemma fit_changes_callbacks_only_witness :
  (fit scenario_classes [1%positive] VNone ∅ [[VNone]] mixed_scenario).2
    !! 2%positive = mixed_scenario !! 2%positive.
Proof.
  apply (fit_changes_callbacks_only scenario_classes [1%positive] VNone ∅
           [[VNone]] mixed_scenario 2%positive).
  - exact (runtime_only_owned _ scenario_classes_ok).
  - by_compute.
Defined.

Lemma fit_keeps_params_witness :
  (call_get_params (callback_methods 2) 1%positive true
     (fit scenario_classes [1%positive] VNone ∅ [[VNone]] scenario).2).1 =
  (call_get_params (callback_methods 2) 1%positive true scenario).1.
Proof.
  apply (fit_keeps_params scenario_classes [1%positive] VNone ∅ [[VNone]]
           scenario 2 1%positive true).
  exact scenario_classes_ok.
Defined.

Lemma initialize_callbacks_returns_instances_witness :
  initialize_callbacks no_overrides [1%positive; 1%positive] scenario =
    (Ret [VRef 1%positive; VRef 1%positive], scenario).
Proof.
  apply (initialize_callbacks_returns_instances no_overrides
           [1%positive; 1%positive] scenario).
  repeat constructor; by exists early_stop.
Defined.

Lemma scenario_alive : alive [1%positive; 2%positive] recorded_scenario.
Proof. repeat constructor; by eexists. Defined.

Lemma epoch_context :
  run_context (Dict [("epoch", VInt 1); ("loss", VInt 3)]).
Proof. split; by_compute. Defined.

(** The early-stopping callback and the recorder through two epochs, with
    the epoch and the loss in the context. *)
Lemma fit_returns_witness :
  exists h', fit scenario_classes [1%positive; 2%positive] (VStr "net")
               (Dict [("epoch", VInt 1); ("loss", VInt 3)]) [[VNone]; []]
               recorded_scenario = (Ret tt, h') /\
             same_params recorded_scenario h'.
Proof.
  apply (fit_returns scenario_classes [1%positive; 2%positive] (VStr "net")
           (Dict [("epoch", VInt 1); ("loss", VInt 3)]) [[VNone]; []]
           recorded_scenario).
  - exact scenario_classes_ok.
  - exact scenario_classes_return.
  - exact scenario_classes_extend.
  - exact epoch_context.
  - exact scenario_alive.
Defined.

(** A run interrupted after the gradients of its first batch. *)
Lemma run_can_finish_witness :
  steps Idle
    ([Notify OnTrainBegin; Notify OnEpochBegin; Notify OnBatchBegin;
      ComputeGradients] ++ finish HasGradients VNone) Idle /\
  length (finish HasGradients VNone) <= 6 /\
  exists h', run scenario_classes [1%positive; 2%positive] (VStr "net")
               (Dict [("epoch", VInt 1); ("loss", VInt 3)])
               (finish HasGradients VNone) recorded_scenario = (Ret tt, h').
Proof.
  apply (run_can_finish scenario_classes [1%positive; 2%positive]
           (VStr "net") (Dict [("epoch", VInt 1); ("loss", VInt 3)])
           [Notify OnTrainBegin; Notify OnEpochBegin; Notify OnBatchBegin;
            ComputeGradients] HasGradients VNone recorded_scenario).
  - exact scenario_classes_ok.
  - exact scenario_classes_return.
  - exact scenario_classes_extend.
  - exact epoch_context.
  - exact scenario_alive.
  - repeat econstructor.
Defined.

Lemma grad_computed_between_gradients_and_update_witness :
  last [Notify OnTrainBegin; Notify OnEpochBegin; Notify OnBatchBegin;
        ComputeGradients] = Some ComputeGradients /\
  ([UpdateParameters; Notify OnBatchEnd] = [] \/
   exists rest : list action, [UpdateParameters; Notify OnBatchEnd] =
                              UpdateParameters :: rest).
Proof.
  apply (grad_computed_between_gradients_and_update
           [Notify OnTrainBegin; Notify OnEpochBegin; Notify OnBatchBegin;
            ComputeGradients] [UpdateParameters; Notify OnBatchEnd] VNone
           InEpoch).
  repeat econstructor.
Defined.

Lemma grad_computed_once_per_batch_witness :
  length (filter (fun a => is_grad_computed a = true)
            (fit_actions [[VNone; VNone]; [VNone]])) =
  length (filter (fun a => is_batch_begin a = true)
            (fit_actions [[VNone; VNone]; [VNone]])).
Proof.
  apply (grad_computed_once_per_batch (fit_actions [[VNone; VNone]; [VNone]])).
  apply follow_steps. reflexivity.
Defined.

End Witnesses.
