(* ===== verification/Restart.v ===== *)
(** * Restart: (re)initialisation resets the callbacks

    "(Re-)Set the initial state of the callback.  Use this e.g. if the
    callback tracks some state that should be reset when the model is
    re-initialized.  This method should return self." (base.py, lines
    22-28).  The trainer calls [initialize] on each of its callbacks when
    it is (re)initialized, before a run and again before the next one.
    The method of base.py resets nothing (line 29); what the docstring
    asks is asked of the subclasses, which are not in the repository.

    - [HooksReset] is the contract these lines ask of the subclasses: an
      overriding [initialize] returns the instance, what a method leaves
      of its callback depends on the callback only, and [initialize]
      leaves the callback as if the other methods of the class had not
      run;
    - [touched ct callbacks] relates a heap to the heaps that method calls
      on the callbacks lead to; [reset_heap] is the heap that the
      (re)initialisation of the callbacks leaves;
    - [early_stop_classes] is the class table of the early-stopping
      callback, which keeps the contract; the recorder of [Hooks], which
      tracks the loss without overriding [initialize], does not.

    The theorems show that whatever a run did, complete or ended by an
    exception, the (re)initialisation that follows returns the instances
    and leaves the heap that it would have left without the run
    ([restart_resets]), and that a callback outside the contract keeps its
    state across the restart ([recorder_keeps_state]). *)

From stdpp Require Import base tactics option list strings gmap.
From S2P Require Import Prelude PyStr PyDict PyObject PyCall Estimator Callback.
From S2P Require Import Calls Hooks Trainer.

(** ** Definitions *)

(** The body of [initialize] as the class named [c] has it, on the frame of
    the call [self.initialize()]. *)
Definition init_body (ct : class_table) (c : string) (self : loc)
    : M heap value :=
  let method := find_method ct c Initialize in
  ov_body method self (frame_of (ov_def method) [VRef self] ∅).

(** The contract of (re)initialisation. *)
Class HooksReset (ct : class_table) : Prop := {
  (** An overriding [initialize] returns the instance. *)
  reset_returns c ov self fr h o :
    ct c Initialize = Some ov ->
    h !! self = Some o -> cls_name (obj_class o) = c ->
    (ov_body ov self fr h).1 = Ret (VRef self);
  (** What an overriding method leaves of its callback depends on the
      callback only. *)
  reset_local c m ov self fr h h' :
    ct c m = Some ov -> h !! self = h' !! self ->
    (ov_body ov self fr h).2 !! self = (ov_body ov self fr h').2 !! self;
  (** [initialize] leaves the callback as if the overriding method had not
      run. *)
  reset_absorbs c m ov self fr h o :
    ct c m = Some ov ->
    h !! self = Some o -> cls_name (obj_class o) = c ->
    (init_body ct c self (ov_body ov self fr h).2).2 !! self =
    (init_body ct c self h).2 !! self;
}.

(** The heap after a method of the callback at [cb] has run on the frame
    [fr]. *)
Definition method_heap (ct : class_table) (m : lifecycle) (cb : loc)
    (fr : frame) (h : heap) : heap :=
  match h !! cb with
  | Some o => (ov_body (find_method ct (cls_name (obj_class o)) m) cb fr h).2
  | None => h
  end.

(** [touched ct callbacks h h']: method calls on instances among
    [callbacks] lead from [h] to [h']. *)
Inductive touched (ct : class_table) (callbacks : list loc)
    : relation heap :=
| touched_refl h : touched ct callbacks h h
| touched_step h cb m fr h' :
    cb ∈ callbacks ->
    touched ct callbacks (method_heap ct m cb fr h) h' ->
    touched ct callbacks h h'.

(** The heap after [cb.initialize()]. *)
Definition init_heap (ct : class_table) (cb : loc) (h : heap) : heap :=
  match h !! cb with
  | Some o => (init_body ct (cls_name (obj_class o)) cb h).2
  | None => h
  end.

(** The heap after the (re)initialisation of the callbacks. *)
Fixpoint reset_heap (ct : class_table) (callbacks : list loc) (h : heap)
    : heap :=
  match callbacks with
  | [] => h
  | cb :: callbacks' => reset_heap ct callbacks' (init_heap ct cb h)
  end.

(** The value of [counter_] after a method of the early-stopping callback
    has run on the instance [o]. *)
Definition counter_after (m : lifecycle) (o : obj) : value :=
  match m with
  | Initialize => VInt 0
  | _ =>
      match default (VInt 0) (obj_dict o !! "counter_") with
      | VInt n => VInt (n + 1)
      | _ => VInt 1
      end
  end.

(** The class table of a program whose only subclass is the early-stopping
    callback. *)
Definition early_stop_classes : class_table :=
  fun c m => if decide (c = "EarlyStop") then scenario_classes c m else None.

(** ** The methods found on a class *)

Section Methods.
Context (ct : class_table).
Context `{!HooksOk runtime_only ct} `{!HooksReset ct}.
Implicit Types (h : heap) (self cb l : loc) (o : obj) (m : lifecycle)
  (fr : frame) (c : string).

Lemma inherited_heap m self fr h : (ov_body (inherited m) self fr h).2 = h.
Proof. by destruct m. Qed.

Lemma method_runtime_only c m self fr :
  preserves (runtime_only self) (ov_body (find_method ct c m) self fr).
Proof.
  unfold find_method. destruct (ct c m) as [ov|] eqn:Hov;
    [by eapply hooks_ok |].
  intros h. cbn [default]. rewrite inherited_heap. reflexivity.
Qed.

Lemma method_other c m self fr h l :
  l <> self -> (ov_body (find_method ct c m) self fr h).2 !! l = h !! l.
Proof.
  intros Hne. destruct (method_runtime_only c m self fr h) as [Hown _].
  symmetry. by apply Hown.
Qed.

Lemma method_local c m self fr h h' :
  h !! self = h' !! self ->
  (ov_body (find_method ct c m) self fr h).2 !! self =
  (ov_body (find_method ct c m) self fr h').2 !! self.
Proof.
  unfold find_method. destruct (ct c m) as [ov|] eqn:Hov;
    [by eapply reset_local |].
  cbn [default]. by rewrite !inherited_heap.
Qed.

Lemma method_class c m self fr h o :
  h !! self = Some o ->
  exists o', (ov_body (find_method ct c m) self fr h).2 !! self = Some o' /\
             obj_class o' = obj_class o.
Proof.
  intros Hl. destruct (method_runtime_only c m self fr h) as [_ Hsame].
  destruct (same_params_lookup _ _ _ _ Hsame Hl) as (o' & Hl' & Hc & _).
  by exists o'.
Qed.

(** Methods of different callbacks commute. *)
Lemma method_comm c c' m m' cb cb' fr fr' h :
  cb <> cb' ->
  (ov_body (find_method ct c m) cb fr
     (ov_body (find_method ct c' m') cb' fr' h).2).2 =
  (ov_body (find_method ct c' m') cb' fr'
     (ov_body (find_method ct c m) cb fr h).2).2.
Proof.
  intros Hne. apply map_eq. intros l.
  destruct (decide (l = cb)) as [-> | Hl];
    [| destruct (decide (l = cb')) as [-> | Hl']].
  - rewrite (method_other _ _ cb') by done.
    apply method_local. by rewrite method_other.
  - rewrite (method_other _ _ cb) by done.
    symmetry. apply method_local. by rewrite method_other.
  - by rewrite !method_other.
Qed.

End Methods.

(** ** What (re)initialisation absorbs *)

Section Reset.
Context (ct : class_table).
Context `{!HooksOk runtime_only ct} `{!HooksExtend ct} `{!HooksReset ct}.
Implicit Types (h : heap) (self cb l : loc) (o : obj) (m : lifecycle)
  (fr : frame) (callbacks : list loc) (net : value) (kwargs : dict value).

Lemma method_heap_Some m cb fr h o :
  h !! cb = Some o ->
  method_heap ct m cb fr h =
    (ov_body (find_method ct (cls_name (obj_class o)) m) cb fr h).2.
Proof. intros Hl. unfold method_heap. by rewrite Hl. Qed.

Lemma method_heap_None m cb fr h :
  h !! cb = None -> method_heap ct m cb fr h = h.
Proof. intros Hl. unfold method_heap. by rewrite Hl. Qed.

Lemma init_heap_Some cb h o :
  h !! cb = Some o ->
  init_heap ct cb h = (init_body ct (cls_name (obj_class o)) cb h).2.
Proof. intros Hl. unfold init_heap. by rewrite Hl. Qed.

Lemma init_heap_None cb h : h !! cb = None -> init_heap ct cb h = h.
Proof. intros Hl. unfold init_heap. by rewrite Hl. Qed.

Lemma method_heap_other m cb fr h l :
  l <> cb -> method_heap ct m cb fr h !! l = h !! l.
Proof.
  intros Hne. unfold method_heap.
  destruct (h !! cb); [by apply method_other | done].
Qed.

Lemma method_heap_same_params m cb fr h :
  same_params h (method_heap ct m cb fr h).
Proof.
  unfold method_heap. destruct (h !! cb); [| reflexivity].
  apply (method_runtime_only ct).
Qed.

Lemma init_heap_other cb h l : l <> cb -> init_heap ct cb h !! l = h !! l.
Proof.
  intros Hne. unfold init_heap.
  destruct (h !! cb); [by apply method_other | done].
Qed.

Lemma init_heap_same_params cb h : same_params h (init_heap ct cb h).
Proof.
  unfold init_heap. destruct (h !! cb); [| reflexivity].
  apply (method_runtime_only ct).
Qed.

(** [initialize] leaves the callback as if the method had not run. *)
Lemma init_heap_absorbs m cb fr h :
  init_heap ct cb (method_heap ct m cb fr h) = init_heap ct cb h.
Proof.
  destruct (h !! cb) as [o|] eqn:Hl; [| by rewrite method_heap_None].
  rewrite (method_heap_Some _ _ _ _ _ Hl).
  destruct (method_class ct (cls_name (obj_class o)) m cb fr h o Hl)
    as (o' & Hl' & Hc).
  rewrite (init_heap_Some _ _ _ Hl'), (init_heap_Some _ _ _ Hl), Hc.
  apply map_eq. intros l.
  destruct (decide (l = cb)) as [-> | Hne];
    [| unfold init_body; by rewrite !method_other].
  unfold find_method.
  destruct (ct (cls_name (obj_class o)) m) as [ov|] eqn:Hov; cbn [default];
    [by eapply reset_absorbs | by rewrite inherited_heap].
Qed.

(** [initialize] on a callback and a method of another callback
    commute. *)
Lemma init_heap_comm m cb cb' fr h :
  cb <> cb' ->
  init_heap ct cb (method_heap ct m cb' fr h) =
  method_heap ct m cb' fr (init_heap ct cb h).
Proof.
  intros Hne.
  assert (method_heap ct m cb' fr h !! cb = h !! cb) as Hcb
    by by apply method_heap_other.
  assert (init_heap ct cb h !! cb' = h !! cb') as Hcb'
    by (apply init_heap_other; congruence).
  destruct (h !! cb) as [o|] eqn:Hl, (h !! cb') as [o'|] eqn:Hl';
    rewrite ?(init_heap_Some _ _ _ Hcb), ?(init_heap_None _ _ Hcb),
      ?(method_heap_Some _ _ _ _ _ Hcb'), ?(method_heap_None _ _ _ _ Hcb'),
      ?(init_heap_Some _ _ _ Hl), ?(init_heap_None _ _ Hl),
      ?(method_heap_Some _ _ _ _ _ Hl'), ?(method_heap_None _ _ _ _ Hl');
    try done.
  by apply method_comm.
Qed.

Lemma reset_heap_absorbs callbacks m cb fr h :
  cb ∈ callbacks ->
  reset_heap ct callbacks (method_heap ct m cb fr h) =
  reset_heap ct callbacks h.
Proof.
  revert h. induction callbacks as [|c callbacks IH]; intros h Hin;
    [by apply elem_of_nil in Hin |].
  cbn [reset_heap]. destruct (decide (c = cb)) as [-> | Hne];
    [by rewrite init_heap_absorbs |].
  rewrite init_heap_comm by done. apply IH.
  by apply elem_of_cons in Hin as [-> | ?].
Qed.

(** The (re)initialisation absorbs the method calls on its callbacks. *)
Lemma reset_heap_touched callbacks h h' :
  touched ct callbacks h h' ->
  reset_heap ct callbacks h' = reset_heap ct callbacks h.
Proof.
  induction 1 as [|h cb m fr h' Hin _ IH]; [done |].
  rewrite IH. by apply reset_heap_absorbs.
Qed.

#[export] Instance touched_preorder callbacks : PreOrder (touched ct callbacks).
Proof.
  split; [constructor |]. intros h1 h2 h3 H12 H23.
  induction H12; [done | eapply touched_step; eauto].
Qed.

Lemma alive_touched callbacks callbacks' h h' :
  touched ct callbacks h h' -> alive callbacks' h -> alive callbacks' h'.
Proof.
  induction 1 as [|h cb m fr h' _ _ IH]; [done |]. intros Halive.
  by eapply IH, alive_same_params, Halive; apply method_heap_same_params.
Qed.

(** ** A run touches the callbacks *)

Lemma call_method_touched callbacks m cb net kwargs h :
  cb ∈ callbacks -> dict_wf kwargs ->
  touched ct callbacks h (call_method ct m cb net kwargs h).2.
Proof.
  intros Hin Hwf. destruct (h !! cb) as [o|] eqn:Hl;
    [| rewrite call_method_dangling by done; constructor].
  destruct (cls_is_callback (obj_class o)) eqn:Hcb;
    [| rewrite (call_method_not_callback _ _ _ _ _ _ o) by done; constructor].
  rewrite (call_method_run ct m cb net kwargs h o Hl Hcb Hwf). cbn zeta.
  case_decide; [| constructor]. eapply touched_step; [done |].
  unfold method_heap. rewrite Hl. constructor.
Qed.

Lemma notify_touched callbacks m cbs net kwargs h :
  cbs ⊆ callbacks -> dict_wf kwargs ->
  touched ct callbacks h (notify ct m cbs net kwargs h).2.
Proof.
  intros Hsub Hwf. revert h.
  induction cbs as [|cb cbs IH]; intros h; cbn [notify]; [constructor |].
  pose proof (call_method_touched callbacks m cb net kwargs h) as Hcb.
  unfold bind. destruct (call_method ct m cb net kwargs h) as [[v|e] h1];
    cbn [snd] in *; (etrans; [apply Hcb; [set_solver | done] |]);
    [apply IH; set_solver | done].
Qed.

Lemma run_touched callbacks net kwargs actions h :
  dict_wf kwargs ->
  touched ct callbacks h (run ct callbacks net kwargs actions h).2.
Proof.
  intros Hwf. revert h.
  induction actions as [|a actions IH]; intros h; cbn [run]; [constructor |].
  assert (touched ct callbacks h (perform ct callbacks net kwargs a h).2)
    as Ha by (destruct a; [by apply notify_touched | constructor..]).
  unfold bind. destruct (perform ct callbacks net kwargs a h) as [[[]|e] h1];
    cbn [snd] in *; [etrans; [exact Ha | apply IH] | done].
Qed.

(** ** (Re)initialisation *)

Lemma init_run cb h o :
  h !! cb = Some o -> cls_is_callback (obj_class o) = true ->
  call_method ct Initialize cb VNone ∅ h =
    (Ret (VRef cb), init_heap ct cb h).
Proof.
  intros Hl Hcb.
  rewrite (call_method_fits ct Initialize cb VNone ∅ h o Hl Hcb);
    [| apply dict_wf_empty | done].
  cbn zeta. cbn [lifecycle_args]. unfold init_heap. rewrite Hl.
  fold (init_body ct (cls_name (obj_class o)) cb).
  apply injective_projections; [| done]. cbn [fst].
  unfold init_body, find_method.
  destruct (ct (cls_name (obj_class o)) Initialize) as [ov|] eqn:Hov;
    [by eapply reset_returns | done].
Qed.

Lemma initialize_callbacks_run callbacks h :
  alive callbacks h ->
  initialize_callbacks ct callbacks h =
    (Ret (VRef <$> callbacks), reset_heap ct callbacks h).
Proof.
  revert h. induction callbacks as [|cb callbacks IH]; intros h Halive;
    [done |].
  destruct (Forall_inv Halive) as (o & Hl & Hcb).
  cbn [initialize_callbacks reset_heap].
  rewrite (bind_run_ret _ _ _ _ _ (init_run _ _ _ Hl Hcb)).
  assert (alive callbacks (init_heap ct cb h)) as Halive'.
  { eapply alive_same_params, Forall_inv_tail, Halive.
    apply init_heap_same_params. }
  by rewrite (bind_run_ret _ _ _ _ _ (IH _ Halive')).
Qed.

End Reset.

(** ** The early-stopping callback keeps the contract *)

Lemma early_stop_classes_inv c m ov :
  early_stop_classes c m = Some ov ->
  scenario_classes c m = Some ov /\ c = "EarlyStop" /\
  (m = Initialize /\ ov = early_stop_initialize \/
   m = OnEpochEnd /\ ov = early_stop_on_epoch_end).
Proof.
  unfold early_stop_classes. case_decide as Hc; [| done]. subst c.
  intros Hov. split_and!; [done.. |]. unfold scenario_classes in Hov.
  rewrite decide_True in Hov by done. destruct m; simplify_eq; auto.
Qed.

#[export] Instance early_stop_classes_ok :
  HooksOk runtime_only early_stop_classes.
Proof.
  intros c m ov self fr [Hov _]%early_stop_classes_inv.
  by apply (hooks_ok (ct := scenario_classes) c m).
Qed.

#[export] Instance early_stop_classes_extend : HooksExtend early_stop_classes.
Proof.
  intros c m ov [Hov _]%early_stop_classes_inv.
  by apply (hooks_extend (ct := scenario_classes) c m).
Qed.

(** What the methods of the early-stopping callback do to an instance. *)
Lemma early_stop_method_run m ov self fr h o :
  m = Initialize /\ ov = early_stop_initialize \/
  m = OnEpochEnd /\ ov = early_stop_on_epoch_end ->
  h !! self = Some o ->
  ov_body ov self fr h =
    (Ret (lifecycle_result m self),
     <[self := Obj (obj_class o)
                 (<["counter_" := counter_after m o]> (obj_dict o))]> h).
Proof.
  intros [[-> ->] | [-> ->]] Hl;
    cbn [ov_body early_stop_initialize early_stop_on_epoch_end].
  - by rewrite (bind_run_ret _ _ _ _ _ (setattr_run _ _ _ _ _ Hl)).
  - rewrite (bind_run_ret _ _ _ _ _ (getattr_default_run _ _ _ _ _ Hl)).
    by rewrite (bind_run_ret _ _ _ _ _ (setattr_run _ _ _ _ _ Hl)).
Qed.

Lemma early_stop_method_dangling m ov self fr h :
  m = Initialize /\ ov = early_stop_initialize \/
  m = OnEpochEnd /\ ov = early_stop_on_epoch_end ->
  h !! self = None -> (ov_body ov self fr h).2 = h.
Proof.
  intros [[-> ->] | [-> ->]] Hl;
    cbn [ov_body early_stop_initialize early_stop_on_epoch_end].
  - by rewrite (bind_run_raise _ _ _ _ _ (setattr_run_None _ _ _ _ Hl)).
  - unfold getattr_default. rewrite (bind_assoc _ _ _ h).
    by rewrite (bind_run_raise _ _ _ _ _ (load_run_None _ _ Hl)).
Qed.

Lemma early_stop_init_body self h o :
  h !! self = Some o ->
  (init_body early_stop_classes "EarlyStop" self h).2 =
    <[self := Obj (obj_class o) (<["counter_" := VInt 0]> (obj_dict o))]> h.
Proof.
  intros Hl. unfold init_body.
  by rewrite (early_stop_method_run Initialize early_stop_initialize _ _ _ o)
    by auto.
Qed.

#[export] Instance early_stop_classes_reset : HooksReset early_stop_classes.
Proof.
  split.
  - intros c ov self fr h o (_ & _ & Hov)%early_stop_classes_inv Hl _.
    rewrite (early_stop_method_run _ _ _ _ _ _ Hov Hl).
    by destruct Hov as [[_ _] | [[=] _]].
  - intros c m ov self fr h h' (_ & _ & Hov)%early_stop_classes_inv Heq.
    destruct (h !! self) as [o|] eqn:Hl; symmetry in Heq.
    + rewrite (early_stop_method_run _ _ _ _ _ _ Hov Hl),
        (early_stop_method_run _ _ _ _ _ _ Hov Heq).
      cbn [snd]. by rewrite !lookup_insert_eq.
    + by rewrite (early_stop_method_dangling m ov _ _ h Hov Hl),
        (early_stop_method_dangling m ov _ _ h' Hov Heq), Hl.
  - intros c m ov self fr h o (_ & -> & Hov)%early_stop_classes_inv Hl _.
    rewrite (early_stop_method_run _ _ _ _ _ _ Hov Hl). cbn [snd].
    rewrite (early_stop_init_body _ _ _ (lookup_insert_eq _ _ _)),
      (early_stop_init_body _ _ _ Hl).
    rewrite !lookup_insert_eq. cbn [obj_class obj_dict].
    by rewrite insert_insert_dict_eq.
Qed.

#[export] Instance no_overrides_reset : HooksReset no_overrides.
Proof. by split. Qed.

(** ** Theorems *)

Section Theorems.

(** C37.  (Re)initialisation resets the callbacks: when every overriding
    method changes only attributes with a trailing underscore of its own
    callback, in a way that depends on that callback only, and
    [initialize] returns the instance and leaves the callback as if the
    other methods had not run, then whatever a run did, complete or ended
    by an exception at any point, the (re)initialisation that follows
    returns the instances, in order, and leaves the heap that it would
    have left without the run. *)
Theorem restart_resets ct callbacks net kwargs actions h :
  HooksOk runtime_only ct -> HooksExtend ct -> HooksReset ct ->
  alive callbacks h -> dict_wf kwargs ->
  initialize_callbacks ct callbacks
      (run ct callbacks net kwargs actions h).2 =
    (Ret (VRef <$> callbacks), (initialize_callbacks ct callbacks h).2).
Proof.
  intros ? ? ? Halive Hwf.
  pose proof (run_touched ct callbacks net kwargs actions h Hwf) as Ht.
  rewrite (initialize_callbacks_run ct) by (by eapply alive_touched).
  by rewrite (reset_heap_touched ct _ _ _ Ht),
    (initialize_callbacks_run ct _ _ Halive).
Qed.

(** The early-stopping callback counts two epochs and starts the next run
    at zero. *)
Theorem early_stop_restart :
  let h := (fit early_stop_classes [1%positive] VNone ∅ [[VNone]; [VNone]]
              scenario).2 in
  h !! 1%positive =
    Some (Obj EarlyStop (Dict [("patience", VInt 5); ("counter_", VInt 2)])) /\
  (initialize_callbacks early_stop_classes [1%positive] h).2 = scenario.
Proof. by vm_compute. Qed.

(** A callback that tracks state without overriding [initialize] keeps it:
    the recorder still holds the loss of the last run after the
    (re)initialisation. *)
Theorem recorder_keeps_state :
  let kwargs := Dict [("loss", VInt 3)] in
  let h := (fit scenario_classes [1%positive; 2%positive] VNone kwargs
              [[VNone]] recorded_scenario).2 in
  (initialize_callbacks scenario_classes [1%positive; 2%positive] h).2
    !! 2%positive = Some (Obj Recorder (Dict [("loss_", VInt 3)])) /\
  (initialize_callbacks scenario_classes [1%positive; 2%positive]
     recorded_scenario).2 !! 2%positive =
    Some (Obj Recorder (Dict [("loss_", VNone)])).
Proof. by vm_compute. Qed.

End Theorems.

(** ** The theorems on the scenario *)

Section Witnesses.

Lemma restart_resets_witness :
  initialize_callbacks early_stop_classes [1%positive]
      (run early_stop_classes [1%positive] VNone ∅
         (fit_actions [[VNone]; [VNone]]) scenario).2 =
    (Ret [VRef 1%positive],
     (initialize_callbacks early_stop_classes [1%positive] scenario).2).
Proof.
  apply (restart_resets early_stop_classes [1%positive] VNone ∅
           (fit_actions [[VNone]; [VNone]]) scenario);
    [apply _.. | | apply dict_wf_empty].
  repeat constructor. by exists early_stop.
Defined.

End Witnesses.
