(* ===== verification/Session.v ===== *)
(** * Session: configuration and training, interleaved

    The callbacks are used from two sides: the trainer calls their
    lifecycle methods during a run and at (re)initialisation, and the
    framework reads and changes their configuration through [get_params]
    and [set_params] (base.py, lines 62-69), between runs or before the
    first one.  This file composes the two.

    - A [command] is one use of the callbacks: [Configure] is a call of
      [set_params], [Inspect] a call of [get_params], [Restart] the
      (re)initialisation of the callbacks of the trainer and [Train] a
      whole run; [exec_command] runs one command, [session] runs
      commands in program order, each on the heap the one before has left,
      whether it returned or raised, and gives the transcript of the
      commands with their outcomes.
    - [same_params] of [Hooks] relates two heaps whose objects have the
      same classes and the same public attributes: the heaps differ in
      attributes with a trailing underscore only.  [respects same_params]
      says that a computation does not tell such heaps apart.

    The theorems show that [set_params] and [get_params] do not tell apart
    heaps that differ in runtime state ([class_set_params_respects],
    [class_get_params_respects]), and with that, for subclasses whose
    methods keep to their runtime state, that the configuration side of a
    session cannot observe the training side: what the configuration
    commands of a session return or raise is what they return or raise
    when the runs and (re)initialisations are left out
    ([configuration_ignores_training]), and is the same from two heaps
    that differ in runtime state ([runtime_state_is_hidden]).  A callback
    whose hook calls [set_params] on itself is outside that discipline:
    it keeps to its own callback ([decay_classes_owned]) and its runs show
    on the configuration side ([decay_session]). *)

From stdpp Require Import base tactics option list strings gmap.
From S2P Require Import Prelude PyStr PyDict PyObject PyCall Estimator Callback.
From S2P Require Import Reflect Footprint Hooks Trainer.

#[local] Open Scope py_scope.

(** ** Definitions *)

(** One use of the callbacks of a trainer. *)
Inductive command : Type :=
| Configure (cb : loc) (params : dict value)
| Inspect (cb : loc) (deep : bool)
| Restart
| Train (net : value) (kwargs : dict value) (epochs : list (list value)).

(** What a command returns. *)
Inductive answer : Type :=
| Assigned (v : value)
| Params (vp : dict value)
| Instances (vs : list value)
| Trained.

(** The commands of the configuration side. *)
Definition configures (c : command) : bool :=
  match c with
  | Configure _ _ | Inspect _ _ => true
  | Restart | Train _ _ _ => false
  end.

Section Sessions.
Context (ct : class_table) (nt : names_table) (depth : nat).
Context (callbacks : list loc).

(** One command on the heap. *)
Definition exec_command (c : command) : M heap answer :=
  match c with
  | Configure cb params =>
      let! v := call_set_params (class_methods nt depth) cb params in
      ret (Assigned v)
  | Inspect cb deep =>
      let! vp := call_get_params (class_methods nt depth) cb deep in
      ret (Params vp)
  | Restart =>
      let! vs := initialize_callbacks ct callbacks in
      ret (Instances vs)
  | Train net kwargs epochs =>
      let! _ := fit ct callbacks net kwargs epochs in
      ret Trained
  end.

(** The commands in program order: each runs on the heap the one before
    has left, whatever its outcome.  What it gives is the transcript and the
    last heap. *)
Fixpoint session (cmds : list command) (h : heap)
    : list (command * outcome answer) * heap :=
  match cmds with
  | [] => ([], h)
  | c :: cmds' =>
      let r := exec_command c h in
      let rest := session cmds' r.2 in
      ((c, r.1) :: rest.1, rest.2)
  end.

End Sessions.

(** The part of a transcript that the configuration side sees. *)
Definition configuration (log : list (command * outcome answer))
    : list (command * outcome answer) :=
  filter (fun cr => configures cr.1 = true) log.

(** A session on the scenario of the specification: the parameters are
    read, two epochs are run, [patience] is set, the trainer is
    (re)initialised and the parameters are read again. *)
Definition scenario_session : list command :=
  [Inspect 1%positive true; Train VNone ∅ [[VNone]; [VNone]];
   Configure 1%positive (Dict [("patience", VInt 10)]);
   Restart; Inspect 1%positive true].

(** A callback outside the discipline of runtime state: it lowers its own
    parameter at the end of every epoch,
    [def on_epoch_end(self, net, **kwargs)] with the body
    [self.set_params(patience=getattr(self, 'patience', 0) - 1)].  The
    call runs at call depth 3, which a callback without nested callbacks
    needs. *)
Definition Decay : class_desc := Class "Decay" true.

Definition decay_on_epoch_end : override :=
  Override
    (Signature "on_epoch_end" [("self", None); ("net", None)] (Some "kwargs"))
    (fun self _ =>
       let! p := getattr_default self "patience" (VInt 0) in
       let! _ := call_set_params (callback_methods 3) self
                   (Dict [("patience",
                           match p with VInt n => VInt (n - 1) | _ => p end)])
       in
       ret VNone).

Definition decay_classes : class_table :=
  fun c m =>
    if decide (c = "Decay") then
      match m with OnEpochEnd => Some decay_on_epoch_end | _ => None end
    else None.

Definition decay_scenario : heap :=
  {[ 1%positive := Obj Decay (Dict [("patience", VInt 5)]) ]}.

(** ** Heaps with the same parameters *)

Lemma same_params_cases h h' l :
  same_params h h' ->
  (exists o o', h !! l = Some o /\ h' !! l = Some o' /\
                same_obj_params o o') \/
  (h !! l = None /\ h' !! l = None).
Proof.
  intros Hs. specialize (Hs l).
  destruct (h !! l) as [o|], (h' !! l) as [o'|]; inversion Hs; subst;
    [left | right]; eauto.
Qed.

(** Assigning the same value to the same attribute, public or not. *)
Lemma same_obj_params_insert o o' k v :
  same_obj_params o o' ->
  same_obj_params (Obj (obj_class o) (<[k := v]> (obj_dict o)))
    (Obj (obj_class o') (<[k := v]> (obj_dict o'))).
Proof.
  intros [Hcls Hpub]. split; [done |]. unfold public_params in *.
  cbn [obj_dict]. destruct (reserved k) eqn:Hk.
  - by rewrite !filter_keys_insert_false by (by rewrite Hk).
  - by rewrite !filter_keys_insert_true, Hpub by (by rewrite Hk).
Qed.

Lemma same_params_insert h h' l o o' :
  same_params h h' -> same_obj_params o o' ->
  same_params (<[l := o]> h) (<[l := o']> h').
Proof.
  intros Hs Ho l'. destruct (decide (l' = l)) as [-> | Hne].
  - rewrite !lookup_insert_eq. by constructor.
  - rewrite !lookup_insert_ne by done. apply Hs.
Qed.

Lemma setattr_respects self k v : respects same_params (setattr self k v).
Proof.
  intros h h' Hs.
  destruct (same_params_cases h h' self Hs)
    as [(o & o' & Hl & Hl' & Ho) | [Hl Hl']].
  - rewrite (setattr_run _ _ _ _ _ Hl), (setattr_run _ _ _ _ _ Hl').
    split; [done |]. by apply same_params_insert, same_obj_params_insert.
  - by rewrite !setattr_run_None.
Qed.

Lemma resolve_respects {A} l method (body : M heap A) :
  respects same_params body -> respects same_params (resolve l method body).
Proof.
  intros Hb h h' Hs.
  destruct (same_params_cases h h' l Hs)
    as [(o & o' & Hl & Hl' & Hcls & _) | [Hl Hl']].
  - rewrite (resolve_run _ _ _ _ _ Hl), (resolve_run _ _ _ _ _ Hl'), Hcls.
    destruct (cls_is_callback (obj_class o')); [by apply Hb | done].
  - by rewrite !resolve_run_None.
Qed.

(** ** The accessors on heaps with the same parameters *)

Section Accessors.
Context (nt : names_table) `{!NamesOk nt}.

(** [get_params] does not tell apart heaps with the same parameters. *)
Lemma class_get_params_respects depth l deep :
  respects same_params (call_get_params (class_methods nt depth) l deep).
Proof.
  apply respects_read_only; [apply methods_get_read_only |].
  intros h h' Hs. symmetry.
  by apply (class_get_params_similar (fun _ => True) h h'); [.. | apply _ |].
Qed.

(** Nor does [set_params], and it leaves heaps with the same parameters. *)
Lemma class_set_params_respects depth l params :
  respects same_params (call_set_params (class_methods nt depth) l params).
Proof.
  revert l params. induction depth as [|depth IH]; intros l params;
    [apply respects_raise |].
  cbn [class_methods call_set_params].
  apply resolve_respects, respects_call. intros fr. unfold set_params.
  apply respects_bind; [| solve_respects].
  apply BaseEstimator_set_params_respects;
    [apply setattr_respects | apply class_get_params_respects | apply IH].
Qed.

End Accessors.

(** ** The commands *)

Section Commands.
Context (ct : class_table) (nt : names_table) (depth : nat).
Context (callbacks : list loc).
Context `{!HooksOk runtime_only ct} `{!NamesOk nt}.
Implicit Types (c : command) (cmds : list command) (h : heap).

(** A command of the configuration side does not tell apart heaps with the
    same parameters. *)
Lemma exec_command_respects c :
  configures c = true ->
  respects same_params (exec_command ct nt depth callbacks c).
Proof.
  destruct c; [| | done..]; intros _; cbn [exec_command];
    (apply respects_bind; [| solve_respects]).
  - by apply class_set_params_respects.
  - by apply class_get_params_respects.
Qed.

(** A command of the training side keeps the parameters. *)
Lemma exec_command_keeps_params c :
  configures c = false ->
  preserves same_params (exec_command ct nt depth callbacks c).
Proof.
  destruct c; [done.. | |]; intros _; cbn [exec_command];
    (apply preserves_bind; [apply _ | | solve_preserves]).
  - apply (preserves_initialize_callbacks ct same_params). intros cb _.
    by apply call_method_same_params.
  - apply (preserves_run ct same_params). intros m cb _.
    by apply call_method_same_params.
Qed.

(** The configuration side of a session, from a heap with the same
    parameters and without the training side. *)
Lemma session_configuration cmds h h' :
  same_params h h' ->
  configuration (session ct nt depth callbacks cmds h).1 =
    (session ct nt depth callbacks
       (filter (fun c => configures c = true) cmds) h').1 /\
  same_params (session ct nt depth callbacks cmds h).2
    (session ct nt depth callbacks
       (filter (fun c => configures c = true) cmds) h').2.
Proof.
  revert h h'. induction cmds as [|c cmds IH]; intros h h' Hs; [done |].
  cbn [session fst snd]. unfold configuration in *.
  rewrite !filter_cons. cbn [fst]. destruct (configures c) eqn:Hc.
  - rewrite !decide_True by done. cbn [session fst snd].
    destruct (respects_run _ _ h h' (exec_command_respects c Hc) Hs)
      as [-> Hs'].
    destruct (IH _ _ Hs') as [-> ?]. done.
  - rewrite !decide_False by done. apply IH.
    etrans; [symmetry; apply (exec_command_keeps_params c Hc) | done].
Qed.

End Commands.

(** ** Theorems *)

Section Theorems.

(** C13.  The configuration side of a session cannot observe the training
    side: when every overriding lifecycle method changes only attributes
    with a trailing underscore of its own callback, and the overriding
    [_get_param_names] only read and yield public attributes, then what
    the calls of [set_params] and [get_params] of a session return or
    raise, in program order, is what they return or raise when the runs
    and the (re)initialisations between them are left out, whether these
    end or raise; and the two sessions leave heaps with the same classes
    and public attributes. *)
Theorem configuration_ignores_training ct nt depth callbacks cmds h :
  HooksOk runtime_only ct -> NamesOk nt ->
  configuration (session ct nt depth callbacks cmds h).1 =
    (session ct nt depth callbacks
       (filter (fun c => configures c = true) cmds) h).1 /\
  same_params (session ct nt depth callbacks cmds h).2
    (session ct nt depth callbacks
       (filter (fun c => configures c = true) cmds) h).2.
Proof. intros ? ?. by apply session_configuration. Qed.

(** C14.  Runtime state is hidden from the configuration side: from two
    heaps whose objects have the same classes and the same public
    attributes, and differ in attributes with a trailing underscore only,
    the calls of [set_params] and [get_params] of a session return or
    raise the same, in program order, whatever the runs between them do
    with the runtime state. *)
Theorem runtime_state_is_hidden ct nt depth callbacks cmds h h' :
  HooksOk runtime_only ct -> NamesOk nt -> same_params h h' ->
  configuration (session ct nt depth callbacks cmds h).1 =
    configuration (session ct nt depth callbacks cmds h').1.
Proof.
  intros ? ? Hs.
  destruct (session_configuration ct nt depth callbacks cmds h h' Hs)
    as [-> _].
  by destruct (session_configuration ct nt depth callbacks cmds h' h')
    as [-> _].
Qed.

(** The scenario of the specification with two runs in between: the
    counter of the early-stopping callback moves, the parameters are those
    of the configuration commands alone. *)
Theorem early_stop_session :
  let cmds := [Inspect 1%positive true; Train VNone ∅ [[VNone]; [VNone]];
               Configure 1%positive (Dict [("patience", VInt 10)]);
               Train VNone ∅ [[VNone]]; Inspect 1%positive true;
               Configure 1%positive (Dict [("counter_", VInt 0)])] in
  let s := session scenario_classes no_names 3 [1%positive] cmds scenario in
  s.1.*2 = [Ret (Params (Dict [("patience", VInt 5)])); Ret Trained;
            Ret (Assigned VNone); Ret Trained;
            Ret (Params (Dict [("patience", VInt 10)]));
            Raise (ValueError "counter_")] /\
  s.2 = {[ 1%positive := Obj EarlyStop
             (Dict [("patience", VInt 10); ("counter_", VInt 3)]) ]}.
Proof. by vm_compute. Qed.

(** A hook that calls [set_params] with plain names keeps to its own
    callback: the table of the decaying callback is under [owned]. *)
Theorem decay_classes_owned : HooksOk owned decay_classes.
Proof.
  intros c m ov self fr Hov. unfold decay_classes in Hov.
  case_decide; [| done]. destruct m; simplify_eq.
  cbn [ov_body decay_on_epoch_end].
  apply preserves_bind; [apply _ | solve_preserves |]. intros p.
  apply preserves_bind; [apply _ | | solve_preserves].
  apply call_set_params_no_sep. by_compute.
Qed.

(** But it is not under [runtime_only], and the configuration side sees
    its runs: [get_params] returns another value after two epochs. *)
Theorem decay_session :
  (session decay_classes no_names 3 [1%positive]
     [Inspect 1%positive true; Train VNone ∅ [[VNone]; [VNone]];
      Inspect 1%positive true] decay_scenario).1.*2 =
    [Ret (Params (Dict [("patience", VInt 5)])); Ret Trained;
     Ret (Params (Dict [("patience", VInt 3)]))].
Proof. by vm_compute. Qed.

End Theorems.

(** ** The theorems on the scenario *)

Section Witnesses.

Lemma configuration_ignores_training_witness :
  configuration
    (session scenario_classes no_names 3 [1%positive] scenario_session
       scenario).1 =
    (session scenario_classes no_names 3 [1%positive]
       (filter (fun c => configures c = true) scenario_session) scenario).1 /\
  same_params
    (session scenario_classes no_names 3 [1%positive] scenario_session
       scenario).2
    (session scenario_classes no_names 3 [1%positive]
       (filter (fun c => configures c = true) scenario_session) scenario).2.
Proof.
  apply (configuration_ignores_training scenario_classes no_names 3
           [1%positive] scenario_session scenario); apply _.
Defined.

Lemma early_stop_after_same_params n :
  same_params scenario (early_stop_after n).
Proof.
  intros l. unfold scenario, early_stop_after.
  destruct (decide (l = 1%positive)) as [-> | Hne].
  - rewrite !lookup_singleton_eq. by constructor.
  - rewrite !lookup_singleton_ne by done. constructor.
Qed.

Lemma runtime_state_is_hidden_witness :
  configuration
    (session scenario_classes no_names 3 [1%positive] scenario_session
       scenario).1 =
  configuration
    (session scenario_classes no_names 3 [1%positive] scenario_session
       (early_stop_after 7)).1.
Proof.
  apply (runtime_state_is_hidden scenario_classes no_names 3 [1%positive]
           scenario_session scenario (early_stop_after 7)); [apply _.. |].
  apply early_stop_after_same_params.
Defined.

End Witnesses.
