(* ===== verification/Inherit.v ===== *)
(** * Inherit: classes between a subclass and [Callback]

    "All custom callbacks should inherit from this class.  The subclass may
    override any of the [on_...] methods.  It is, however, not necessary to
    override all of them" (base.py, lines 12-15).  A custom callback may
    derive from another custom callback: a call [cb.on_epoch_end(net, ...)]
    then runs the method of the first class in the method resolution order
    of the class of [cb] that defines one, the method of [Callback] when
    none does, and [super().on_epoch_end(net, ...)] inside a method
    continues the search behind the class that defines it.  The same holds
    of the reflection methods (lines 17-18).

    - [has_method] is the lookup along a resolution order as a relation,
      in the manner of Featherweight calculi: the method is defined by the
      first class of the order, or inherited from the rest;
      [find_definition] computes it, and [resolve_chain] is the method
      found, each definition on the method found behind its class;
    - a [method_def] is a lifecycle method as a class body defines it: its
      [def] and its body, given what [super()] calls; a [hierarchy] gives
      for each class name its method resolution order below [Callback],
      the class itself first, and the lifecycle methods its body defines;
      [resolve_method] is the method found, and [flatten] the flat
      [class_table] of [Hooks] that a hierarchy amounts to, so that the
      trainer of [Trainer] runs on hierarchies as it is;
    - [DefsOk] and [DefsExtend] are the contracts of [Hooks] for the bodies
      of a hierarchy, relative to what their [super()] calls do;
    - a [reflection] gives the reflection methods the classes define, and
      [inherit_accessors] the flat [accessor_table] of [Accessors] it
      amounts to along the resolution orders; [ReflectionOk] is the
      contract on the bodies.

    - [cooperative] is the definition of a hook that calls
      [super()] with the arguments of its own call and then runs
      statements of its own, and [run_works] the statements of several
      classes one after the other.

    No class of base.py derives from another: the file is a model of the
    subclasses that the docstring allows.  The theorems show that the
    lookup computes the relation, which is functional and finds the first
    class that defines the method ([find_definition_has_method],
    [has_method_fun], [has_method_first]), that a call on an instance of
    cooperative classes runs the statements of the classes from the last
    class of the resolution order to the first and returns what the
    method of [Callback] returns ([cooperative_chain]), and that the
    contracts on the bodies carry over to the flat tables, whatever the
    depth of the hierarchy ([resolve_chain_ind], [flatten_ok],
    [flatten_extend], [inherit_accessors_ok]). *)

From stdpp Require Import base tactics option list strings gmap.
From S2P Require Import Prelude PyStr PyDict PyObject PyCall Estimator Callback.
From S2P Require Import Calls Reflect Accessors Footprint Hooks Trainer.

#[local] Open Scope py_scope.
#[local] Set Warnings "-clear-no-such-hyp".

(** ** Definitions *)

Section Chain.
Context {D : Type} (defs : string -> option D).

(** The lookup along a resolution order: the first class that has a
    definition, the definition, and the classes behind it. *)
Fixpoint find_definition (chain : list string)
    : option (string * D * list string) :=
  match chain with
  | [] => None
  | c :: chain' =>
      match defs c with
      | Some d => Some (c, d, chain')
      | None => find_definition chain'
      end
  end.

(** The lookup as a relation: [has_method chain orig d rest] when, on the
    resolution order [chain], the method is the definition [d] of the
    class [orig], and [rest] is the order behind [orig]. *)
Inductive has_method : list string -> string -> D -> list string -> Prop :=
| HasMethod c chain d :
    defs c = Some d -> has_method (c :: chain) c d chain
| InheritsMethod c chain orig d rest :
    defs c = None -> has_method chain orig d rest ->
    has_method (c :: chain) orig d rest.

(** The method found along a resolution order: [wrap d next] is the
    definition [d] on the method [next] found behind its class, and
    [base] the method of [Callback]. *)
Fixpoint resolve_chain {B : Type} (wrap : D -> B -> B) (base : B)
    (chain : list string) : B :=
  match chain with
  | [] => base
  | c :: chain' =>
      let next := resolve_chain wrap base chain' in
      match defs c with
      | Some d => wrap d next
      | None => next
      end
  end.

End Chain.

(** A lifecycle method as a class body defines it: the [def] line, and
    the body on what a call of the method through [super()] does, the
    instance and the frame of the call. *)
Record method_def : Type := MethodDef {
  md_def : signature;
  md_body : (list value -> dict value -> M heap value) ->
            loc -> frame -> M heap value;
}.

(** The custom callbacks of a program: for each class name the classes of
    its method resolution order that come before [Callback], the class
    itself first, and the lifecycle methods the body of each class
    defines. *)
Record hierarchy : Type := Hierarchy {
  mro : string -> list string;
  defines : string -> lifecycle -> option method_def;
}.

(** A call of the method through [super()], when [next] is the method
    found behind the class of the method: the arguments are bound to the
    parameters of [next], and its body runs on the same instance. *)
Definition super_call (next : override) (self : loc) (args : list value)
    (kwargs : dict value) : M heap value :=
  call (ov_def next) (ov_body next self) (VRef self :: args) kwargs.

(** A definition as the trainer calls it, with [super()] bound to the
    method found behind its class. *)
Definition bind_super (md : method_def) (next : override) : override :=
  Override (md_def md) (fun self => md_body md (super_call next self) self).

(** The lifecycle method found along a resolution order: the definition of
    the first class that has one, the method of [Callback] when there is
    none. *)
Definition resolve_method (hi : hierarchy) (m : lifecycle)
    (chain : list string) : override :=
  resolve_chain (fun c => defines hi c m) bind_super (inherited m) chain.

(** The flat table of a hierarchy: a class overrides the methods that a
    class of its resolution order defines. *)
Definition flatten (hi : hierarchy) : class_table :=
  fun c m =>
    match find_definition (fun c' => defines hi c' m) (mro hi c) with
    | Some _ => Some (resolve_method hi m (mro hi c))
    | None => None
    end.

(** The contract on the bodies of a hierarchy: a body follows the
    discipline when its [super()] calls do. *)
Class DefsOk (R : discipline) (hi : hierarchy) : Prop :=
  defs_ok c m md super self fr :
    defines hi c m = Some md ->
    (forall args kwargs, preserves (R self) (super args kwargs)) ->
    preserves (R self) (md_body md super self fr).

(** The [def] of every method of a hierarchy extends the [def] of the
    method of [Callback]. *)
Class DefsExtend (hi : hierarchy) : Prop :=
  defs_extend c m md :
    defines hi c m = Some md ->
    sig_wf (md_def md) /\ extends (def_of (method_of m)) (md_def md).

(** What the contract of [Reflect] asks of a [_get_param_names]: it only
    reads, yields settable attributes of the instance, and depends on the
    class and the public attributes of the instance alone. *)
Definition names_ok (body : names_body) : Prop :=
  (forall l, read_only (body l)) /\
  (forall l h names h',
     body l h = (Ret names, h') ->
     forall k, k ∈ names -> settable reserved h l k) /\
  (forall l h h',
     option_Forall2 same_obj_params (h !! l) (h' !! l) ->
     (body l h').1 = (body l h).1).

(** An overriding [_get_param_names], on what [super()._get_param_names]
    does. *)
Definition names_def : Type := names_body -> names_body.

(** The reflection methods the classes of a program define. *)
Record reflection : Type := Reflection {
  rf_names : string -> option names_def;
  rf_get : string -> option get_body;
  rf_set : string -> option set_body;
}.

Section InheritReflection.
Context (order : string -> list string) (rf : reflection).

(** The flat tables of the reflection methods along the resolution
    orders: a class overrides the methods that a class of its order
    defines, each definition on the method found behind its class. *)
Definition inherit_names : names_table :=
  fun c =>
    match find_definition (rf_names rf) (order c) with
    | Some _ =>
        Some (resolve_chain (rf_names rf) (fun d => d) _get_param_names
                (order c))
    | None => None
    end.

Definition inherit_get (c : string) : option get_body :=
  match find_definition (rf_get rf) (order c) with
  | Some _ =>
      Some (fun super self =>
              resolve_chain (rf_get rf) (fun d next => d next self) super
                (order c))
  | None => None
  end.

Definition inherit_set (c : string) : option set_body :=
  match find_definition (rf_set rf) (order c) with
  | Some _ =>
      Some (fun super self =>
              resolve_chain (rf_set rf) (fun d next => d next self) super
                (order c))
  | None => None
  end.

Definition inherit_accessors : accessor_table :=
  AccessorTable inherit_names inherit_get inherit_set.

End InheritReflection.

(** The contract on the reflection methods of a program: a body keeps
    what the contracts of [Reflect] and [Accessors] ask when the method
    behind its class does. *)
Class ReflectionOk (rf : reflection) : Prop := {
  rf_names_ok c d super :
    rf_names rf c = Some d -> names_ok super -> names_ok (d super);
  rf_get_ok c d super l :
    rf_get rf c = Some d -> get_ok l super -> get_ok l (d super l);
  rf_set_ok c d super l :
    rf_set rf c = Some d -> set_ok super -> set_ok (d super l);
}.

(** The arguments that a method passes on when it calls the method it
    overrides with the arguments of its own call, as in
    [super().on_epoch_end(net, **kwargs)]: none for [initialize], the
    trainer for a hook, the trainer and the gradients for
    [on_grad_computed]. *)
Definition forwarded (m : lifecycle) (fr : frame) : list value :=
  match m with
  | Initialize => []
  | OnGradComputed _ => [local fr "net"; local fr "named_parameters"]
  | _ => [local fr "net"]
  end.

(** A cooperative definition of a lifecycle method: the [def] of the
    method of [Callback], and the body
    [r = super().m(net, **kwargs); <the statements of the class>; return r]. *)
Definition cooperative (m : lifecycle) (work : loc -> frame -> M heap unit)
    : method_def :=
  MethodDef (def_of (method_of m))
    (fun super self fr =>
       let! r := super (forwarded m fr) (frame_kwargs fr) in
       let! _ := work self fr in
       ret r).

(** The statements of several classes on one instance and one frame, one
    class after the other. *)
Fixpoint run_works (works : list (loc -> frame -> M heap unit)) (self : loc)
    (fr : frame) : M heap unit :=
  match works with
  | [] => ret tt
  | work :: works' =>
      let! _ := work self fr in
      run_works works' self fr
  end.

(** The names of [super()._get_param_names()] but those of [excluded]. *)
Definition excluding (excluded : list string) : names_def :=
  fun super self =>
    let! names := super self in
    ret (filter (fun k => k ∉ excluded) names).

(** A method that does not call [super()]. *)
Definition final (ov : override) : method_def :=
  MethodDef (ov_def ov) (fun _ => ov_body ov).

(** A subclass of the early-stopping callback of the scenario:
    [class Verbose(EarlyStop)] defines
    [def on_epoch_end(self, net, **kwargs)] with the body
    [super().on_epoch_end(net, **kwargs); self.seen_ = True], and inherits
    [initialize] from [EarlyStop]. *)
Definition Verbose : class_desc := Class "Verbose" true.

Definition verbose_on_epoch_end : method_def :=
  MethodDef
    (Signature "on_epoch_end" [("self", None); ("net", None)] (Some "kwargs"))
    (fun super self fr =>
       let! _ := super [local fr "net"] (frame_kwargs fr) in
       let! _ := setattr self "seen_" (VBool true) in
       ret VNone).

Definition scenario_hierarchy : hierarchy :=
  Hierarchy
    (fun c =>
       if decide (c = "Verbose") then ["Verbose"; "EarlyStop"]
       else if decide (c = "EarlyStop") then ["EarlyStop"]
       else [])
    (fun c m =>
       if decide (c = "Verbose") then
         match m with OnEpochEnd => Some verbose_on_epoch_end | _ => None end
       else if decide (c = "EarlyStop") then
         match m with
         | Initialize => Some (final early_stop_initialize)
         | OnEpochEnd => Some (final early_stop_on_epoch_end)
         | _ => None
         end
       else None).

Definition verbose_scenario : heap :=
  {[ 1%positive := Obj Verbose
       (Dict [("patience", VInt 5); ("counter_", VInt 0)]) ]}.

(** Two cooperative classes: [class Seen(Callback)] and
    [class Again(Seen)] each define
    [def on_epoch_end(self, net, **kwargs)] with the body
    [super().on_epoch_end(net, **kwargs); self.last_ = <the class>]. *)
Definition Again : class_desc := Class "Again" true.

Definition mark (name : string) : loc -> frame -> M heap unit :=
  fun self _ => setattr self "last_" (VStr name).

Definition cooperative_works (c : string)
    : option (loc -> frame -> M heap unit) :=
  if decide (c = "Again") then Some (mark "Again")
  else if decide (c = "Seen") then Some (mark "Seen")
  else None.

Definition cooperative_hierarchy : hierarchy :=
  Hierarchy
    (fun c =>
       if decide (c = "Again") then ["Again"; "Seen"]
       else if decide (c = "Seen") then ["Seen"]
       else [])
    (fun c m =>
       match m with
       | OnEpochEnd => cooperative OnEpochEnd <$> cooperative_works c
       | _ => None
       end).

Definition cooperative_scenario : heap :=
  {[ 1%positive := Obj Again (Dict [("every", VInt 2)]) ]}.

(** A subclass of the quiet callback of [Reflect]:
    [class Quieter(Quiet)] keeps [level] out of its parameters beside the
    [sink] that [Quiet] keeps out, and inherits the [set_params] of
    [Quiet], which rejects a negative [verbose]. *)
Definition Quieter : class_desc := Class "Quieter" true.

Definition negative_verbose (params : dict value) : option string :=
  match params !! "verbose" with
  | Some (VInt n) => if (n <? 0)%Z then Some "verbose" else None
  | _ => None
  end.

Definition scenario_order (c : string) : list string :=
  if decide (c = "Quieter") then ["Quieter"; "Quiet"]
  else if decide (c = "Quiet") then ["Quiet"]
  else [].

Definition scenario_reflection : reflection :=
  Reflection
    (fun c =>
       if decide (c = "Quieter") then Some (excluding ["level"])
       else if decide (c = "Quiet") then Some (excluding ["sink"])
       else None)
    (fun _ => None)
    (fun c => if decide (c = "Quiet")
              then Some (validating negative_verbose) else None).

Definition quieter_scenario : heap :=
  {[ 7%positive := Obj Quieter
       (Dict [("sink", VStr "log.txt"); ("level", VInt 1);
              ("verbose", VInt 2); ("lines_", VInt 0)]) ]}.

(** ** The lookup *)

Section ChainLemmas.
Context {D : Type} (defs : string -> option D).
Implicit Types (chain rest pre : list string) (c orig : string) (d : D).

(** The lookup computes the relation. *)
Lemma find_definition_has_method chain orig d rest :
  find_definition defs chain = Some (orig, d, rest) <->
  has_method defs chain orig d rest.
Proof.
  split.
  - induction chain as [|c chain IH]; [done |]. cbn [find_definition].
    destruct (defs c) as [d'|] eqn:Hc.
    + intros [= -> -> ->]. by constructor.
    + intros Hfind. constructor; auto.
  - induction 1 as [c chain d Hc | c chain orig d rest Hc _ IH];
      cbn [find_definition]; by rewrite Hc.
Qed.

(** The relation is functional. *)
Lemma has_method_fun chain orig d rest orig' d' rest' :
  has_method defs chain orig d rest ->
  has_method defs chain orig' d' rest' ->
  orig = orig' /\ d = d' /\ rest = rest'.
Proof.
  intros H1%find_definition_has_method H2%find_definition_has_method.
  by simplify_eq.
Qed.

(** The method found is the one of the first class of the order that
    defines it. *)
Lemma has_method_first chain orig d rest :
  has_method defs chain orig d rest <->
  exists pre, chain = pre ++ orig :: rest /\
              Forall (fun c => defs c = None) pre /\
              defs orig = Some d.
Proof.
  split.
  - induction 1 as [c chain d Hc | c chain orig d rest Hc _ IH].
    + by exists [].
    + destruct IH as (pre & -> & Hpre & Horig).
      exists (c :: pre). by repeat constructor.
  - intros (pre & -> & Hpre & Horig).
    induction Hpre as [|c pre Hc _ IH]; cbn [app]; by constructor.
Qed.

Lemma find_definition_None chain :
  find_definition defs chain = None <->
  Forall (fun c => defs c = None) chain.
Proof.
  induction chain as [|c chain IH]; [done |]. cbn [find_definition].
  rewrite Forall_cons. destruct (defs c); naive_solver.
Qed.

Section Resolve.
Context {B : Type} (wrap : D -> B -> B) (base : B).

(** The method found is the definition found, on the method found behind
    its class. *)
Lemma resolve_chain_found chain orig d rest :
  has_method defs chain orig d rest ->
  resolve_chain defs wrap base chain =
    wrap d (resolve_chain defs wrap base rest).
Proof.
  induction 1 as [c chain d Hc | c chain orig d rest Hc _ IH];
    cbn [resolve_chain]; by rewrite Hc.
Qed.

Lemma resolve_chain_inherited chain :
  Forall (fun c => defs c = None) chain ->
  resolve_chain defs wrap base chain = base.
Proof.
  induction 1 as [|c chain Hc _ IH]; [done |]. cbn [resolve_chain].
  by rewrite Hc.
Qed.

(** What the method of [Callback] has, and every definition keeps when
    the method behind its class has it, the method found has, whatever
    the length of the resolution order. *)
Lemma resolve_chain_ind (P : B -> Prop) chain :
  P base ->
  (forall c d next, defs c = Some d -> P next -> P (wrap d next)) ->
  P (resolve_chain defs wrap base chain).
Proof.
  intros Hbase Hstep. induction chain as [|c chain IH]; [done |].
  cbn [resolve_chain]. destruct (defs c) as [d|] eqn:Hc; eauto.
Qed.

End Resolve.

End ChainLemmas.

(** The flat table finds the method the resolution order gives. *)
Lemma find_method_flatten hi c m :
  find_method (flatten hi) c m = resolve_method hi m (mro hi c).
Proof.
  unfold find_method, flatten.
  destruct (find_definition _ _) as [[[orig md] rest]|] eqn:Hfind; [done |].
  cbn [default]. symmetry.
  by apply resolve_chain_inherited, find_definition_None.
Qed.

(** ** The contracts of the lifecycle methods *)

Section Contracts.
Context (hi : hierarchy).

(** The method of [Callback] follows every discipline. *)
Lemma inherited_preserves (R : relation heap) `{!PreOrder R} m self fr :
  preserves R (ov_body (inherited m) self fr).
Proof. cbn [inherited ov_body]. destruct m; solve_preserves. Qed.

Section Discipline.
Context (R : discipline) `{!forall l, PreOrder (R l)} `{!DefsOk R hi}.

(** The method found follows the discipline of the bodies, whatever the
    length of the resolution order. *)
Lemma resolve_method_ok m chain self fr :
  preserves (R self) (ov_body (resolve_method hi m chain) self fr).
Proof.
  revert self fr. unfold resolve_method.
  apply (resolve_chain_ind _ _ _
           (fun next => forall self fr,
              preserves (R self) (ov_body next self fr))).
  - intros self fr. apply inherited_preserves, _.
  - intros c md next Hc Hnext self fr. cbn [bind_super ov_body].
    eapply defs_ok; [done |]. intros args kwargs.
    apply preserves_call; [apply _ | done].
Qed.

#[export] Instance flatten_ok : HooksOk R (flatten hi).
Proof.
  intros c m ov self fr Hov. unfold flatten in Hov.
  destruct (find_definition _ _); simplify_eq. apply resolve_method_ok.
Qed.

End Discipline.

Section Extend.
Context `{!DefsExtend hi}.

#[export] Instance flatten_extend : HooksExtend (flatten hi).
Proof.
  intros c m ov Hov. unfold flatten in Hov.
  destruct (find_definition _ _) as [[[orig md] rest]|] eqn:Hfind;
    simplify_eq.
  apply find_definition_has_method in Hfind. unfold resolve_method.
  rewrite (resolve_chain_found _ _ _ _ _ _ _ Hfind). cbn [bind_super ov_def].
  apply has_method_first in Hfind as (_ & _ & _ & Horig).
  by eapply defs_extend.
Qed.

End Extend.

End Contracts.

(** ** Cooperative methods *)

Section Cooperative.
Context (hi : hierarchy) (m : lifecycle)
  (works : string -> option (loc -> frame -> M heap unit)).
Implicit Types (h : heap) (self : loc) (net : value) (kwargs : dict value)
  (chain : list string).

(** The frame of a call that fits the [def] of [Callback] gives back the
    arguments of the call. *)
Lemma forwarded_frame self net kwargs :
  forwarded m (frame_of (def_of (method_of m))
                 (VRef self :: lifecycle_args m net) kwargs) =
    lifecycle_args m net.
Proof.
  unfold forwarded, local. destruct m; try done;
    rewrite ?(frame_of_lookup _ _ _ 1 "net" None) by (by_compute || done);
    rewrite ?(frame_of_lookup _ _ _ 2 "named_parameters" None)
      by (by_compute || done);
    done.
Qed.

Lemma context_fits_kwargs self net kwargs :
  context_fits m kwargs ->
  frame_kwargs (frame_of (def_of (method_of m))
                  (VRef self :: lifecycle_args m net) kwargs) = kwargs.
Proof.
  destruct m; try apply frame_of_kwargs. by intros ->.
Qed.

Lemma run_works_snoc ws work self fr :
  run_works (ws ++ [work]) self fr
    =m= (let! _ := run_works ws self fr in work self fr).
Proof.
  intros h. revert h. induction ws as [|w ws IH]; intros h; cbn [app run_works].
  - unfold bind, ret. by destruct (work self fr h) as [[[]|e] h1].
  - unfold bind. destruct (w self fr h) as [[[]|e] h1]; [| done].
    by rewrite IH.
Qed.

(** The method found has the [def] of the method of [Callback]. *)
Lemma resolve_method_def chain :
  (forall c, c ∈ chain -> defines hi c m = cooperative m <$> works c) ->
  ov_def (resolve_method hi m chain) = def_of (method_of m).
Proof.
  intros Hdefs. unfold resolve_method.
  induction chain as [|c chain IH]; [done |]. cbn [resolve_chain].
  rewrite (Hdefs c) by left.
  destruct (works c); [done |].
  apply IH. intros c' Hc'. apply Hdefs. by right.
Qed.

(** The call of the method found along a resolution order whose classes
    define the method cooperatively, or not at all: the statements of the
    classes run from the last class of the order to the first, and the
    call returns what the method of [Callback] returns. *)
Lemma cooperative_call chain self net kwargs :
  (forall c, c ∈ chain -> defines hi c m = cooperative m <$> works c) ->
  dict_wf kwargs -> context_fits m kwargs ->
  let method := resolve_method hi m chain in
  call (ov_def method) (ov_body method self)
      (VRef self :: lifecycle_args m net) kwargs
    =m= (let! _ := run_works (omap works (reverse chain)) self
                     (frame_of (def_of (method_of m))
                        (VRef self :: lifecycle_args m net) kwargs) in
         ret (lifecycle_result m self)).
Proof.
  intros Hdefs Hwf Hfit. cbn zeta. unfold resolve_method.
  induction chain as [|c chain IH]; intros h.
  - cbn [resolve_chain inherited ov_def ov_body reverse omap run_works].
    rewrite call_accepts by (done || by apply context_fits_accepts).
    by destruct m.
  - cbn [resolve_chain]. rewrite reverse_cons, omap_app.
    rewrite (Hdefs c) by left. cbn [omap list_omap].
    specialize (IH (fun c' Hc' => Hdefs c' (list_elem_of_further _ _ _ Hc'))).
    destruct (works c) as [work|]; cbn [fmap option_fmap option_map].
    + cbn [bind_super ov_def ov_body cooperative md_def md_body].
      rewrite call_accepts by (done || by apply context_fits_accepts).
      rewrite forwarded_frame, context_fits_kwargs by done.
      unfold super_call, bind. rewrite IH, (run_works_snoc _ _ _ _ h).
      unfold bind, ret.
      destruct (run_works _ _ _ h) as [[[]|e] h1]; [| done].
      by destruct (work self _ h1) as [[[]|e] h2].
    + rewrite app_nil_r. apply IH.
Qed.

End Cooperative.

(** ** The contracts of the reflection methods *)

Lemma _get_param_names_ok : names_ok _get_param_names.
Proof.
  split_and!.
  - intros l. apply _get_param_names_preserves, _.
  - intros l h names h' Hrun k. by eapply _get_param_names_settable.
  - intros l h h'. apply _get_param_names_similar.
Qed.

(** A table of bodies that keep the contract keeps it. *)
Lemma names_ok_table (nt : names_table) :
  (forall c body, nt c = Some body -> names_ok body) -> NamesOk nt.
Proof.
  intros Hall. split.
  - intros c body l (Hro & _ & _)%Hall. apply Hro.
  - intros c body l h names h' (_ & Hset & _)%Hall. apply Hset.
  - intros c body l h h' (_ & _ & Hloc)%Hall. apply Hloc.
Qed.

Lemma excluding_ok excluded super :
  names_ok super -> names_ok (excluding excluded super).
Proof.
  intros (Hro & Hset & Hloc). unfold excluding. split_and!.
  - intros l. apply preserves_bind; [apply _ | apply Hro |].
    intros names. apply preserves_ret, _.
  - intros l h names h' (all & h1 & Hrun & [= <- <-])%bind_ret_inv k
      [_ Hk]%list_elem_of_filter. by eapply Hset.
  - intros l h h' Hsim. apply bind_fst_eq; [apply Hro | by apply Hloc | done].
Qed.

Section ReflectionContracts.
Context (order : string -> list string) (rf : reflection) `{!ReflectionOk rf}.

#[export] Instance inherit_accessors_ok :
  AccessorsOk (inherit_accessors order rf).
Proof.
  split.
  - apply names_ok_table. intros c body.
    cbn [acc_names inherit_accessors]. unfold inherit_names.
    destruct (find_definition _ _); intros [= <-].
    apply (resolve_chain_ind _ _ _ names_ok); [apply _get_param_names_ok |].
    intros c' d next. apply rf_names_ok.
  - intros c body super l. cbn [acc_get inherit_accessors].
    unfold inherit_get. destruct (find_definition _ _); intros [= <-] Hsuper.
    apply (resolve_chain_ind _ _ _ (get_ok l)); [done |].
    intros c' d next. apply rf_get_ok.
  - intros c body super l. cbn [acc_set inherit_accessors].
    unfold inherit_set. destruct (find_definition _ _); intros [= <-] Hsuper.
    apply (resolve_chain_ind _ _ _ set_ok); [done |].
    intros c' d next. apply rf_set_ok.
Qed.

End ReflectionContracts.

(** ** The classes of the scenario *)

Lemma scenario_hierarchy_inv c m md :
  defines scenario_hierarchy c m = Some md ->
  (md = verbose_on_epoch_end /\ m = OnEpochEnd) \/
  (md = final early_stop_initialize /\ m = Initialize) \/
  (md = final early_stop_on_epoch_end /\ m = OnEpochEnd).
Proof.
  cbn [defines scenario_hierarchy]. repeat case_decide; [| | done];
    destruct m; naive_solver.
Qed.

#[export] Instance scenario_hierarchy_ok :
  DefsOk runtime_only scenario_hierarchy.
Proof.
  assert (forall self k v, reserved k = true ->
            preserves (runtime_only self) (setattr self k v)) as Hset
    by (intros self k v Hk h; by apply setattr_runtime_only).
  intros c m md super self fr
    [[-> _] | [[-> _] | [-> _]]]%scenario_hierarchy_inv Hsuper;
    cbn [md_body verbose_on_epoch_end final ov_body early_stop_initialize
         early_stop_on_epoch_end]; solve_preserves.
Qed.

#[export] Instance scenario_hierarchy_extend : DefsExtend scenario_hierarchy.
Proof.
  intros c m md [[-> ->] | [[-> ->] | [-> ->]]]%scenario_hierarchy_inv;
    split; by_compute.
Qed.

#[export] Instance scenario_reflection_ok : ReflectionOk scenario_reflection.
Proof.
  split; intros c d super; cbn [rf_names rf_get rf_set scenario_reflection].
  - repeat case_decide; intros [= <-]; apply excluding_ok.
  - done.
  - case_decide; [| done]. intros l [= <-]. apply validating_ok.
Qed.

(** ** Theorems *)

Section Theorems.

(** C35.  Cooperative methods along a resolution order.  When the classes
    of the resolution order of the class of an instance define a hook as
    [super().m(net, **kwargs)] followed by their own statements, or do
    not define it, a call of the hook on a context that fits runs the
    statements of the classes from the last class of the order to the
    first, each once and on the frame of the call, stops at the first
    that raises, and returns what the method of [Callback] returns, which
    takes the arguments passed on and does nothing; on a context that
    names a parameter of the hook the call raises [TypeError] and leaves
    the heap as it is. *)
Theorem cooperative_chain hi m works self o net kwargs h :
  h !! self = Some o -> cls_is_callback (obj_class o) = true ->
  dict_wf kwargs ->
  (forall c, c ∈ mro hi (cls_name (obj_class o)) ->
     defines hi c m = cooperative m <$> works c) ->
  let args := VRef self :: lifecycle_args m net in
  call_method (flatten hi) m self net kwargs h =
    if decide (context_fits m kwargs) then
      (let! _ := run_works
                   (omap works (reverse (mro hi (cls_name (obj_class o)))))
                   self (frame_of (def_of (method_of m)) args kwargs) in
       ret (lifecycle_result m self)) h
    else
      (Raise (TypeError (bind_error (def_of (method_of m)) args kwargs)), h).
Proof.
  intros Hl Hcb Hwf Hdefs args. subst args. unfold call_method.
  rewrite (bind_run_ret _ _ _ _ _ (load_run _ _ _ Hl)), Hcb.
  rewrite find_method_flatten. case_decide as Hfit.
  - by apply cooperative_call.
  - rewrite (resolve_method_def hi m works _ Hdefs).
    apply call_rejects; [done |]. by rewrite <- context_fits_accepts.
Qed.

(** The subclass of the scenario: [on_epoch_end] runs the method of
    [EarlyStop] through [super()] and then its own statement;
    [initialize] is the method of [EarlyStop]; [on_batch_end] is the
    method of [Callback]. *)
Theorem verbose_calls_super :
  call_method (flatten scenario_hierarchy) OnEpochEnd 1%positive VNone ∅
      verbose_scenario =
    (Ret VNone,
     {[ 1%positive := Obj Verbose
          (Dict [("patience", VInt 5); ("counter_", VInt 1);
                 ("seen_", VBool true)]) ]}) /\
  call_method (flatten scenario_hierarchy) Initialize 1%positive VNone ∅
      {[ 1%positive := Obj Verbose
           (Dict [("patience", VInt 5); ("counter_", VInt 4)]) ]} =
    (Ret (VRef 1%positive), verbose_scenario) /\
  call_method (flatten scenario_hierarchy) OnBatchEnd 1%positive VNone ∅
      verbose_scenario = (Ret VNone, verbose_scenario).
Proof. by vm_compute. Qed.

(** Reflection methods are inherited through the classes in between, and
    within the contract the guarantees of the reflection hold: the heap
    is left as it is by [get_params], and within the frame by
    [set_params]. *)
Theorem inherited_reflection_frame order rf depth self deep params h :
  ReflectionOk rf ->
  (call_get_params (accessor_methods (inherit_accessors order rf) depth)
     self deep h).2 = h /\
  heap_frame reserved h
    (call_set_params (accessor_methods (inherit_accessors order rf) depth)
       self params h).2.
Proof.
  intros Hok. split; [symmetry |].
  - apply (methods_get_read_only (sep := param_sep) (P := reserved)).
  - apply methods_set_frame.
Qed.

(** The subclass of the quiet callback: its parameters are the public
    attributes but [level], which it excludes, and [sink], which the class
    it derives from excludes; the [set_params] it inherits rejects a
    negative [verbose] and takes another. *)
Theorem quieter_inherits_reflection :
  let vt := accessor_methods
              (inherit_accessors scenario_order scenario_reflection) in
  call_get_params (vt 2) 7%positive true quieter_scenario =
    (Ret (Dict [("verbose", VInt 2)]), quieter_scenario) /\
  call_set_params (vt 3) 7%positive (Dict [("sink", VStr "out.txt")])
    quieter_scenario = (Raise (ValueError "sink"), quieter_scenario) /\
  call_set_params (vt 3) 7%positive (Dict [("verbose", VInt (-1))])
    quieter_scenario = (Raise (ValueError "verbose"), quieter_scenario) /\
  (call_set_params (vt 3) 7%positive (Dict [("verbose", VInt 0)])
     quieter_scenario).2 !! 7%positive =
    Some (Obj Quieter
            (Dict [("sink", VStr "log.txt"); ("level", VInt 1);
                   ("verbose", VInt 0); ("lines_", VInt 0)])).
Proof. by vm_compute. Qed.

End Theorems.

(** ** The theorems on the scenario *)

Section Witnesses.

(** [Again(Seen(Callback))]: the statement of [Seen] runs before the
    statement of [Again]. *)
Lemma cooperative_chain_witness :
  call_method (flatten cooperative_hierarchy) OnEpochEnd 1%positive VNone
      (Dict [("epoch", VInt 3)]) cooperative_scenario =
    (Ret VNone,
     {[ 1%positive := Obj Again
          (Dict [("every", VInt 2); ("last_", VStr "Again")]) ]}).
Proof.
  etrans.
  - apply (cooperative_chain cooperative_hierarchy OnEpochEnd
             cooperative_works 1%positive
             (Obj Again (Dict [("every", VInt 2)])) VNone
             (Dict [("epoch", VInt 3)]) cooperative_scenario).
    + reflexivity.
    + reflexivity.
    + by_compute.
    + done.
  - vm_compute. reflexivity.
Defined.

End Witnesses.
